(* ===== verification/_CoqProject ===== *)
-Q . S2P
Prelude.v
Types.v
CWorld.v
Io.v
Memory.v
PoolConcurrent.v
Concurrent.v
Realloc.v
Epoch.v
Crypto.v
Utils.v
Dirs.v
Network.v
Resource.v
ResourceCache.v
ResourceLife.v
ArgTypes.v
EntriesFreebsd.v
EntriesMac.v
EntriesLinux.v
SetTest.v
Child.v
Generate.v
Mutate.v
Plugins.v
Signals.v
Log.v
SyscallTable.v
Syscall.v
SyscallLife.v
SyscallArgs.v
Population.v
SyscallSetup.v
ResourceServe.v
File.v
FileLoop.v
Probe.v
Runtime.v
Genetic.v
Disas.v
ProcessName.v
