(* ===== verification/Prelude.v ===== *)
(** * A verification of nextgen, a genetic fuzzer

    nextgen fuzzes files, networks and system calls.  This library models the
    C code under src/src/ and proves how its parts behave: the system call
    fuzzer with everything it stands on (memory, shared pools, epochs, random
    numbers, resources, argument generation, the system call tables, the child
    processes, signals and the log), the file fuzzer with its plugins, the
    genetic algorithm's population, the disassembler, the socket server, and
    the command line that starts them.

    ** The program and its model

    A C function is a function into the monad [M] of CWorld.v: a state monad
    over the [world] (heap, static variables, files, descriptors, console,
    system calls made) whose results besides a value are undefined behaviour
    ([Crash]), process exit ([Exit]), a jump out of a signal handler ([Jump])
    and a loop that has used up its fuel ([Spin]).  Heap objects are typed
    views of allocated regions, pointers are locations, integers are [Z] with
    their wrap-around written out.  What the operating system or a library
    answers is read from [w_oracle], so a theorem about every world is about
    every behaviour of the environment; "the environment grants" means that
    no answer is negative ([oracle_ok]).

    - Prelude.v: machine integers, little-endian encoding, indexed lists.
    - Types.v: the enums and structs of the headers, one record or inductive
      type each.
    - CWorld.v: the world, the monad, memory and system calls, and the lemmas
      and tactics for running code symbolically ([crun], [keep], [wp]).
    - Io.v (io/io.c): the console writer and access to the static variables of
      the modules; [allocs] describes code that only allocates and prints.
    - Memory.v (memory/memory.c): allocators and the shared pool with its
      intrusive lists and spinlock.  [pool_refines] is the refinement of the
      pointer structure to an abstract pool, [create_pool_correct] its
      construction.
    - PoolConcurrent.v: the pool operations as processes that interleave at
      the lock and list operations; mutual exclusion, absence of undefined
      behaviour and exclusive ownership are invariants of the reachable
      configurations, and [actions_are_the_functions] ties the actions to the
      functions of Memory.v.
    - Concurrent.v (concurrent/concurrent.c): the compare-and-swap loops, as
      accesses that interleave; the history of swaps shows that they are
      linearizable and lock-free.
    - Realloc.v (utils/reallocarray.c): the overflow guard is exact.
    - Epoch.v (concurrent/epoch.c): threads and their epoch sections over the
      vendored ck_epoch; sequences of operations refine a counter of open
      sections, bounded by the eight slots the code ever uses.
    - Crypto.v (crypto/crypto.c): random ranges, hashing with hexadecimal
      output, seeding, set-up.  The hash functions are parameters.
    - Utils.v (utils/utils.c): mapping and copying files, names, the binary
      text of a buffer, random files.
    - Dirs.v (the directory functions of utils/utils.c): counting, making and
      deleting directories over a tree of paths with modes and symbolic links;
      deleting terminates and stays within what the links lead to.
    - Network.v (network/network.c, network-linux.c, network-bsd.c): the
      socket server, its port and its clients.
    - Resource.v (resource/resource.c): descriptors, sockets and paths, made on
      demand or kept in shared pools.  ResourceCache.v refines the pools to
      sequences of numbers; ResourceLife.v follows the module from set-up to
      clean-up; ResourceServe.v shows that the pools keep the promises
      ([ResourceLaws]) the argument generators are proved against.
    - ArgTypes.v, EntriesFreebsd.v, EntriesMac.v, EntriesLinux.v, SetTest.v
      (syscall/arg_types.c, the entry_*.c files and *_syscall_table.h,
      syscall/set_test.c): argument contexts, the entries and tables of the
      three platforms, the wrappers that make the calls.
    - Child.v (accessors of syscall/syscall.c): child contexts and lookups.
    - Generate.v (syscall/generate.c, generate-macos.c): the argument
      generators, against the interface [resources] with the class
      [ResourceLaws]; its [available n X w] says that [n] more requests can be
      served without touching the objects [X].  The constants of system
      headers are a parameter.
    - Mutate.v (mutate/mutate.c): file mutators on private buffers and on
      shared mappings, against [RandomLaws] and the record [plugins].
    - Plugins.v (plugins/plugin.c): the plugin directory, and the record
      [plugins] as the module fills it in.
    - Signals.v (syscall/signals.c): the handlers of parent and children.
    - Log.v (log/log.c, log-mac.c, log-freebsd.c): what is printed and stored;
      the two variants of [log_arguments] agree.
    - SyscallTable.v, Syscall.v (syscall/syscall.c): the table built in shared
      memory; the loops of a child and of the parent.
    - SyscallLife.v and SyscallArgs.v hold the theorems about Syscall.v: how
      children are created, jump back and exit; how arguments are generated
      and the call is made.
    - Population.v: the parent's loop, its SIGCHLD handler and the children as
      processes that interleave at their accesses to the shared contexts and
      counter; children may be killed anywhere and process ids are used
      again.  [sound] and [supplied] are its invariants; the [_accesses]
      lemmas tie its steps to Syscall.v and Signals.v.
    - SyscallSetup.v: what [setup_syscall_module] leaves behind, among it the
      initial configuration of Population.v.
    - File.v (file/file.c and its three platform files): the corpus, running
      a test case and the fuzzing loop.  FileLoop.v has the invariant of the
      loop, which it keeps for any generator with [RandomLaws] and
      [GrantLaws].
    - Probe.v (probe/*.c): probes in a target program and starting it stopped,
      on the three platforms.
    - Runtime.v (runtime/nextgen.c, fuzzer.c, fuzzer-syscall.c, main.c): the
      command line over a model of getopt_long(3), the configuration, the
      fuzzer objects and [main].
    - Genetic.v (genetic/genetic.c): species, organisms and chromosomes, the
      thread that makes them, and the function that starts it, as a program
      of steps that interleave with the thread's ([race_step]).
    - Disas.v (disas/disas.c and its platform files): the disassembly of the
      target, with the decoder of the vendored capstone as a parameter, and its
      load address, with libelf's reading of a file as a parameter.
    - ProcessName.v (utils/set_process_name.c): the name macOS shows.

    ** Groups of theorems

    Refinement and concurrency of the shared data structures (Memory,
    PoolConcurrent, Concurrent, Epoch, ResourceCache); functional correctness
    and safety of the fuzzing step from picking a call to making it
    (SyscallTable, Generate, ResourceServe, SyscallArgs, SetTest, Log); the
    life cycle of children (SyscallLife, Signals), how many of them there are
    under every interleaving (Population), and the life cycle of the modules
    (SyscallSetup, ResourceLife, Network, Plugins, Genetic); the corpus of the file fuzzer
    and what its loop may change (File, FileLoop, Mutate); which command lines
    are accepted and what they mean (Runtime); termination of the walks over
    directories and code (Dirs, Disas); round trips and bounds of the helpers
    (Crypto, Utils, Realloc).  Theorems that show undefined behaviour state
    exactly when it happens.  Theorems with hypotheses come with a [_witness]
    that applies them to a concrete state.

    ** Fuel and bounds

    Loops over arrays recurse on the number of elements left.  Fuel appears
    where the C loop is unbounded: waiting for a lock or a free block (an
    answer of [Spin] is "still waiting"; the interleaving model has no fuel),
    the compare-and-swap loops (one turn is enough when run alone), reaping
    children (the theorem takes any fuel above the number of reports) and the
    fuzzing loops, which end only when the stop flag is set.  The walk of a
    directory is given one more than the number of paths, the disassembly one
    more than the number of bytes: no path is its own ancestor in the walk, so
    a branch of it has at most as many levels as there are paths, and each
    instruction makes the code shorter; the theorems show that they never run
    out.

    ** Not modelled

    The Objective-C under objc/, which nothing in the C code calls; the vendored
    libraries beyond the primitives used.  log-freebsd.c and disas-freebsd.c
    do not match the declarations of their headers and so cannot be built as
    they are; they are modelled as if the missing argument and the missing
    include were there.  dtrace, the Mach task ports and ptrace (Probe.v), the
    macOS workspace (File.v) and LaunchServices (ProcessName.v) answer through
    the environment.  The texts printed are
    recorded with their format arguments left out, except in Log.v.  Signals
    are delivered to a child while the call under test runs and at no other
    point; in Population.v a child does not jump back while it exits, and the
    epoch sections, which belong to one process each, take no part.  Strings
    made by asprintf are values where no claim depends on their storage; the
    ones that are kept by a module and freed or leaked (the target's path, its
    arguments) are objects of the heap.

    Where the model draws a line:
    - A page has 4096 bytes ([PAGE_SIZE]).  [munmap] takes whole pages away
      from the front of a mapping; what is left of one is an [OTail], which
      nothing can read.  An access behind the end of a mapped file is undefined
      unless it stays in the file's last page.
    - A jump buffer is the id of the process that filled it.  A jump through
      any other buffer is undefined.
    - Symbolic links are followed by the walk that deletes a directory, which
      asks for it; the other functions see a tree without links.
    - [cleanup_syscall_table] passes the address of a static entry to
      [munmap].  Linux and macOS refuse an address that is not the start of a
      page; the call is recorded as an event and has no other effect, so what
      FreeBSD does, which rounds the address down and unmaps the page, is left
      out.
    - A BN_rand_range of libressl that gives up after a hundred draws, and then
      may leave a number beyond the range, is left out (Crypto.v).
    - Addresses of the stack are not represented: the pointer to the vector in
      a message header, which dangles once its generator has returned, is
      eight indeterminate bytes (Generate.v). *)

From Stdlib Require Export ZArith Lia Bool.
From stdpp Require Export strings gmap.
From stdpp Require Export prelude list_numbers list.

#[global] Open Scope Z_scope.

(** ** Machine integers

    A [w]-bit C integer is a [Z] kept in range by the conversions below. *)

Definition u8 (z : Z) : Z := z mod 2 ^ 8.
Definition u32 (z : Z) : Z := z mod 2 ^ 32.
Definition u64 (z : Z) : Z := z mod 2 ^ 64.

(** Conversion to a signed two's-complement integer of 32 bits. *)
Definition i32 (z : Z) : Z :=
  let m := z mod 2 ^ 32 in if m <? 2 ^ 31 then m else m - 2 ^ 32.

Definition UINT32_MAX : Z := 2 ^ 32 - 1.
Definition SIZE_MAX : Z := 2 ^ 64 - 1.
Definition INT_MAX : Z := 2 ^ 31 - 1.

Lemma u32_range z : 0 <= u32 z < 2 ^ 32.
Proof. unfold u32. apply Z.mod_pos_bound. lia. Qed.

Lemma u64_range z : 0 <= u64 z < 2 ^ 64.
Proof. unfold u64. apply Z.mod_pos_bound. lia. Qed.

Lemma u8_range z : 0 <= u8 z < 2 ^ 8.
Proof. unfold u8. apply Z.mod_pos_bound. lia. Qed.

Lemma u32_small z : 0 <= z < 2 ^ 32 -> u32 z = z.
Proof. intros. unfold u32. by apply Z.mod_small. Qed.

Lemma u64_small z : 0 <= z < 2 ^ 64 -> u64 z = z.
Proof. intros. unfold u64. by apply Z.mod_small. Qed.

Lemma u8_small z : 0 <= z < 2 ^ 8 -> u8 z = z.
Proof. intros. unfold u8. by apply Z.mod_small. Qed.

Lemma u32_add_l a b : u32 (u32 a + b) = u32 (a + b).
Proof. unfold u32. by rewrite Zplus_mod_idemp_l. Qed.

Lemma u64_add_l a b : u64 (u64 a + b) = u64 (a + b).
Proof. unfold u64. by rewrite Zplus_mod_idemp_l. Qed.

Create HintDb cint.
Create Rewrite HintDb cint.
#[export] Hint Resolve u32_range u64_range u8_range : cint.
#[export] Hint Rewrite u32_small u64_small u8_small using lia : cint.

(** ** Little-endian encoding of integers in memory *)

Fixpoint le_bytes (n : nat) (z : Z) : list Z :=
  match n with
  | O => []
  | S n' => z mod 256 :: le_bytes n' (z / 256)
  end.

Fixpoint le_value (bs : list Z) : Z :=
  match bs with
  | [] => 0
  | b :: bs' => b + 256 * le_value bs'
  end.

Lemma length_le_bytes n z : length (le_bytes n z) = n.
Proof. revert z; induction n as [|n IH]; intros z; simpl; [done|]. by rewrite IH. Qed.

Lemma le_value_bytes n z : le_value (le_bytes n z) = z mod 256 ^ Z.of_nat n.
Proof.
  revert z; induction n as [|n IH]; intros z; [by rewrite Z.mod_1_r|].
  cbn [le_bytes le_value]. rewrite IH, Nat2Z.inj_succ, Z.pow_succ_r by lia.
  rewrite Z.rem_mul_r by lia. done.
Qed.

(** ** Lists indexed by machine integers *)

(** [nth_z l i] is [l[i]] for an index of type [uint32_t] or [uint64_t];
    [None] when the index is outside the array. *)
Definition nth_z {A} (l : list A) (i : Z) : option A :=
  if i <? 0 then None else l !! Z.to_nat i.

Definition set_z {A} (l : list A) (i : Z) (x : A) : option (list A) :=
  if (0 <=? i) && (i <? Z.of_nat (length l)) then Some (<[Z.to_nat i := x]> l) else None.

Lemma nth_z_lt {A} (l : list A) i :
  0 <= i < Z.of_nat (length l) -> is_Some (nth_z l i).
Proof.
  intros. unfold nth_z. destruct (Z.ltb_spec i 0); [lia|].
  apply lookup_lt_is_Some. lia.
Qed.

Lemma nth_z_ge {A} (l : list A) i :
  Z.of_nat (length l) <= i -> nth_z l i = None.
Proof.
  intros. unfold nth_z. destruct (Z.ltb_spec i 0); [done|].
  apply lookup_ge_None. lia.
Qed.

Lemma nth_z_nat {A} (l : list A) (n : nat) : nth_z l (Z.of_nat n) = l !! n.
Proof.
  unfold nth_z. destruct (Z.ltb_spec (Z.of_nat n) 0); [lia|]. by rewrite Nat2Z.id.
Qed.

Lemma set_z_lt {A} (l : list A) i x :
  0 <= i < Z.of_nat (length l) -> set_z l i x = Some (<[Z.to_nat i := x]> l).
Proof.
  intros [H1 H2]. unfold set_z.
  by rewrite (proj2 (Z.leb_le 0 i) H1), (proj2 (Z.ltb_lt i _) H2).
Qed.

Lemma set_z_ge {A} (l : list A) i x :
  Z.of_nat (length l) <= i -> set_z l i x = None.
Proof.
  intros H. unfold set_z. apply Z.ltb_ge in H. by rewrite H, andb_false_r.
Qed.

(** Replacing the element behind a prefix. *)
Lemma insert_next {A} (xs ys : list A) x y : <[length xs := x]> (xs ++ y :: ys) = xs ++ x :: ys.
Proof. rewrite insert_app_r_alt by lia. by rewrite Nat.sub_diag. Qed.
