(* ===== verification/Types.v ===== *)
(** * Types: the enums and structs of the headers

    The data model of nextgen.  Each C enum is an inductive type with the
    source's constructors, each struct a record whose fields are the struct's
    fields (prefixed with the struct's name where two structs share a field
    name; padding members are dropped).  Pointers are [ptr]: [None] is [NULL],
    [Some l] the address of a heap object.  Function pointers stored in
    structs are names of the functions they can point to ([generator],
    [test_fn]), interpreted by the component that calls them. *)

From S2P Require Import Prelude.

Definition loc := positive.
Definition ptr := option loc.
Definition NULL : ptr := None.

(** ** io/io.h *)

Inductive out_type := ERROR | STD.

(** ** utils/utils.h *)

Inductive yes_no := NX_YES | NX_NO.
Inductive name_type := DIR_NAME | FILE_NAME.

(** ** crypto/crypto.h *)

Inductive crypto_method := CRYPTO | NO_CRYPTO.

(** ** runtime/platform.h

    The three platforms the program is built for; the constants are the same
    on each of them. *)

Inductive platform := FREEBSD | MAC_OS | LINUX.

Definition ARG_LIMIT : Z := 7.
Definition ARG_BUF_LEN : Z := 4096.
Definition POOL_SIZE : Z := 1024.

(** ** memory/memory.h *)

Record memory_block := MkBlock {
  block_ptr : ptr;        (* void *ptr *)
  sle_next : ptr          (* NX_SLIST_ENTRY(memory_block) *)
}.

Record mem_pool_shared := MkPool {
  pool_lock : Z;          (* ck_spinlock_t: the word of the fetch-and-store lock *)
  block_size : Z;
  block_count : Z;
  free_list : ptr;        (* slh_first *)
  allocated_list : ptr    (* slh_first *)
}.

(** ** ck_epoch.h, the vendored concurrency kit (x86 is a TSO machine) *)

Record epoch_ref := MkRef { ref_epoch : Z; ref_count : Z }.

Record epoch_record := MkRecord {
  rec_global : ptr;
  rec_state : Z;
  rec_epoch : Z;
  rec_active : Z;
  rec_bucket0 : epoch_ref;
  rec_bucket1 : epoch_ref;
  rec_n_pending : Z;
  rec_n_peak : Z;
  rec_n_dispatch : Z
}.

Record epoch_section := MkSection { sec_bucket : Z }.

Record epoch_ctx := MkEpoch {
  ep_epoch : Z;
  ep_records : list ptr;
  ep_n_free : Z
}.

(** ** concurrent/epoch.c *)

Record thread_ctx := MkThread {
  th_record : ptr;
  th_section : ptr;
  section_count : Z;
  buf_size : Z
}.

(** ** resource/resource.h *)

Record resource_ctx := MkResource { rsrc_m_blk : ptr; rsrc_ptr : ptr }.

Inductive rsrc_gen_type := CACHE | NO_CACHE.

(** Which of the two implementations a function pointer of the module's
    interface points to: [*_cached] or [*_nocached]. *)
Record rsrc_interface := MkInterface {
  get_desc_interface : option rsrc_gen_type;
  get_socket_interface : option rsrc_gen_type;
  get_mountpath_interface : option rsrc_gen_type;
  get_dirpath_interface : option rsrc_gen_type;
  get_filepath_interface : option rsrc_gen_type;
  free_desc_interface : option rsrc_gen_type;
  free_socket_interface : option rsrc_gen_type;
  free_mountpath_interface : option rsrc_gen_type;
  free_dirpath_interface : option rsrc_gen_type;
  free_filepath_interface : option rsrc_gen_type
}.

(** ** network/network.h *)

Inductive network_mode := SOCKET_SERVER.

(** ** file/file.h and file/file.c *)

Inductive file_type := BINARY | TEXT.

(** [type] is never assigned. *)
Record file_ctx := MkFileCtx {
  file_ctx_path : option string;
  file_ctx_extension : option string;
  file_ctx_size : Z
}.

(** ** genetic/genetic.h and genetic/genetic.c

    A fitness is a [double]; the code only ever stores zero in one, so the
    integer value it holds is enough ([None] where it is indeterminate). *)

Inductive genetic_mode := FILE_FUZZING | SYSCALL_FUZZING | NETWORK_FUZZING.

Record chromosome_ctx := MkChromosome { encoding : option ptr }.

Record organism_ctx := MkOrganism {
  fitness : option Z;
  chromosome : option ptr;
  organism_next : ptr
}.

Record species_ctx := MkSpecies {
  species_population : Z;
  average_species_fitness : Z;
  organism_list : ptr
}.

Record world_population := MkPopulation {
  total_species : Z;
  current_generation : Z;
  pop_species : ptr
}.

(** ** runtime/nextgen.h and runtime/nextgen.c *)

Inductive fuzz_mode := MODE_FILE | MODE_SYSCALL | MODE_NETWORK.

(** [None] is a member that was never assigned ([allocator->alloc] does not
    clear the struct).  [args] points to a string of its own; the paths point
    into [argv]. *)
Record fuzzer_config := MkConfig {
  exec_path : option string;
  input_path : option string;
  output_path : option string;
  config_args : ptr;
  smart_mode : option Z;
  config_method : option crypto_method;
  config_mode : option fuzz_mode
}.

(** ** plugins/plugin.h *)

Record plugin_ctx := MkPlugin {
  plugin_name : option string;
  plugin_path : option string;
  plugin_handle : option Z
}.

(** ** log/log.h *)

Inductive logging_type := POINTER | PATH | NUMBER.

(** ** syscall/arg_types.h *)

Inductive arg_type :=
| FILE_DESC | VOID_BUF | SIZE | FILE_PATH | OPEN_FLAG | MODE | STAT_FS
| STAT_FLAG | INT | RUSAGE | PID | WAIT_OPTION | SOCKET | WHENCE | OFFSET
| MOUNT_TYPE | DIR_PATH | MOUNT_FLAG | UNMOUNT_FLAG | RECV_FLAG | REQUEST
| MOUNT_PATH | DEV | PTRACE_REQUEST | MESSAGE | SEND_FLAG | SOCKADDR
| SOCKLEN | AMODE | CHFLAGS.

Record arg_context := MkArgCtx {
  ctx_name : string;
  ctx_type : arg_type;
  should_free : yes_no;
  log_type : logging_type
}.

(** ** syscall/entry.h *)

Inductive test_id :=
| V_ID | P_ID | VP_ID | VPV_ID | PV_ID | PVV_ID | PP_ID | VPVVPV_ID | VPVP_ID | VVPV_ID.

Inductive syscall_status := ON | OFF.

(** The argument generators of syscall/generate.h an entry can point to. *)
Inductive generator :=
| fn_generate_fd | fn_generate_socket | fn_generate_buf | fn_generate_length | fn_generate_path
| fn_generate_open_flag | fn_generate_mode | fn_generate_fs_stat | fn_generate_fs_stat_flag
| fn_generate_pid | fn_generate_int | fn_generate_rusage | fn_generate_wait_option
| fn_generate_whence | fn_generate_offset | fn_generate_mountpath | fn_generate_mount_type
| fn_generate_dirpath | fn_generate_mount_flags | fn_generate_unmount_flags
| fn_generate_recv_flags | fn_generate_request | fn_generate_dev | fn_generate_message
| fn_generate_send_flags | fn_generate_sockaddr | fn_generate_socklen | fn_generate_amode
| fn_generate_chflags.

(** The system call wrappers of syscall/set_test.c. *)
Inductive test_fn :=
| fn_test_val_ptr_val_ptr | fn_test_val_ptr_val_val_ptr_val | fn_test_val_val_ptr_val
| fn_test_ptr_val_ptr | fn_test_ptr_ptr_val | fn_test_ptr_val_val | fn_test_ptr_ptr_ptr
| fn_test_val_ptr_ptr | fn_test_val_val_ptr | fn_test_val_ptr_val | fn_test_val_val_val
| fn_test_val_val | fn_test_val_ptr | fn_test_ptr_val | fn_test_ptr_ptr | fn_test_ptr | fn_test_val.

(** The numbers of <sys/syscall.h> the entries name; their values are the
    platform's. *)
Inductive sysno :=
| SYS_read | SYS_write | SYS_open | SYS_close | SYS_wait4 | SYS_link | SYS_unlink
| SYS_chdir | SYS_fchdir | SYS_mknod | SYS_chmod | SYS_getfsstat | SYS_lseek
| SYS_mount | SYS_unmount | SYS_setuid | SYS_ptrace | SYS_recvmsg | SYS_sendmsg
| SYS_accept | SYS_getpeername | SYS_getsockname | SYS_access | SYS_chflags
| SYS_creat.

Record syscall_entry := MkEntry {
  syscall_name : string;
  syscall_symbol : sysno;
  status : syscall_status;
  need_alarm : yes_no;
  requires_root : yes_no;
  arg_type_array : list arg_type;
  total_args : Z;
  entry_number : Z;
  arg_context_array : list (option arg_context);
  get_arg_array : list (option generator);
  test_syscall_ptr : option test_fn;
  entry_id : test_id
}.

(** ** syscall/syscall_table.h

    [sys_entry] is an array of 56 pointers to the statically allocated
    entries; an entry pointer is the index of the entry in the store of
    static entries. *)
Record syscall_table := MkTable {
  total_syscalls : Z;
  sys_entry : list (option nat)
}.

(** ** syscall/syscall.c *)

Definition EMPTY : Z := 0.

Record child_ctx := MkChild {
  child_pid : Z;
  child_syscall_number : Z;
  child_syscall_symbol : option sysno;
  child_current_arg : Z;
  child_total_args : Z;
  child_syscall_name : option string;
  arg_value_array : ptr;
  arg_copy_array : ptr;
  arg_size_array : ptr;
  child_ret_value : Z;
  child_had_error : yes_no;
  child_sig_num : Z;
  child_did_jump : yes_no;
  child_need_alarm : yes_no;
  child_test_syscall : option test_fn;
  return_jump : option Z  (* the process whose [setjmp] filled the buffer *)
}.

Record global_state := MkGlobal {
  running_children : Z;
  test_counter : ptr
}.

(** ** Heap objects

    What an allocated region is viewed as: raw bytes ([None] is an
    indeterminate byte), an array of pointers, an array of 64-bit words, one
    32-bit integer, or a struct. *)
Inductive hobj :=
| OBytes (bs : list (option Z))
| OPtrs (ps : list ptr)
| OWords (ws : list Z)
| OInt (z : Z)
| OBlock (b : memory_block)
| OPool (p : mem_pool_shared)
| OThread (t : thread_ctx)
| ORecord (r : epoch_record)
| OSection (s : epoch_section)
| OEpoch (e : epoch_ctx)
| OResource (r : resource_ctx)
| OChild (c : child_ctx)
| OGlobal (g : global_state)
| OTable (t : syscall_table)
| OFile (f : file_ctx)
| OChromosome (c : chromosome_ctx)
| OOrganism (o : organism_ctx)
| OSpecies (s : species_ctx)
| OPopulation (p : world_population)
| OConfig (c : fuzzer_config)
| OPlugin (p : plugin_ctx)
| OMap (path : string) (len : Z) (prot : Z)  (* a MAP_SHARED mapping of a file *)
| OTail (len : Z) (gone : Z).  (* what is left of a mapping of [len] bytes without its first [gone] pages *)

(** Sizes of the objects in bytes on the LP64 ABIs of the three platforms. *)
Definition sizeof (o : hobj) : Z :=
  match o with
  | OBytes bs => Z.of_nat (length bs)
  | OPtrs ps => 8 * Z.of_nat (length ps)
  | OWords ws => 8 * Z.of_nat (length ws)
  | OInt _ => 4
  | OBlock _ => 16
  | OPool _ => 32
  | OThread _ => 24
  | ORecord _ => 256
  | OSection _ => 4
  | OEpoch _ => 128
  | OResource _ => 16
  | OChild _ => 408
  | OGlobal _ => 16
  | OTable _ => 456
  | OFile _ => 32
  | OChromosome _ => 8
  | OOrganism _ => 24
  | OSpecies _ => 24
  | OPopulation _ => 32
  | OConfig _ => 48
  | OPlugin _ => 24
  | OMap _ len _ => len
  | OTail len _ => len
  end.

(** ** Decidable equality *)

#[export] Instance out_type_eq : EqDecision out_type.
Proof. solve_decision. Defined.
#[export] Instance yes_no_eq : EqDecision yes_no.
Proof. solve_decision. Defined.
#[export] Instance name_type_eq : EqDecision name_type.
Proof. solve_decision. Defined.
#[export] Instance crypto_method_eq : EqDecision crypto_method.
Proof. solve_decision. Defined.
#[export] Instance platform_eq : EqDecision platform.
Proof. solve_decision. Defined.
#[export] Instance rsrc_gen_type_eq : EqDecision rsrc_gen_type.
Proof. solve_decision. Defined.
#[export] Instance fuzz_mode_eq : EqDecision fuzz_mode.
Proof. solve_decision. Defined.
#[export] Instance logging_type_eq : EqDecision logging_type.
Proof. solve_decision. Defined.
#[export] Instance arg_type_eq : EqDecision arg_type.
Proof. solve_decision. Defined.
#[export] Instance test_id_eq : EqDecision test_id.
Proof. solve_decision. Defined.
#[export] Instance syscall_status_eq : EqDecision syscall_status.
Proof. solve_decision. Defined.
#[export] Instance generator_eq : EqDecision generator.
Proof. solve_decision. Defined.
#[export] Instance test_fn_eq : EqDecision test_fn.
Proof. solve_decision. Defined.
#[export] Instance sysno_eq : EqDecision sysno.
Proof. solve_decision. Defined.
#[export] Instance arg_context_eq : EqDecision arg_context.
Proof. solve_decision. Defined.
