(* ===== verification/CWorld.v ===== *)
(** * CWorld: the C runtime the program runs on

    The state every component shares and the monad its functions are written
    in.  A [world] holds the process's heap, the static variables of the
    modules, the file system, what was written to the console, the system
    calls made so far and the answers the environment will give.  A C
    function [T f(...)] is a Rocq function into [M T]; the outcomes besides
    returning a value are undefined behaviour ([Crash]: a NULL, dangling or
    out-of-range access, a call through an indeterminate function pointer, a
    division by zero), leaving the process ([Exit]), jumping out of a signal
    handler ([Jump]) and a loop that has not been left yet ([Spin]).

    The environment is an oracle: each call that the operating system or an
    external library answers consumes the next integer of [w_oracle] (0 when
    the list is used up), and the wrapper of the call says what the integer
    means.  Theorems quantify over the whole list, so over every behaviour of
    the environment. *)

From S2P Require Import Prelude Types.

(** ** Static variables of the modules *)

(** crypto/crypto.c: the function [rand_range_pointer] points to. *)
Inductive rand_fn := fn_rand_range_no_crypto | fn_rand_range_crypto.

Record crypto_statics := MkCrypto {
  rand_range_pointer : option rand_fn;
  software_prng : Z;
  crypto_setup : Z
}.

(** syscall/syscall.c *)
Record syscall_statics := MkSys {
  sys_state : ptr;
  total_children : Z;
  children : ptr;
  sys_table : ptr;
  sys_stop : ptr;
  sys_mode : Z;
  table_set : Z;
  sys_epoch : ptr
}.

(** ** Observable system calls *)

Inductive arg_passed := ByVal (z : Z) | ByPtr (p : ptr).

(** The functions of syscall/signals.c and of file/file.c a signal can be
    sent to, and the default action. *)
Inductive handler := fn_ctrlc_handler | fn_child_exit_handler | fn_child_signal_handler | SIG_DFL | fn_file_ctrlc_handler.

(** The functions a thread is started with. *)
Inductive thread_fn := fn_start_thread | fn_accept_thread_start | fn_god_loop | fn_kill_test_proc.

Inductive event :=
| EvClose (fd : Z)
| EvKill (pid : Z)
| EvAlarm (seconds : Z)
| EvSyscall (symbol : option sysno) (args : list arg_passed)
| EvRandAdd (buf : list Z)
| EvSigaction (sig : Z) (h : handler)
| EvFork
| EvConnect (fd family port : Z)
| EvBind (fd family port : Z)
| EvListen (fd : Z)
| EvAccept (fd : Z)
| EvThread (start : thread_fn)
| EvExec (path : string) (argv : list string)
| EvMunmapEntry (entry : nat) (len : Z).

(** The static variables of the other modules: resource/resource.c,
    network/network.c, file/file.c, genetic/genetic.c, plugins/plugin.c and
    io/io.c. *)
Record rsrc_statics := MkRsrc {
  rsrc_setup : Z;
  desc_pool : ptr;
  mount_pool : ptr;
  dirpath_pool : ptr;
  file_pool : ptr;
  socket_pool : ptr;
  rsrc_iface : rsrc_interface
}.

Record net_statics := MkNet {
  ss_port : Z;
  net_stop : Z;
  listen_fd4 : Z;
  listen_fd6 : Z
}.

Record file_statics := MkFileStatics {
  stop_ptr : ptr;
  path_to_exec : ptr;
  start_offset : Z;
  file_array : ptr;
  file_count : Z;
  input_dir : option string;
  file_setup : Z
}.

Record gen_statics := MkGen {
  gen_stop : ptr;
  run_mode : genetic_mode;
  gen_world_ptr : ptr
}.

Record module_statics := MkMods {
  m_rsrc : rsrc_statics;
  m_net : net_statics;
  m_file : file_statics;
  m_gen : gen_statics;
  m_plugin_count : Z;
  m_plugins : ptr;
  m_verbose : Z
}.

(** As a program starts: every one of them zero. *)
Definition initial_mods : module_statics :=
  MkMods
    (MkRsrc 0 NULL NULL NULL NULL NULL
      (MkInterface None None None None None None None None None None))
    (MkNet 0 0 0 0) (MkFileStatics NULL NULL 0 NULL 0 None 0)
    (MkGen NULL FILE_FUZZING NULL) 0 NULL 0.

(** [w_fs] holds the contents of the files, [w_modes] the [st_mode] of the
    paths that are something else than a plain readable, writable and
    executable file, [w_links] where the paths that are symbolic links lead
    to. *)
Record world := MkWorld {
  w_heap : gmap loc hobj;
  w_next : loc;
  w_oracle : list Z;
  w_out : list (out_type * string);
  w_events : list event;
  w_fs : gmap string (list Z);
  w_fds : gmap Z string;
  w_pid : Z;
  w_crypto : crypto_statics;
  w_sys : syscall_statics;
  w_entries : list syscall_entry;
  w_modes : gmap string Z;
  w_mods : module_statics;
  w_links : gmap string string
}.

Definition set_heap (h : gmap loc hobj) (w : world) : world :=
  MkWorld h (w_next w) (w_oracle w) (w_out w) (w_events w) (w_fs w)
    (w_fds w) (w_pid w) (w_crypto w) (w_sys w) (w_entries w) (w_modes w) (w_mods w) (w_links w).
Definition set_next (n : loc) (w : world) : world :=
  MkWorld (w_heap w) n (w_oracle w) (w_out w) (w_events w) (w_fs w)
    (w_fds w) (w_pid w) (w_crypto w) (w_sys w) (w_entries w) (w_modes w) (w_mods w) (w_links w).
Definition set_oracle (o : list Z) (w : world) : world :=
  MkWorld (w_heap w) (w_next w) o (w_out w) (w_events w) (w_fs w)
    (w_fds w) (w_pid w) (w_crypto w) (w_sys w) (w_entries w) (w_modes w) (w_mods w) (w_links w).
Definition set_out (o : list (out_type * string)) (w : world) : world :=
  MkWorld (w_heap w) (w_next w) (w_oracle w) o (w_events w) (w_fs w)
    (w_fds w) (w_pid w) (w_crypto w) (w_sys w) (w_entries w) (w_modes w) (w_mods w) (w_links w).
Definition set_events (e : list event) (w : world) : world :=
  MkWorld (w_heap w) (w_next w) (w_oracle w) (w_out w) e (w_fs w)
    (w_fds w) (w_pid w) (w_crypto w) (w_sys w) (w_entries w) (w_modes w) (w_mods w) (w_links w).
Definition set_fs (fs : gmap string (list Z)) (w : world) : world :=
  MkWorld (w_heap w) (w_next w) (w_oracle w) (w_out w) (w_events w) fs
    (w_fds w) (w_pid w) (w_crypto w) (w_sys w) (w_entries w) (w_modes w) (w_mods w) (w_links w).
Definition set_fds (fds : gmap Z string) (w : world) : world :=
  MkWorld (w_heap w) (w_next w) (w_oracle w) (w_out w) (w_events w) (w_fs w)
    fds (w_pid w) (w_crypto w) (w_sys w) (w_entries w) (w_modes w) (w_mods w) (w_links w).
Definition set_pid (p : Z) (w : world) : world :=
  MkWorld (w_heap w) (w_next w) (w_oracle w) (w_out w) (w_events w) (w_fs w)
    (w_fds w) p (w_crypto w) (w_sys w) (w_entries w) (w_modes w) (w_mods w) (w_links w).
Definition set_crypto (c : crypto_statics) (w : world) : world :=
  MkWorld (w_heap w) (w_next w) (w_oracle w) (w_out w) (w_events w) (w_fs w)
    (w_fds w) (w_pid w) c (w_sys w) (w_entries w) (w_modes w) (w_mods w) (w_links w).
Definition set_sys (s : syscall_statics) (w : world) : world :=
  MkWorld (w_heap w) (w_next w) (w_oracle w) (w_out w) (w_events w) (w_fs w)
    (w_fds w) (w_pid w) (w_crypto w) s (w_entries w) (w_modes w) (w_mods w) (w_links w).
Definition set_entries (es : list syscall_entry) (w : world) : world :=
  MkWorld (w_heap w) (w_next w) (w_oracle w) (w_out w) (w_events w) (w_fs w)
    (w_fds w) (w_pid w) (w_crypto w) (w_sys w) es (w_modes w) (w_mods w) (w_links w).
Definition set_modes (m : gmap string Z) (w : world) : world :=
  MkWorld (w_heap w) (w_next w) (w_oracle w) (w_out w) (w_events w) (w_fs w)
    (w_fds w) (w_pid w) (w_crypto w) (w_sys w) (w_entries w) m (w_mods w) (w_links w).
Definition set_mods (m : module_statics) (w : world) : world :=
  MkWorld (w_heap w) (w_next w) (w_oracle w) (w_out w) (w_events w) (w_fs w)
    (w_fds w) (w_pid w) (w_crypto w) (w_sys w) (w_entries w) (w_modes w) m (w_links w).
Definition set_links (ls : gmap string string) (w : world) : world :=
  MkWorld (w_heap w) (w_next w) (w_oracle w) (w_out w) (w_events w) (w_fs w)
    (w_fds w) (w_pid w) (w_crypto w) (w_sys w) (w_entries w) (w_modes w) (w_mods w) ls.

(** ** The monad *)

Inductive outcome (A : Type) :=
| Ret (a : A) (w : world)
| Crash
| Exit (code : Z) (w : world)
| Jump (w : world)
| Spin.
Arguments Ret {A} a w.
Arguments Crash {A}.
Arguments Exit {A} code w.
Arguments Jump {A} w.
Arguments Spin {A}.

Definition M (A : Type) : Type := world -> outcome A.

Definition ret {A} (a : A) : M A := fun w => Ret a w.

Definition bind {A B} (m : M A) (f : A -> M B) : M B :=
  fun w =>
    match m w with
    | Ret a w' => f a w'
    | Crash => Crash
    | Exit c w' => Exit c w'
    | Jump w' => Jump w'
    | Spin => Spin
    end.

Definition crash {A} : M A := fun _ => Crash.
Definition spin {A} : M A := fun _ => Spin.
Definition exit {A} (c : Z) : M A := fun w => Exit c w.
Definition gets {A} (f : world -> A) : M A := fun w => Ret (f w) w.
Definition modify (f : world -> world) : M unit := fun w => Ret tt (f w).

Declare Scope c_scope.
Delimit Scope c_scope with c.
Notation "'let!' x ':=' m 'in' k" := (bind m (fun x => k))
  (at level 10, x binder, m at level 200, k at level 200) : c_scope.
Notation "m ';;;' k" := (bind m (fun _ => k))
  (at level 199, k at level 200, right associativity) : c_scope.
#[global] Open Scope c_scope.

(** An assertion the C code needs at this point: [None] is undefined behaviour. *)
Definition need {A} (o : option A) : M A :=
  match o with Some a => ret a | None => crash end.

(** ** Console *)

(** [output->write(type, fmt, ...)] and the deprecated [output]. *)
Definition write (t : out_type) (s : string) : M unit :=
  modify (fun w => set_out ((t, s) :: w_out w) w).
Definition printf (s : string) : M unit := write STD s.

(** ** The environment *)

Definition ask : M Z := fun w =>
  Ret (hd 0 (w_oracle w)) (set_oracle (tl (w_oracle w)) w).

(** A call that answers 0 on success and -1 on failure. *)
Definition ask_status : M Z :=
  let! a := ask in ret (if a <? 0 then -1 else 0).

Definition emit (e : event) : M unit :=
  modify (fun w => set_events (e :: w_events w) w).

(** ** The heap *)

(** [malloc(3)] and anonymous [mmap(2)]: a fresh region, viewed as [o]. *)
Definition alloc_obj (o : hobj) : M ptr := fun w =>
  Ret (Some (w_next w))
    (set_next (Pos.succ (w_next w)) (set_heap (<[w_next w := o]> (w_heap w)) w)).

Definition malloc (o : hobj) : M ptr :=
  let! a := ask in if a <? 0 then ret NULL else alloc_obj o.

(** [mmap] refuses a length of zero (EINVAL). *)
Definition mmap_anon (o : hobj) : M ptr :=
  let! a := ask in
  if (a <? 0) || (sizeof o =? 0) then ret NULL else alloc_obj o.

(** [free(3)]: freeing what is not allocated is undefined. *)
Definition free_loc (p : ptr) : M unit :=
  match p with
  | None => ret tt
  | Some l => fun w =>
      match w_heap w !! l with
      | Some _ => Ret tt (set_heap (delete l (w_heap w)) w)
      | None => Crash
      end
  end.

Definition PAGE_SIZE : Z := 4096.
Definition page_count (n : Z) : Z := (n + PAGE_SIZE - 1) / PAGE_SIZE.

(** [munmap(2)] of the start of a mapping: a length of zero is refused with
    EINVAL, unmapping what is not mapped is not an error.  Whole pages are
    unmapped: when they are fewer than the mapping has, the others stay. *)
Definition munmap (p : ptr) (n : Z) : M unit :=
  match p with
  | None => ret tt
  | Some l =>
      if n =? 0 then ret tt
      else modify (fun w =>
        match w_heap w !! l with
        | None => w
        | Some o =>
            set_heap (if page_count (sizeof o) <=? page_count n then delete l (w_heap w)
                      else <[l := OTail (sizeof o) (page_count n)]> (w_heap w)) w
        end)
  end.

Definition load (p : ptr) : M hobj := fun w =>
  match p with
  | None => Crash
  | Some l => match w_heap w !! l with Some o => Ret o w | None => Crash end
  end.

Definition store (p : ptr) (o : hobj) : M unit := fun w =>
  match p with
  | None => Crash
  | Some l =>
      match w_heap w !! l with
      | Some _ => Ret tt (set_heap (<[l := o]> (w_heap w)) w)
      | None => Crash
      end
  end.

(** Typed views of a heap object. *)
Definition load_block (p : ptr) : M memory_block :=
  let! o := load p in match o with OBlock b => ret b | _ => crash end.
Definition load_pool (p : ptr) : M mem_pool_shared :=
  let! o := load p in match o with OPool b => ret b | _ => crash end.
Definition load_thread (p : ptr) : M thread_ctx :=
  let! o := load p in match o with OThread b => ret b | _ => crash end.
Definition load_record (p : ptr) : M epoch_record :=
  let! o := load p in match o with ORecord b => ret b | _ => crash end.
Definition load_section (p : ptr) : M epoch_section :=
  let! o := load p in match o with OSection b => ret b | _ => crash end.
Definition load_epoch (p : ptr) : M epoch_ctx :=
  let! o := load p in match o with OEpoch b => ret b | _ => crash end.
Definition load_child (p : ptr) : M child_ctx :=
  let! o := load p in match o with OChild b => ret b | _ => crash end.
Definition load_global (p : ptr) : M global_state :=
  let! o := load p in match o with OGlobal b => ret b | _ => crash end.
Definition load_table (p : ptr) : M syscall_table :=
  let! o := load p in match o with OTable b => ret b | _ => crash end.
Definition load_int (p : ptr) : M Z :=
  let! o := load p in match o with OInt b => ret b | _ => crash end.
Definition load_ptrs (p : ptr) : M (list ptr) :=
  let! o := load p in match o with OPtrs b => ret b | _ => crash end.
Definition load_words (p : ptr) : M (list Z) :=
  let! o := load p in match o with OWords b => ret b | _ => crash end.
Definition load_bytes (p : ptr) : M (list (option Z)) :=
  let! o := load p in match o with OBytes b => ret b | _ => crash end.

(** [p[i]] for an array of pointers, and its assignment. *)
Definition load_elem (p : ptr) (i : Z) : M ptr :=
  let! ps := load_ptrs p in need (nth_z ps i).
Definition store_elem (p : ptr) (i : Z) (v : ptr) : M unit :=
  let! ps := load_ptrs p in
  let! ps' := need (set_z ps i v) in
  store p (OPtrs ps').

(** Raw memory: [n] bytes written at the start of a buffer ([memmove],
    [memcpy], an assignment through a pointer), and an [n]-byte unsigned
    integer read from it.  Both are undefined past the end of the buffer,
    reading is undefined where a byte is indeterminate. *)
Definition put_bytes (bs : list (option Z)) (new : list Z) : option (list (option Z)) :=
  if decide (length new <= length bs)%nat
  then Some (map Some new ++ drop (length new) bs) else None.

Definition get_bytes (bs : list (option Z)) (n : nat) : option (list Z) :=
  if decide (n <= length bs)%nat then mapM id (take n bs) else None.

Definition store_int (p : ptr) (n : nat) (z : Z) : M unit :=
  let! bs := load_bytes p in
  let! bs' := need (put_bytes bs (le_bytes n z)) in
  store p (OBytes bs').

Definition load_uint (p : ptr) (n : nat) : M Z :=
  let! bs := load_bytes p in
  let! raw := need (get_bytes bs n) in
  ret (le_value raw).

Definition junk (n : Z) : hobj := OBytes (replicate (Z.to_nat n) None).
Definition zeros (n : Z) : hobj := OBytes (replicate (Z.to_nat n) (Some 0)).

(** The same at an offset into the buffer. *)
Definition put_at (bs : list (option Z)) (off : Z) (new : list Z) : option (list (option Z)) :=
  if (0 <=? off) && (off + Z.of_nat (length new) <=? Z.of_nat (length bs))
  then Some (take (Z.to_nat off) bs ++ map Some new ++ drop (Z.to_nat off + length new) bs)
  else None.

Definition store_at (p : ptr) (off : Z) (new : list Z) : M unit :=
  let! bs := load_bytes p in
  let! bs' := need (put_at bs off new) in
  store p (OBytes bs').

(** ** Strings *)

(** The string a buffer holds: its bytes before the first NUL.  Reading an
    indeterminate byte, or past the end, is undefined. *)
Fixpoint cstr (bs : list (option Z)) : option (list Z) :=
  match bs with
  | [] => None
  | None :: _ => None
  | Some z :: bs' => if z =? 0 then Some [] else cons z <$> cstr bs'
  end.

Definition load_cstr (p : ptr) : M (list Z) :=
  let! bs := load_bytes p in need (cstr bs).

(** [asprintf(&out, fmt, ...)] with the formatted string [s]. *)
Definition asprintf (s : string) : M (option string) :=
  let! a := ask in ret (if a <? 0 then None else Some s).

(** ** File descriptors *)

(** An unused descriptor, above the standard ones. *)
Definition fresh_fd (fds : gmap Z string) : Z := 1 + map_fold (fun fd _ m => Z.max fd m) 2 fds.

(** [open(2)] of a file the environment may refuse. *)
Definition sys_open (path : string) : M Z :=
  let! a := ask in
  if a <? 0 then ret (-1)
  else
    let! fds := gets w_fds in
    let fd := fresh_fd fds in
    modify (set_fds (<[fd := path]> fds)) ;;; ret fd.

Definition sys_close (fd : Z) : M unit :=
  emit (EvClose fd) ;;; modify (fun w => set_fds (delete fd (w_fds w)) w).

(** [read(2)] of at most [n] bytes into the start of a buffer: the
    environment answers how many it gives and what they are. *)
Definition sys_read (p : ptr) (n : Z) : M Z :=
  let! a := ask in
  if a <? 0 then ret (-1)
  else
    let count := Z.min a n in
    let! content := ask in
    store_at p 0 (le_bytes (Z.to_nat count) content) ;;; ret count.

(** ** A fresh process

    Nothing allocated, every static variable zero, an environment that will
    answer [oracle]. *)
Definition fresh_world (oracle : list Z) (entries : list syscall_entry) : world :=
  MkWorld ∅ 1%positive oracle [] [] ∅ ∅ 100 (MkCrypto None 0 0)
    (MkSys NULL 0 NULL NULL NULL 0 0 NULL) entries ∅ initial_mods ∅.

(** ** Reasoning

    [wp m Q w]: run in [w], [m] returns (it neither crashes, nor exits, nor
    keeps looping) and what it returns satisfies [Q]. *)

Definition wp {A} (m : M A) (Q : A -> world -> Prop) (w : world) : Prop :=
  match m w with Ret a w' => Q a w' | _ => False end.

Lemma wp_bind {A B} (m : M A) (f : A -> M B) Q w :
  wp m (fun a w' => wp (f a) Q w') w -> wp (bind m f) Q w.
Proof. unfold wp, bind. by destruct (m w). Qed.

Lemma wp_mono {A} (m : M A) (P Q : A -> world -> Prop) w :
  wp m P w -> (forall a w', P a w' -> Q a w') -> wp m Q w.
Proof. unfold wp. destruct (m w); auto. Qed.

Lemma wp_ret {A} (a : A) (Q : A -> world -> Prop) w : Q a w -> wp (ret a) Q w.
Proof. done. Qed.

Lemma wp_run {A} (m : M A) Q w : wp m Q w -> exists a w', m w = Ret a w' /\ Q a w'.
Proof. unfold wp. destruct (m w); [eauto|done..]. Qed.

Lemma wp_eq {A} (m : M A) (Q : A -> world -> Prop) w a w' :
  m w = Ret a w' -> Q a w' -> wp m Q w.
Proof. unfold wp. by intros ->. Qed.

Lemma bind_eq {A B} (m : M A) (f : A -> M B) w a w' :
  m w = Ret a w' -> bind m f w = f a w'.
Proof. unfold bind. by intros ->. Qed.

Lemma bind_crash {A B} (m : M A) (f : A -> M B) w :
  m w = Crash -> bind m f w = Crash.
Proof. unfold bind. by intros ->. Qed.

Lemma bind_spin {A B} (m : M A) (f : A -> M B) w :
  m w = Spin -> bind m f w = Spin.
Proof. unfold bind. by intros ->. Qed.

Lemma bind_assoc {A B C} (m : M A) (f : A -> M B) (g : B -> M C) w :
  bind (bind m f) g w = bind m (fun a => bind (f a) g) w.
Proof. unfold bind. by destruct (m w). Qed.

(** Three statements whose joint effect is known, with what follows them. *)
Lemma bind3_eq {A} (a b c : M unit) (k : M A) w w' :
  (a ;;; b ;;; c) w = Ret tt w' -> (a ;;; b ;;; c ;;; k) w = k w'.
Proof.
  unfold bind. destruct (a w) as [? w1| | | |]; [|done..].
  destruct (b w1) as [? w2| | | |]; [|done..]. by intros ->.
Qed.

(** *** Heap access under a known lookup *)

Section heap_access.
Context (w : world) (l : loc).

Lemma load_eq o : w_heap w !! l = Some o -> load (Some l) w = Ret o w.
Proof. unfold load. by intros ->. Qed.

Lemma store_eq o o' :
  w_heap w !! l = Some o -> store (Some l) o' w = Ret tt (set_heap (<[l := o']> (w_heap w)) w).
Proof. unfold store. by intros ->. Qed.

Lemma free_loc_eq o :
  w_heap w !! l = Some o -> free_loc (Some l) w = Ret tt (set_heap (delete l (w_heap w)) w).
Proof. unfold free_loc. by intros ->. Qed.

Lemma load_block_eq b : w_heap w !! l = Some (OBlock b) -> load_block (Some l) w = Ret b w.
Proof. intros H. unfold load_block. by rewrite (bind_eq _ _ _ _ _ (load_eq _ H)). Qed.
Lemma load_pool_eq b : w_heap w !! l = Some (OPool b) -> load_pool (Some l) w = Ret b w.
Proof. intros H. unfold load_pool. by rewrite (bind_eq _ _ _ _ _ (load_eq _ H)). Qed.
Lemma load_thread_eq b : w_heap w !! l = Some (OThread b) -> load_thread (Some l) w = Ret b w.
Proof. intros H. unfold load_thread. by rewrite (bind_eq _ _ _ _ _ (load_eq _ H)). Qed.
Lemma load_record_eq b : w_heap w !! l = Some (ORecord b) -> load_record (Some l) w = Ret b w.
Proof. intros H. unfold load_record. by rewrite (bind_eq _ _ _ _ _ (load_eq _ H)). Qed.
Lemma load_section_eq b : w_heap w !! l = Some (OSection b) -> load_section (Some l) w = Ret b w.
Proof. intros H. unfold load_section. by rewrite (bind_eq _ _ _ _ _ (load_eq _ H)). Qed.
Lemma load_epoch_eq b : w_heap w !! l = Some (OEpoch b) -> load_epoch (Some l) w = Ret b w.
Proof. intros H. unfold load_epoch. by rewrite (bind_eq _ _ _ _ _ (load_eq _ H)). Qed.
Lemma load_child_eq b : w_heap w !! l = Some (OChild b) -> load_child (Some l) w = Ret b w.
Proof. intros H. unfold load_child. by rewrite (bind_eq _ _ _ _ _ (load_eq _ H)). Qed.
Lemma load_global_eq b : w_heap w !! l = Some (OGlobal b) -> load_global (Some l) w = Ret b w.
Proof. intros H. unfold load_global. by rewrite (bind_eq _ _ _ _ _ (load_eq _ H)). Qed.
Lemma load_table_eq b : w_heap w !! l = Some (OTable b) -> load_table (Some l) w = Ret b w.
Proof. intros H. unfold load_table. by rewrite (bind_eq _ _ _ _ _ (load_eq _ H)). Qed.
Lemma load_int_eq b : w_heap w !! l = Some (OInt b) -> load_int (Some l) w = Ret b w.
Proof. intros H. unfold load_int. by rewrite (bind_eq _ _ _ _ _ (load_eq _ H)). Qed.
Lemma load_ptrs_eq b : w_heap w !! l = Some (OPtrs b) -> load_ptrs (Some l) w = Ret b w.
Proof. intros H. unfold load_ptrs. by rewrite (bind_eq _ _ _ _ _ (load_eq _ H)). Qed.
Lemma load_words_eq b : w_heap w !! l = Some (OWords b) -> load_words (Some l) w = Ret b w.
Proof. intros H. unfold load_words. by rewrite (bind_eq _ _ _ _ _ (load_eq _ H)). Qed.
Lemma load_bytes_eq b : w_heap w !! l = Some (OBytes b) -> load_bytes (Some l) w = Ret b w.
Proof. intros H. unfold load_bytes. by rewrite (bind_eq _ _ _ _ _ (load_eq _ H)). Qed.

Lemma load_elem_eq ps i p :
  w_heap w !! l = Some (OPtrs ps) -> nth_z ps i = Some p -> load_elem (Some l) i w = Ret p w.
Proof.
  intros H Hi. unfold load_elem. rewrite (bind_eq _ _ _ _ _ (load_ptrs_eq _ H)).
  by rewrite Hi.
Qed.

Lemma load_elem_oob ps i :
  w_heap w !! l = Some (OPtrs ps) -> nth_z ps i = None -> load_elem (Some l) i w = Crash.
Proof.
  intros H Hi. unfold load_elem. rewrite (bind_eq _ _ _ _ _ (load_ptrs_eq _ H)).
  by rewrite Hi.
Qed.

Lemma store_elem_eq ps ps' i p :
  w_heap w !! l = Some (OPtrs ps) -> set_z ps i p = Some ps' ->
  store_elem (Some l) i p w = Ret tt (set_heap (<[l := OPtrs ps']> (w_heap w)) w).
Proof.
  intros H Hi. unfold store_elem. rewrite (bind_eq _ _ _ _ _ (load_ptrs_eq _ H)).
  rewrite Hi. cbn. by apply store_eq with (OPtrs ps).
Qed.

Lemma store_elem_oob ps i p :
  w_heap w !! l = Some (OPtrs ps) -> set_z ps i p = None ->
  store_elem (Some l) i p w = Crash.
Proof.
  intros H Hi. unfold store_elem. rewrite (bind_eq _ _ _ _ _ (load_ptrs_eq _ H)).
  by rewrite Hi.
Qed.
End heap_access.

(** *** Allocation

    [oracle_ok w]: the environment grants everything it is still asked for.
    [heap_wf w]: nothing is allocated at or above the allocation frontier. *)
Definition oracle_ok (w : world) : Prop := Forall (fun a => 0 <= a) (w_oracle w).
Definition heap_wf (w : world) : Prop :=
  forall l, (w_next w <= l)%positive -> w_heap w !! l = None.

(** The world after the environment answered one question. *)
Definition asked (w : world) : world := set_oracle (tl (w_oracle w)) w.

(** The world after a successful allocation of [o]. *)
Definition granted (o : hobj) (w : world) : world :=
  set_next (Pos.succ (w_next w)) (set_heap (<[w_next w := o]> (w_heap w)) (asked w)).

Lemma oracle_ok_hd w : oracle_ok w -> (hd 0 (w_oracle w) <? 0) = false.
Proof.
  unfold oracle_ok. destruct (w_oracle w) as [|a r]; [done|]. cbn.
  inversion 1; subst. apply Z.ltb_ge. done.
Qed.

Lemma oracle_ok_tl w : oracle_ok w -> oracle_ok (asked w).
Proof. unfold oracle_ok, asked. cbn. destruct (w_oracle w); [done|]. by inversion 1. Qed.

Lemma oracle_ok_refused w : oracle_ok w -> (hd 0 (w_oracle w) <? 0) = true -> False.
Proof. intros H%oracle_ok_hd. congruence. Qed.

Lemma malloc_ok w o :
  oracle_ok w -> malloc o w = Ret (Some (w_next w)) (granted o w).
Proof. intros H. unfold malloc, bind, ask. by rewrite oracle_ok_hd. Qed.

Lemma malloc_refused w o : hd 0 (w_oracle w) < 0 -> malloc o w = Ret NULL (asked w).
Proof. intros H%Z.ltb_lt. unfold malloc, bind, ask. by rewrite H. Qed.

Lemma page_count_mono m n : m <= n -> page_count m <= page_count n.
Proof. intros H. apply Z.div_le_mono; unfold PAGE_SIZE; lia. Qed.

(** A length that covers the mapping. *)
Lemma munmap_eq w l o n :
  w_heap w !! l = Some o -> sizeof o <= n -> n <> 0 ->
  munmap (Some l) n w = Ret tt (set_heap (delete l (w_heap w)) w).
Proof.
  intros Hl Hs Hn. unfold munmap, modify. rewrite (proj2 (Z.eqb_neq n 0)), Hl by done.
  by rewrite (proj2 (Z.leb_le _ _) (page_count_mono _ _ Hs)).
Qed.

Lemma mmap_anon_ok w o :
  oracle_ok w -> sizeof o <> 0 -> mmap_anon o w = Ret (Some (w_next w)) (granted o w).
Proof.
  intros H Ho%Z.eqb_neq. unfold mmap_anon, bind, ask. by rewrite oracle_ok_hd, Ho.
Qed.

Lemma mmap_anon_refused w o : hd 0 (w_oracle w) < 0 -> mmap_anon o w = Ret NULL (asked w).
Proof. intros H%Z.ltb_lt. unfold mmap_anon, bind, ask. by rewrite H. Qed.

Lemma oracle_ok_granted w o : oracle_ok w -> oracle_ok (granted o w).
Proof. apply oracle_ok_tl. Qed.

Lemma heap_wf_granted w o : heap_wf w -> heap_wf (granted o w).
Proof.
  intros H l Hl. cbn in *. rewrite lookup_insert_ne by lia. apply H. lia.
Qed.

Lemma heap_wf_lt w l o : heap_wf w -> w_heap w !! l = Some o -> (l < w_next w)%positive.
Proof.
  intros H Hl. destruct (decide (l < w_next w)%positive) as [|Hge]; [done|].
  rewrite H in Hl by lia. done.
Qed.

Lemma fresh_world_ok oracle entries :
  Forall (fun a => 0 <= a) oracle ->
  oracle_ok (fresh_world oracle entries) /\ heap_wf (fresh_world oracle entries).
Proof. split; [done|]. intros l _. apply lookup_empty. Qed.

(** Rewriting objects that are there keeps the frontier. *)
Lemma heap_wf_set_heap w h :
  heap_wf w -> dom h ⊆ dom (w_heap w) -> heap_wf (set_heap h w).
Proof.
  intros H Hd l Hl. cbn in *. apply not_elem_of_dom. intros Hin.
  apply Hd, elem_of_dom in Hin as [o Ho]. by rewrite H in Ho.
Qed.

#[export] Hint Resolve oracle_ok_granted oracle_ok_tl heap_wf_granted : cint.

Arguments bind : simpl never.
Arguments load : simpl never.
Arguments store : simpl never.
Arguments free_loc : simpl never.
Arguments munmap : simpl never.
Arguments ask : simpl never.
Arguments alloc_obj : simpl never.
Arguments malloc : simpl never.
Arguments mmap_anon : simpl never.
Arguments load_elem : simpl never.
Arguments store_elem : simpl never.
Arguments store_int : simpl never.
Arguments load_uint : simpl never.
Arguments store_at : simpl never.
Arguments load_cstr : simpl never.
Arguments sys_open : simpl never.
Arguments sys_close : simpl never.
Arguments sys_read : simpl never.

Create HintDb crun.
#[export] Hint Resolve load_eq store_eq free_loc_eq load_block_eq load_pool_eq load_thread_eq
  load_record_eq load_section_eq load_epoch_eq load_child_eq load_global_eq load_table_eq
  load_int_eq load_ptrs_eq load_words_eq load_bytes_eq load_elem_eq store_elem_eq : crun.

(** One step of symbolic execution: the first statement is a heap access
    whose lookup is known, or it computes. *)
Ltac heap_side := cbn in *; simplify_map_eq; eauto.
Ltac crun1 :=
  first
    [ rewrite bind_assoc
    | erewrite bind_eq by (first
        [ reflexivity
        | eapply load_block_eq; heap_side; reflexivity
        | eapply load_pool_eq; heap_side; reflexivity
        | eapply load_thread_eq; heap_side; reflexivity
        | eapply load_record_eq; heap_side; reflexivity
        | eapply load_section_eq; heap_side; reflexivity
        | eapply load_epoch_eq; heap_side; reflexivity
        | eapply load_child_eq; heap_side; reflexivity
        | eapply load_global_eq; heap_side; reflexivity
        | eapply load_table_eq; heap_side; reflexivity
        | eapply load_int_eq; heap_side; reflexivity
        | eapply load_ptrs_eq; heap_side; reflexivity
        | eapply load_words_eq; heap_side; reflexivity
        | eapply load_bytes_eq; heap_side; reflexivity
        | eapply store_eq; heap_side; reflexivity
        | eapply free_loc_eq; heap_side; reflexivity ]) ].
Ltac crun := repeat (crun1; cbn).

(** The first statement does what the tactic shows. *)
Tactic Notation "cstep" tactic3(t) := cbv beta iota delta [NULL]; erewrite bind_eq by t.

(** ** What a function leaves alone

    [keeps f m]: whenever [m] returns, the part [f] of the world is as
    before.  [Framed f] says that [f] does not look at the heap, the oracle
    or the console, which every function may change. *)

Definition keeps {A B} (f : world -> B) (m : M A) : Prop :=
  forall w a w', m w = Ret a w' -> f w' = f w.

Class Framed {B} (f : world -> B) : Prop := {
  framed_heap : forall h w, f (set_heap h w) = f w;
  framed_next : forall n w, f (set_next n w) = f w;
  framed_oracle : forall o w, f (set_oracle o w) = f w;
  framed_out : forall o w, f (set_out o w) = f w
}.

#[export] Instance framed_crypto : Framed w_crypto. Proof. by split. Qed.
#[export] Instance framed_sys : Framed w_sys. Proof. by split. Qed.
#[export] Instance framed_entries : Framed w_entries. Proof. by split. Qed.
#[export] Instance framed_fds : Framed w_fds. Proof. by split. Qed.
#[export] Instance framed_fs : Framed w_fs. Proof. by split. Qed.
#[export] Instance framed_pid : Framed w_pid. Proof. by split. Qed.
#[export] Instance framed_modes : Framed w_modes. Proof. by split. Qed.
#[export] Instance framed_mods : Framed w_mods. Proof. by split. Qed.
#[export] Instance framed_links : Framed w_links. Proof. by split. Qed.
#[export] Instance framed_events : Framed w_events. Proof. by split. Qed.

Section keeps.
Context {B : Type} (f : world -> B) `{!Framed f}.

Lemma keeps_ret {A} (a : A) : keeps f (ret a).
Proof. by intros w ? ? [= _ <-]. Qed.
Lemma keeps_crash {A} : keeps f (@crash A).
Proof. done. Qed.
Lemma keeps_spin {A} : keeps f (@spin A).
Proof. done. Qed.
Lemma keeps_exit {A} c : keeps f (@exit A c).
Proof. done. Qed.
Lemma keeps_gets {A} (g : world -> A) : keeps f (gets g).
Proof. by intros w ? ? [= _ <-]. Qed.
Lemma keeps_need {A} (o : option A) : keeps f (need o).
Proof. destruct o; [apply keeps_ret|done]. Qed.
Lemma keeps_modify g : (forall w, f (g w) = f w) -> keeps f (modify g).
Proof. by intros H w ? ? [= _ <-]. Qed.

Lemma keeps_bind {A C} (m : M A) (k : A -> M C) :
  keeps f m -> (forall a, keeps f (k a)) -> keeps f (bind m k).
Proof.
  intros Hm Hk w c w'. unfold bind. destruct (m w) as [a w1| | | |] eqn:E; try done.
  intros Hc. rewrite (Hk _ _ _ _ Hc). by eapply Hm.
Qed.

Lemma keeps_write t s : keeps f (write t s).
Proof. apply keeps_modify. intros w. apply framed_out. Qed.
Lemma keeps_ask : keeps f ask.
Proof. intros w ? ? [= _ <-]. apply framed_oracle. Qed.
Lemma keeps_ask_status : keeps f ask_status.
Proof. apply keeps_bind; [apply keeps_ask|]. intros a. apply keeps_ret. Qed.
Lemma keeps_alloc_obj o : keeps f (alloc_obj o).
Proof. intros w ? ? [= _ <-]. by rewrite framed_next, framed_heap. Qed.
Lemma keeps_malloc o : keeps f (malloc o).
Proof.
  apply keeps_bind; [apply keeps_ask|]. intros a. case_match; [apply keeps_ret|apply keeps_alloc_obj].
Qed.
Lemma keeps_mmap_anon o : keeps f (mmap_anon o).
Proof.
  apply keeps_bind; [apply keeps_ask|]. intros a. case_match; [apply keeps_ret|apply keeps_alloc_obj].
Qed.
Lemma keeps_free_loc p : keeps f (free_loc p).
Proof.
  intros w a w'. unfold free_loc. destruct p; [|by intros [= _ <-]]. case_match; [|done].
  intros [= _ <-]. apply framed_heap.
Qed.
Lemma keeps_munmap p n : keeps f (munmap p n).
Proof.
  unfold munmap. repeat case_match; try apply keeps_ret. apply keeps_modify. intros w.
  case_match; [apply framed_heap|done].
Qed.
Lemma keeps_load p : keeps f (load p).
Proof. intros w a w'. unfold load. repeat case_match; try done. by intros [= _ <-]. Qed.
Lemma keeps_store p o : keeps f (store p o).
Proof. intros w a w'. unfold store. repeat case_match; try done. intros [= _ <-]. apply framed_heap. Qed.
Lemma keeps_load_bytes p : keeps f (load_bytes p).
Proof. apply keeps_bind; [apply keeps_load|]. intros o. destruct o; first [apply keeps_ret|done]. Qed.
Lemma keeps_load_ptrs p : keeps f (load_ptrs p).
Proof. apply keeps_bind; [apply keeps_load|]. intros o. destruct o; first [apply keeps_ret|done]. Qed.
Lemma keeps_load_elem p i : keeps f (load_elem p i).
Proof. apply keeps_bind; [apply keeps_load_ptrs|]. intros ps. apply keeps_need. Qed.
Lemma keeps_store_elem p i v : keeps f (store_elem p i v).
Proof.
  apply keeps_bind; [apply keeps_load_ptrs|]. intros ps. apply keeps_bind; [apply keeps_need|].
  intros ps'. apply keeps_store.
Qed.
Lemma keeps_store_int p n z : keeps f (store_int p n z).
Proof.
  apply keeps_bind; [apply keeps_load_bytes|]. intros bs. apply keeps_bind; [apply keeps_need|].
  intros bs'. apply keeps_store.
Qed.
Lemma keeps_load_uint p n : keeps f (load_uint p n).
Proof.
  apply keeps_bind; [apply keeps_load_bytes|]. intros bs. apply keeps_bind; [apply keeps_need|].
  intros bs'. apply keeps_ret.
Qed.
Lemma keeps_store_at p n new : keeps f (store_at p n new).
Proof.
  apply keeps_bind; [apply keeps_load_bytes|]. intros bs. apply keeps_bind; [apply keeps_need|].
  intros bs'. apply keeps_store.
Qed.
Lemma keeps_load_cstr p : keeps f (load_cstr p).
Proof. apply keeps_bind; [apply keeps_load_bytes|]. intros bs. apply keeps_need. Qed.
Lemma keeps_sys_read p n : keeps f (sys_read p n).
Proof.
  apply keeps_bind; [apply keeps_ask|]. intros a. case_match; [apply keeps_ret|].
  apply keeps_bind; [apply keeps_ask|]. intros c. apply keeps_bind; [apply keeps_store_at|].
  intros _. apply keeps_ret.
Qed.
Lemma keeps_asprintf s : keeps f (asprintf s).
Proof. apply keeps_bind; [apply keeps_ask|]. intros a. apply keeps_ret. Qed.
End keeps.

Create HintDb keeps.
#[export] Hint Resolve keeps_ret keeps_crash keeps_spin keeps_exit keeps_gets keeps_need keeps_write
  keeps_ask keeps_ask_status keeps_alloc_obj keeps_malloc keeps_mmap_anon keeps_free_loc keeps_munmap
  keeps_load keeps_store keeps_load_bytes keeps_load_ptrs keeps_load_elem keeps_store_elem keeps_store_int
  keeps_load_uint keeps_store_at keeps_load_cstr keeps_sys_read keeps_asprintf : keeps.

(** Walk through a function statement by statement. *)
Ltac keep := repeat first
  [ solve [eauto 2 with keeps typeclass_instances]
  | apply keeps_bind; [|intros]
  | case_match ].

(** A function that only consults the environment and the console leaves a
    world that differs in nothing else. *)
Definition env_step (w w' : world) : Prop :=
  exists o x, w' = set_out x (set_oracle o w).

Lemma env_step_refl w : env_step w w.
Proof. exists (w_oracle w), (w_out w). by destruct w. Qed.

Lemma env_step_trans w1 w2 w3 : env_step w1 w2 -> env_step w2 w3 -> env_step w1 w3.
Proof. intros (o & x & ->) (o' & x' & ->). by exists o', x'. Qed.

Lemma answers_hd o : Forall (fun a => 0 <= a) o -> 0 <= hd 0 o.
Proof. destruct o; [done|]. by inversion 1. Qed.
Lemma answers_tl o : Forall (fun a => 0 <= a) o -> Forall (fun a => 0 <= a) (tl o).
Proof. destruct o; [done|]. by inversion 1. Qed.
#[export] Hint Resolve answers_hd answers_tl : cint.

(** Answers consumed and messages printed. *)
Lemma env_asked w : env_step w (asked w).
Proof. exists (tl (w_oracle w)), (w_out w). by destruct w. Qed.
Lemma env_write w t s : env_step w (set_out ((t, s) :: w_out w) w).
Proof. exists (w_oracle w), ((t, s) :: w_out w). by destruct w. Qed.

Lemma wp_ask (Q : Z -> world -> Prop) w : (forall a, Q a (asked w)) -> wp ask Q w.
Proof. intros H. apply H. Qed.
Lemma wp_answer (Q : Z -> world -> Prop) w : Q (hd 0 (w_oracle w)) (asked w) -> wp ask Q w.
Proof. done. Qed.
(** A refusal or a value. *)
Lemma wp_asprintf s w (Q : option string -> world -> Prop) :
  (~ oracle_ok w -> Q None (asked w)) -> Q (Some s) (asked w) -> wp (asprintf s) Q w.
Proof.
  intros HN HS. apply wp_bind, wp_answer, wp_ret. destruct (hd 0 (w_oracle w) <? 0) eqn:E; [|done].
  apply HN. intros Ho. by eapply oracle_ok_refused.
Qed.
Lemma wp_gets {A} (g : world -> A) (Q : A -> world -> Prop) w : Q (g w) w -> wp (gets g) Q w.
Proof. done. Qed.
Lemma wp_modify g (Q : unit -> world -> Prop) w : Q tt (g w) -> wp (modify g) Q w.
Proof. done. Qed.
Lemma wp_write t s (Q : unit -> world -> Prop) w : Q tt (set_out ((t, s) :: w_out w) w) -> wp (write t s) Q w.
Proof. done. Qed.

(** Integers stored in a buffer. *)
Lemma store_int_eq w l bs k z :
  w_heap w !! l = Some (OBytes bs) -> (k <= length bs)%nat ->
  store_int (Some l) k z w =
    Ret tt (set_heap (<[l := OBytes (map Some (le_bytes k z) ++ drop k bs)]> (w_heap w)) w).
Proof.
  intros Hl Hk. unfold store_int. erewrite bind_eq by (by apply load_bytes_eq).
  unfold put_bytes. rewrite length_le_bytes, decide_True by done.
  erewrite bind_eq by reflexivity. by apply store_eq with (OBytes bs).
Qed.

Lemma store_int_overflow w l bs k z :
  w_heap w !! l = Some (OBytes bs) -> (length bs < k)%nat -> store_int (Some l) k z w = Crash.
Proof.
  intros Hl Hk. unfold store_int. erewrite bind_eq by (by apply load_bytes_eq).
  unfold put_bytes. rewrite length_le_bytes, decide_False by lia. done.
Qed.
