(* ===== verification/Io.v ===== *)
(** * Io: the console (io/io.c) and the static variables of the modules

    [console_output] is the [write] of CWorld.v: the message and
    its kind are recorded, the format arguments are not expanded.  [verbose]
    is stored and never read (the test that would read it is commented out).

    Each module that keeps static variables has its part of [w_mods]; here
    are the functions that replace one part. *)

From S2P Require Import Prelude Types CWorld.

(** The struct has one member, a function pointer. *)
Definition get_console_writter : M ptr :=
  let! console := malloc (junk 8) in
  match console with
  | None => printf "Failed to allocate console writter\n" ;;; ret NULL
  | Some _ => ret console
  end.

(** The deprecated [output] has the body of [console_output]. *)
Definition output (t : out_type) (s : string) : M unit := write t s.

(** ** Static variables *)

Definition get_mods {A} (f : module_statics -> A) : M A := gets (fun w => f (w_mods w)).
Definition mod_mods (f : module_statics -> module_statics) : M unit :=
  modify (fun w => set_mods (f (w_mods w)) w).

Definition set_m_rsrc (r : rsrc_statics) (m : module_statics) : module_statics :=
  MkMods r (m_net m) (m_file m) (m_gen m) (m_plugin_count m) (m_plugins m) (m_verbose m).
Definition set_m_net (n : net_statics) (m : module_statics) : module_statics :=
  MkMods (m_rsrc m) n (m_file m) (m_gen m) (m_plugin_count m) (m_plugins m) (m_verbose m).
Definition set_m_file (f : file_statics) (m : module_statics) : module_statics :=
  MkMods (m_rsrc m) (m_net m) f (m_gen m) (m_plugin_count m) (m_plugins m) (m_verbose m).
Definition set_m_gen (g : gen_statics) (m : module_statics) : module_statics :=
  MkMods (m_rsrc m) (m_net m) (m_file m) g (m_plugin_count m) (m_plugins m) (m_verbose m).
Definition set_m_plugin_count (n : Z) (m : module_statics) : module_statics :=
  MkMods (m_rsrc m) (m_net m) (m_file m) (m_gen m) n (m_plugins m) (m_verbose m).
Definition set_m_verbose (v : Z) (m : module_statics) : module_statics :=
  MkMods (m_rsrc m) (m_net m) (m_file m) (m_gen m) (m_plugin_count m) (m_plugins m) v.

Definition mod_rsrc (f : rsrc_statics -> rsrc_statics) : M unit := mod_mods (fun m => set_m_rsrc (f (m_rsrc m)) m).
Definition mod_net (f : net_statics -> net_statics) : M unit := mod_mods (fun m => set_m_net (f (m_net m)) m).
Definition mod_file (f : file_statics -> file_statics) : M unit := mod_mods (fun m => set_m_file (f (m_file m)) m).
Definition mod_gen (f : gen_statics -> gen_statics) : M unit := mod_mods (fun m => set_m_gen (f (m_gen m)) m).

Definition set_verbosity (val : Z) : M unit := mod_mods (set_m_verbose val).

(** ** A strongest-postcondition view of allocation and console *)

(** [w'] has the heap objects of [w], and possibly more; files, descriptors,
    static variables and events are the same. *)
Record allocates (w w' : world) : Prop := {
  al_heap : forall l o, w_heap w !! l = Some o -> w_heap w' !! l = Some o;
  al_next : (w_next w <= w_next w')%positive;
  al_wf : heap_wf w -> heap_wf w';
  al_rest : w_events w' = w_events w /\ w_fs w' = w_fs w /\ w_fds w' = w_fds w /\ w_pid w' = w_pid w /\
    w_crypto w' = w_crypto w /\ w_sys w' = w_sys w /\ w_entries w' = w_entries w /\
    w_modes w' = w_modes w /\ w_mods w' = w_mods w
}.

#[export] Instance allocates_preorder : PreOrder allocates.
Proof.
  split; [intros w; split; [auto|lia|auto|by split_and!]|].
  intros w1 w2 w3 [] []. split; [auto|lia|auto|]. intuition congruence.
Qed.

Lemma allocates_env w w' : env_step w w' -> allocates w w'.
Proof. intros (o & x & ->). split; [done..|]. by split_and!. Qed.

Lemma allocates_granted w o : heap_wf w -> allocates w (granted o w).
Proof.
  intros Hwf. split.
  - intros l x Hl. cbn. rewrite lookup_insert_ne; [done|]. pose proof (heap_wf_lt _ _ _ Hwf Hl). lia.
  - cbn. lia.
  - apply heap_wf_granted.
  - by split_and!.
Qed.

(** [allocs Q m]: from every world with a well-formed heap [m] returns, it
    has at most allocated and printed, and its result satisfies [Q]. *)
Definition allocs {A} (Q : A -> Prop) (m : M A) : Prop :=
  forall w, heap_wf w -> wp m (fun a w' => allocates w w' /\ Q a) w.

Section allocs.
Lemma allocs_bind {A B} (P : A -> Prop) (Q : B -> Prop) (m : M A) (k : A -> M B) :
  allocs P m -> (forall a, P a -> allocs Q (k a)) -> allocs Q (bind m k).
Proof.
  intros Hm Hk w Hwf. apply wp_bind. eapply wp_mono; [by apply Hm|]. intros a w1 [H1 Hp].
  eapply wp_mono; [apply (Hk a Hp w1); by apply (al_wf _ _ H1)|]. intros b w2 [H2 Hq]. split; [by etrans|done].
Qed.
Lemma allocs_ret {A} (Q : A -> Prop) a : Q a -> allocs Q (ret a).
Proof. intros Hq w _. apply wp_ret. split; [reflexivity|done]. Qed.
Lemma allocs_mono {A} (P Q : A -> Prop) (m : M A) : allocs P m -> (forall a, P a -> Q a) -> allocs Q m.
Proof. intros Hm Hpq w Hwf. eapply wp_mono; [by apply Hm|]. intros a w' [H1 H2]. auto. Qed.
Lemma allocs_write t s : allocs (fun _ => True) (write t s).
Proof. intros w _. apply wp_write. split; [apply allocates_env, env_write|done]. Qed.
Lemma allocs_ask : allocs (fun _ => True) ask.
Proof. intros w _. apply wp_ask. intros a. split; [apply allocates_env, env_asked|done]. Qed.
Lemma allocs_gets {A} (g : world -> A) : allocs (fun _ => True) (gets g).
Proof. intros w _. apply wp_gets. split; [reflexivity|done]. Qed.
Lemma allocs_malloc o : allocs (fun _ => True) (malloc o).
Proof.
  intros w Hwf. apply wp_bind, wp_ask. intros a. case_match.
  - apply wp_ret. split; [apply allocates_env, env_asked|done].
  - split; [|done]. exact (allocates_granted w o Hwf).
Qed.
Lemma allocs_error {A} (Q : A -> Prop) t s a : Q a -> allocs Q (write t s ;;; ret a).
Proof. intros Hq. eapply allocs_bind; [apply allocs_write|]. intros _ _. by apply allocs_ret. Qed.
End allocs.

Lemma allocs_console : allocs (fun _ => True) get_console_writter.
Proof.
  eapply allocs_bind; [apply allocs_malloc|]. intros [l|] _; [by apply allocs_ret|by apply allocs_error].
Qed.

Create HintDb allocs.
#[export] Hint Resolve allocs_ret allocs_write allocs_ask allocs_gets allocs_malloc allocs_console : allocs.
