(* ===== verification/Memory.v ===== *)
(** * Memory: the allocators and the shared memory pool (memory/memory.c)

    The default allocator ([get_default_allocator]), the deprecated
    [mem_*] functions, the intrusive singly-linked lists of the vendored
    concurrency kit (ck_queue.h) the pool is built from, its spinlock
    (spinlock/fas.h) and the pool operations. *)

From S2P Require Import Prelude Types CWorld.

(** ** The allocator interface (struct memory_allocator, memory.h)

    The members are the function pointers of the struct.  [free] and
    [free_shared] take [void **ptr]: they are given the pointer stored there
    and answer what they leave in its place. *)
Record memory_allocator := MkAllocator {
  alloc : hobj -> M ptr;
  shared : hobj -> M ptr;
  free : ptr -> M ptr;
  free_shared : ptr -> Z -> M ptr
}.

(** ** Heap allocation *)

Definition default_mem_alloc (o : hobj) : M ptr :=
  if sizeof o =? 0 then ret NULL
  else
    let! p := malloc o in
    match p with
    | None => ret NULL
    | Some _ => ret p
    end.

Definition default_mem_alloc_shared (o : hobj) : M ptr :=
  let! pointer := mmap_anon o in
  match pointer with
  | None => ret NULL
  | Some _ => ret pointer
  end.

Definition mem_alloc (o : hobj) : M ptr :=
  if sizeof o =? 0 then
    printf "Can't allocate zero bytes\n" ;;;
    ret NULL
  else
    let! p := malloc o in
    match p with
    | None => printf "Can't allocate: %llu bytes, because: %s\n" ;;; ret NULL
    | Some _ => ret p
    end.

(** [memset(ptr, 0, nbytes)] never answers [NULL] for a valid [ptr]. *)
Definition mem_calloc (nbytes : Z) : M ptr :=
  if nbytes =? 0 then
    printf "nbytes is zero\n" ;;;
    ret NULL
  else
    let! p := mem_alloc (junk nbytes) in
    match p with
    | None => printf "Can't allocate buf\n" ;;; ret NULL
    | Some _ => store p (zeros nbytes) ;;; ret p
    end.

Definition mem_free (p : ptr) : M ptr :=
  match p with
  | None => ret p
  | Some _ => free_loc p ;;; ret NULL
  end.

Definition mem_alloc_shared (o : hobj) : M ptr :=
  let! pointer := mmap_anon o in
  match pointer with
  | None => printf "mmap: %s\n" ;;; ret NULL
  | Some _ => ret pointer
  end.

Definition mem_calloc_shared (nbytes : Z) : M ptr :=
  if nbytes =? 0 then
    printf "nbytes is zero\n" ;;;
    ret NULL
  else
    let! pointer := mmap_anon (zeros nbytes) in
    match pointer with
    | None => printf "mmap: %s\n" ;;; ret NULL
    | Some _ => store pointer (zeros nbytes) ;;; ret pointer
    end.

Definition mem_free_shared (p : ptr) (nbytes : Z) : M ptr :=
  match p with
  | None => ret p
  | Some _ => munmap p nbytes ;;; ret NULL
  end.

Definition default_mem_free (p : ptr) : M ptr :=
  match p with
  | None => ret p
  | Some _ => free_loc p ;;; ret NULL
  end.

Definition default_mem_free_shared (p : ptr) (nbytes : Z) : M ptr :=
  match p with
  | None => ret p
  | Some _ => munmap p nbytes ;;; ret NULL
  end.

Definition default_allocator : memory_allocator :=
  MkAllocator default_mem_alloc default_mem_alloc_shared default_mem_free
    default_mem_free_shared.

(** The struct itself lives on the heap (32 bytes); its members are the
    functions above. *)
Definition get_default_allocator : M (option memory_allocator) :=
  let! allocator := default_mem_alloc (junk 32) in
  match allocator with
  | None => ret None
  | Some _ => ret (Some default_allocator)
  end.

Lemma wp_alloc_default o w (Q : ptr -> world -> Prop) :
  sizeof o <> 0 -> (~ oracle_ok w -> Q NULL (asked w)) -> Q (Some (w_next w)) (granted o w) ->
  wp (alloc default_allocator o) Q w.
Proof.
  intros Hs%Z.eqb_neq HN HS. cbn [alloc default_allocator]. unfold default_mem_alloc, malloc. rewrite Hs.
  apply wp_bind, wp_bind, wp_answer. destruct (hd 0 (w_oracle w) <? 0) eqn:E; [|done].
  apply wp_ret, wp_ret, HN. intros Ho. by eapply oracle_ok_refused.
Qed.

(** ** Singly-linked lists (deps/ck-0.5.2/include/ck_queue.h)

    The two lists of a pool; [head] selects one. *)
Inductive pool_list := FreeList | AllocatedList.

Definition slh_first (wl : pool_list) (p : mem_pool_shared) : ptr :=
  match wl with FreeList => free_list p | AllocatedList => allocated_list p end.

Definition set_slh_first (wl : pool_list) (v : ptr) (p : mem_pool_shared) : mem_pool_shared :=
  match wl with
  | FreeList => MkPool (pool_lock p) (block_size p) (block_count p) v (allocated_list p)
  | AllocatedList => MkPool (pool_lock p) (block_size p) (block_count p) (free_list p) v
  end.

Definition NX_SLIST_INIT (pool : ptr) (wl : pool_list) : M unit :=
  let! p := load_pool pool in
  store pool (OPool (set_slh_first wl NULL p)).

Definition NX_SLIST_INSERT_HEAD (pool : ptr) (wl : pool_list) (elm : ptr) : M unit :=
  let! p := load_pool pool in
  let! b := load_block elm in
  store elm (OBlock (MkBlock (block_ptr b) (slh_first wl p))) ;;;
  let! p := load_pool pool in
  store pool (OPool (set_slh_first wl elm p)).

Definition CK_SLIST_REMOVE_HEAD (pool : ptr) (wl : pool_list) : M unit :=
  let! p := load_pool pool in
  let! b := load_block (slh_first wl p) in
  store pool (OPool (set_slh_first wl (sle_next b) p)).

(** [while(curelm->field.sle_next != (elm)) curelm = curelm->field.sle_next]:
    the element before [elm].  A walk over more elements than the heap has
    objects goes round a cycle. *)
Fixpoint slist_before (fuel : nat) (curelm elm : ptr) : M ptr :=
  match fuel with
  | O => spin
  | S n =>
      let! b := load_block curelm in
      if decide (sle_next b = elm) then ret curelm
      else slist_before n (sle_next b) elm
  end.

Definition CK_SLIST_REMOVE_AFTER (elm : ptr) : M unit :=
  let! b := load_block elm in
  let! nb := load_block (sle_next b) in
  store elm (OBlock (MkBlock (block_ptr b) (sle_next nb))).

Definition NX_SLIST_REMOVE (pool : ptr) (wl : pool_list) (elm : ptr) : M unit :=
  let! p := load_pool pool in
  if decide (slh_first wl p = elm) then CK_SLIST_REMOVE_HEAD pool wl
  else
    let! n := gets (fun w => S (size (w_heap w))) in
    let! curelm := slist_before n (slh_first wl p) elm in
    CK_SLIST_REMOVE_AFTER curelm.

(** ** The pool's spinlock (deps/ck-0.5.2/include/spinlock/fas.h)

    Taking a lock that is held spins until another process releases it; in a
    run of this process alone that is for ever. *)
Definition set_lock (v : Z) (p : mem_pool_shared) : mem_pool_shared :=
  MkPool v (block_size p) (block_count p) (free_list p) (allocated_list p).

Definition nx_spinlock_lock (pool : ptr) : M unit :=
  let! p := load_pool pool in
  if pool_lock p =? 0 then store pool (OPool (set_lock 1 p)) else spin.

Definition nx_spinlock_unlock (pool : ptr) : M unit :=
  let! p := load_pool pool in
  store pool (OPool (set_lock 0 p)).

(** ** Pool operations *)

Definition mem_clean_shared_pool (pool : ptr) : M unit :=
  match pool with
  | None => ret tt
  | Some _ => ret tt
  end.

(** The loop of [mem_create_shared_pool]: [n] blocks are still to be made;
    [false] when an allocation failed. *)
Fixpoint create_blocks (n : nat) (pool : ptr) (block_size : Z) : M bool :=
  match n with
  | O => ret true
  | S n' =>
      let! block := default_mem_alloc_shared (OBlock (MkBlock NULL NULL)) in
      match block with
      | None => printf "Can't alloc mem_block\n" ;;; ret false
      | Some _ =>
          let! buf := default_mem_alloc_shared (zeros block_size) in
          let! b := load_block block in
          store block (OBlock (MkBlock buf (sle_next b))) ;;;
          match buf with
          | None => printf "Can't alloc memory block pointer.\n" ;;; ret false
          | Some _ =>
              NX_SLIST_INSERT_HEAD pool FreeList block ;;;
              create_blocks n' pool block_size
          end
      end
  end.

Definition mem_create_shared_pool (block_size block_count : Z) : M ptr :=
  if block_size =? 0 then printf "block_size is zero\n" ;;; ret NULL
  else if block_count =? 0 then printf "block_count is zero\n" ;;; ret NULL
  else
    let! pool := default_mem_alloc_shared (OPool (MkPool 0 0 0 NULL NULL)) in
    match pool with
    | None => printf "Can't allocate shared memory\n" ;;; ret NULL
    | Some _ =>
        store pool (OPool (MkPool 0 block_size block_count NULL NULL)) ;;;
        NX_SLIST_INIT pool FreeList ;;;
        NX_SLIST_INIT pool AllocatedList ;;;
        let! ok := create_blocks (Z.to_nat block_count) pool block_size in
        if ok : bool then ret pool else ret NULL
    end.

(** One turn of the [while(1)] loop of [mem_get_shared_block]: the block at
    the head of the free list, or [NULL] when the list is empty. *)
Definition try_get_shared_block (pool : ptr) : M ptr :=
  nx_spinlock_lock pool ;;;
  let! p := load_pool pool in
  match free_list p with
  | Some b =>
      let block := Some b in
      NX_SLIST_REMOVE pool FreeList block ;;;
      NX_SLIST_INSERT_HEAD pool AllocatedList block ;;;
      nx_spinlock_unlock pool ;;;
      ret block
  | None =>
      nx_spinlock_unlock pool ;;;
      ret NULL
  end.

Fixpoint mem_get_shared_block (fuel : nat) (pool : ptr) : M ptr :=
  match fuel with
  | O => spin
  | S n =>
      let! block := try_get_shared_block pool in
      match block with
      | Some _ => ret block
      | None => mem_get_shared_block n pool
      end
  end.

Definition mem_free_shared_block (block pool : ptr) : M unit :=
  match block with
  | None => printf "Block is NULL\n"
  | Some _ =>
      match pool with
      | None => printf "Pool is NULL\n"
      | Some _ =>
          nx_spinlock_lock pool ;;;
          NX_SLIST_REMOVE pool AllocatedList block ;;;
          NX_SLIST_INSERT_HEAD pool FreeList block ;;;
          nx_spinlock_unlock pool
      end
  end.

(** ** Representation

    [slist h d p ls]: from [p] the heap [h] links the blocks [ls] in order,
    and each block [l] holds the data pointer [d l]. *)
Fixpoint slist (h : gmap loc hobj) (d : loc -> ptr) (p : ptr) (ls : list loc) : Prop :=
  match ls with
  | [] => p = NULL
  | l :: ls' =>
      p = Some l /\
      exists nx, h !! l = Some (OBlock (MkBlock (d l) nx)) /\ slist h d nx ls'
  end.

Arguments slist : simpl never.

(** [pool_repr h pl lk d fr al]: at [pl] there is a pool whose lock word is
    [lk], with free blocks [fr] and allocated blocks [al], no block twice. *)
Definition pool_repr (h : gmap loc hobj) (pl : loc) (lk : Z) (d : loc -> ptr)
    (fr al : list loc) : Prop :=
  exists p, h !! pl = Some (OPool p) /\ pool_lock p = lk /\
    slist h d (free_list p) fr /\ slist h d (allocated_list p) al /\ NoDup (fr ++ al).

(** Everything outside the pool and its blocks is as before. *)
Definition pool_frame (h h' : gmap loc hobj) (pl : loc) (ls : list loc) : Prop :=
  forall l, l <> pl -> l ∉ ls -> h' !! l = h !! l.

Section slist_lemmas.
Implicit Types (h : gmap loc hobj) (d : loc -> ptr).

Lemma slist_block h d p ls l :
  slist h d p ls -> l ∈ ls -> exists nx, h !! l = Some (OBlock (MkBlock (d l) nx)).
Proof.
  revert p; induction ls as [|a ls IH]; intros p Hs Hl; [by apply not_elem_of_nil in Hl|].
  destruct Hs as (-> & nx & Hlk & Hs). apply elem_of_cons in Hl as [->|Hl]; eauto.
Qed.

Lemma slist_frame h h' d p ls :
  (forall l, l ∈ ls -> h' !! l = h !! l) -> slist h d p ls -> slist h' d p ls.
Proof.
  revert p; induction ls as [|a ls IH]; intros p Hf Hs; [done|].
  destruct Hs as (-> & nx & Hlk & Hs). split; [done|]. exists nx.
  rewrite Hf by set_solver. split; [done|]. apply IH; set_solver.
Qed.

(** Writing a pool never touches a list. *)
Lemma slist_pool h d p ls pl q q' :
  h !! pl = Some (OPool q) -> slist h d p ls -> slist (<[pl := OPool q']> h) d p ls.
Proof.
  intros Hp Hs. refine (slist_frame _ _ _ _ _ _ Hs). intros l Hl.
  destruct (slist_block _ _ _ _ _ Hs Hl) as [nx Hnx].
  apply lookup_insert_ne. congruence.
Qed.

Lemma slist_not_in h d p ls l o :
  l ∉ ls -> slist h d p ls -> slist (<[l := o]> h) d p ls.
Proof.
  intros Hl. apply slist_frame. intros l' Hl'. apply lookup_insert_ne. set_solver.
Qed.

(** The blocks of a list are objects of the heap, so a list is never longer
    than the heap. *)
Lemma slist_length h d p ls : NoDup ls -> slist h d p ls -> (length ls <= size h)%nat.
Proof.
  intros Hnd Hs. rewrite <- size_dom, <- (size_list_to_set (C := gset loc) ls) by done.
  apply subseteq_size. intros l Hl%elem_of_list_to_set.
  apply elem_of_dom. destruct (slist_block _ _ _ _ _ Hs Hl) as [nx ->]. done.
Qed.
End slist_lemmas.

(** ** List operations against the representation *)

Lemma insert_head_spec w pl p d wl elm nx ls :
  w_heap w !! pl = Some (OPool p) ->
  w_heap w !! elm = Some (OBlock (MkBlock (d elm) nx)) ->
  elm ∉ ls -> slist (w_heap w) d (slh_first wl p) ls ->
  exists h', NX_SLIST_INSERT_HEAD (Some pl) wl (Some elm) w = Ret tt (set_heap h' w) /\
    h' !! pl = Some (OPool (set_slh_first wl (Some elm) p)) /\
    slist h' d (Some elm) (elm :: ls) /\
    (forall l, l <> pl -> l <> elm -> h' !! l = w_heap w !! l).
Proof.
  intros Hp Hb Hnin Hs. unfold NX_SLIST_INSERT_HEAD.
  assert (Hne : elm <> pl) by congruence.
  crun. erewrite store_eq by (heap_side; reflexivity). eexists. split; [reflexivity|]. cbn.
  split; [by simplify_map_eq|]. split.
  - split; [done|]. exists (slh_first wl p). rewrite lookup_insert_ne, lookup_insert_eq by done.
    split; [done|]. eapply slist_pool; [by rewrite lookup_insert_ne|]. by apply slist_not_in.
  - intros l H1 H2. by rewrite !lookup_insert_ne by done.
Qed.

Lemma slist_before_spec w d l1 c l l2 p fuel :
  slist (w_heap w) d p (l1 ++ c :: l :: l2) -> NoDup (l1 ++ c :: l :: l2) ->
  (length l1 < fuel)%nat -> slist_before fuel p (Some l) w = Ret (Some c) w.
Proof.
  revert p fuel; induction l1 as [|a l1 IH]; intros p fuel Hs Hnd Hf.
  - destruct fuel as [|n]; [simpl in Hf; lia|]. cbn [slist_before].
    destruct Hs as (-> & nx & Hlk & -> & _). crun. by rewrite decide_True.
  - destruct fuel as [|n]; [simpl in Hf; lia|]. cbn [slist_before].
    destruct Hs as (-> & nx & Hlk & Hs). apply NoDup_cons in Hnd as [Ha Hnd]. crun.
    cbn. rewrite decide_False.
    + apply IH; [done..|simpl in Hf; lia].
    + intros ->. destruct l1 as [|a' l1]; destruct Hs as ([= <-] & _ & _ & _).
      * apply NoDup_cons in Hnd as [Hl _]. set_solver.
      * apply NoDup_cons in Hnd as [Hl _]. set_solver.
Qed.

Lemma set_slh_first_id wl p : set_slh_first wl (slh_first wl p) p = p.
Proof. by destruct wl, p. Qed.

(** Relinking around an element leaves the list without it. *)
Lemma slist_unlink h d l1 c l l2 p nx :
  slist h d p (l1 ++ c :: l :: l2) -> NoDup (l1 ++ c :: l :: l2) ->
  h !! l = Some (OBlock (MkBlock (d l) nx)) ->
  slist (<[c := OBlock (MkBlock (d c) nx)]> h) d p (l1 ++ c :: l2).
Proof.
  revert p; induction l1 as [|a l1 IH]; intros p Hs Hnd Hl.
  - destruct Hs as (-> & nx' & Hc & -> & nx'' & Hl' & Hs).
    rewrite Hl in Hl'. injection Hl' as <-.
    split; [done|]. exists nx. rewrite lookup_insert_eq. split; [done|].
    apply slist_not_in; [|done]. apply NoDup_cons in Hnd as [Hc' _]. set_solver.
  - destruct Hs as (-> & nx' & Ha & Hs). apply NoDup_cons in Hnd as [Hna Hnd].
    split; [done|]. exists nx'. rewrite lookup_insert_ne by set_solver.
    split; [done|]. by apply IH.
Qed.

Lemma remove_spec w pl p d wl l1 l l2 :
  w_heap w !! pl = Some (OPool p) ->
  slist (w_heap w) d (slh_first wl p) (l1 ++ l :: l2) -> NoDup (l1 ++ l :: l2) ->
  exists h' hd, NX_SLIST_REMOVE (Some pl) wl (Some l) w = Ret tt (set_heap h' w) /\
    h' !! pl = Some (OPool (set_slh_first wl hd p)) /\
    slist h' d hd (l1 ++ l2) /\
    (forall x, x <> pl -> x ∉ l1 -> h' !! x = w_heap w !! x).
Proof.
  intros Hp Hs Hnd. unfold NX_SLIST_REMOVE. crun.
  assert (Hl : exists nx, w_heap w !! l = Some (OBlock (MkBlock (d l) nx)))
    by (apply (slist_block _ _ _ _ _ Hs); set_solver).
  destruct Hl as [nx Hl]. destruct l1 as [|c l1 _] using rev_ind.
  - destruct Hs as (Hhd & nx' & Hl' & Hs). rewrite Hl in Hl'. injection Hl' as <-.
    rewrite decide_True by done. unfold CK_SLIST_REMOVE_HEAD. crun. rewrite Hhd. crun.
    erewrite store_eq by done. do 2 eexists. split; [reflexivity|]. cbn.
    split; [by simplify_map_eq|]. split; [by eapply slist_pool|].
    intros x Hx _. by rewrite lookup_insert_ne.
  - rewrite <- app_assoc in Hs, Hnd. cbn in Hs, Hnd.
    rewrite decide_False.
    2: { intros Heq. destruct l1 as [|a l1]; destruct Hs as (Hhd & _);
         rewrite Hhd in Heq; injection Heq as ->; apply NoDup_cons_1_1 in Hnd; set_solver. }
    erewrite bind_eq by reflexivity.
    erewrite bind_eq; [|eapply slist_before_spec; [done..|]].
    2: { pose proof (slist_length _ _ _ _ Hnd Hs). rewrite length_app in *. cbn in *. lia. }
    assert (Hc : exists nx', w_heap w !! c = Some (OBlock (MkBlock (d c) nx')))
      by (apply (slist_block _ _ _ _ _ Hs); set_solver).
    assert (Hcn : w_heap w !! c = Some (OBlock (MkBlock (d c) (Some l)))).
    { clear -Hs. revert Hs. generalize (slh_first wl p).
      induction l1 as [|a l1 IH]; intros q Hs; destruct Hs as (-> & nx & Hc & Hs); [|eauto].
      by destruct Hs as (-> & _). }
    unfold CK_SLIST_REMOVE_AFTER. crun. cbn. crun. erewrite store_eq by done.
    eexists _, (slh_first wl p). split; [reflexivity|]. cbn.
    split; [rewrite lookup_insert_ne by congruence; by rewrite Hp, set_slh_first_id|].
    split; [|intros x _ Hx; rewrite lookup_insert_ne; [done|set_solver]].
    rewrite <- app_assoc. by eapply slist_unlink.
Qed.

(** ** The pool operations against the representation *)

Lemma lock_spec w pl p :
  w_heap w !! pl = Some (OPool p) -> pool_lock p = 0 ->
  nx_spinlock_lock (Some pl) w =
    Ret tt (set_heap (<[pl := OPool (set_lock 1 p)]> (w_heap w)) w).
Proof. intros Hp Hl. unfold nx_spinlock_lock. crun. rewrite Hl. cbn. by apply store_eq with (OPool p). Qed.

Lemma unlock_spec w pl p :
  w_heap w !! pl = Some (OPool p) ->
  nx_spinlock_unlock (Some pl) w =
    Ret tt (set_heap (<[pl := OPool (set_lock 0 p)]> (w_heap w)) w).
Proof. intros Hp. unfold nx_spinlock_unlock. crun. by apply store_eq with (OPool p). Qed.

(** Taking [l] out of one list and putting it at the head of the other, with
    the lock held throughout: the common part of the two pool operations. *)
Lemma move_block_spec w pl p d src dst l1 l l2 ls :
  src <> dst ->
  w_heap w !! pl = Some (OPool p) ->
  slist (w_heap w) d (slh_first src p) (l1 ++ l :: l2) ->
  slist (w_heap w) d (slh_first dst p) ls ->
  NoDup ((l1 ++ l :: l2) ++ ls) ->
  exists h' hd, (NX_SLIST_REMOVE (Some pl) src (Some l) ;;;
             NX_SLIST_INSERT_HEAD (Some pl) dst (Some l) ;;;
             nx_spinlock_unlock (Some pl)) w = Ret tt (set_heap h' w) /\
    h' !! pl = Some (OPool (set_lock 0 (set_slh_first dst (Some l) (set_slh_first src hd p)))) /\
    slist h' d hd (l1 ++ l2) /\ slist h' d (Some l) (l :: ls) /\
    pool_frame (w_heap w) h' pl ((l1 ++ l :: l2) ++ ls).
Proof.
  intros Hsd Hp Hs1 Hs2 Hnd.
  apply NoDup_app in Hnd as (Hnd1 & Hdis & Hnd2).
  assert (Hnl : l ∉ l1 ++ l2) by (apply NoDup_app in Hnd1 as (_ & ? & []%NoDup_cons); set_solver).
  destruct (remove_spec _ _ _ _ _ _ _ _ Hp Hs1 Hnd1) as (h1 & hd & Hr & Hp1 & Hl1 & Hf1).
  erewrite bind_eq by done.
  assert (Hne : forall x, x ∈ (l1 ++ l :: l2) ++ ls -> x <> pl).
  { intros x [Hx|Hx]%elem_of_app ->;
      [destruct (slist_block _ _ _ _ _ Hs1 Hx)|destruct (slist_block _ _ _ _ _ Hs2 Hx)]; congruence. }
  assert (Hs2' : slist h1 d (slh_first dst (set_slh_first src hd p)) ls).
  { replace (slh_first dst (set_slh_first src hd p)) with (slh_first dst p) by (by destruct src, dst).
    refine (slist_frame _ _ _ _ _ _ Hs2). intros x Hx. apply Hf1; [set_solver|].
    intros ?. eapply Hdis; [|done]. set_solver. }
  destruct (slist_block _ _ _ _ l Hs1 ltac:(set_solver)) as [nx Hl].
  rewrite <- Hf1 in Hl by set_solver.
  destruct (insert_head_spec (set_heap h1 w) pl _ d dst l nx ls Hp1 Hl) as (h2 & Hi & Hp2 & Hl2 & Hf2);
    [set_solver|done|].
  erewrite bind_eq by done. cbn in Hi.
  erewrite unlock_spec by done. do 2 eexists. split; [reflexivity|].
  split; [by simplify_map_eq|]. split; [|split].
  - eapply slist_pool; [done|]. refine (slist_frame _ _ _ _ _ _ Hl1).
    intros x Hx. apply Hf2; set_solver.
  - by eapply slist_pool.
  - intros x Hx Hx'. rewrite lookup_insert_ne by done. rewrite Hf2 by set_solver.
    apply Hf1; set_solver.
Qed.

Lemma pool_repr_ne h pl lk d fr al x : pool_repr h pl lk d fr al -> x ∈ fr ++ al -> x <> pl.
Proof.
  intros (p & Hp & _ & Hf & Ha & _) [Hx|Hx]%elem_of_app ->;
    [destruct (slist_block _ _ _ _ _ Hf Hx)|destruct (slist_block _ _ _ _ _ Ha Hx)]; congruence.
Qed.

Lemma get_block_spec n w pl d b fr al :
  pool_repr (w_heap w) pl 0 d (b :: fr) al ->
  exists h', mem_get_shared_block (S n) (Some pl) w = Ret (Some b) (set_heap h' w) /\
    pool_repr h' pl 0 d fr (b :: al) /\ pool_frame (w_heap w) h' pl ((b :: fr) ++ al).
Proof.
  intros (p & Hp & Hlk & Hfr & Hal & Hnd). cbn [mem_get_shared_block]. unfold try_get_shared_block.
  unfold bind at 1. erewrite bind_eq by (by eapply lock_spec). cbn. crun.
  pose proof Hfr as (Hhd & _). rewrite Hhd.
  destruct (move_block_spec (set_heap (<[pl:=OPool (set_lock 1 p)]> (w_heap w)) w) pl (set_lock 1 p) d
    FreeList AllocatedList [] b fr al) as (h' & hd & Hrun & Hp' & Hl1 & Hl2 & Hframe);
    [done|by cbn; simplify_map_eq|by eapply slist_pool..|done|].
  erewrite bind3_eq by exact Hrun. cbn.
  exists h'. split; [done|]. split.
  - eexists. split; [exact Hp'|]. split_and!; [done..|].
    by rewrite <- Permutation_middle.
  - intros l Hl Hn. rewrite (Hframe l Hl Hn). cbn. by rewrite lookup_insert_ne.
Qed.

Lemma get_block_empty w pl d al n :
  pool_repr (w_heap w) pl 0 d [] al -> mem_get_shared_block n (Some pl) w = Spin.
Proof.
  intros (p & Hp & Hlk & Hfr & _). induction n as [|n IH]; [done|].
  cbn [mem_get_shared_block]. unfold try_get_shared_block.
  unfold bind at 1. erewrite bind_eq by (by eapply lock_spec). cbn. crun. unfold slist in Hfr. rewrite Hfr. cbn.
  erewrite bind_eq by (eapply unlock_spec; cbn; by simplify_map_eq). cbn.
  rewrite insert_insert_eq.
  replace (set_lock 0 (set_lock 1 p)) with p by (destruct p; cbn in *; by subst).
  rewrite insert_id by done. replace (set_heap _ _) with w by (by destruct w). exact IH.
Qed.

Lemma free_block_spec w pl d b fr a1 a2 :
  pool_repr (w_heap w) pl 0 d fr (a1 ++ b :: a2) ->
  exists h', mem_free_shared_block (Some b) (Some pl) w = Ret tt (set_heap h' w) /\
    pool_repr h' pl 0 d (b :: fr) (a1 ++ a2) /\
    pool_frame (w_heap w) h' pl (fr ++ a1 ++ b :: a2).
Proof.
  intros (p & Hp & Hlk & Hfr & Hal & Hnd). unfold mem_free_shared_block.
  erewrite bind_eq by (by eapply lock_spec).
  destruct (move_block_spec (set_heap (<[pl:=OPool (set_lock 1 p)]> (w_heap w)) w) pl (set_lock 1 p) d
    AllocatedList FreeList a1 b a2 fr) as (h' & hd & Hrun & Hp' & Hl1 & Hl2 & Hframe);
    [done|by cbn; simplify_map_eq|by eapply slist_pool..|by rewrite (comm (++))|].
  rewrite Hrun. exists h'. split; [done|]. split.
  - eexists. split; [exact Hp'|]. split_and!; [done..|].
    cbn. by rewrite (Permutation_middle fr), (Permutation_middle a1).
  - intros l Hl Hn. rewrite (Hframe l Hl) by set_solver. cbn. by rewrite lookup_insert_ne.
Qed.

Lemma slist_before_missing w d b ls p fuel :
  slist (w_heap w) d p ls -> b ∉ ls -> (length ls < fuel)%nat ->
  slist_before fuel p (Some b) w = Crash.
Proof.
  revert p fuel; induction ls as [|a ls IH]; intros p fuel Hs Hb Hf;
    (destruct fuel as [|n]; [cbn in Hf; lia|]); cbn [slist_before].
  - unfold slist in Hs. by subst p.
  - destruct Hs as (-> & nx & Ha & Hs). crun.
    rewrite decide_False; [apply IH; [done|set_solver|cbn in Hf; lia]|].
    intros ->. destruct ls as [|a' ls]; [done|]. destruct Hs as ([= <-] & _). set_solver.
Qed.

Lemma free_block_missing w pl d b fr al :
  pool_repr (w_heap w) pl 0 d fr al -> b ∉ al ->
  mem_free_shared_block (Some b) (Some pl) w = Crash.
Proof.
  intros (p & Hp & Hlk & Hfr & Hal & Hnd) Hb. unfold mem_free_shared_block.
  erewrite bind_eq by (by eapply lock_spec). cbn. apply bind_crash.
  unfold NX_SLIST_REMOVE. crun.
  assert (Hs : slist (<[pl:=OPool (set_lock 1 p)]> (w_heap w)) d (allocated_list p) al)
    by (by eapply slist_pool).
  rewrite decide_False.
  2: { intros Heq. destruct al as [|a al]; [cbn in Heq; unfold slist in Hal; by rewrite Hal in Heq|].
       destruct Hal as (Ha & _). cbn in Heq. rewrite Ha in Heq. injection Heq as ->. set_solver. }
  erewrite bind_eq by reflexivity. apply bind_crash.
  eapply slist_before_missing; [done..|]. apply NoDup_app in Hnd as (_ & _ & Hnd).
  pose proof (slist_length _ _ _ _ Hnd Hs). cbn. lia.
Qed.

(** ** Abstract specification

    What the pool promises its clients: a stack of free blocks and the list
    of the blocks handed out. *)
Record apool := MkApool { a_free : list loc; a_alloc : list loc }.

Inductive pool_op := PGet | PFree (b : loc).

Definition apool_step (a : apool) (o : pool_op) : option (apool * ptr) :=
  match o with
  | PGet =>
      match a_free a with
      | [] => None
      | b :: f => Some (MkApool f (b :: a_alloc a), Some b)
      end
  | PFree b =>
      if decide (b ∈ a_alloc a)
      then Some (MkApool (b :: a_free a) (filter (fun x => x <> b) (a_alloc a)), NULL)
      else None
  end.

Fixpoint apool_run (a : apool) (ops : list pool_op) : option (apool * list ptr) :=
  match ops with
  | [] => Some (a, [])
  | o :: ops' =>
      '(a1, r) ← apool_step a o;
      '(a2, rs) ← apool_run a1 ops';
      Some (a2, r :: rs)
  end.

(** The same operations on the program's pool; one turn of the loop of
    [mem_get_shared_block] is enough where the specification is defined. *)
Definition pool_call (pool : ptr) (o : pool_op) : M ptr :=
  match o with
  | PGet => mem_get_shared_block 1 pool
  | PFree b => mem_free_shared_block (Some b) pool ;;; ret NULL
  end.

Fixpoint pool_calls (pool : ptr) (ops : list pool_op) : M (list ptr) :=
  match ops with
  | [] => ret []
  | o :: ops' =>
      let! r := pool_call pool o in
      let! rs := pool_calls pool ops' in
      ret (r :: rs)
  end.

Lemma filter_ne_notin (b : loc) (ls : list loc) : b ∉ ls -> filter (fun x => x <> b) ls = ls.
Proof.
  induction ls as [|a ls IH]; intros Hb; [done|]. rewrite filter_cons_True by set_solver.
  f_equal. apply IH. set_solver.
Qed.

Lemma filter_ne_middle (b : loc) (a1 a2 : list loc) :
  NoDup (a1 ++ b :: a2) -> filter (fun x => x <> b) (a1 ++ b :: a2) = a1 ++ a2.
Proof.
  intros (_ & H1 & [H2 _]%NoDup_cons)%NoDup_app.
  rewrite filter_app, filter_cons_False by (by intros ?).
  rewrite !filter_ne_notin; [done|done|]. intros Hb. apply (H1 b Hb). set_solver.
Qed.

Lemma pool_call_refines w pl d a o a' r :
  pool_repr (w_heap w) pl 0 d (a_free a) (a_alloc a) ->
  apool_step a o = Some (a', r) ->
  exists h', pool_call (Some pl) o w = Ret r (set_heap h' w) /\
    pool_repr h' pl 0 d (a_free a') (a_alloc a') /\
    pool_frame (w_heap w) h' pl (a_free a ++ a_alloc a) /\
    a_free a' ++ a_alloc a' ≡ₚ a_free a ++ a_alloc a.
Proof.
  intros Hr Hstep. destruct a as [fr al]. destruct o as [|b]; cbn in *.
  - destruct fr as [|b fr]; simplify_eq.
    destruct (get_block_spec 0 _ _ _ _ _ _ Hr) as (h' & Hrun & Hr' & Hf).
    exists h'. split_and!; [exact Hrun|done..|]. cbn. by rewrite Permutation_middle.
  - case_decide as Hb; simplify_eq. apply list_elem_of_split in Hb as (a1 & a2 & ->).
    assert (Hnd : NoDup (a1 ++ b :: a2)) 
      by (destruct Hr as (? & _ & _ & _ & _ & (_ & _ & ?)%NoDup_app); done).
    destruct (free_block_spec _ _ _ _ _ _ _ Hr) as (h' & Hrun & Hr' & Hf).
    exists h'. erewrite bind_eq by exact Hrun. cbn. rewrite filter_ne_middle by done.
    split_and!; [done..|]. by rewrite (Permutation_middle fr), (Permutation_middle a1).
Qed.

(** (C2) Refinement: a sequence of pool operations the specification allows
    (a block is only asked for while one is free, only freed while it is
    handed out) runs to the end on the program's pool, answers what the
    specification answers, leaves the lock free and a pool that represents
    the specification's result, and touches nothing but the pool and its
    blocks. *)
Theorem pool_refines ops : forall w pl d a a' rs,
  pool_repr (w_heap w) pl 0 d (a_free a) (a_alloc a) ->
  apool_run a ops = Some (a', rs) ->
  exists h', pool_calls (Some pl) ops w = Ret rs (set_heap h' w) /\
    pool_repr h' pl 0 d (a_free a') (a_alloc a') /\
    pool_frame (w_heap w) h' pl (a_free a ++ a_alloc a).
Proof.
  induction ops as [|o ops IH]; intros w pl d a a' rs Hr Hrun; cbn in *; simplify_eq.
  - exists (w_heap w). split_and!; [by destruct w|done|by intros ?].
  - destruct (apool_step a o) as [[a1 r]|] eqn:Ho; cbn in Hrun; [|done].
    destruct (apool_run a1 ops) as [[a2 rs']|] eqn:Hos; cbn in Hrun; simplify_eq.
    destruct (pool_call_refines _ _ _ _ _ _ _ Hr Ho) as (h1 & H1 & Hr1 & Hf1 & Hperm).
    destruct (IH (set_heap h1 w) pl d a1 a' rs' Hr1 Hos) as (h2 & H2 & Hr2 & Hf2).
    exists h2. erewrite bind_eq by exact H1. erewrite bind_eq by exact H2.
    split_and!; [done..|]. intros l Hl Hn. rewrite Hf2; [by apply Hf1|done|by rewrite Hperm].
Qed.

(** ** Creating a pool *)

(** Some loop invariant: the blocks made so far are on the free list, each
    with a zeroed buffer of its own. *)
Definition blocks_ready (w : world) (bs : Z) (d : loc -> ptr) (fr : list loc) : Prop :=
  forall b, b ∈ fr -> exists buf, d b = Some buf /\ w_heap w !! buf = Some (zeros bs).

Lemma zeros_size n : 0 < n -> sizeof (zeros n) <> 0.
Proof. intros. cbn. rewrite length_replicate. lia. Qed.

Lemma shared_ok w o :
  oracle_ok w -> sizeof o <> 0 ->
  default_mem_alloc_shared o w = Ret (Some (w_next w)) (granted o w).
Proof.
  intros. unfold default_mem_alloc_shared. by erewrite bind_eq by (by apply mmap_anon_ok).
Qed.

Lemma shared_refused w o :
  hd 0 (w_oracle w) < 0 -> default_mem_alloc_shared o w = Ret NULL (asked w).
Proof.
  intros. unfold default_mem_alloc_shared. by erewrite bind_eq by (by apply mmap_anon_refused).
Qed.

Lemma alloc_ok w o :
  oracle_ok w -> sizeof o <> 0 ->
  default_mem_alloc o w = Ret (Some (w_next w)) (granted o w).
Proof.
  intros Ho Hsz%Z.eqb_neq. unfold default_mem_alloc. rewrite Hsz.
  by erewrite bind_eq by (by apply malloc_ok).
Qed.

(** One allocation granted, whatever comes after it. *)
Lemma alloc_granted w o :
  0 <= hd 0 (w_oracle w) -> sizeof o <> 0 ->
  default_mem_alloc o w = Ret (Some (w_next w)) (granted o w).
Proof.
  intros Ho%Z.ltb_ge Hsz%Z.eqb_neq. unfold default_mem_alloc. rewrite Hsz.
  unfold malloc, bind, ask. by rewrite Ho.
Qed.

Lemma alloc_refused w o :
  hd 0 (w_oracle w) < 0 -> sizeof o <> 0 -> default_mem_alloc o w = Ret NULL (asked w).
Proof.
  intros Ho Hsz%Z.eqb_neq. unfold default_mem_alloc. rewrite Hsz.
  by erewrite bind_eq by (by apply malloc_refused).
Qed.

(** The pool is what the loop has built: [fr] free, nothing handed out. *)
Definition pool_fresh (w : world) (pl : loc) (bs bc : Z) (d : loc -> ptr) (fr : list loc) : Prop :=
  w_heap w !! pl = Some (OPool (MkPool 0 bs bc (head fr) NULL)) /\
  slist (w_heap w) d (head fr) fr /\ NoDup fr /\ blocks_ready w bs d fr.

Lemma head_slist h d p ls : slist h d p ls -> p = head ls.
Proof. destruct ls as [|l ls]; [done|]. by intros [-> _]. Qed.

(** The world after a turn of the loop has made its block and the block's
    buffer, before the block is put on the list. *)
Definition block_made (bs : Z) (w : world) : world :=
  let w1 := granted (OBlock (MkBlock NULL NULL)) w in
  let w2 := granted (zeros bs) w1 in
  set_heap (<[w_next w := OBlock (MkBlock (Some (w_next w1)) NULL)]> (w_heap w2)) w2.

Definition data_made (w : world) (d : loc -> ptr) : loc -> ptr :=
  fun l => if decide (l = w_next w) then Some (Pos.succ (w_next w)) else d l.

Lemma block_made_old bs w l :
  (l < w_next w)%positive -> w_heap (block_made bs w) !! l = w_heap w !! l.
Proof. intros Hl. cbn. rewrite !lookup_insert_ne by lia. done. Qed.

Lemma block_made_buf bs w : w_heap (block_made bs w) !! Pos.succ (w_next w) = Some (zeros bs).
Proof. cbn. rewrite lookup_insert_ne by lia. apply lookup_insert_eq. Qed.

Lemma block_made_wf bs w l :
  heap_wf w -> (w_next (block_made bs w) <= l)%positive -> w_heap (block_made bs w) !! l = None.
Proof. intros Hwf Hl. cbn in *. rewrite !lookup_insert_ne by lia. apply Hwf. lia. Qed.

Lemma block_made_slist bs w d p fr :
  heap_wf w -> slist (w_heap w) d p fr -> slist (w_heap (block_made bs w)) (data_made w d) p fr.
Proof.
  intros Hwf. revert p; induction fr as [|a fr IH]; intros p Hs; [done|].
  destruct Hs as (-> & nx & Ha & Hs). pose proof (heap_wf_lt _ _ _ Hwf Ha).
  split; [done|]. exists nx. rewrite block_made_old by done. split; [|by apply IH].
  unfold data_made. by rewrite decide_False by lia.
Qed.

Lemma create_blocks_turn n pl bs w w' :
  0 < bs -> oracle_ok w ->
  NX_SLIST_INSERT_HEAD (Some pl) FreeList (Some (w_next w)) (block_made bs w) = Ret tt w' ->
  create_blocks (S n) (Some pl) bs w = create_blocks n (Some pl) bs w'.
Proof.
  intros Hbs Ho Hi. cbn [create_blocks].
  erewrite bind_eq by (apply shared_ok; done). cbn -[default_mem_alloc_shared].
  erewrite bind_eq by (apply shared_ok; [by apply oracle_ok_granted|by apply zeros_size]).
  assert (Hb : w_heap (granted (zeros bs) (granted (OBlock (MkBlock NULL NULL)) w)) !! w_next w
    = Some (OBlock (MkBlock NULL NULL))).
  { cbn. rewrite lookup_insert_ne by lia. apply lookup_insert_eq. }
  erewrite bind_eq by (by eapply load_block_eq). cbn -[granted].
  erewrite bind_eq by (by eapply store_eq). erewrite bind_eq; [done|exact Hi].
Qed.

(** One turn of the loop: two allocations and an insertion. *)
Lemma create_block_step w pl bs bc d fr :
  0 < bs -> oracle_ok w -> heap_wf w -> pool_fresh w pl bs bc d fr ->
  exists w' d',
    (forall n, create_blocks (S n) (Some pl) bs w = create_blocks n (Some pl) bs w') /\
    oracle_ok w' /\ heap_wf w' /\ pool_fresh w' pl bs bc d' (w_next w :: fr) /\
    (forall l, (l < w_next w)%positive -> l <> pl -> w_heap w' !! l = w_heap w !! l) /\
    (w_next w <= w_next w')%positive.
Proof.
  intros Hbs Ho Hwf (Hp & Hs & Hnd & Hbuf).
  pose proof (heap_wf_lt _ _ _ Hwf Hp) as Hpl.
  assert (Hltfr : w_next w ∉ fr).
  { intros Hl. destruct (slist_block _ _ _ _ _ Hs Hl) as [nx Hnx%(heap_wf_lt _ _ _ Hwf)]. lia. }
  destruct (insert_head_spec (block_made bs w) pl (MkPool 0 bs bc (head fr) NULL) (data_made w d)
    FreeList (w_next w) NULL fr) as (h' & Hi & Hp' & Hl' & Hf').
  { by rewrite block_made_old. }
  { cbn. rewrite lookup_insert_eq. unfold data_made. by rewrite decide_True. }
  { done. }
  { by apply block_made_slist. }
  exists (set_heap h' (block_made bs w)), (data_made w d). split_and!.
  - intros n. by apply create_blocks_turn.
  - exact (oracle_ok_granted _ (zeros bs) (oracle_ok_granted _ (OBlock (MkBlock NULL NULL)) Ho)).
  - intros l Hl. cbn -[block_made] in *. pose proof (block_made_wf bs w l Hwf Hl) as Hn.
    cbn in Hl. rewrite Hf' by lia. done.
  - split_and!; [done..|by apply NoDup_cons|]. intros x [->|Hx]%elem_of_cons.
    + exists (Pos.succ (w_next w)). unfold data_made. rewrite decide_True by done.
      split; [done|]. cbn -[block_made]. rewrite Hf' by lia. apply block_made_buf.
    + destruct (Hbuf x Hx) as (buf & Hd & Hz). exists buf. unfold data_made.
      rewrite decide_False by (by intros ->). split; [done|].
      pose proof (heap_wf_lt _ _ _ Hwf Hz). cbn -[block_made].
      rewrite Hf' by (lia || (intros ->; rewrite Hp in Hz; done)). by rewrite block_made_old.
  - intros l Hl Hne. cbn -[block_made]. rewrite Hf' by (lia || done). by apply block_made_old.
  - cbn. lia.
Qed.

Lemma slist_init_spec w pl p wl :
  w_heap w !! pl = Some (OPool p) -> slh_first wl p = NULL ->
  NX_SLIST_INIT (Some pl) wl w = Ret tt w.
Proof.
  intros Hp Hn. unfold NX_SLIST_INIT. crun. erewrite store_eq by done.
  rewrite <- Hn, set_slh_first_id, insert_id by done. by destruct w.
Qed.

Lemma create_blocks_spec n : forall w pl bs bc d fr,
  0 < bs -> oracle_ok w -> heap_wf w -> pool_fresh w pl bs bc d fr ->
  exists w' d' fr',
    create_blocks n (Some pl) bs w = Ret true w' /\
    pool_fresh w' pl bs bc d' fr' /\ length fr' = (n + length fr)%nat /\
    (forall l, (l < w_next w)%positive -> l <> pl -> w_heap w' !! l = w_heap w !! l).
Proof.
  induction n as [|n IH]; intros w pl bs bc d fr Hbs Ho Hwf Hpf.
  - exists w, d, fr. by split_and!.
  - destruct (create_block_step _ _ _ _ _ _ Hbs Ho Hwf Hpf)
      as (w1 & d1 & Hrun & Ho1 & Hwf1 & Hpf1 & Hf1 & Hle).
    destruct (IH _ _ _ _ _ _ Hbs Ho1 Hwf1 Hpf1) as (w2 & d2 & fr2 & Hrun2 & Hpf2 & Hlen & Hf2).
    exists w2, d2, fr2. rewrite Hrun, Hrun2, Hlen. split_and!; [done..|cbn; lia|].
    intros l Hl Hne. rewrite Hf2 by lia || done. by apply Hf1.
Qed.

(** A pool asked for with a non-zero block size and count, with the
    environment granting every mapping, is created unlocked, with exactly
    [block_count] distinct free blocks, none handed out, each with a zeroed
    buffer of [block_size] bytes; no existing object is touched. *)
Theorem create_pool_correct w bs bc :
  0 < bs -> 0 < bc -> oracle_ok w -> heap_wf w ->
  exists pl w' d fr,
    mem_create_shared_pool bs bc w = Ret (Some pl) w' /\
    pool_repr (w_heap w') pl 0 d fr [] /\ Z.of_nat (length fr) = bc /\
    blocks_ready w' bs d fr /\
    (forall l, is_Some (w_heap w !! l) -> w_heap w' !! l = w_heap w !! l).
Proof.
  intros Hbs Hbc Ho Hwf. unfold mem_create_shared_pool.
  rewrite (proj2 (Z.eqb_neq bs 0)), (proj2 (Z.eqb_neq bc 0)) by lia.
  erewrite bind_eq by (apply shared_ok; done).
  set (pl := w_next w). set (w1 := granted _ w).
  assert (Hpl : w_heap w1 !! pl = Some (OPool (MkPool 0 0 0 NULL NULL))) by apply lookup_insert_eq.
  cbn -[w1 pl create_blocks]. erewrite bind_eq by (by eapply store_eq).
  set (w2 := set_heap (<[pl := OPool (MkPool 0 bs bc NULL NULL)]> (w_heap w1)) w1).
  erewrite bind_eq by (eapply slist_init_spec; [apply lookup_insert_eq|done]).
  erewrite bind_eq by (eapply slist_init_spec; [apply lookup_insert_eq|done]).
  destruct (create_blocks_spec (Z.to_nat bc) w2 pl bs bc (fun _ => NULL) []) as
    (w3 & d & fr & Hrun & (Hp & Hs & Hnd & Hb) & Hlen & Hf).
  - done.
  - exact (oracle_ok_granted _ _ Ho).
  - intros l Hl. cbn in *. rewrite lookup_insert_ne by lia. by apply heap_wf_granted.
  - split_and!; [apply lookup_insert_eq|done|constructor|by intros ? ?%not_elem_of_nil].
  - exists pl, w3, d, fr. erewrite bind_eq by exact Hrun. cbn in Hlen. split_and!; [done|..|done|].
    + exists (MkPool 0 bs bc (head fr) NULL). rewrite app_nil_r. by split_and!.
    + lia.
    + intros l [o Hl]. pose proof (heap_wf_lt _ _ _ Hwf Hl).
      rewrite Hf by (cbn; lia). cbn. rewrite !lookup_insert_ne by lia. done.
Qed.

(** [mem_get_shared_block] blocks exactly while no block is free: with a
    free block it returns the head of the free list on the first turn of its
    loop, with none it is still looping after any number of turns. *)
Theorem get_block_blocks w pl d fr al :
  pool_repr (w_heap w) pl 0 d fr al ->
  forall n, match fr with
            | b :: _ => exists w', mem_get_shared_block (S n) (Some pl) w = Ret (Some b) w'
            | [] => mem_get_shared_block n (Some pl) w = Spin
            end.
Proof.
  intros Hr n. destruct fr as [|b fr]; [by eapply get_block_empty|].
  destruct (get_block_spec n _ _ _ _ _ _ Hr) as (h' & -> & _). eauto.
Qed.

(** Giving back a block that is not handed out (freeing it twice, or to
    the wrong pool) is undefined: the list walk of [NX_SLIST_REMOVE] runs off
    the end of the allocated list with the lock held. *)
Theorem double_free_crashes w pl d b fr al :
  pool_repr (w_heap w) pl 0 d fr al -> b ∉ al ->
  mem_free_shared_block (Some b) (Some pl) w = Crash.
Proof. apply free_block_missing. Qed.

(** Allocating through the default allocator and freeing through it
    restores the heap, and because [default_mem_free] leaves [NULL] behind, a
    second call through the same pointer does nothing. *)
Theorem default_alloc_free_roundtrip w o :
  oracle_ok w -> heap_wf w -> sizeof o <> 0 ->
  exists w', (let! p := alloc default_allocator o in
              let! p := free default_allocator p in
              free default_allocator p) w = Ret NULL w' /\
    w_heap w' = w_heap w.
Proof.
  intros Ho Hwf Hsz%Z.eqb_neq. cbn. unfold default_mem_alloc. rewrite Hsz.
  erewrite bind_eq by (by erewrite bind_eq by (by apply malloc_ok)).
  unfold default_mem_free. erewrite bind_eq.
  2: { erewrite bind_eq by (eapply free_loc_eq; apply lookup_insert_eq). reflexivity. }
  eexists. split; [done|]. cbn. apply delete_insert_id, Hwf. lia.
Qed.

(** ** A pool of two blocks, to run the theorems on *)

Definition demo_heap : gmap loc hobj :=
  list_to_map
    [ (1%positive, OPool (MkPool 0 8 2 (Some 4%positive) NULL));
      (2%positive, OBlock (MkBlock (Some 3%positive) NULL)); (3%positive, zeros 8);
      (4%positive, OBlock (MkBlock (Some 5%positive) (Some 2%positive))); (5%positive, zeros 8) ].

Definition demo_data (l : loc) : ptr := Some (Pos.succ l).

Lemma demo_repr :
  pool_repr (w_heap (set_heap demo_heap (fresh_world [] []))) 1%positive 0 demo_data [4; 2]%positive [].
Proof.
  eexists. split; [reflexivity|]. split_and!; [done| |done|by apply (bool_decide_unpack _)].
  split; [done|]. eexists. split; [reflexivity|]. split; [done|]. eexists. by split.
Defined.

Lemma pool_refines_witness :
  exists h', pool_calls (Some 1%positive) [PGet; PGet; PFree 4%positive; PGet]
    (set_heap demo_heap (fresh_world [] [])) =
      Ret [Some 4; Some 2; NULL; Some 4]%positive (set_heap h' (set_heap demo_heap (fresh_world [] []))).
Proof.
  destruct (pool_refines [PGet; PGet; PFree 4%positive; PGet] (set_heap demo_heap (fresh_world [] []))
    1%positive demo_data (MkApool [4; 2]%positive []) (MkApool [] [4; 2]%positive)
    [Some 4; Some 2; NULL; Some 4]%positive demo_repr eq_refl) as (h' & H & _).
  exists h'. exact H.
Defined.

Lemma get_block_blocks_witness :
  exists w', mem_get_shared_block 5 (Some 1%positive) (set_heap demo_heap (fresh_world [] [])) =
    Ret (Some 4%positive) w'.
Proof. exact (get_block_blocks _ _ _ _ _ demo_repr 4). Defined.

Lemma double_free_crashes_witness :
  mem_free_shared_block (Some 2%positive) (Some 1%positive)
    (set_heap demo_heap (fresh_world [] [])) = Crash.
Proof. exact (double_free_crashes _ _ _ 2%positive _ _ demo_repr (not_elem_of_nil _)). Defined.

Lemma create_pool_correct_witness :
  exists pl w' d fr, mem_create_shared_pool 16 3 (fresh_world [] []) = Ret (Some pl) w' /\
    pool_repr (w_heap w') pl 0 d fr [] /\ Z.of_nat (length fr) = 3.
Proof.
  destruct (create_pool_correct (fresh_world [] []) 16 3) as (pl & w' & d & fr & H1 & H2 & H3 & _);
    [done|done|apply (fresh_world_ok [] []); constructor|apply (fresh_world_ok [] []); constructor|].
  exists pl, w', d, fr. auto.
Defined.

Lemma default_alloc_free_roundtrip_witness :
  exists w', (let! p := alloc default_allocator (junk 24) in
              let! p := free default_allocator p in
              free default_allocator p) (fresh_world [0] []) = Ret NULL w'.
Proof.
  destruct (default_alloc_free_roundtrip (fresh_world [0] []) (junk 24)) as (w' & H & _);
    [apply (fresh_world_ok [0] []); repeat constructor; lia
    |apply (fresh_world_ok [0] []); repeat constructor; lia|done|].
  exists w'. exact H.
Defined.

Arguments default_mem_alloc : simpl never.
Arguments default_mem_alloc_shared : simpl never.
Arguments default_mem_free : simpl never.
Arguments default_mem_free_shared : simpl never.
Arguments mem_get_shared_block : simpl never.
Arguments mem_free_shared_block : simpl never.
