(* ===== verification/PoolConcurrent.v ===== *)
(** * PoolConcurrent: processes sharing a memory pool

    The pool lives in memory shared by the fuzzer's child processes, which
    run [mem_get_shared_block] and [mem_free_shared_block] concurrently.  A
    process is a program counter inside one of the two functions and the list
    of the blocks it holds; the processes interleave at the granularity of
    the lock operations and the list operations of memory/memory.c.  The
    theorems are invariants of the reachable configurations: mutual
    exclusion, no undefined behaviour, no block held twice. *)

From stdpp Require Import functions.
From S2P Require Import Prelude Types CWorld Memory.

(** Where a process stands; [b] is the block its call works on. *)
Inductive pc :=
| Idle
| GetLocking            (* mem_get_shared_block, before nx_spinlock_lock *)
| GetLocked             (* lock taken *)
| GetRemoved (b : loc)  (* removed from the free list *)
| GetInserted (b : loc) (* on the allocated list, before nx_spinlock_unlock *)
| FreeLocking (b : loc) (* mem_free_shared_block, before nx_spinlock_lock *)
| FreeLocked (b : loc)
| FreeRemoved (b : loc) (* removed from the allocated list *)
| FreeInserted (b : loc).

(** The next atomic action of a process inside a call: where it stands
    afterwards and the blocks the call has just handed to it. *)
Definition act (pool : ptr) (c : pc) : M (pc * list loc) :=
  match c with
  | Idle => ret (Idle, [])
  | GetLocking => nx_spinlock_lock pool ;;; ret (GetLocked, [])
  | GetLocked =>
      let! p := load_pool pool in
      match free_list p with
      | Some b => NX_SLIST_REMOVE pool FreeList (Some b) ;;; ret (GetRemoved b, [])
      | None => nx_spinlock_unlock pool ;;; ret (GetLocking, [])
      end
  | GetRemoved b => NX_SLIST_INSERT_HEAD pool AllocatedList (Some b) ;;; ret (GetInserted b, [])
  | GetInserted b => nx_spinlock_unlock pool ;;; ret (Idle, [b])
  | FreeLocking b => nx_spinlock_lock pool ;;; ret (FreeLocked b, [])
  | FreeLocked b => NX_SLIST_REMOVE pool AllocatedList (Some b) ;;; ret (FreeRemoved b, [])
  | FreeRemoved b => NX_SLIST_INSERT_HEAD pool FreeList (Some b) ;;; ret (FreeInserted b, [])
  | FreeInserted b => nx_spinlock_unlock pool ;;; ret (Idle, [])
  end.

Record proc := MkProc { at_pc : pc; held : list loc }.

(** A configuration: the shared world and the processes, or [Wrong] once a
    process has run into undefined behaviour. *)
Inductive config := Conf (w : world) (ps : nat -> proc) | Wrong.

Inductive step (pool : ptr) : config -> config -> Prop :=
| step_get w ps i :
    at_pc (ps i) = Idle ->
    step pool (Conf w ps) (Conf w (<[i := MkProc GetLocking (held (ps i))]> ps))
| step_free w ps i b h1 h2 :
    at_pc (ps i) = Idle -> held (ps i) = h1 ++ b :: h2 ->
    step pool (Conf w ps) (Conf w (<[i := MkProc (FreeLocking b) (h1 ++ h2)]> ps))
| step_act w ps i c' gained w' :
    act pool (at_pc (ps i)) w = Ret (c', gained) w' ->
    step pool (Conf w ps) (Conf w' (<[i := MkProc c' (gained ++ held (ps i))]> ps))
| step_wait w ps i :
    act pool (at_pc (ps i)) w = Spin -> step pool (Conf w ps) (Conf w ps)
| step_wrong w ps i :
    act pool (at_pc (ps i)) w = Crash -> step pool (Conf w ps) Wrong.

Inductive steps (pool : ptr) : config -> config -> Prop :=
| steps_refl c : steps pool c c
| steps_step c1 c2 c3 : steps pool c1 c2 -> step pool c2 c3 -> steps pool c1 c3.

(** Initially nobody runs a pool function and nobody holds a block. *)
Definition idle_procs : nat -> proc := fun _ => MkProc Idle [].

(** ** The functions are runs of their actions *)

Fixpoint run_pc (fuel : nat) (pool : ptr) (c : pc) : M (list loc) :=
  match fuel with
  | O => spin
  | S n =>
      let! r := act pool c in
      match r with
      | (Idle, gained) => ret gained
      | (c', _) => run_pc n pool c'
      end
  end.

(** ** Invariant *)

Definition locked (c : pc) : bool :=
  match c with
  | GetLocked | GetRemoved _ | GetInserted _ | FreeLocked _ | FreeRemoved _ | FreeInserted _ => true
  | _ => false
  end.

(** The block that is on neither list while [c] is between its two list operations. *)
Definition transit (c : pc) : list loc :=
  match c with GetRemoved b | FreeRemoved b => [b] | _ => [] end.

(** The blocks a process owns besides the ones in [held]. *)
Definition pending (c : pc) : list loc :=
  match c with GetInserted b | FreeLocking b | FreeLocked b => [b] | _ => [] end.

Definition owned (p : proc) : list loc := pending (at_pc p) ++ held p.

(** The pool while [lk] is its lock word and [tr] is between the lists. *)
Definition pool_state (h : gmap loc hobj) (pl : loc) (lk : Z) (d : loc -> ptr)
    (tr fr al : list loc) : Prop :=
  exists p, h !! pl = Some (OPool p) /\ pool_lock p = lk /\
    slist h d (free_list p) fr /\ slist h d (allocated_list p) al /\
    (forall b, b ∈ tr -> exists nx, h !! b = Some (OBlock (MkBlock (d b) nx))) /\
    NoDup (tr ++ fr ++ al).

(** Who may be inside: the lock word is 0 and nobody is, or it is 1 and
    exactly one process is. *)
Definition lock_owner (ps : nat -> proc) (lk : Z) (tr : list loc) : Prop :=
  (lk = 0 /\ tr = [] /\ forall i, locked (at_pc (ps i)) = false) \/
  (lk = 1 /\ exists i, locked (at_pc (ps i)) = true /\ tr = transit (at_pc (ps i)) /\
     forall j, j <> i -> locked (at_pc (ps j)) = false).

Definition ownership (ps : nat -> proc) (al : list loc) : Prop :=
  (forall i, NoDup (owned (ps i)) /\ forall b, b ∈ owned (ps i) -> b ∈ al) /\
  (forall i j b, i <> j -> b ∈ owned (ps i) -> b ∈ owned (ps j) -> False).

Definition inv (pl : loc) (d : loc -> ptr) (c : config) : Prop :=
  match c with
  | Wrong => False
  | Conf w ps =>
      exists lk tr fr al, pool_state (w_heap w) pl lk d tr fr al /\
        lock_owner ps lk tr /\ ownership ps al
  end.

(** ** The actions on the pool *)

Section pool_actions.
Context (w : world) (pl : loc) (d : loc -> ptr).

Lemma state_lock fr al :
  pool_state (w_heap w) pl 0 d [] fr al ->
  exists h', nx_spinlock_lock (Some pl) w = Ret tt (set_heap h' w) /\ pool_state h' pl 1 d [] fr al.
Proof.
  intros (p & Hp & Hlk & Hf & Ha & _ & Hnd). eexists. split; [by apply lock_spec|].
  eexists. split; [apply lookup_insert_eq|]. split_and!; [done|by eapply slist_pool..| |done].
  by intros ? ?%not_elem_of_nil.
Qed.

Lemma state_lock_busy tr fr al :
  pool_state (w_heap w) pl 1 d tr fr al -> nx_spinlock_lock (Some pl) w = Spin.
Proof.
  intros (p & Hp & Hlk & _). unfold nx_spinlock_lock. crun. by rewrite Hlk.
Qed.

Lemma state_unlock lk fr al :
  pool_state (w_heap w) pl lk d [] fr al ->
  exists h', nx_spinlock_unlock (Some pl) w = Ret tt (set_heap h' w) /\ pool_state h' pl 0 d [] fr al.
Proof.
  intros (p & Hp & Hlk & Hf & Ha & _ & Hnd). eexists. split; [by apply unlock_spec|].
  eexists. split; [apply lookup_insert_eq|]. split_and!; [done|by eapply slist_pool..| |done].
  by intros ? ?%not_elem_of_nil.
Qed.

Lemma state_blocks_ne lk tr fr al b :
  pool_state (w_heap w) pl lk d tr fr al -> b ∈ tr ++ fr ++ al -> b <> pl.
Proof.
  intros (p & Hp & _ & Hf & Ha & Ht & _) [Hb|[Hb|Hb]%elem_of_app]%elem_of_app ->.
  - destruct (Ht _ Hb). congruence.
  - destruct (slist_block _ _ _ _ _ Hf Hb). congruence.
  - destruct (slist_block _ _ _ _ _ Ha Hb). congruence.
Qed.

Lemma state_remove lk wl fr al l1 b l2 :
  pool_state (w_heap w) pl lk d [] fr al ->
  match wl with FreeList => fr | AllocatedList => al end = l1 ++ b :: l2 ->
  exists h', NX_SLIST_REMOVE (Some pl) wl (Some b) w = Ret tt (set_heap h' w) /\
    pool_state h' pl lk d [b]
      (match wl with FreeList => l1 ++ l2 | AllocatedList => fr end)
      (match wl with FreeList => al | AllocatedList => l1 ++ l2 end).
Proof.
  intros Hst Heq. pose proof (fun x => state_blocks_ne _ _ _ _ x Hst) as Hne.
  destruct Hst as (p & Hp & Hlk & Hf & Ha & _ & Hnd). cbn in Hnd.
  assert (Hs : slist (w_heap w) d (slh_first wl p) (l1 ++ b :: l2)) by (destruct wl; by subst).
  assert (Hnd' : NoDup (l1 ++ b :: l2)) by (apply NoDup_app in Hnd; destruct wl; subst; tauto).
  destruct (remove_spec _ _ _ _ _ _ _ _ Hp Hs Hnd') as (h' & hd & Hrun & Hp' & Hl & Hfr).
  exists h'. split; [done|]. eexists. split; [exact Hp'|].
  destruct (slist_block _ _ _ _ b Hs ltac:(set_solver)) as [nx Hb].
  assert (Hb' : h' !! b = Some (OBlock (MkBlock (d b) nx))).
  { rewrite Hfr; [done|apply Hne; destruct wl; subst; set_solver|].
    apply NoDup_app in Hnd' as (_ & ? & _). set_solver. }
  assert (Hperm : [b] ++ l1 ++ l2 ≡ₚ l1 ++ b :: l2) by (cbn; by rewrite Permutation_middle).
  destruct wl; cbn in *; subst; split_and!; try done.
  all: try (intros ? ->%list_elem_of_singleton; eauto; fail).
  all: try (eapply slist_frame; [|done]; intros x Hx; apply Hfr; [apply Hne; set_solver|];
            intros Hx'; apply NoDup_app in Hnd as (_ & Hdis & _); apply (Hdis x); set_solver).
  - by rewrite app_comm_cons, Hperm.
  - by rewrite Permutation_middle, Hperm.
Qed.

Lemma state_insert lk wl fr al b :
  pool_state (w_heap w) pl lk d [b] fr al ->
  exists h', NX_SLIST_INSERT_HEAD (Some pl) wl (Some b) w = Ret tt (set_heap h' w) /\
    pool_state h' pl lk d []
      (match wl with FreeList => b :: fr | AllocatedList => fr end)
      (match wl with FreeList => al | AllocatedList => b :: al end).
Proof.
  intros Hst. pose proof (fun x => state_blocks_ne _ _ _ _ x Hst) as Hne.
  destruct Hst as (p & Hp & Hlk & Hf & Ha & Ht & Hnd). cbn in Hnd.
  destruct (Ht b ltac:(set_solver)) as [nx Hb]. apply NoDup_cons in Hnd as [Hnb Hnd].
  destruct (insert_head_spec w pl p d wl b nx (match wl with FreeList => fr | AllocatedList => al end))
    as (h' & Hrun & Hp' & Hl & Hfr); [done..|destruct wl; set_solver|by destruct wl|].
  exists h'. split; [done|]. eexists. split; [exact Hp'|].
  destruct wl; cbn in *; split_and!; try done.
  all: try (by intros ? ?%not_elem_of_nil).
  all: try (eapply slist_frame; [|done]; intros x Hx; apply Hfr; [apply Hne; set_solver|set_solver]).
  - by apply NoDup_cons.
  - rewrite <- Permutation_middle. by apply NoDup_cons.
Qed.
End pool_actions.

(** ** The bookkeeping of processes *)

Section bookkeeping.
Implicit Types (ps : nat -> proc) (al : list loc).

Lemma lock_owner_inside ps lk tr i :
  lock_owner ps lk tr -> locked (at_pc (ps i)) = true ->
  lk = 1 /\ tr = transit (at_pc (ps i)) /\ forall j, j <> i -> locked (at_pc (ps j)) = false.
Proof.
  intros [(_ & _ & Hall)|(-> & k & Hk & -> & Hall)] Hi; [by rewrite Hall in Hi|].
  destruct (decide (i = k)) as [->|Hne]; [done|]. by rewrite Hall in Hi.
Qed.

Lemma lock_owner_keep ps i p :
  (forall j, j <> i -> locked (at_pc (ps j)) = false) -> locked (at_pc p) = true ->
  lock_owner (<[i := p]> ps) 1 (transit (at_pc p)).
Proof.
  intros Hall Hp. right. split; [done|]. exists i. rewrite fn_lookup_insert.
  split_and!; [done..|]. intros j Hj. rewrite fn_lookup_insert_ne by done. by apply Hall.
Qed.

Lemma lock_owner_release ps i p :
  (forall j, j <> i -> locked (at_pc (ps j)) = false) -> locked (at_pc p) = false ->
  lock_owner (<[i := p]> ps) 0 [].
Proof.
  intros Hall Hp. left. split_and!; [done..|]. intros j.
  destruct (decide (i = j)) as [->|Hne]; [by rewrite fn_lookup_insert|].
  rewrite fn_lookup_insert_ne by done. by apply Hall.
Qed.

Lemma lock_owner_outside ps i p lk tr :
  lock_owner ps lk tr -> locked (at_pc (ps i)) = false -> locked (at_pc p) = false ->
  lock_owner (<[i := p]> ps) lk tr.
Proof.
  intros [(-> & -> & Hall)|(-> & k & Hk & -> & Hall)] Hi Hp.
  - apply lock_owner_release; [by intros; apply Hall|done].
  - right. split; [done|]. exists k. assert (i <> k) by congruence.
    rewrite fn_lookup_insert_ne by done. split_and!; [done..|]. intros j Hj.
    destruct (decide (i = j)) as [->|Hne]; [by rewrite fn_lookup_insert|].
    rewrite fn_lookup_insert_ne by done. by apply Hall.
Qed.

Lemma ownership_update ps al al' i p :
  ownership ps al -> NoDup (owned p) -> (forall b, b ∈ owned p -> b ∈ al') ->
  (forall j b, j <> i -> b ∈ owned (ps j) -> b ∈ al' /\ b ∉ owned p) ->
  ownership (<[i := p]> ps) al'.
Proof.
  intros [H1 H2] Hnd Hin Hother. split.
  - intros j. destruct (decide (i = j)) as [->|Hne]; [by rewrite fn_lookup_insert|].
    rewrite fn_lookup_insert_ne by done. split; [apply H1|]. intros b Hb. by eapply Hother.
  - intros j k b Hjk. destruct (decide (i = j)) as [->|Hj].
    + rewrite fn_lookup_insert, fn_lookup_insert_ne by done. intros Hb Hb'. by eapply Hother.
    + rewrite (fn_lookup_insert_ne _ i j) by done. destruct (decide (i = k)) as [->|Hk].
      * rewrite fn_lookup_insert. intros Hb Hb'. by eapply (Hother j).
      * rewrite fn_lookup_insert_ne by done. by apply H2.
Qed.

(** A process that owns the same blocks as before, with the same allocated list. *)
Lemma ownership_same ps al i p :
  ownership ps al -> owned p ≡ₚ owned (ps i) -> ownership (<[i := p]> ps) al.
Proof.
  intros Hown Hperm. pose proof Hown as [H1 H2].
  apply ownership_update with al; [done|by rewrite Hperm; apply H1|..].
  - intros b. rewrite Hperm. apply H1.
  - intros j b Hj Hb. split; [by eapply H1|]. rewrite Hperm. intros Hb'. by eapply (H2 j i).
Qed.
End bookkeeping.

(** ** Every action keeps the invariant *)

Definition act_ok (pl : loc) (d : loc -> ptr) (w : world) (ps : nat -> proc) (i : nat) : Prop :=
  act (Some pl) (at_pc (ps i)) w = Spin \/
  exists c' gained w', act (Some pl) (at_pc (ps i)) w = Ret (c', gained) w' /\
    inv pl d (Conf w' (<[i := MkProc c' (gained ++ held (ps i))]> ps)).

Lemma act_outside pl d w ps i :
  inv pl d (Conf w ps) -> locked (at_pc (ps i)) = false -> act_ok pl d w ps i.
Proof.
  intros (lk & tr & fr & al & Hst & Hlo & Hown) Hl. unfold act_ok.
  destruct (ps i) as [c h] eqn:Hi. cbn in *.
  destruct c; cbn in *; try done.
  - right. do 3 eexists. split; [done|]. exists lk, tr, fr, al. split; [done|]. split.
    + apply lock_owner_outside; [done|by rewrite Hi|done].
    + apply ownership_same; [done|by rewrite Hi].
  - destruct Hlo as [(-> & -> & Hall)|(-> & _)].
    2: { left. apply bind_spin. by eapply state_lock_busy. }
    right. destruct (state_lock _ _ _ _ _ Hst) as (h' & Hrun & Hst').
    do 3 eexists. split; [by erewrite bind_eq by exact Hrun|].
    exists 1, [], fr, al. split; [done|]. split; [|apply ownership_same; [done|by rewrite Hi]].
    by apply (lock_owner_keep _ _ (MkProc GetLocked h)).
  - destruct Hlo as [(-> & -> & Hall)|(-> & _)].
    2: { left. apply bind_spin. by eapply state_lock_busy. }
    right. destruct (state_lock _ _ _ _ _ Hst) as (h' & Hrun & Hst').
    do 3 eexists. split; [by erewrite bind_eq by exact Hrun|].
    exists 1, [], fr, al. split; [done|]. split; [|apply ownership_same; [done|by rewrite Hi]].
    by apply (lock_owner_keep _ _ (MkProc (FreeLocked b) h)).
Qed.

Lemma act_get pl d w ps i :
  inv pl d (Conf w ps) -> at_pc (ps i) = GetLocked \/ (exists b, at_pc (ps i) = GetRemoved b) \/
    (exists b, at_pc (ps i) = GetInserted b) -> act_ok pl d w ps i.
Proof.
  intros (lk & tr & fr & al & Hst & Hlo & Hown) Hc. right.
  destruct (lock_owner_inside ps lk tr i) as (-> & -> & Hall);
    [done|by destruct Hc as [->|[[b ->]|[b ->]]]|].
  destruct (ps i) as [c h] eqn:Hi. destruct Hc as [Hc|[[b Hc]|[b Hc]]]; cbn in *; subst c; cbn in *.
  - pose proof Hst as (p & Hp & _ & Hfr & _). destruct fr as [|b fr].
    + unfold slist in Hfr. destruct (state_unlock _ _ _ _ _ _ Hst) as (h' & Hrun & Hst').
      do 3 eexists. split; [crun; rewrite Hfr; cbn; by erewrite bind_eq by exact Hrun|].
      exists 0, [], [], al. split; [done|]. split; [by apply lock_owner_release|].
      apply ownership_same; [done|by rewrite Hi].
    + pose proof Hfr as (Hhd & _).
      destruct (state_remove w pl d 1 FreeList (b :: fr) al [] b fr Hst eq_refl) as (h' & Hrun & Hst').
      do 3 eexists. split; [crun; rewrite Hhd; cbn; by erewrite bind_eq by exact Hrun|].
      exists 1, [b], fr, al. split; [done|]. split; [by apply (lock_owner_keep _ _ (MkProc (GetRemoved b) h))|].
      apply ownership_same; [done|by rewrite Hi].
  - destruct (state_insert _ _ _ _ AllocatedList _ _ _ Hst) as (h' & Hrun & Hst').
    do 3 eexists. split; [by erewrite bind_eq by exact Hrun|].
    exists 1, [], fr, (b :: al). split; [done|].
    split; [by apply (lock_owner_keep _ _ (MkProc (GetInserted b) h))|].
    pose proof Hown as [H1 _]. destruct Hst as (? & _ & _ & _ & _ & _ & Hnd). cbn in Hnd.
    apply NoDup_cons in Hnd as [Hnb _].
    pose proof (H1 i) as [Hndi Hini]. rewrite Hi in Hndi, Hini. unfold owned in *. cbn in *.
    apply ownership_update with al; [done|..]; unfold owned; cbn.
    + apply NoDup_cons. split; [|done]. intros Hb%Hini. set_solver.
    + set_solver.
    + intros j y Hj Hy. apply (H1 j) in Hy as Hy'. split; [set_solver|].
      intros [->|Hyh]%elem_of_cons; [set_solver|]. destruct Hown as [_ H2].
      apply (H2 j i y Hj Hy). by rewrite Hi.
  - destruct (state_unlock _ _ _ _ _ _ Hst) as (h' & Hrun & Hst').
    do 3 eexists. split; [by erewrite bind_eq by exact Hrun|].
    exists 0, [], fr, al. split; [done|]. split; [by apply lock_owner_release|].
    apply ownership_same; [done|by rewrite Hi].
Qed.

Lemma act_free pl d w ps i :
  inv pl d (Conf w ps) -> (exists b, at_pc (ps i) = FreeLocked b) \/
    (exists b, at_pc (ps i) = FreeRemoved b) \/ (exists b, at_pc (ps i) = FreeInserted b) ->
  act_ok pl d w ps i.
Proof.
  intros (lk & tr & fr & al & Hst & Hlo & Hown) Hc. right.
  destruct (lock_owner_inside ps lk tr i) as (-> & -> & Hall);
    [done|by destruct Hc as [[b ->]|[[b ->]|[b ->]]]|].
  destruct (ps i) as [c h] eqn:Hi. destruct Hc as [[b Hc]|[[b Hc]|[b Hc]]]; cbn in *; subst c; cbn in *.
  - pose proof Hown as [H1 H2]. pose proof (H1 i) as [Hndi Hini]. rewrite Hi in Hndi, Hini.
    unfold owned in Hndi, Hini. cbn in *.
    assert (Hb : b ∈ al) by (apply Hini; set_solver).
    apply list_elem_of_split in Hb as (a1 & a2 & ->).
    destruct (state_remove w pl d 1 AllocatedList fr _ a1 b a2 Hst eq_refl) as (h' & Hrun & Hst').
    do 3 eexists. split; [by erewrite bind_eq by exact Hrun|].
    exists 1, [b], fr, (a1 ++ a2). split; [done|].
    split; [by apply (lock_owner_keep _ _ (MkProc (FreeRemoved b) h))|].
    apply NoDup_cons in Hndi as [Hnb Hndi].
    apply ownership_update with (a1 ++ b :: a2); [done|done|..]; unfold owned; cbn.
    + intros x Hx. specialize (Hini x ltac:(set_solver)). set_solver.
    + intros j x Hj Hx. split.
      * pose proof (proj2 (H1 j) x Hx). assert (x <> b); [|set_solver].
        intros ->. apply (H2 j i b Hj Hx). rewrite Hi. unfold owned. set_solver.
      * intros Hxh. apply (H2 j i x Hj Hx). rewrite Hi. unfold owned. set_solver.
  - destruct (state_insert _ _ _ _ FreeList _ _ _ Hst) as (h' & Hrun & Hst').
    do 3 eexists. split; [by erewrite bind_eq by exact Hrun|].
    exists 1, [], (b :: fr), al. split; [done|].
    split; [by apply (lock_owner_keep _ _ (MkProc (FreeInserted b) h))|].
    apply ownership_same; [done|by rewrite Hi].
  - destruct (state_unlock _ _ _ _ _ _ Hst) as (h' & Hrun & Hst').
    do 3 eexists. split; [by erewrite bind_eq by exact Hrun|].
    exists 0, [], fr, al. split; [done|]. split; [by apply lock_owner_release|].
    apply ownership_same; [done|by rewrite Hi].
Qed.

Lemma act_always_ok pl d w ps i : inv pl d (Conf w ps) -> act_ok pl d w ps i.
Proof.
  intros Hinv. destruct (locked (at_pc (ps i))) eqn:Hl; [|by apply act_outside].
  destruct (at_pc (ps i)) eqn:Hc; try done; eauto 6 using act_get, act_free.
Qed.

Lemma step_inv pl d c c' : step (Some pl) c c' -> inv pl d c -> inv pl d c'.
Proof.
  intros Hs Hinv. destruct Hs as [w ps i Hi|w ps i b h1 h2 Hi Hh|w ps i c' g w' Ha|w ps i Ha|w ps i Ha].
  - destruct Hinv as (lk & tr & fr & al & Hst & Hlo & Hown). exists lk, tr, fr, al. split; [done|].
    split; [apply lock_owner_outside; [done|by rewrite Hi|done]|].
    apply ownership_same; [done|]. unfold owned. by rewrite Hi.
  - destruct Hinv as (lk & tr & fr & al & Hst & Hlo & Hown). exists lk, tr, fr, al. split; [done|].
    split; [apply lock_owner_outside; [done|by rewrite Hi|done]|].
    apply ownership_same; [done|]. unfold owned. rewrite Hi, Hh. cbn. apply Permutation_middle.
  - destruct (act_always_ok pl d w ps i Hinv) as [H|(c1 & g1 & w1 & H & Hinv')]; congruence.
  - done.
  - destruct (act_always_ok pl d w ps i Hinv) as [H|(c1 & g1 & w1 & H & _)]; congruence.
Qed.

Lemma inv_initial pl d fr w :
  pool_repr (w_heap w) pl 0 d fr [] -> inv pl d (Conf w idle_procs).
Proof.
  intros (p & Hp & Hlk & Hf & Ha & Hnd). exists 0, [], fr, []. split; [|split].
  - exists p. split_and!; [done..|by intros ? ?%not_elem_of_nil|done].
  - left. by split_and!.
  - split; [intros i; split; [constructor|by intros ? ?%not_elem_of_nil]|].
    intros i j b _ Hb. by apply not_elem_of_nil in Hb.
Qed.

Lemma reachable_inv pl d fr w c :
  pool_repr (w_heap w) pl 0 d fr [] -> steps (Some pl) (Conf w idle_procs) c -> inv pl d c.
Proof.
  intros Hr Hs. remember (Conf w idle_procs) as c0 eqn:Hc0.
  induction Hs as [c|c1 c2 c3 Hs IH Hst]; subst; [by eapply inv_initial|].
  eapply step_inv; eauto.
Qed.

(** ** What the processes can rely on *)

(** (C5) However the processes interleave, none of them ever runs into
    undefined behaviour inside the pool functions: no reachable configuration
    is [Wrong], and every process inside a call can take its next action or is
    waiting for the lock. *)
Theorem pool_never_wrong pl d fr w c (i : nat) :
  pool_repr (w_heap w) pl 0 d fr [] -> steps (Some pl) (Conf w idle_procs) c ->
  exists w' ps, c = Conf w' ps /\
    (act (Some pl) (at_pc (ps i)) w' = Spin \/
     exists r w'', act (Some pl) (at_pc (ps i)) w' = Ret r w'').
Proof.
  intros Hr Hs. pose proof (reachable_inv _ _ _ _ _ Hr Hs) as Hinv.
  destruct c as [w' ps|]; [|done]. exists w', ps. split; [done|].
  destruct (act_always_ok pl d w' ps i Hinv) as [H|(c1 & g1 & w1 & H & _)]; eauto.
Qed.

(** Mutual exclusion: two processes that are between taking and
    releasing the pool's lock are the same process. *)
Theorem pool_mutual_exclusion pl d fr w w' ps i j :
  pool_repr (w_heap w) pl 0 d fr [] -> steps (Some pl) (Conf w idle_procs) (Conf w' ps) ->
  locked (at_pc (ps i)) = true -> locked (at_pc (ps j)) = true -> i = j.
Proof.
  intros Hr Hs Hi Hj. destruct (reachable_inv _ _ _ _ _ Hr Hs) as (lk & tr & _ & _ & _ & Hlo & _).
  destruct (lock_owner_inside _ _ _ _ Hlo Hi) as (_ & _ & Hall).
  destruct (decide (i = j)) as [|Hne]; [done|]. rewrite Hall in Hj; done.
Qed.

(** (C1) Exclusive ownership: in every reachable configuration a process
    holds no block twice, no two processes hold the same block, and no held
    block is on the free list, so no block is handed out while it is held. *)
Theorem pool_exclusive_ownership pl d fr w w' ps :
  pool_repr (w_heap w) pl 0 d fr [] -> steps (Some pl) (Conf w idle_procs) (Conf w' ps) ->
  (forall i, NoDup (held (ps i))) /\
  (forall i j b, i <> j -> b ∈ held (ps i) -> b ∉ held (ps j)) /\
  exists p fr', w_heap w' !! pl = Some (OPool p) /\ slist (w_heap w') d (free_list p) fr' /\
    (forall i b, b ∈ held (ps i) -> b ∉ fr').
Proof.
  intros Hr Hs. destruct (reachable_inv _ _ _ _ _ Hr Hs) as (lk & tr & fr' & al & Hst & _ & H1 & H2).
  assert (Hin : forall i b, b ∈ held (ps i) -> b ∈ owned (ps i)) by (unfold owned; set_solver).
  destruct Hst as (p & Hp & _ & Hf & _ & _ & Hnd). split_and!.
  - intros i. destruct (H1 i) as [Hi _]. unfold owned in Hi. by apply NoDup_app in Hi as (_ & _ & ?).
  - intros i j b Hij Hi Hj. apply (H2 i j b Hij); auto.
  - exists p, fr'. split_and!; [done..|]. intros i b Hb Hb'.
    apply NoDup_app in Hnd as (_ & _ & (_ & Hdis & _)%NoDup_app).
    apply (Hdis b Hb'). apply (proj2 (H1 i)). auto.
Qed.

(** ** The actions are the functions *)

(** Both sides run [m] next: go on after it. *)
Ltac next_action m w w' :=
  cbn [run_pc act Nat.add]; unfold bind, ret; destruct (m w) as [? w'| | | |]; try done.

(** The actions the processes interleave are the functions of memory.c:
    run without interruption, the actions from [GetLocking] on are turns of
    [mem_get_shared_block]'s loop (with a block: the block is what the process
    gains; without one: the next turn), and the actions from [FreeLocking] on
    are [mem_free_shared_block]. *)
Theorem actions_are_the_functions n pl b w :
  run_pc (4 + n) (Some pl) GetLocking w =
    (let! block := try_get_shared_block (Some pl) in
     match block with
     | Some b => ret [b]
     | None => run_pc (2 + n) (Some pl) GetLocking
     end) w /\
  run_pc (4 + n) (Some pl) (FreeLocking b) w =
    (mem_free_shared_block (Some b) (Some pl) ;;; ret []) w.
Proof.
  split; unfold try_get_shared_block, mem_free_shared_block.
  - next_action (nx_spinlock_lock (Some pl)) w w1. next_action (load_pool (Some pl)) w1 w2.
    destruct (free_list _) as [x|].
    + next_action (NX_SLIST_REMOVE (Some pl) FreeList (Some x)) w2 w3.
      next_action (NX_SLIST_INSERT_HEAD (Some pl) AllocatedList (Some x)) w3 w4.
      by next_action (nx_spinlock_unlock (Some pl)) w4 w5.
    + by next_action (nx_spinlock_unlock (Some pl)) w2 w5.
  - next_action (nx_spinlock_lock (Some pl)) w w1.
    next_action (NX_SLIST_REMOVE (Some pl) AllocatedList (Some b)) w1 w3.
    next_action (NX_SLIST_INSERT_HEAD (Some pl) FreeList (Some b)) w3 w4.
    by next_action (nx_spinlock_unlock (Some pl)) w4 w5.
Qed.

(** ** A run of two processes on the pool of two blocks *)

Definition demo_world : world := set_heap demo_heap (fresh_world [] []).

(** Process 0 takes the lock, process 1 waits for it. *)
Definition demo_locked : world :=
  set_heap (<[1%positive := OPool (MkPool 1 8 2 (Some 4%positive) NULL)]> demo_heap) demo_world.

Lemma demo_steps :
  steps (Some 1%positive) (Conf demo_world idle_procs)
    (Conf demo_locked (<[0%nat := MkProc GetLocked []]>
       (<[1%nat := MkProc GetLocking []]> (<[0%nat := MkProc GetLocking []]> idle_procs)))).
Proof.
  eapply steps_step; [eapply steps_step; [eapply steps_step; [apply steps_refl|]|]|].
  - by apply (step_get _ _ _ 0%nat).
  - by apply (step_get _ _ _ 1%nat).
  - exact (step_act (Some 1%positive) demo_world (<[1%nat := MkProc GetLocking []]>
      (<[0%nat := MkProc GetLocking []]> idle_procs)) 0%nat GetLocked [] demo_locked eq_refl).
Defined.

Lemma pool_never_wrong_witness :
  exists w' ps, Conf demo_locked (<[0%nat := MkProc GetLocked []]>
       (<[1%nat := MkProc GetLocking []]> (<[0%nat := MkProc GetLocking []]> idle_procs))) = Conf w' ps /\
    (act (Some 1%positive) (at_pc (ps 1%nat)) w' = Spin \/
     exists r w'', act (Some 1%positive) (at_pc (ps 1%nat)) w' = Ret r w'').
Proof. exact (pool_never_wrong _ _ _ _ _ 1%nat demo_repr demo_steps). Defined.

Lemma pool_mutual_exclusion_witness :
  exists ps : nat -> proc, steps (Some 1%positive) (Conf demo_world idle_procs) (Conf demo_locked ps) /\
    locked (at_pc (ps 0%nat)) = true /\ locked (at_pc (ps 1%nat)) = false.
Proof.
  eexists. split; [exact demo_steps|]. split; [done|].
  match goal with |- ?b = false => destruct b eqn:E end; [exfalso|done].
  assert (0%nat = 1%nat) by (apply (pool_mutual_exclusion _ _ _ _ _ _ 0%nat 1%nat demo_repr demo_steps); done). done.
Defined.

Lemma pool_exclusive_ownership_witness :
  exists p fr', w_heap demo_locked !! 1%positive = Some (OPool p) /\
    slist (w_heap demo_locked) demo_data (free_list p) fr'.
Proof.
  destruct (pool_exclusive_ownership _ _ _ _ _ _ demo_repr demo_steps) as (_ & _ & p & fr' & H1 & H2 & _).
  exists p, fr'. split; [exact H1|exact H2].
Defined.
