(* ===== verification/Concurrent.v ===== *)
(** * Concurrent: the compare-and-swap loops (concurrent/concurrent.c)

    [cas_loop_int32] and [cas_loop_uint32] replace a shared integer that
    other processes replace as well.  They are given twice: as functions that
    run alone, which is what the callers in the other files use, and as
    processes whose loads and compare-and-swaps interleave. *)

From stdpp Require Import functions.
From S2P Require Import Prelude Types CWorld.

(** [ck_pr_cas_int(target, compare, set)]. *)
Definition ck_pr_cas (target : ptr) (compare set : Z) : M bool :=
  let! cur := load_int target in
  if cur =? compare then store target (OInt set) ;;; ret true else ret false.

Fixpoint cas_loop_int32 (fuel : nat) (target : ptr) (value : Z) : M unit :=
  match fuel with
  | O => spin
  | S n =>
      let! snapshot := load_int target in
      let! ok := ck_pr_cas target snapshot value in
      if ok : bool then ret tt else cas_loop_int32 n target value
  end.

Fixpoint cas_loop_uint32 (fuel : nat) (target : ptr) (value : Z) : M unit :=
  match fuel with
  | O => spin
  | S n =>
      let! snapshot := load_int target in
      let! ok := ck_pr_cas target snapshot value in
      if ok : bool then ret tt else cas_loop_uint32 n target value
  end.

(** Alone, the first turn succeeds: any fuel but none is enough. *)
Lemma cas_loop_uint32_alone n w t z v :
  w_heap w !! t = Some (OInt z) ->
  cas_loop_uint32 (S n) (Some t) v w = Ret tt (set_heap (<[t := OInt v]> (w_heap w)) w).
Proof.
  intros H. cbn [cas_loop_uint32]. crun. unfold ck_pr_cas. crun.
  rewrite Z.eqb_refl. crun. done.
Qed.

Lemma cas_loop_int32_alone n w t z v :
  w_heap w !! t = Some (OInt z) ->
  cas_loop_int32 (S n) (Some t) v w = Ret tt (set_heap (<[t := OInt v]> (w_heap w)) w).
Proof.
  intros H. cbn [cas_loop_int32]. crun. unfold ck_pr_cas. crun.
  rewrite Z.eqb_refl. crun. done.
Qed.

(** ** Interleaving *)

Inductive cpc :=
| CasStart                              (* at the top of the loop *)
| CasLoaded (snapshot : Z) (seen : nat) (* loaded; [seen] values had been written by then *)
| CasDone.                              (* returned *)

(** What a process has done: it has written over the value it had loaded. *)
Record swap := MkSwap { swap_proc : nat; swap_old : Z }.

(** The next access of a process that wants to write [v]; [hist] is the
    history of the compare-and-swaps that succeeded. *)
Definition cas_act (target : ptr) (v : Z) (hist : list swap) (c : cpc) : M cpc :=
  match c with
  | CasStart => let! snapshot := load_int target in ret (CasLoaded snapshot (length hist))
  | CasLoaded snapshot _ =>
      let! ok := ck_pr_cas target snapshot v in
      ret (if ok : bool then CasDone else CasStart)
  | CasDone => ret CasDone
  end.

Definition is_done (c : cpc) : bool := match c with CasDone => true | _ => false end.

(** A process by itself: one access after the other. *)
Fixpoint run_acts (n : nat) (target : ptr) (v : Z) (c : cpc) : M unit :=
  match n with
  | O => spin
  | S n' => let! c' := cas_act target v [] c in if is_done c' then ret tt else run_acts n' target v c'
  end.

(** The loops are these accesses, two for each turn. *)
Lemma cas_loops_are_acts fuel target v : forall w,
  cas_loop_int32 fuel target v w = run_acts (2 * fuel) target v CasStart w /\
  cas_loop_uint32 fuel target v w = run_acts (2 * fuel) target v CasStart w.
Proof.
  induction fuel as [|n IH]; intros w; [done|]. replace (2 * S n)%nat with (S (S (2 * n))) by lia.
  cbn [cas_loop_int32 cas_loop_uint32 run_acts cas_act]. unfold bind.
  destruct (load_int target w) as [z w1| | | |]; try done. unfold ret. cbn [is_done run_acts cas_act]. unfold bind, ret.
  destruct (ck_pr_cas target z v w1) as [[] w2| | | |]; done.
Qed.

Record cconf := MkCconf { c_world : world; c_pcs : nat -> cpc; c_hist : list swap }.

(** The history when a process at [pc] has made an access. *)
Definition record_swap (i : nat) (pc pc' : cpc) (hist : list swap) : list swap :=
  match pc, pc' with CasLoaded snapshot _, CasDone => MkSwap i snapshot :: hist | _, _ => hist end.

(** Process [i], which writes [vals i], makes its next access; a success is
    recorded at the head of the history with the value that had been loaded. *)
Inductive cas_step (target : ptr) (vals : nat -> Z) : cconf -> cconf -> Prop :=
| cas_step_intro c i pc' w' :
    is_done (c_pcs c i) = false ->
    cas_act target (vals i) (c_hist c) (c_pcs c i) (c_world c) = Ret pc' w' ->
    cas_step target vals c
      (MkCconf w' (<[i := pc']> (c_pcs c)) (record_swap i (c_pcs c i) pc' (c_hist c))).

Inductive cas_steps (target : ptr) (vals : nat -> Z) : cconf -> cconf -> Prop :=
| cas_steps_refl c : cas_steps target vals c c
| cas_steps_step c1 c2 c3 :
    cas_steps target vals c1 c2 -> cas_step target vals c2 c3 -> cas_steps target vals c1 c3.

Definition cas_start (w : world) : cconf := MkCconf w (fun _ => CasStart) [].

(** The value the history leaves: what the last successful process wrote. *)
Definition last_written (vals : nat -> Z) (z0 : Z) (hist : list swap) : Z :=
  match hist with [] => z0 | h :: _ => vals (swap_proc h) end.

(** Every swap of the history replaced what the swaps before it had left. *)
Definition swaps_in_turn (vals : nat -> Z) (z0 : Z) (hist : list swap) : Prop :=
  forall newer h older, hist = newer ++ h :: older -> swap_old h = last_written vals z0 older.

(** A snapshot taken when [seen] values had been written is what the history
    up to then left. *)
Definition cas_inv (t : loc) (vals : nat -> Z) (z0 : Z) (c : cconf) : Prop :=
  w_heap (c_world c) !! t = Some (OInt (last_written vals z0 (c_hist c))) /\
  NoDup (swap_proc <$> c_hist c) /\
  (forall i, i ∈ swap_proc <$> c_hist c <-> c_pcs c i = CasDone) /\
  (forall i s n, c_pcs c i = CasLoaded s n ->
     exists newer older, c_hist c = newer ++ older /\ length older = n /\
       s = last_written vals z0 older) /\
  swaps_in_turn vals z0 (c_hist c).

(** One access, seen from the invariant. *)
Lemma cas_act_spec t v hist c w z :
  w_heap w !! t = Some (OInt z) ->
  cas_act (Some t) v hist c w =
    match c with
    | CasStart => Ret (CasLoaded z (length hist)) w
    | CasLoaded s _ =>
        if z =? s then Ret CasDone (set_heap (<[t := OInt v]> (w_heap w)) w) else Ret CasStart w
    | CasDone => Ret CasDone w
    end.
Proof.
  intros H. destruct c as [|s n|]; cbn [cas_act]; [by crun| |done].
  unfold ck_pr_cas. crun. destruct (z =? s); by crun.
Qed.

Lemma swaps_in_turn_cons vals z0 hist h :
  swaps_in_turn vals z0 hist -> swap_old h = last_written vals z0 hist -> swaps_in_turn vals z0 (h :: hist).
Proof.
  intros Hs Hh [|x newer] y older; cbn; [intros [= <- <-]; done|]. intros [= -> ->]. by eapply Hs.
Qed.

(** A process that has not returned yet goes to a place where it has not. *)
Lemma cas_inv_moves t vals z0 c i pc' :
  cas_inv t vals z0 c -> is_done (c_pcs c i) = false -> is_done pc' = false ->
  (forall s n, pc' = CasLoaded s n -> s = last_written vals z0 (c_hist c) /\ n = length (c_hist c)) ->
  cas_inv t vals z0 (MkCconf (c_world c) (<[i := pc']> (c_pcs c)) (c_hist c)).
Proof.
  intros (Hv & Hnd & Hdone & Hsnap & Hturn) Hd Hd' Hl. split_and!; cbn; [done|done| | |done].
  - intros j. rewrite Hdone. destruct (decide (i = j)) as [->|Hne];
      [rewrite fn_lookup_insert|by rewrite fn_lookup_insert_ne]. split; intros E; [by rewrite E in Hd|by subst pc'].
  - intros j s n. destruct (decide (i = j)) as [->|Hne].
    + rewrite fn_lookup_insert. intros ->. destruct (Hl s n eq_refl) as [-> ->]. by exists [], (c_hist c).
    + rewrite fn_lookup_insert_ne by done. apply Hsnap.
Qed.

Lemma cas_step_inv t vals z0 c c' :
  cas_step (Some t) vals c c' -> cas_inv t vals z0 c -> cas_inv t vals z0 c'.
Proof.
  intros [c0 i pc' w' Hd Ha] Hinv. pose proof Hinv as (Hv & Hnd & Hdone & Hsnap & Hturn). cbn in *.
  rewrite (cas_act_spec _ _ _ _ _ _ Hv) in Ha.
  assert (Hni : i ∉ swap_proc <$> c_hist c0) by (intros Hi%Hdone; by rewrite Hi in Hd).
  destruct (c_pcs c0 i) as [|s n|] eqn:Hi; [| |done].
  - injection Ha as <- <-. apply cas_inv_moves; [done|by rewrite Hi|done|]. by intros s n [= <- <-].
  - destruct (Z.eqb_spec (last_written vals z0 (c_hist c0)) s) as [Heq|Hneq]; injection Ha as <- <-.
    2: { apply cas_inv_moves; [done|by rewrite Hi|done|done]. }
    split_and!; cbn.
    + by simplify_map_eq.
    + by apply NoDup_cons.
    + intros j. destruct (decide (i = j)) as [->|Hne]; [rewrite fn_lookup_insert|rewrite fn_lookup_insert_ne by done].
      * split; [done|]. intros _. apply elem_of_cons. by left.
      * rewrite elem_of_cons, Hdone. split; [intros [->|]|]; [done|done|by right].
    + intros j s' n'. destruct (decide (i = j)) as [->|Hne]; [by rewrite fn_lookup_insert|].
      rewrite fn_lookup_insert_ne by done. intros (nw & od & -> & H1 & H2)%Hsnap. by exists (MkSwap i s :: nw), od.
    + by apply swaps_in_turn_cons.
Qed.

Lemma cas_reachable t vals z0 w c :
  w_heap w !! t = Some (OInt z0) -> cas_steps (Some t) vals (cas_start w) c -> cas_inv t vals z0 c.
Proof.
  intros Hw Hs. remember (cas_start w) as c0 eqn:Hc0.
  induction Hs as [c|c1 c2 c3 Hs IH Hst]; subst; [|eauto using cas_step_inv].
  split_and!; cbn; [done|constructor| |done|by intros [|??] ? ? ?].
  intros i. split; [by intros ?%not_elem_of_nil|done].
Qed.

(** (C30) The loops are atomic writes.  A loop by itself makes the accesses
    [cas_act] one after the other; and in every interleaving of the accesses of
    any number of processes, those that have returned are exactly those of the
    history, each once; every successful swap replaced the value its process
    had loaded, and that is the value the swap before it had written (the
    initial value for the first); and the shared integer is what the last swap
    wrote.  So no write is lost between the load and the swap of another. *)
Theorem cas_loop_linearizable t vals z0 w c :
  w_heap w !! t = Some (OInt z0) -> cas_steps (Some t) vals (cas_start w) c ->
  NoDup (swap_proc <$> c_hist c) /\ (forall i, i ∈ swap_proc <$> c_hist c <-> c_pcs c i = CasDone) /\
  swaps_in_turn vals z0 (c_hist c) /\
  w_heap (c_world c) !! t = Some (OInt (last_written vals z0 (c_hist c))) /\
  forall i fuel w',
    cas_loop_int32 fuel (Some t) (vals i) w' = run_acts (2 * fuel) (Some t) (vals i) CasStart w' /\
    cas_loop_uint32 fuel (Some t) (vals i) w' = run_acts (2 * fuel) (Some t) (vals i) CasStart w'.
Proof.
  intros Hw Hs. destruct (cas_reachable _ _ _ _ _ Hw Hs) as (? & ? & ? & _ & ?).
  split_and!; [done..|]. intros i fuel w'. apply cas_loops_are_acts.
Qed.

(** The loops are lock-free: a process goes round its loop again only
    when some other process has returned since it took its snapshot. *)
Theorem cas_loop_lock_free t vals z0 w c i s n w' :
  w_heap w !! t = Some (OInt z0) -> cas_steps (Some t) vals (cas_start w) c ->
  c_pcs c i = CasLoaded s n ->
  cas_act (Some t) (vals i) (c_hist c) (c_pcs c i) (c_world c) = Ret CasStart w' ->
  exists newer older j, c_hist c = newer ++ older /\ length older = n /\ j ∈ newer /\ swap_proc j <> i.
Proof.
  intros Hw Hs Hi Ha. destruct (cas_reachable _ _ _ _ _ Hw Hs) as (Hv & _ & Hdone & Hsnap & _).
  rewrite (cas_act_spec _ _ _ _ _ _ Hv), Hi in Ha.
  destruct (Hsnap i s n Hi) as (nw & od & Heq & Hlen & ->). rewrite Heq in *.
  destruct nw as [|j nw]; [by rewrite Z.eqb_refl in Ha|].
  exists (j :: nw), od, j. split_and!; [done..|apply elem_of_cons; by left|].
  intros <-. assert (Hd : c_pcs c (swap_proc j) = CasDone) by (apply Hdone; set_solver). congruence.
Qed.

(** ** A run of two processes *)

Definition cell_world : world := set_heap {[1%positive := OInt 0]} (fresh_world [] []).

Definition demo_vals (i : nat) : Z := if decide (i = 1%nat) then 7 else 5.

(** Both load, then process 1 writes: process 0 holds a stale snapshot. *)
Definition cas_demo : cconf :=
  MkCconf (set_heap {[1%positive := OInt 7]} (fresh_world [] []))
    (<[1%nat := CasDone]> (<[1%nat := CasLoaded 0 0]> (<[0%nat := CasLoaded 0 0]> (fun _ => CasStart)))) [MkSwap 1 0].

Lemma cas_demo_steps :
  cas_steps (Some 1%positive) demo_vals (cas_start cell_world) cas_demo.
Proof.
  eapply cas_steps_step; [eapply cas_steps_step; [eapply cas_steps_step; [apply cas_steps_refl|]|]|].
  - exact (cas_step_intro (Some 1%positive) demo_vals (cas_start cell_world) 0%nat (CasLoaded 0 0) cell_world eq_refl eq_refl).
  - exact (cas_step_intro (Some 1%positive) demo_vals (MkCconf cell_world (<[0%nat := CasLoaded 0 0]> (fun _ => CasStart)) [])
      1%nat (CasLoaded 0 0) cell_world eq_refl eq_refl).
  - exact (cas_step_intro (Some 1%positive) demo_vals (MkCconf cell_world (<[1%nat := CasLoaded 0 0]>
      (<[0%nat := CasLoaded 0 0]> (fun _ => CasStart))) []) 1%nat CasDone
      (set_heap {[1%positive := OInt 7]} (fresh_world [] [])) eq_refl eq_refl).
Defined.

Lemma cas_loop_linearizable_witness :
  w_heap (c_world cas_demo) !! 1%positive = Some (OInt 7) /\ swaps_in_turn demo_vals 0 (c_hist cas_demo).
Proof.
  destruct (cas_loop_linearizable 1%positive demo_vals 0
    cell_world cas_demo eq_refl cas_demo_steps) as (_ & _ & H1 & H2 & _). split; [exact H2|exact H1].
Defined.

Lemma cas_loop_lock_free_witness :
  exists newer older j, c_hist cas_demo = newer ++ older /\ length older = 0%nat /\
    j ∈ newer /\ swap_proc j <> 0%nat.
Proof.
  exact (cas_loop_lock_free 1%positive demo_vals 0
    cell_world cas_demo 0%nat 0 0%nat _ eq_refl cas_demo_steps eq_refl eq_refl).
Defined.
