(* ===== verification/Realloc.v ===== *)
(** * Realloc: reallocarray (utils/reallocarray.c)

    The overflow-checked array reallocation of utils/, its guard and
    realloc(3) below it. *)

From S2P Require Import Prelude Types CWorld.

(** What a region is viewed as after its size has become [n] bytes. *)
Definition resize (o : hobj) (n : Z) : option hobj :=
  match o with
  | OPtrs ps => Some (OPtrs (list.resize (Z.to_nat (n / 8)) NULL ps))
  | OBytes bs => Some (OBytes (list.resize (Z.to_nat n) None bs))
  | _ => None
  end.

(** [realloc(3)]: on failure the old region stays; on success it is replaced
    by a new one with the same contents up to the smaller of the sizes. *)
Definition realloc (optr : ptr) (n : Z) : M ptr :=
  match optr with
  | None => malloc (junk n)
  | Some _ =>
      let! o := load optr in
      let! o' := need (resize o n) in
      let! p := malloc o' in
      match p with
      | None => ret NULL
      | Some _ => free_loc optr ;;; ret p
      end
  end.

Definition MUL_NO_OVERFLOW : Z := Z.shiftl 1 (8 * 4).

Definition mul_guard (nmemb size : Z) : bool :=
  ((MUL_NO_OVERFLOW <=? nmemb) || (MUL_NO_OVERFLOW <=? size)) &&
  (0 <? nmemb) && (SIZE_MAX / nmemb <? size).

Definition reallocarray (optr : ptr) (nmemb size : Z) : M ptr :=
  if mul_guard nmemb size then ret NULL
  else realloc optr (u64 (size * nmemb)).

Lemma mul_guard_exact nmemb size :
  0 <= nmemb <= SIZE_MAX -> 0 <= size <= SIZE_MAX ->
  mul_guard nmemb size = true <-> SIZE_MAX < nmemb * size.
Proof.
  intros Hn Hs. unfold mul_guard, MUL_NO_OVERFLOW, SIZE_MAX in *.
  change (Z.shiftl 1 (8 * 4)) with (2 ^ 32).
  rewrite !andb_true_iff, orb_true_iff, !Z.leb_le, !Z.ltb_lt. split.
  - intros [[_ Hpos] Hlt]. apply Z.lt_nge. intros Hle.
    apply Z.lt_nge in Hlt. apply Hlt, Z.div_le_lower_bound; lia.
  - intros Hov. split; [split|].
    + destruct (Z.le_gt_cases (2 ^ 32) nmemb); [by left|right].
      destruct (Z.le_gt_cases (2 ^ 32) size); [done|]. nia.
    + destruct (Z.eq_dec nmemb 0) as [->|]; lia.
    + apply Z.div_lt_upper_bound; [|lia]. destruct (Z.eq_dec nmemb 0) as [->|]; lia.
Qed.

(** [reallocarray] never hands out a region smaller than asked for: for
    any two [size_t] arguments whose product does not fit a [size_t] it
    answers [NULL] without touching anything, and otherwise it reallocates to
    exactly [nmemb * size] bytes, no product being refused or wrapped. *)
Theorem reallocarray_exact optr nmemb size w :
  0 <= nmemb <= SIZE_MAX -> 0 <= size <= SIZE_MAX ->
  reallocarray optr nmemb size w =
    if SIZE_MAX <? nmemb * size then Ret NULL w else realloc optr (nmemb * size) w.
Proof.
  intros Hn Hs. pose proof (mul_guard_exact _ _ Hn Hs) as Hg. unfold reallocarray.
  destruct (Z.ltb_spec SIZE_MAX (nmemb * size)) as [Hov|Hfit].
  - by rewrite (proj2 Hg Hov).
  - destruct (mul_guard nmemb size); [apply proj1 in Hg; specialize (Hg eq_refl); lia|].
    rewrite u64_small, Z.mul_comm; [done|]. unfold SIZE_MAX in *. nia.
Qed.

Lemma reallocarray_exact_witness :
  reallocarray NULL (2 ^ 33) (2 ^ 31) (fresh_world [] []) = Ret NULL (fresh_world [] []) /\
  reallocarray NULL 3 8 (fresh_world [] []) = realloc NULL 24 (fresh_world [] []).
Proof.
  split; [refine (eq_trans (reallocarray_exact NULL (2 ^ 33) (2 ^ 31) (fresh_world [] []) _ _) _)
         |refine (eq_trans (reallocarray_exact NULL 3 8 (fresh_world [] []) _ _) _)];
    first [done | vm_compute; split; discriminate].
Defined.

(** Growing an array of pointers keeps what it held. *)
Lemma reallocarray_ptrs w l ps n :
  oracle_ok w -> heap_wf w -> w_heap w !! l = Some (OPtrs ps) -> 0 <= n < 2 ^ 32 ->
  exists l' w', reallocarray (Some l) n 8 w = Ret (Some l') w' /\
    w_heap w' !! l' = Some (OPtrs (list.resize (Z.to_nat n) NULL ps)) /\
    (forall x, x <> l -> (x < w_next w)%positive -> w_heap w' !! x = w_heap w !! x).
Proof.
  intros Ho Hwf Hl Hn. unfold reallocarray.
  destruct (mul_guard n 8) eqn:Hg.
  { apply mul_guard_exact in Hg; unfold SIZE_MAX in *; lia. }
  rewrite u64_small, Z.mul_comm by lia. unfold realloc.
  erewrite bind_eq by (by apply load_eq). cbn. crun. erewrite bind_eq by (by apply malloc_ok). rewrite Z.div_mul by lia.
  pose proof (heap_wf_lt _ _ _ Hwf Hl).
  erewrite bind_eq by (eapply free_loc_eq; cbn; rewrite lookup_insert_ne by lia; exact Hl).
  do 2 eexists. split; [reflexivity|]. cbn. split.
  - rewrite lookup_delete_ne by lia. apply lookup_insert_eq.
  - intros x Hx Hlt. rewrite lookup_delete_ne by done. by rewrite lookup_insert_ne by lia.
Qed.
