(* ===== verification/Epoch.v ===== *)
(** * Epoch: epoch-protected sections (concurrent/epoch.c)

    A thread's record with the epoch, its stack of open sections and the
    operations of concurrent/epoch.c, on top of the parts of the vendored
    concurrency kit they call (ck_epoch.h, ck_epoch.c; x86 is a TSO machine,
    so the fences are no statements of the model). *)

From S2P Require Import Prelude Types CWorld Memory Realloc.

(** ** ck_epoch *)

Definition CK_EPOCH_STATE_USED : Z := 0.
Definition CK_EPOCH_STATE_FREE : Z := 1.

Definition get_bucket (r : epoch_record) (i : Z) : epoch_ref :=
  if i =? 0 then rec_bucket0 r else rec_bucket1 r.

Definition set_bucket (r : epoch_record) (i : Z) (b : epoch_ref) : epoch_record :=
  let '(MkRecord g s e a b0 b1 p k d) := r in
  if i =? 0 then MkRecord g s e a b b1 p k d else MkRecord g s e a b0 b p k d.

Definition set_active (r : epoch_record) (a : Z) : epoch_record :=
  let '(MkRecord g s e _ b0 b1 p k d) := r in MkRecord g s e a b0 b1 p k d.

Definition set_rec_epoch (r : epoch_record) (e : Z) : epoch_record :=
  let '(MkRecord g s _ a b0 b1 p k d) := r in MkRecord g s e a b0 b1 p k d.

(** The section's bucket is answered instead of written through the pointer. *)
Definition ck_epoch_addref (record : ptr) : M epoch_section :=
  let! r := load_record record in
  let! g := load_epoch (rec_global r) in
  let epoch := ep_epoch g in
  let i := Z.land epoch 1 in
  let ref := get_bucket r i in
  let ref' := MkRef (if ref_count ref =? 0 then epoch else ref_epoch ref) (u32 (ref_count ref + 1)) in
  store record (ORecord (set_bucket r i ref')) ;;;
  ret (MkSection i).

Definition ck_epoch_delref (record : ptr) (section : epoch_section) : M unit :=
  let! r := load_record record in
  let i := sec_bucket section in
  let current := MkRef (ref_epoch (get_bucket r i)) (u32 (ref_count (get_bucket r i) - 1)) in
  let r := set_bucket r i current in
  store record (ORecord r) ;;;
  if 0 <? ref_count current then ret tt
  else
    let other := get_bucket r (Z.land (i + 1) 1) in
    if (0 <? ref_count other) && (i32 (ref_epoch current - ref_epoch other) <? 0)
    then store record (ORecord (set_rec_epoch r (ref_epoch other)))
    else ret tt.

Definition epoch_begin (record : ptr) : M epoch_section :=
  let! r := load_record record in
  (if rec_active r =? 0 then
     let! g := load_epoch (rec_global r) in
     store record (ORecord (set_rec_epoch (set_active r 1) (ep_epoch g)))
   else store record (ORecord (set_active r (u32 (rec_active r + 1))))) ;;;
  ck_epoch_addref record.

Definition epoch_end (record : ptr) (section : ptr) : M unit :=
  let! r := load_record record in
  store record (ORecord (set_active r (u32 (rec_active r - 1)))) ;;;
  match section with
  | None => ret tt
  | Some _ =>
      let! s := load_section section in
      ck_epoch_delref record s
  end.

Definition epoch_init (epoch : ptr) : M unit :=
  let! _ := load_epoch epoch in
  store epoch (OEpoch (MkEpoch 1 [] 0)).

Definition cleared (g : ptr) (state : Z) : epoch_record :=
  MkRecord g state 0 0 (MkRef 0 0) (MkRef 0 0) 0 0 0.

Definition epoch_register (epoch record : ptr) : M unit :=
  let! _ := load_record record in
  store record (ORecord (cleared epoch CK_EPOCH_STATE_USED)) ;;;
  let! g := load_epoch epoch in
  store epoch (OEpoch (MkEpoch (ep_epoch g) (record :: ep_records g) (ep_n_free g))).

Definition epoch_unregister (record : ptr) : M unit :=
  let! r := load_record record in
  store record (ORecord (cleared (rec_global r) CK_EPOCH_STATE_FREE)) ;;;
  let! g := load_epoch (rec_global r) in
  store (rec_global r) (OEpoch (MkEpoch (ep_epoch g) (ep_records g) (u32 (ep_n_free g + 1)))).

(** ** concurrent/epoch.c *)

(** A struct fresh from the allocator: its members are indeterminate, and
    are all assigned before they are read. *)
Definition raw_record : epoch_record := cleared NULL 0.
Definition raw_thread : thread_ctx := MkThread NULL NULL 0 0.

Definition init_thread (epoch : ptr) (allocator : memory_allocator) : M ptr :=
  let! thread := alloc allocator (OThread raw_thread) in
  match thread with
  | None => write ERROR "Thread context allocation failed\n" ;;; ret NULL
  | Some _ =>
      let! record := alloc allocator (ORecord raw_record) in
      let! t := load_thread thread in
      store thread (OThread (MkThread record (th_section t) (section_count t) (buf_size t))) ;;;
      match record with
      | None =>
          write ERROR "Epoch record allocation failed\n" ;;;
          let! _ := free allocator thread in
          ret NULL
      | Some _ =>
          let! t := load_thread thread in
          store thread (OThread (MkThread (th_record t) (th_section t) 0 8)) ;;;
          let! t := load_thread thread in
          let! section := alloc allocator (OPtrs (replicate (Z.to_nat (buf_size t)) NULL)) in
          store thread (OThread (MkThread (th_record t) section (section_count t) (buf_size t))) ;;;
          match section with
          | None =>
              write ERROR "Epoch section array allocation failed\n" ;;;
              let! thread := free allocator thread in
              let! t := load_thread thread in
              let! record := free allocator (th_record t) in
              store thread (OThread (MkThread record (th_section t) (section_count t) (buf_size t))) ;;;
              ret NULL
          | Some _ =>
              let! t := load_thread thread in
              epoch_register epoch (th_record t) ;;;
              ret thread
          end
      end
  end.

(** Answers what is left in the caller's pointer. *)
Definition clean_thread (thread : ptr) (allocator : memory_allocator) : M ptr :=
  let! t := load_thread thread in
  epoch_unregister (th_record t) ;;;
  let! section := free allocator (th_section t) in
  store thread (OThread (MkThread (th_record t) section (section_count t) (buf_size t))) ;;;
  let! t := load_thread thread in
  let! record := free allocator (th_record t) in
  store thread (OThread (MkThread record (th_section t) (section_count t) (buf_size t))) ;;;
  free allocator thread.

Definition get_record (thread : ptr) : M ptr :=
  let! t := load_thread thread in ret (th_record t).

Definition epoch_start (thread : ptr) (allocator : memory_allocator) : M Z :=
  let! t := load_thread thread in
  let count := section_count t in
  let! grown :=
    (if buf_size t <? count then
       let! section := reallocarray (th_section t) (u32 (buf_size t * 2)) 8 in
       store thread (OThread (MkThread (th_record t) section (section_count t) (buf_size t))) ;;;
       match section with
       | None => write ERROR "Can't reallocate epoch section array\n" ;;; ret false
       | Some _ =>
           store thread
             (OThread (MkThread (th_record t) section (section_count t) (u32 (buf_size t * 2)))) ;;;
           ret true
       end
     else ret true) in
  if negb grown then ret (-1)
  else
    let! t := load_thread thread in
    let! slot := alloc allocator (OSection (MkSection 0)) in
    store_elem (th_section t) count slot ;;;
    match slot with
    | None => write ERROR "Epoch section allocation failed\n" ;;; ret (-1)
    | Some _ =>
        let! section := epoch_begin (th_record t) in
        let! slot := load_elem (th_section t) count in
        store slot (OSection section) ;;;
        let! t := load_thread thread in
        store thread (OThread (MkThread (th_record t) (th_section t)
          (u32 (section_count t + 1)) (buf_size t))) ;;;
        ret 0
    end.

(** [epoch_end] on section [i], then [allocator->free] on its slot. *)
Definition end_section (t : thread_ctx) (i : Z) (allocator : memory_allocator) : M unit :=
  let! s := load_elem (th_section t) i in
  epoch_end (th_record t) s ;;;
  let! s := load_elem (th_section t) i in
  let! s := free allocator s in
  store_elem (th_section t) i s.

Definition epoch_stop (thread : ptr) (allocator : memory_allocator) : M unit :=
  let! t := load_thread thread in
  store thread (OThread (MkThread (th_record t) (th_section t)
    (u32 (section_count t - 1)) (buf_size t))) ;;;
  let! t := load_thread thread in
  end_section t (section_count t) allocator.

Fixpoint stop_sections_from (fuel : nat) (i : Z) (thread : ptr) (allocator : memory_allocator)
    : M unit :=
  match fuel with
  | O => spin
  | S n =>
      let! t := load_thread thread in
      if i <? section_count t then
        end_section t i allocator ;;;
        stop_sections_from n (u32 (i + 1)) thread allocator
      else ret tt
  end.

Definition stop_all_sections (thread : ptr) (allocator : memory_allocator) : M unit :=
  let! t := load_thread thread in
  stop_sections_from (S (Z.to_nat (section_count t))) 0 thread allocator ;;;
  let! t := load_thread thread in
  store thread (OThread (MkThread (th_record t) (th_section t) 0 (buf_size t))).

(** ** Representation

    [ss] are the open sections, oldest first: where each is on the heap and
    the bucket it counts in. *)

Definition bcount (b : Z) (ss : list (loc * Z)) : Z :=
  Z.of_nat (length (filter (fun s => s.2 = b) ss)).

(** The record counts the open sections: all of them in [active], and those
    of each bucket in the bucket. *)
Definition record_ok (r : epoch_record) (ep : loc) (ss : list (loc * Z)) : Prop :=
  rec_global r = Some ep /\ rec_active r = Z.of_nat (length ss) /\
  (forall b, b = 0 \/ b = 1 -> ref_count (get_bucket r b) = bcount b ss).

(** Slots [lo], [lo + 1], ... of the array point to the sections [ss]. *)
Definition sections_ok (h : gmap loc hobj) (ps : list ptr) (lo : nat) (ss : list (loc * Z)) : Prop :=
  NoDup ss.*1 /\
  forall k l b, ss !! k = Some (l, b) ->
    ps !! (lo + k)%nat = Some (Some l) /\ h !! l = Some (OSection (MkSection b)) /\ (b = 0 \/ b = 1).

(** The thread at [th]: its record at [rl], its array of sections at [arr],
    its epoch at [ep]; [count] is the member [section_count]. *)
Record thread_at (h : gmap loc hobj) (th rl arr ep : loc) (ps : list ptr) (count : Z)
    (lo : nat) (ss : list (loc * Z)) : Prop := {
  ta_thread : h !! th = Some (OThread (MkThread (Some rl) (Some arr) count (Z.of_nat (length ps))));
  ta_array : h !! arr = Some (OPtrs ps);
  ta_record : exists r, h !! rl = Some (ORecord r) /\ record_ok r ep ss;
  ta_epoch : exists g, h !! ep = Some (OEpoch g);
  ta_sections : sections_ok h ps lo ss;
  ta_small : Z.of_nat (length ps) < 2 ^ 31
}.

(** A thread between two calls: [count] sections are open. *)
Definition thread_ok (h : gmap loc hobj) (th rl arr ep : loc) (ps : list ptr) (ss : list (loc * Z)) : Prop :=
  thread_at h th rl arr ep ps (Z.of_nat (length ss)) 0 ss.

Lemma sections_fit h ps lo ss : sections_ok h ps lo ss -> (length ss <= length ps)%nat.
Proof.
  intros [_ Hsec]. destruct (decide (length ss <= length ps)%nat) as [|Hgt]; [done|].
  destruct (ss !! length ps) as [[l b]|] eqn:E.
  - apply Hsec in E as (E & _). apply lookup_lt_Some in E. unfold ptr in *. lia.
  - apply lookup_ge_None in E. lia.
Qed.

Section counting.
Implicit Types (ss : list (loc * Z)).

Lemma bcount_app b ss1 ss2 : bcount b (ss1 ++ ss2) = bcount b ss1 + bcount b ss2.
Proof. unfold bcount. rewrite filter_app, length_app. lia. Qed.

Lemma bcount_one b l b' : bcount b [(l, b')] = if b' =? b then 1 else 0.
Proof.
  unfold bcount. destruct (Z.eqb_spec b' b) as [->|].
  - by rewrite filter_cons_True.
  - by rewrite filter_cons_False.
Qed.

Lemma bcount_le b ss : 0 <= bcount b ss <= Z.of_nat (length ss).
Proof. unfold bcount. pose proof (length_filter (fun s : loc * Z => s.2 = b) ss). lia. Qed.
End counting.

Lemma get_set_bucket r i b x :
  i = 0 \/ i = 1 -> b = 0 \/ b = 1 ->
  get_bucket (set_bucket r i x) b = if i =? b then x else get_bucket r b.
Proof. by intros [-> | ->] [-> | ->]; destruct r. Qed.

Lemma get_bucket_active r a b : get_bucket (set_active r a) b = get_bucket r b.
Proof. by destruct r. Qed.
Lemma get_bucket_epoch r e b : get_bucket (set_rec_epoch r e) b = get_bucket r b.
Proof. by destruct r. Qed.

Lemma land_1 e : Z.land e 1 = 0 \/ Z.land e 1 = 1.
Proof.
  replace (Z.land e 1) with (e mod 2) by (symmetry; apply (Z.land_ones e 1); lia).
  pose proof (Z.mod_pos_bound e 2 eq_refl). lia.
Qed.

Lemma epoch_begin_spec w rl ep r g ss :
  w_heap w !! rl = Some (ORecord r) -> w_heap w !! ep = Some (OEpoch g) -> record_ok r ep ss ->
  Z.of_nat (length ss) < 2 ^ 31 ->
  exists r', epoch_begin (Some rl) w =
      Ret (MkSection (Z.land (ep_epoch g) 1)) (set_heap (<[rl := ORecord r']> (w_heap w)) w) /\
    forall l, record_ok r' ep (ss ++ [(l, Z.land (ep_epoch g) 1)]).
Proof.
  intros Hr Hg (Hgl & Hac & Hb) Hlen. unfold epoch_begin. crun.
  assert (Hne : rl <> ep) by congruence.
  set (i := Z.land (ep_epoch g) 1). pose proof (land_1 (ep_epoch g)) as Hi. fold i in Hi.
  set (r1 := if rec_active r =? 0 then set_rec_epoch (set_active r 1) (ep_epoch g)
             else set_active r (u32 (rec_active r + 1))).
  assert (Hr1 : rec_global r1 = Some ep /\ rec_active r1 = Z.of_nat (length ss) + 1 /\
    forall b, get_bucket r1 b = get_bucket r b).
  { unfold r1. destruct (Z.eqb_spec (rec_active r) 0) as [H0|H0]; (split; [by destruct r|]).
    - split; [destruct r; cbn in *; lia|]. intros b. by rewrite get_bucket_epoch, get_bucket_active.
    - split; [destruct r; cbn in *; rewrite u32_small; lia|]. intros b. by rewrite get_bucket_active. }
  erewrite (bind_eq _ _ _ tt (set_heap (<[rl := ORecord r1]> (w_heap w)) w)).
  2: { unfold r1. destruct (rec_active r =? 0); [rewrite Hgl; crun|]; by apply store_eq with (ORecord r). }
  destruct Hr1 as (Hg1 & Ha1 & Hb1).
  unfold ck_epoch_addref. erewrite bind_eq by (eapply load_record_eq; cbn; apply lookup_insert_eq).
  erewrite bind_eq by (rewrite Hg1; eapply load_epoch_eq; cbn; rewrite lookup_insert_ne; done).
  fold i. erewrite bind_eq by (eapply store_eq; cbn; apply lookup_insert_eq).
  eexists. split; [cbn; by rewrite insert_insert_eq|].
  intros l. split; [destruct r1, Hi as [-> | ->]; done|]. split.
  - rewrite length_app. cbn. destruct r1, Hi as [-> | ->]; cbn in *; lia.
  - intros b Hbb. rewrite get_set_bucket, bcount_app, bcount_one by done.
    destruct (Z.eqb_spec i b) as [<-|]; cbn; rewrite Hb1, Hb by done; [|lia].
    pose proof (bcount_le i ss). rewrite u32_small; lia.
Qed.

Lemma record_ok_drop r ep ss1 l b ss2 r' :
  record_ok r ep (ss1 ++ (l, b) :: ss2) ->
  rec_global r' = rec_global r -> rec_active r' = rec_active r - 1 ->
  (forall b', b' = 0 \/ b' = 1 ->
     ref_count (get_bucket r' b') = ref_count (get_bucket r b') - if b =? b' then 1 else 0) ->
  record_ok r' ep (ss1 ++ ss2).
Proof.
  intros (Hg & Ha & Hb) Hg' Ha' Hb'. rewrite length_app in Ha. cbn in Ha. split_and!.
  - by rewrite Hg'.
  - rewrite Ha', length_app. lia.
  - intros b' Hbb. rewrite Hb', Hb by done. rewrite (cons_middle (l, b)), !bcount_app, bcount_one.
    destruct (b =? b'); lia.
Qed.

Lemma epoch_end_spec w rl ep r ss1 l b ss2 :
  w_heap w !! rl = Some (ORecord r) -> w_heap w !! l = Some (OSection (MkSection b)) ->
  b = 0 \/ b = 1 -> record_ok r ep (ss1 ++ (l, b) :: ss2) ->
  Z.of_nat (length (ss1 ++ (l, b) :: ss2)) < 2 ^ 31 ->
  exists r', epoch_end (Some rl) (Some l) w =
      Ret tt (set_heap (<[rl := ORecord r']> (w_heap w)) w) /\ record_ok r' ep (ss1 ++ ss2).
Proof.
  intros Hr Hl Hbb Hok Hlen. pose proof Hok as (Hg & Ha & Hb).
  assert (Hne : rl <> l) by congruence.
  assert (Hpos : 1 <= rec_active r < 2 ^ 31) by (rewrite length_app in *; cbn in *; lia).
  assert (Hc : 1 <= ref_count (get_bucket r b) < 2 ^ 31).
  { rewrite Hb by done. pose proof (bcount_le b (ss1 ++ (l, b) :: ss2)).
    rewrite (cons_middle (l, b)), !bcount_app, bcount_one, Z.eqb_refl in *.
    pose proof (bcount_le b ss1). pose proof (bcount_le b ss2). lia. }
  unfold epoch_end. crun.
  unfold ck_epoch_delref. erewrite bind_eq by (eapply load_record_eq; cbn; apply lookup_insert_eq).
  erewrite bind_eq by (eapply store_eq; cbn; apply lookup_insert_eq).
  cbn -[u32 i32]. rewrite insert_insert_eq.
  set (r1 := set_bucket _ b _).
  assert (H1 : record_ok r1 ep (ss1 ++ ss2)).
  { eapply record_ok_drop; [done|by destruct r, Hbb as [-> | ->]|..].
    - destruct r, Hbb as [-> | ->]; cbn -[u32] in *; rewrite u32_small; lia.
    - intros b' Hb'. unfold r1. rewrite get_set_bucket by done.
      rewrite !get_bucket_active.
      destruct (Z.eqb_spec b b') as [<-|]; cbn -[u32]; [rewrite u32_small by lia|]; lia. }
  rewrite get_bucket_active. destruct (0 <? _); [by eexists|].
  destruct (_ && _); [|by eexists].
  erewrite store_eq by (cbn; apply lookup_insert_eq). cbn. rewrite insert_insert_eq.
  eexists. split; [done|]. destruct H1 as (G1 & G2 & G3).
  split_and!; [by destruct r1|by destruct r1|]. intros b' ?. rewrite get_bucket_epoch. by apply G3.
Qed.

(** ** The operations keep the representation *)

(** Nothing is allocated by ending sections. *)
Definition shrinks {A} (m : M A) : Prop :=
  forall w a w', m w = Ret a w' -> dom (w_heap w') ⊆ dom (w_heap w).

Lemma shrinks_bind {A B} (m : M A) (f : A -> M B) :
  shrinks m -> (forall a, shrinks (f a)) -> shrinks (bind m f).
Proof.
  intros Hm Hf w b w'. unfold bind. destruct (m w) as [a w1| | | |] eqn:E; try done.
  intros Hb. apply Hm in E. apply Hf in Hb. set_solver.
Qed.

Lemma shrinks_ret {A} (a : A) : shrinks (ret a).
Proof. by intros w ? ? [= _ <-]. Qed.

Lemma shrinks_load p : shrinks (load p).
Proof. intros w a w'. unfold load. destruct p; [|done]. destruct (_ !! _); [|done]. by intros [= _ <-]. Qed.

Lemma shrinks_store p o : shrinks (store p o).
Proof.
  intros w a w'. unfold store. destruct p as [l|]; [|done]. destruct (_ !! _) eqn:E; [|done].
  intros [= <- <-]. cbn. rewrite dom_insert_lookup_L by (by rewrite E). done.
Qed.

Lemma shrinks_free p : shrinks (free_loc p).
Proof.
  intros w a w'. unfold free_loc. destruct p as [l|]; [|by intros [= _ <-]].
  destruct (_ !! _) eqn:E; [|done]. intros [= <- <-]. cbn. rewrite dom_delete. set_solver.
Qed.

Lemma shrinks_crash {A} : shrinks (@crash A).
Proof. done. Qed.
Lemma shrinks_spin {A} : shrinks (@spin A).
Proof. done. Qed.
Lemma shrinks_need {A} (o : option A) : shrinks (need o).
Proof. destruct o; [apply shrinks_ret|done]. Qed.

Ltac shrink := repeat first
  [ apply shrinks_ret | apply shrinks_load | apply shrinks_store | apply shrinks_free
  | apply shrinks_crash | apply shrinks_spin | apply shrinks_need
  | apply shrinks_bind; [|intros] | case_match ].

Lemma end_section_shrinks t i : shrinks (end_section t i default_allocator).
Proof.
  unfold end_section, epoch_end, ck_epoch_delref, load_elem, store_elem, load_record, load_section, load_ptrs.
  cbn [free default_allocator]. unfold default_mem_free. shrink.
Qed.

Lemma stop_sections_shrinks n : forall i th,
  shrinks (stop_sections_from n i (Some th) default_allocator).
Proof.
  induction n as [|n IH]; intros i th; cbn [stop_sections_from]; [done|]. unfold load_thread.
  apply shrinks_bind; [shrink|]. intros t. case_match; [|apply shrinks_ret].
  apply shrinks_bind; [apply end_section_shrinks|]. intros _. apply IH.
Qed.

Lemma stop_sections_dom n i th w w' l o :
  stop_sections_from n i (Some th) default_allocator w = Ret tt w' ->
  w_heap w' !! l = Some o -> is_Some (w_heap w !! l).
Proof.
  intros Hrun Hl. apply elem_of_dom. apply (stop_sections_shrinks _ _ _ _ _ _ Hrun).
  by apply elem_of_dom_2 with o.
Qed.

Section operations.
Context (th rl arr ep : loc).
Implicit Types (w : world) (ps : list ptr) (ss : list (loc * Z)).

(** Ending the section at the front or at the back of the open ones. *)
Lemma end_section_spec w ps count lo ss1 l b ss2 buf k :
  thread_at (w_heap w) th rl arr ep ps count lo (ss1 ++ (l, b) :: ss2) ->
  k = (lo + length ss1)%nat ->
  exists h' r', end_section (MkThread (Some rl) (Some arr) count buf) (Z.of_nat k) default_allocator w =
      Ret tt (set_heap h' w) /\
    h' = <[arr := OPtrs (<[k := NULL]> ps)]> (delete l (<[rl := ORecord r']> (w_heap w))) /\
    record_ok r' ep (ss1 ++ ss2) /\ (k < length ps)%nat.
Proof.
  intros [Ht Harr (r & Hr & Hrok) (g & Hep) (Hnd & Hsec) Hsm] ->.
  destruct (Hsec (length ss1) l b) as (Hslot & Hl & Hb).
  { rewrite lookup_app_r, Nat.sub_diag by lia. done. }
  assert (Hlt : (lo + length ss1 < length ps)%nat) by (by apply lookup_lt_Some in Hslot).
  assert (Hlen : Z.of_nat (length (ss1 ++ (l, b) :: ss2)) < 2 ^ 31).
  { pose proof (sections_fit _ _ _ _ (conj Hnd Hsec)). lia. }
  assert (l <> rl /\ l <> arr /\ arr <> rl) as (N1 & N2 & N3) by (split_and!; congruence).
  unfold end_section. cbn [th_section th_record].
  erewrite bind_eq by (eapply load_elem_eq; [exact Harr|rewrite nth_z_nat; exact Hslot]).
  destruct (epoch_end_spec w rl ep r ss1 l b ss2 Hr Hl Hb Hrok Hlen) as (r' & Hrun & Hr').
  erewrite bind_eq by exact Hrun.
  erewrite bind_eq by (eapply load_elem_eq; [cbn; rewrite lookup_insert_ne by done; exact Harr
                                            |rewrite nth_z_nat; exact Hslot]).
  cbn [free default_allocator]. unfold default_mem_free.
  erewrite bind_eq by (erewrite bind_eq by (eapply free_loc_eq; cbn;
    rewrite lookup_insert_ne by done; exact Hl); reflexivity).
  erewrite store_elem_eq.
  2: { cbn. rewrite lookup_delete_ne, lookup_insert_ne by done. exact Harr. }
  2: { rewrite set_z_lt by lia. reflexivity. }
  rewrite Nat2Z.id. by do 2 eexists.
Qed.

(** What is left of the thread after a section has been ended and its slot
    cleared. *)
Lemma thread_at_drop h ps count count' lo lo' ss1 l b ss2 k r' h' :
  thread_at h th rl arr ep ps count lo (ss1 ++ (l, b) :: ss2) ->
  record_ok r' ep (ss1 ++ ss2) ->
  h' = <[arr := OPtrs (<[k := NULL]> ps)]> (delete l (<[rl := ORecord r']> h)) ->
  k = (lo + length ss1)%nat ->
  (ss1 = [] /\ lo' = S lo) \/ (ss2 = [] /\ lo' = lo) ->
  thread_at (<[th := OThread (MkThread (Some rl) (Some arr) count' (Z.of_nat (length ps)))]> h')
    th rl arr ep (<[k := NULL]> ps) count' lo' (ss1 ++ ss2).
Proof.
  intros [Ht Harr (r & Hr & Hrok) (g & Hep) (Hnd & Hsec) Hsm] Hr' -> -> Hcase.
  destruct (Hsec (length ss1) l b) as (_ & Hl & _).
  { rewrite lookup_app_r, Nat.sub_diag by lia. done. }
  split.
  - rewrite length_insert. apply lookup_insert_eq.
  - rewrite lookup_insert_ne by congruence. apply lookup_insert_eq.
  - exists r'. split; [|done]. rewrite !lookup_insert_ne, lookup_delete_ne by congruence.
    apply lookup_insert_eq.
  - exists g. by rewrite !lookup_insert_ne, lookup_delete_ne, lookup_insert_ne by congruence.
  - split.
    { rewrite fmap_app in *. cbn in Hnd.
      rewrite <- Permutation_middle in Hnd. by apply NoDup_cons in Hnd as [_ ?]. }
    intros j l' b' Hj.
    assert (Hin : exists j', (ss1 ++ (l, b) :: ss2) !! j' = Some (l', b') /\
      (lo + j' = lo' + j)%nat /\ j' <> length ss1).
    { destruct Hcase as [(-> & ->)|(-> & ->)]; cbn in *.
      - exists (S j). split_and!; [done|lia|done].
      - rewrite app_nil_r in Hj. exists j. pose proof (lookup_lt_Some _ _ _ Hj).
        rewrite lookup_app_l by done. split_and!; [done|lia|lia]. }
    destruct Hin as (j' & Hj' & Hpos & Hne). destruct (Hsec _ _ _ Hj') as (G1 & G2 & G3).
    assert (l' <> l).
    { intros ->. apply Hne. eapply (NoDup_lookup _ j' (length ss1) l Hnd).
      - by rewrite list_lookup_fmap, Hj'.
      - rewrite list_lookup_fmap, lookup_app_r, Nat.sub_diag by lia. done. }
    rewrite list_lookup_insert_ne by lia. rewrite <- Hpos. split_and!; [done| |done].
    by rewrite !lookup_insert_ne, lookup_delete_ne, lookup_insert_ne by congruence.
  - by rewrite length_insert.
Qed.

Lemma thread_ok_fits h ps ss : thread_ok h th rl arr ep ps ss -> (length ss <= length ps)%nat.
Proof.
  intros [_ _ _ _ Hsec _]. by apply sections_fit in Hsec.
Qed.

Lemma epoch_stop_spec w ps ss l b :
  thread_ok (w_heap w) th rl arr ep ps (ss ++ [(l, b)]) ->
  exists h', epoch_stop (Some th) default_allocator w = Ret tt (set_heap h' w) /\
    thread_ok h' th rl arr ep (<[length ss := NULL]> ps) ss /\ h' !! l = None /\
    (forall x, x <> th -> x <> rl -> x <> arr -> x <> l -> h' !! x = w_heap w !! x).
Proof.
  intros Hok. pose proof (thread_ok_fits _ _ _ Hok) as Hfit. rewrite length_app in Hfit. cbn in Hfit.
  pose proof Hok as [Ht Harr Hrec Hep Hsec Hsm]. rewrite length_app in Ht. cbn in Ht.
  set (t' := MkThread (Some rl) (Some arr) (Z.of_nat (length ss)) (Z.of_nat (length ps))).
  set (w1 := set_heap (<[th := OThread t']> (w_heap w)) w).
  assert (Hrun : epoch_stop (Some th) default_allocator w =
    end_section t' (Z.of_nat (length ss)) default_allocator w1).
  { unfold epoch_stop. crun. unfold w1, t'. rewrite u32_small by lia.
    by replace (Z.of_nat (length ss + 1) - 1) with (Z.of_nat (length ss)) by lia. }
  assert (Hth : forall x o, x <> th -> w_heap w !! x = Some o -> w_heap w1 !! x = Some o)
    by (intros; cbn; by rewrite lookup_insert_ne).
  assert (H1 : thread_at (w_heap w1) th rl arr ep ps (Z.of_nat (length ss)) 0 (ss ++ [(l, b)])).
  { destruct Hrec as (r & Hr & Hrok), Hep as (g & Hg), Hsec as (Hnd & Hs). split.
    - apply lookup_insert_eq.
    - apply Hth; congruence.
    - exists r. split; [apply Hth; congruence|done].
    - exists g. apply Hth; congruence.
    - split; [done|]. intros k l' b' (G1 & G2 & G3)%Hs. split_and!; [done|apply Hth; congruence|done].
    - done. }
  destruct (end_section_spec w1 ps _ 0 ss l b [] (Z.of_nat (length ps)) (length ss) H1 eq_refl)
    as (h' & r' & Hend & -> & Hr' & _).
  rewrite Hrun. unfold t'. rewrite Hend. eexists. split; [reflexivity|].
  pose proof (thread_at_drop _ _ _ (Z.of_nat (length ss)) 0 0 ss l b [] (length ss) r' _ H1 Hr' eq_refl
    eq_refl ltac:(by right)) as H2. rewrite app_nil_r in H2.
  destruct H1 as [Ht1 Harr1 (r1 & Hr1 & _) _ (_ & Hs1) _].
  destruct (Hs1 (length ss) l b) as (_ & Hl1 & _); [by rewrite lookup_app_r, Nat.sub_diag by lia|].
  split_and!.
  - revert H2. rewrite insert_id; [done|].
    rewrite lookup_insert_ne, lookup_delete_ne, lookup_insert_ne by congruence. exact Ht1.
  - rewrite lookup_insert_ne by congruence. apply lookup_delete_eq.
  - intros x ? ? ? ?. cbn. by rewrite lookup_insert_ne, lookup_delete_ne, !lookup_insert_ne by done.
Qed.

(** What the thread is after a section at [nl] has been pushed. *)
Lemma thread_ok_push h h' ps ss r' nl b :
  thread_ok h th rl arr ep ps ss -> h !! nl = None -> b = 0 \/ b = 1 -> (length ss < length ps)%nat ->
  h' !! th = Some (OThread (MkThread (Some rl) (Some arr) (Z.of_nat (length ss) + 1) (Z.of_nat (length ps)))) ->
  h' !! arr = Some (OPtrs (<[length ss := Some nl]> ps)) ->
  h' !! rl = Some (ORecord r') -> record_ok r' ep (ss ++ [(nl, b)]) -> h' !! nl = Some (OSection (MkSection b)) ->
  (forall x, x <> th -> x <> rl -> x <> arr -> x <> nl -> h' !! x = h !! x) ->
  thread_ok h' th rl arr ep (<[length ss := Some nl]> ps) (ss ++ [(nl, b)]).
Proof.
  intros [Ht Harr (r & Hr & _) (g & Hep) (Hnd & Hsec) Hsm] Hnl Hb Hlt Ht' Ha' Hr' Hrok Hn' Hf. split.
  - rewrite Ht', length_insert, length_app. cbn. do 3 f_equal. lia.
  - exact Ha'.
  - by exists r'.
  - exists g. rewrite Hf by congruence. done.
  - split.
    + rewrite fmap_app. cbn. apply NoDup_app. split_and!; [done| |apply NoDup_singleton].
      intros x (k & Hk)%list_elem_of_lookup ->%list_elem_of_singleton.
      rewrite list_lookup_fmap in Hk. destruct (ss !! k) as [[x b']|] eqn:Hk'; [|done].
      destruct (Hsec _ _ _ Hk') as (_ & Hx & _). cbn in Hk. congruence.
    + intros k l b' Hk. cbn [Nat.add]. apply lookup_app_Some in Hk as [Hk|(Hge & Hk)].
      * pose proof (lookup_lt_Some _ _ _ Hk). destruct (Hsec _ _ _ Hk) as (G1 & G2 & G3).
        rewrite list_lookup_insert_ne by lia. split_and!; [done| |done]. rewrite Hf by congruence. done.
      * apply list_lookup_singleton_Some in Hk as [Hk0 [= <- <-]]. assert (k = length ss) as -> by lia.
        by rewrite list_lookup_insert_eq by done.
  - by rewrite length_insert.
Qed.

Lemma epoch_start_spec w ps ss :
  oracle_ok w -> heap_wf w -> thread_ok (w_heap w) th rl arr ep ps ss ->
  (length ss < length ps)%nat ->
  exists w' b, epoch_start (Some th) default_allocator w = Ret 0 w' /\
    thread_ok (w_heap w') th rl arr ep (<[length ss := Some (w_next w)]> ps) (ss ++ [(w_next w, b)]) /\
    oracle_ok w' /\ heap_wf w' /\
    (forall l, l <> th -> l <> rl -> l <> arr -> l <> w_next w -> w_heap w' !! l = w_heap w !! l) /\
    (exists h', w' = set_heap h' (set_next (Pos.succ (w_next w)) (asked w))).
Proof.
  intros Ho Hwf Hok Hlt. pose proof Hok as [Ht Harr (r & Hr & Hrok) (g & Hep) _ Hsm].
  pose proof (fun x o => heap_wf_lt w x o Hwf) as Hold.
  pose proof (Hold _ _ Ht). pose proof (Hold _ _ Harr). pose proof (Hold _ _ Hr). pose proof (Hold _ _ Hep).
  assert (th <> arr /\ th <> rl /\ arr <> rl /\ ep <> th /\ ep <> rl /\ ep <> arr)
    as (N1 & N2 & N3 & N4 & N5 & N6) by (split_and!; congruence).
  set (nl := w_next w) in *.
  unfold epoch_start. crun. cbn [section_count buf_size].
  rewrite (proj2 (Z.ltb_ge (Z.of_nat (length ps)) (Z.of_nat (length ss)))) by lia. crun.
  cbn [alloc default_allocator th_section th_record].
  erewrite bind_eq by (by apply alloc_ok). fold nl.
  erewrite bind_eq.
  2: { eapply store_elem_eq; [cbn; rewrite lookup_insert_ne by (unfold nl in *; lia); exact Harr|].
       rewrite set_z_lt, Nat2Z.id by lia. reflexivity. }
  set (w2 := set_heap _ _).
  assert (Hw2 : forall x, x <> arr -> x <> nl -> w_heap w2 !! x = w_heap w !! x).
  { intros x Hx Hy. cbn. by rewrite !lookup_insert_ne by (fold nl; congruence). }
  destruct (epoch_begin_spec w2 rl ep r g ss) as (r' & Hrun & Hr');
    [rewrite Hw2 by (congruence || (unfold nl in *; lia)); done
    |rewrite Hw2 by (congruence || (unfold nl in *; lia)); done|done|lia|].
  erewrite bind_eq by exact Hrun. cbn [w_heap set_heap].
  erewrite bind_eq.
  2: { eapply load_elem_eq; [cbn; rewrite lookup_insert_ne by done; apply lookup_insert_eq|].
       rewrite nth_z_nat. by apply list_lookup_insert_eq. }
  erewrite bind_eq.
  2: { eapply store_eq. cbn. rewrite lookup_insert_ne by (unfold nl in *; lia).
       rewrite lookup_insert_ne by (unfold nl in *; lia). apply lookup_insert_eq. }
  erewrite bind_eq.
  2: { eapply load_thread_eq. cbn. rewrite !lookup_insert_ne by (fold nl; (congruence || (unfold nl in *; lia))).
       exact Ht. }
  erewrite bind_eq.
  2: { eapply store_eq. cbn. rewrite !lookup_insert_ne by (fold nl; (congruence || (unfold nl in *; lia))).
       exact Ht. }
  eexists _, (Z.land (ep_epoch g) 1). split; [reflexivity|]. cbn -[w2]. fold nl.
  assert (Hnl : nl <> th /\ nl <> rl /\ nl <> arr /\ nl <> ep) by (split_and!; unfold nl in *; lia).
  destruct Hnl as (M1 & M2 & M3 & M4). split_and!.
  - apply (thread_ok_push (w_heap w) _ ps ss r'); try done.
    + apply Hwf. unfold nl. lia.
    + apply land_1.
    + rewrite lookup_insert_eq, u32_small by lia. done.
    + rewrite !lookup_insert_ne by done. apply lookup_insert_eq.
    + rewrite !lookup_insert_ne by done. apply lookup_insert_eq.
    + rewrite lookup_insert_ne by done. apply lookup_insert_eq.
    + intros x ? ? ? ?. rewrite !lookup_insert_ne by congruence. by apply Hw2.
  - exact (oracle_ok_tl _ Ho).
  - intros x Hx. cbn in Hx. cbn -[w2]. fold nl in Hx. rewrite !lookup_insert_ne by (unfold nl in *; lia).
    rewrite Hw2 by (unfold nl in *; lia). apply Hwf. unfold nl in *. lia.
  - intros l L1 L2 L3 L4. rewrite !lookup_insert_ne by congruence. by apply Hw2.
  - by eexists.
Qed.

(** With every slot taken the guard [count > buf_size] does not hold yet, so
    the array is not grown and the next section is stored past its end. *)
Lemma epoch_start_full w ps ss :
  thread_ok (w_heap w) th rl arr ep ps ss -> length ss = length ps ->
  heap_wf w -> epoch_start (Some th) default_allocator w = Crash.
Proof.
  intros [Ht Harr _ _ _ Hsm] Hfull Hwf. unfold epoch_start. crun. cbn [section_count buf_size].
  rewrite (proj2 (Z.ltb_ge (Z.of_nat (length ps)) (Z.of_nat (length ss)))) by lia. crun.
  cbn [alloc default_allocator th_section].
  pose proof (heap_wf_lt _ _ _ Hwf Harr).
  unfold default_mem_alloc, malloc. cbn. rewrite !bind_assoc. erewrite bind_eq by reflexivity.
  destruct (_ <? 0); cbn; crun; cbn.
  - apply bind_crash. eapply store_elem_oob; [exact Harr|]. apply set_z_ge. lia.
  - apply bind_crash. eapply store_elem_oob; [|apply set_z_ge; rewrite Hfull; reflexivity].
    cbn. rewrite lookup_insert_ne by lia. exact Harr.
Qed.

(** The loop of [stop_all_sections] at its turn [lo]. *)
Lemma stop_sections_spec ss : forall w ps lo n,
  thread_at (w_heap w) th rl arr ep ps (Z.of_nat (lo + length ss)) lo ss ->
  (lo + length ss <= length ps)%nat -> (length ss < n)%nat ->
  exists h' ps', stop_sections_from n (Z.of_nat lo) (Some th) default_allocator w = Ret tt (set_heap h' w) /\
    thread_at h' th rl arr ep ps' (Z.of_nat (lo + length ss)) (lo + length ss) [] /\
    length ps' = length ps /\ (forall l, l ∈ ss.*1 -> h' !! l = None) /\
    (forall x, x <> rl -> x <> arr -> x ∉ ss.*1 -> h' !! x = w_heap w !! x).
Proof.
  induction ss as [|[l b] ss IH]; intros w ps lo n Hat Hfit Hn; (destruct n as [|n]; [cbn in Hn; lia|]);
    cbn [stop_sections_from]; pose proof Hat as [Ht Harr _ _ _ Hsm]; crun; cbn [section_count].
  - rewrite (proj2 (Z.ltb_ge _ _)) by (cbn; lia). exists (w_heap w), ps.
    split_and!; [by destruct w|by rewrite Nat.add_0_r in *|done|by intros ? ?%not_elem_of_nil|done].
  - rewrite (proj2 (Z.ltb_lt _ _)) by (cbn; lia).
    destruct (end_section_spec w ps _ lo [] l b ss (Z.of_nat (length ps)) lo Hat ltac:(cbn; lia))
      as (h1 & r' & Hend & Hh1 & Hr' & _).
    erewrite bind_eq by exact Hend. cbn in Hfit. rewrite u32_small by lia.
    pose proof (thread_at_drop _ _ _ (Z.of_nat (lo + length ((l, b) :: ss))) lo (S lo) [] l b ss lo r' _
      Hat Hr' eq_refl ltac:(cbn; lia) ltac:(by left)) as H1. cbn [app] in H1.
    rewrite <- Hh1, insert_id in H1.
    2: { destruct Hat as [_ _ (r & Hr & _) _ (_ & Hs) _]. destruct (Hs 0%nat l b eq_refl) as (_ & Hl & _).
         rewrite Hh1, lookup_insert_ne, lookup_delete_ne, lookup_insert_ne by congruence. exact Ht. }
    replace (Z.of_nat lo + 1) with (Z.of_nat (S lo)) by lia.
    replace (lo + length ((l, b) :: ss))%nat with (S lo + length ss)%nat in * by (cbn; lia).
    replace (lo + S (length ss))%nat with (S lo + length ss)%nat in * by lia.
    destruct (IH (set_heap h1 w) (<[lo := NULL]> ps) (S lo) n) as (h2 & ps2 & Hrun & H2 & Hlen & Hgone & Hframe);
      [exact H1|rewrite length_insert; lia|cbn in Hn; lia|].
    exists h2, ps2. rewrite length_insert in Hlen. split_and!; [exact Hrun|done|done| |].
    2: { intros x ? ? [? ?]%not_elem_of_cons. rewrite Hframe by done. cbn.
         by rewrite Hh1, lookup_insert_ne, lookup_delete_ne, lookup_insert_ne by done. }
    intros x [->|Hx]%elem_of_cons; [|by apply Hgone].
    apply eq_None_not_Some. intros [o Hx]. apply (stop_sections_dom _ _ _ _ _ _ _ Hrun) in Hx.
    destruct Hx as [o' Hx]. cbn in Hx. rewrite Hh1, lookup_insert_ne, lookup_delete_eq in Hx; [done|].
    destruct Hat as [_ _ _ _ (_ & Hs) _]. destruct (Hs 0%nat l b eq_refl) as (_ & Hl & _). congruence.
Qed.
End operations.

Lemma stop_all_spec th rl arr ep w ps ss :
  thread_ok (w_heap w) th rl arr ep ps ss ->
  exists h' ps', stop_all_sections (Some th) default_allocator w = Ret tt (set_heap h' w) /\
    thread_ok h' th rl arr ep ps' [] /\ length ps' = length ps /\ (forall l, l ∈ ss.*1 -> h' !! l = None) /\
    (forall x, x <> th -> x <> rl -> x <> arr -> x ∉ ss.*1 -> h' !! x = w_heap w !! x).
Proof.
  intros Hok. pose proof (thread_ok_fits _ _ _ _ _ _ _ Hok) as Hfit. pose proof Hok as [Ht _ _ _ (_ & Hs) _].
  destruct (stop_sections_spec th rl arr ep ss w ps 0 (S (length ss)) Hok Hfit ltac:(lia))
    as (h1 & ps1 & Hrun & [Ht1 Ha1 (r1 & Hr1 & Hrok) (g1 & Hg1) _ Hsm] & Hlen & Hgone & Hframe).
  unfold stop_all_sections. erewrite bind_eq by (by eapply load_thread_eq).
  cbn [section_count]. rewrite Nat2Z.id. erewrite bind_eq by exact Hrun. cbn [Nat.add] in *. crun. erewrite store_eq by exact Ht1.
  do 2 eexists. split; [reflexivity|]. cbn. split_and!.
  - split; [by rewrite lookup_insert_eq|..]; try rewrite lookup_insert_ne by congruence; try done.
    + by exists r1.
    + by exists g1.
    + split; [constructor|done].
  - done.
  - intros l Hl. rewrite lookup_insert_ne; [by apply Hgone|].
    intros <-. apply list_elem_of_lookup in Hl as (k & Hk). rewrite list_lookup_fmap in Hk.
    destruct (ss !! k) as [[x b]|] eqn:E; [|done]. injection Hk as ->.
    destruct (Hs _ _ _ E) as (_ & Hx & _). congruence.
  - intros x ? ? ? ?. rewrite lookup_insert_ne by done. by apply Hframe.
Qed.

Lemma epoch_register_spec w ep rl r g :
  w_heap w !! rl = Some (ORecord r) -> w_heap w !! ep = Some (OEpoch g) ->
  epoch_register (Some ep) (Some rl) w = Ret tt (set_heap
    (<[ep := OEpoch (MkEpoch (ep_epoch g) (Some rl :: ep_records g) (ep_n_free g))]>
      (<[rl := ORecord (cleared (Some ep) CK_EPOCH_STATE_USED)]> (w_heap w))) w).
Proof.
  intros Hr Hg. assert (rl <> ep) by congruence. unfold epoch_register.
  cstep (by eapply load_record_eq). cstep (by eapply store_eq).
  cstep (eapply load_epoch_eq; cbn; rewrite lookup_insert_ne by done; exact Hg).
  erewrite store_eq by (cbn; rewrite lookup_insert_ne by done; exact Hg). reflexivity.
Qed.

Lemma init_thread_spec w ep g :
  oracle_ok w -> heap_wf w -> w_heap w !! ep = Some (OEpoch g) ->
  let th := w_next w in let rl := Pos.succ th in let arr := Pos.succ rl in
  exists w', init_thread (Some ep) default_allocator w = Ret (Some th) w' /\
    thread_ok (w_heap w') th rl arr ep (replicate 8 NULL) [] /\
    w_heap w' !! ep = Some (OEpoch (MkEpoch (ep_epoch g) (Some rl :: ep_records g) (ep_n_free g))) /\
    oracle_ok w' /\ heap_wf w'.
Proof.
  intros Ho Hwf Hep th rl arr. pose proof (heap_wf_lt _ _ _ Hwf Hep) as Hlt.
  assert (th <> rl /\ th <> arr /\ rl <> arr /\ ep <> th /\ ep <> rl /\ ep <> arr)
    as (N1 & N2 & N3 & N4 & N5 & N6) by (subst th rl arr; split_and!; lia).
  unfold init_thread. cbn [alloc default_allocator].
  cstep (by apply alloc_ok). cstep (apply alloc_ok; [by apply oracle_ok_granted|done]).
  fold th. cbn [w_next granted set_next]. fold th. fold rl.
  set (h1 := <[rl := ORecord raw_record]> (<[th := OThread raw_thread]> (w_heap w))).
  set (w1 := granted (ORecord raw_record) _).
  assert (E1 : w_heap w1 = h1) by done.
  assert (T1 : w_heap w1 !! th = Some (OThread raw_thread)).
  { rewrite E1. unfold h1. rewrite lookup_insert_ne by done. apply lookup_insert_eq. }
  cstep (by eapply load_thread_eq). cstep (by eapply store_eq).
  cstep (eapply load_thread_eq; cbn -[w1]; apply lookup_insert_eq).
  cstep (eapply store_eq; cbn -[w1]; apply lookup_insert_eq).
  cstep (eapply load_thread_eq; cbn -[w1]; apply lookup_insert_eq).
  cbn [buf_size th_record th_section section_count raw_thread].
  cstep (apply alloc_ok;
    [exact (oracle_ok_granted _ (ORecord raw_record) (oracle_ok_granted _ (OThread raw_thread) Ho))|done]).
  change (w_next (set_heap _ _)) with arr. set (w2 := granted (OPtrs _) _).
  assert (T2 : w_heap w2 !! th = Some (OThread (MkThread (Some rl) NULL 0 8))).
  { cbn -[w1]. rewrite lookup_insert_ne by (fold th rl arr; done). apply lookup_insert_eq. }
  cstep (by eapply store_eq).
  cstep (eapply load_thread_eq; cbn -[w2]; apply lookup_insert_eq).
  set (w3 := set_heap _ w2). cbn [th_record].
  assert (L3 : forall x, x <> th -> w_heap w3 !! x = w_heap w2 !! x)
    by (intros; cbn -[w2]; by rewrite lookup_insert_ne).
  assert (L2 : forall x, x <> th -> x <> arr -> w_heap w2 !! x = w_heap w1 !! x)
    by (intros; cbn -[w1]; by rewrite !lookup_insert_ne by (apply not_eq_sym; assumption)).
  assert (R3 : w_heap w3 !! rl = Some (ORecord raw_record)).
  { rewrite L3, L2 by done. rewrite E1. apply lookup_insert_eq. }
  assert (G3 : w_heap w3 !! ep = Some (OEpoch g)).
  { rewrite L3, L2 by done. rewrite E1. unfold h1. by rewrite !lookup_insert_ne by congruence. }
  cstep (by apply (epoch_register_spec _ _ _ raw_record g)).
  eexists. split; [reflexivity|]. cbn -[w3]. split_and!.
  - split.
    + rewrite !lookup_insert_ne by congruence. apply lookup_insert_eq.
    + rewrite !lookup_insert_ne by congruence. rewrite L3 by done. apply lookup_insert_eq.
    + eexists. rewrite lookup_insert_ne by congruence. rewrite lookup_insert_eq. split; [done|].
      split_and!; [done..|]. by intros b [-> | ->].
    + eexists. rewrite lookup_insert_eq. done.
    + split; [constructor|done].
    + done.
  - apply lookup_insert_eq.
  - exact (oracle_ok_granted _ (OPtrs []) (oracle_ok_granted _ (ORecord raw_record)
      (oracle_ok_granted _ (OThread raw_thread) Ho))).
  - intros x Hx. change (Pos.succ arr <= x)%positive in Hx. subst th rl arr. cbn -[w3].
    rewrite !lookup_insert_ne by lia. rewrite L3, L2, E1 by lia. unfold h1.
    rewrite !lookup_insert_ne by lia. apply Hwf. lia.
Qed.

(** ** Sequences of operations *)

Inductive eop := EStart | EStop | EStopAll.

(** The specification: how many of the eight sections are open. *)
Definition eop_spec (n : nat) (o : eop) : option nat :=
  match o with
  | EStart => if decide (n < 8)%nat then Some (S n) else None
  | EStop => match n with O => None | S n' => Some n' end
  | EStopAll => Some 0%nat
  end.

Fixpoint eops_spec (n : nat) (os : list eop) : option nat :=
  match os with
  | [] => Some n
  | o :: os' => n' ← eop_spec n o; eops_spec n' os'
  end.

Definition eop_call (th : ptr) (o : eop) : M unit :=
  match o with
  | EStart => let! r := epoch_start th default_allocator in if r =? 0 then ret tt else crash
  | EStop => epoch_stop th default_allocator
  | EStopAll => stop_all_sections th default_allocator
  end.

Fixpoint eops_call (th : ptr) (os : list eop) : M unit :=
  match os with
  | [] => ret tt
  | o :: os' => eop_call th o ;;; eops_call th os'
  end.

(** The thread at [th] has [n] of its eight sections open. *)
Definition open_sections (w : world) (th rl arr ep : loc) (n : nat) : Prop :=
  exists ps ss, thread_ok (w_heap w) th rl arr ep ps ss /\ length ps = 8%nat /\ length ss = n /\
    oracle_ok w /\ heap_wf w.

(** Dropping objects keeps the frontier. *)
Lemma heap_wf_shrinks {A} (m : M A) w a w' :
  shrinks m -> m w = Ret a w' -> w_next w' = w_next w -> heap_wf w -> heap_wf w'.
Proof.
  intros Hs Hrun Hn Hwf l Hl. rewrite Hn in Hl. apply not_elem_of_dom. intros Hd.
  apply (Hs _ _ _ Hrun), elem_of_dom in Hd as [o Ho]. by rewrite Hwf in Ho.
Qed.

Lemma epoch_stop_shrinks th : shrinks (epoch_stop (Some th) default_allocator).
Proof.
  unfold epoch_stop, load_thread. apply shrinks_bind; [shrink|]. intros t.
  apply shrinks_bind; [shrink|]. intros _. apply shrinks_bind; [shrink|]. intros t'.
  apply end_section_shrinks.
Qed.

Lemma stop_all_shrinks th : shrinks (stop_all_sections (Some th) default_allocator).
Proof.
  unfold stop_all_sections, load_thread. apply shrinks_bind; [shrink|]. intros t.
  apply shrinks_bind; [apply stop_sections_shrinks|]. intros _. shrink.
Qed.

Lemma eop_refines w th rl arr ep n o n' :
  open_sections w th rl arr ep n -> eop_spec n o = Some n' ->
  exists w', eop_call (Some th) o w = Ret tt w' /\ open_sections w' th rl arr ep n'.
Proof.
  intros (ps & ss & Hok & Hps & <- & Ho & Hwf) Hspec. destruct o; cbn in Hspec |- *.
  - case_decide; simplify_eq.
    destruct (epoch_start_spec _ _ _ _ _ _ _ Ho Hwf Hok ltac:(lia)) as (w' & b & Hrun & Hok' & Ho' & Hwf' & _).
    exists w'. erewrite bind_eq by exact Hrun. split; [done|]. do 2 eexists. split; [exact Hok'|].
    rewrite length_insert, length_app. cbn. split_and!; [done|lia|done..].
  - destruct ss as [|[l b] ss _] using rev_ind; [done|]. rewrite length_app, Nat.add_comm in Hspec.
    cbn in Hspec. simplify_eq.
    destruct (epoch_stop_spec _ _ _ _ _ _ _ _ _ Hok) as (h' & Hrun & Hok' & _).
    exists (set_heap h' w). split; [done|]. do 2 eexists. split; [exact Hok'|].
    rewrite length_insert. split_and!; [done..|].
    by apply (heap_wf_shrinks _ _ _ _ (epoch_stop_shrinks th) Hrun).
  - simplify_eq. destruct (stop_all_spec _ _ _ _ _ _ _ Hok) as (h' & ps' & Hrun & Hok' & Hlen & _).
    exists (set_heap h' w). split; [done|]. exists ps', []. split_and!; [done|by rewrite Hlen|done..|].
    by apply (heap_wf_shrinks _ _ _ _ (stop_all_shrinks th) Hrun).
Qed.

Lemma eops_run os w ep g n :
  oracle_ok w -> heap_wf w -> w_heap w !! ep = Some (OEpoch g) -> eops_spec 0 os = Some n ->
  exists th rl arr w', (let! t := init_thread (Some ep) default_allocator in
                        eops_call t os ;;; ret t) w = Ret (Some th) w' /\
    open_sections w' th rl arr ep n.
Proof.
  intros Ho Hwf Hep Hspec. destruct (init_thread_spec w ep g Ho Hwf Hep) as (w1 & Hrun & Hok & _ & Ho1 & Hwf1).
  do 3 eexists. erewrite bind_eq by exact Hrun. clear Hrun.
  assert (Hop : open_sections w1 _ _ _ ep 0)
    by (exists (replicate 8 NULL), []; split_and!; [exact Hok|done..]).
  clear Hok Ho1 Hwf1. revert w1 Hop Hspec. generalize 0%nat.
  induction os as [|o os IH]; intros m w1 Hop Hspec; cbn in *; simplify_eq.
  - exists w1. by split.
  - destruct (eop_spec m o) as [m'|] eqn:Em; [|done].
    destruct (eop_refines _ _ _ _ _ _ _ _ Hop Em) as (w2 & Hcall & Hop2).
    destruct (IH _ _ Hop2 Hspec) as (w3 & Hrest & Hop3). exists w3. split; [|done].
    rewrite bind_assoc. erewrite bind_eq by exact Hcall. exact Hrest.
Qed.

(** (C6) A thread created by [init_thread] runs any sequence of section
    operations that keeps between zero and eight sections open (the
    environment granting the allocations): every call returns success, and
    afterwards the record's active count and bucket counts are those of the
    sections that are open, each stored in its slot of the thread's array. *)
Theorem epoch_operations_refine os w ep g n :
  oracle_ok w -> heap_wf w -> w_heap w !! ep = Some (OEpoch g) -> eops_spec 0 os = Some n ->
  exists th rl arr w', (let! t := init_thread (Some ep) default_allocator in
                        eops_call t os ;;; ret t) w = Ret (Some th) w' /\
    open_sections w' th rl arr ep n.
Proof. apply eops_run. Qed.

(** The array of sections never grows: with all of its slots taken
    [epoch_start]'s guard [count > buf_size] is still false, and the ninth
    section is stored past the end of the array, whatever the environment
    answers. *)
Theorem epoch_start_overflows w th rl arr ep ps ss :
  thread_ok (w_heap w) th rl arr ep ps ss -> length ss = length ps -> heap_wf w ->
  epoch_start (Some th) default_allocator w = Crash.
Proof. apply epoch_start_full. Qed.

(** When the section array cannot be allocated, [init_thread] frees the
    thread first and then reads [thread->record] through the pointer it has
    just set to [NULL]: the error path is undefined behaviour. *)
Theorem init_thread_error_path_crashes w ep a b c rest :
  heap_wf w -> w_oracle w = a :: b :: c :: rest -> 0 <= a -> 0 <= b -> c < 0 ->
  init_thread (Some ep) default_allocator w = Crash.
Proof.
  intros Hwf Hor Ha Hb Hc. unfold init_thread. cbn [alloc default_allocator].
  set (w1 := granted (OThread raw_thread) w). set (w2 := granted (ORecord raw_record) w1).
  assert (E1 : default_mem_alloc (OThread raw_thread) w = Ret (Some (w_next w)) w1)
    by (apply alloc_granted; [by rewrite Hor|done]).
  assert (E2 : default_mem_alloc (ORecord raw_record) w1 = Ret (Some (w_next w1)) w2)
    by (apply alloc_granted; [cbn; by rewrite Hor|done]).
  cstep exact E1. cstep exact E2.
  assert (T2 : w_heap w2 !! w_next w = Some (OThread raw_thread)).
  { cbn. rewrite lookup_insert_ne by lia. apply lookup_insert_eq. }
  cstep (by eapply load_thread_eq). cstep (by eapply store_eq).
  cbn [w_next w1 granted set_next].
  cstep (eapply load_thread_eq; cbn -[w2]; apply lookup_insert_eq).
  cstep (eapply store_eq; cbn -[w2]; apply lookup_insert_eq).
  cstep (eapply load_thread_eq; cbn -[w2]; apply lookup_insert_eq).
  cbn [buf_size th_record th_section section_count raw_thread].
  cstep (apply alloc_refused; [cbn; by rewrite Hor|done]).
  cstep (eapply store_eq; cbn -[w2]; apply lookup_insert_eq).
  cstep reflexivity. cbn [free default_allocator]. unfold default_mem_free.
  cstep (cstep (eapply free_loc_eq; cbn -[w2]; apply lookup_insert_eq); reflexivity).
  by apply bind_crash.
Qed.

(** Cleaning a thread without open sections. *)
Lemma clean_thread_spec w th rl arr ep ps g :
  thread_ok (w_heap w) th rl arr ep ps [] -> w_heap w !! ep = Some (OEpoch g) ->
  exists h', clean_thread (Some th) default_allocator w = Ret NULL (set_heap h' w) /\
    h' !! th = None /\ h' !! arr = None /\ h' !! rl = None /\
    h' !! ep = Some (OEpoch (MkEpoch (ep_epoch g) (ep_records g) (u32 (ep_n_free g + 1)))) /\
    (forall x, x <> th -> x <> arr -> x <> rl -> x <> ep -> h' !! x = w_heap w !! x).
Proof.
  intros [Ht Harr (r & Hr & Hgl & _) _ _ _] Hg.
  assert (th <> rl /\ th <> arr /\ rl <> arr /\ ep <> th /\ ep <> rl /\ ep <> arr)
    as (N1 & N2 & N3 & N4 & N5 & N6) by (split_and!; congruence).
  unfold clean_thread. erewrite bind_eq by (by eapply load_thread_eq). cbn [th_record th_section].
  unfold epoch_unregister. erewrite bind_eq.
  2: { erewrite bind_eq by (by eapply load_record_eq). erewrite bind_eq by (by eapply store_eq).
       rewrite Hgl.
       erewrite bind_eq by (eapply load_epoch_eq; cbn; rewrite lookup_insert_ne by done; exact Hg).
       eapply store_eq. cbn. rewrite lookup_insert_ne by done. exact Hg. }
  cbn [free default_allocator]. unfold default_mem_free.
  erewrite bind_eq.
  2: { erewrite bind_eq by (eapply free_loc_eq; cbn; rewrite !lookup_insert_ne by done; exact Harr). reflexivity. }
  erewrite bind_eq by (eapply store_eq; cbn;
    rewrite lookup_delete_ne, !lookup_insert_ne by congruence; exact Ht).
  erewrite bind_eq by (eapply load_thread_eq; cbn; apply lookup_insert_eq). cbn [th_record th_section].
  erewrite bind_eq.
  2: { erewrite bind_eq by (eapply free_loc_eq; cbn; rewrite lookup_insert_ne, lookup_delete_ne,
         lookup_insert_ne by congruence; apply lookup_insert_eq). reflexivity. }
  erewrite bind_eq by (eapply store_eq; cbn; rewrite lookup_delete_ne by done; apply lookup_insert_eq).
  erewrite bind_eq by (eapply free_loc_eq; cbn; apply lookup_insert_eq).
  eexists. split; [reflexivity|]. cbn. split_and!.
  - apply lookup_delete_eq.
  - rewrite lookup_delete_ne, lookup_insert_ne, lookup_delete_ne, lookup_insert_ne by congruence.
    apply lookup_delete_eq.
  - rewrite lookup_delete_ne, lookup_insert_ne by congruence. apply lookup_delete_eq.
  - rewrite lookup_delete_ne, lookup_insert_ne, lookup_delete_ne, lookup_insert_ne, lookup_delete_ne
      by congruence. apply lookup_insert_eq.
  - intros x ? ? ? ?. by rewrite lookup_delete_ne, lookup_insert_ne, lookup_delete_ne, lookup_insert_ne,
      lookup_delete_ne, !lookup_insert_ne by congruence.
Qed.

(** [clean_thread] frees the thread, its array and its record, leaves
    [NULL] behind, but never takes the record off the epoch's list of
    registered records: the epoch keeps a pointer to the freed record. *)
Theorem clean_thread_dangling w th rl arr ep ps g :
  thread_ok (w_heap w) th rl arr ep ps [] -> w_heap w !! ep = Some (OEpoch g) ->
  Some rl ∈ ep_records g ->
  exists w' g', clean_thread (Some th) default_allocator w = Ret NULL w' /\
    w_heap w' !! th = None /\ w_heap w' !! arr = None /\ w_heap w' !! rl = None /\
    w_heap w' !! ep = Some (OEpoch g') /\ Some rl ∈ ep_records g'.
Proof.
  intros Hok Hg Hin. destruct (clean_thread_spec _ _ _ _ _ _ _ Hok Hg) as (h' & Hrun & ? & ? & ? & ? & _).
  do 2 eexists. split; [exact Hrun|]. by split_and!.
Qed.

(** ** An epoch and a thread to run the theorems on *)

Definition epoch_world (oracle : list Z) : world :=
  set_next 2%positive (set_heap {[1%positive := OEpoch (MkEpoch 1 [] 0)]} (fresh_world oracle [])).

Lemma epoch_world_ok : oracle_ok (epoch_world []) /\ heap_wf (epoch_world []).
Proof. split; [constructor|]. intros l Hl. cbn in *. by rewrite lookup_singleton_ne by lia. Qed.

Lemma epoch_operations_refine_witness :
  exists th rl arr w', (let! t := init_thread (Some 1%positive) default_allocator in
      eops_call t [EStart; EStart; EStop; EStart; EStopAll; EStart] ;;; ret t) (epoch_world []) = Ret (Some th) w' /\
    open_sections w' th rl arr 1%positive 1.
Proof.
  destruct epoch_world_ok as [Ho Hwf].
  exact (epoch_operations_refine [EStart; EStart; EStop; EStart; EStopAll; EStart] (epoch_world []) 1%positive
    (MkEpoch 1 [] 0) 1 Ho Hwf eq_refl eq_refl).
Defined.

(** A registered thread without open sections. *)
Definition full_world : world :=
  set_next 5%positive (set_heap (list_to_map
    [ (1%positive, OEpoch (MkEpoch 1 [Some 3%positive] 0));
      (2%positive, OThread (MkThread (Some 3%positive) (Some 4%positive) 0 0));
      (3%positive, ORecord (cleared (Some 1%positive) 0)); (4%positive, OPtrs []) ]) (fresh_world [] [])).

Lemma full_world_ok : thread_ok (w_heap full_world) 2%positive 3%positive 4%positive 1%positive [] [] /\
  heap_wf full_world.
Proof.
  split.
  - split; [reflexivity|reflexivity| |by eexists| |done].
    + eexists. split; [reflexivity|]. split_and!; [done..|]. by intros b [-> | ->].
    + split; [constructor|done].
  - intros l Hl. cbn in *. rewrite !lookup_insert_ne by lia. apply lookup_empty.
Qed.

Lemma run_then_crash {A B} (m : M A) (o : A -> M unit) (k : A -> M B) w a w' :
  (let! t := m in o t ;;; ret t) w = Ret a w' -> k a w' = Crash -> (let! t := m in o t ;;; k t) w = Crash.
Proof.
  unfold bind. destruct (m w) as [t w1| | | |]; try done.
  destruct (o t w1) as [u w2| | | |]; try done. by intros [= -> ->].
Qed.

Lemma epoch_start_overflows_witness :
  (let! t := init_thread (Some 1%positive) default_allocator in
   eops_call t (replicate 8 EStart) ;;; epoch_start t default_allocator) (epoch_world []) = Crash.
Proof.
  destruct epoch_world_ok as [Ho Hwf].
  destruct (eops_run (replicate 8 EStart) (epoch_world []) 1%positive (MkEpoch 1 [] 0) 8 Ho Hwf eq_refl eq_refl)
    as (th & rl & arr & w' & Hrun & (ps & ss & Hok & Hps & Hss & _ & Hwf')).
  exact (run_then_crash _ (fun t => eops_call t (replicate 8 EStart)) (fun t => epoch_start t default_allocator)
    _ _ _ Hrun (epoch_start_overflows w' th rl arr 1%positive ps ss Hok (eq_trans Hss (eq_sym Hps)) Hwf')).
Defined.

Lemma init_thread_error_path_crashes_witness :
  init_thread (Some 1%positive) default_allocator (epoch_world [0; 0; -1]) = Crash.
Proof.
  apply (init_thread_error_path_crashes (epoch_world [0; 0; -1]) 1%positive 0 0 (-1) []); [|done|lia..].
  intros l Hl. cbn in *. by rewrite lookup_singleton_ne by lia.
Defined.

Lemma clean_thread_dangling_witness :
  exists w' g', clean_thread (Some 2%positive) default_allocator full_world = Ret NULL w' /\
    w_heap w' !! 3%positive = None /\ w_heap w' !! 1%positive = Some (OEpoch g') /\
    Some 3%positive ∈ ep_records g'.
Proof.
  destruct full_world_ok as [Hok _].
  destruct (clean_thread_dangling full_world 2%positive 3%positive 4%positive 1%positive [] _ Hok eq_refl)
    as (w' & g' & H & _ & _ & H1 & H2 & H3); [by apply elem_of_cons; left|].
  exists w', g'. auto.
Defined.
