(* ===== verification/Crypto.v ===== *)
(** * Crypto: random numbers and hashing (crypto/crypto.c)

    The random-range functions, the state machine of [setup_crypto_module],
    the seeding of the software generator and the hexadecimal hashes.

    The cryptographic library is the environment: its calls consume answers
    of the oracle, and its two hash functions are parameters of the section,
    of which only the length of a digest and that it is made of bytes is ever
    used. *)

From S2P Require Import Prelude Types CWorld Memory Realloc.

Definition TRUE : Z := 1.
Definition FALSE : Z := 0.

(** struct random_generator (crypto.h).  [range] and [bytes] answer [None]
    for a return value of -1; a member that was never assigned is [None]. *)
Record random_generator := MkRandom {
  range : option (Z -> M (option Z));
  bytes : option (ptr -> Z -> M Z);
  seed : option (M Z)
}.

(** ** Automatic cleanup (utils/autofree.h, utils/autoclose.h) *)

Definition cleanup_buf (p : ptr) : M unit :=
  match p with None => ret tt | Some _ => free_loc p end.

Definition close_fd (fd : Z) : M unit :=
  if fd =? 0 then ret tt else sys_close fd.

(** ** Random numbers *)

(** libressl's bignums: [BN_new] can fail, [BN_set_word] and [BN_rand_range]
    answer 1, or 0 on failure ([BN_rand_range] fails for a range of zero);
    after a failure the bignum still holds zero.  Left out is a
    [BN_rand_range] that gives up because none of its hundred draws lay in the
    range (bn_rand.c, TOO_MANY_ITERATIONS): it answers 0 and leaves a number
    below twice the range behind. *)
Definition BN_new : M (option unit) :=
  let! a := ask in ret (if a <? 0 then None else Some tt).

Definition BN_set_word (v : Z) : M (Z * Z) :=
  let! a := ask in ret (if a <? 0 then (0, 0) else (1, v)).

Definition BN_rand_range (bound : Z) : M (Z * Z) :=
  let! a := ask in ret (if (a <? 0) || (bound =? 0) then (0, 0) else (1, a mod bound)).

(** [BN_bn2dec] prints the number, [strtol] reads it back. *)
Definition BN_bn2dec (v : Z) : M (option Z) :=
  let! a := ask in ret (if a <? 0 then None else Some v).

Definition default_rand_range (range : Z) : M (option Z) :=
  let! random := BN_new in
  match random with
  | None => printf "Can't init bignum struct\n" ;;; ret None
  | Some _ =>
      let! range1 := BN_new in
      match range1 with
      | None => printf "Can't init bignum struct\n" ;;; ret None
      | Some _ =>
          let! '(rtrn, range1) := BN_set_word (u32 (range + 1)) in
          if rtrn <? 0 then printf "Can't set range\n" ;;; ret None
          else
            let! '(rtrn, random) := BN_rand_range range1 in
            if rtrn <? 0 then printf "Can't get random range\n" ;;; ret None
            else
              let! buf := BN_bn2dec random in
              match buf with
              | None => printf "Can't convert random number\n" ;;; ret None
              | Some v => ret (Some (u32 v))
              end
      end
  end.

Definition default_seed_prng : M Z := ret 0.

(** The struct lives on the heap (24 bytes); [bytes] is not assigned. *)
Definition get_default_random_generator (allocator : memory_allocator) : M (option random_generator) :=
  let! random := alloc allocator (junk 24) in
  match random with
  | None => write ERROR "Random generator allocation failed" ;;; ret None
  | Some _ => ret (Some (MkRandom (Some default_rand_range) None (Some default_seed_prng)))
  end.

Definition using_hardware_prng : M Z := gets (fun w => software_prng (w_crypto w)).

(** [rand(3)] answers between 0 and RAND_MAX = 2^31 - 1. *)
Definition rand : M Z := let! a := ask in ret (a mod 2 ^ 31).

Definition rand_range_no_crypto (range : Z) : M (option Z) :=
  let! r := rand in
  if range =? 0 then crash else ret (Some (u32 (r mod range + 1))).

(** libressl's [RAND_bytes] fills the buffer and answers 1; the answer of
    another implementation can be an error. *)
Definition RAND_bytes (buf : ptr) (num : Z) : M Z :=
  let! a := ask in
  if a <? 0 then ret 0
  else
    let! content := ask in
    (if 0 <? num then store_at buf 0 (le_bytes (Z.to_nat num) content) else ret tt) ;;;
    ret 1.

Definition rand_bytes (buf : ptr) (length : Z) : M Z :=
  let! rtrn := RAND_bytes buf (i32 length) in
  if negb (rtrn =? 1) then printf "Can't get random bytes\n" ;;; ret (-1)
  else store_at buf length [0] ;;; ret 0.

Definition rand_range_crypto (range : Z) : M (option Z) :=
  let! random := BN_new in
  match random with
  | None => printf "Can't init bignum struct\n" ;;; ret None
  | Some _ =>
      let! range1 := BN_new in
      match range1 with
      | None => printf "Can't init bignum struct\n" ;;; ret None
      | Some _ =>
          let! '(rtrn, range1) := BN_set_word (u32 (range + 1)) in
          if rtrn <? 0 then printf "Can't set range\n" ;;; ret None
          else
            let! '(rtrn, random) := BN_rand_range range1 in
            if rtrn <? 0 then printf "Can't get random range\n" ;;; ret None
            else
              let! buf := BN_bn2dec random in
              match buf with
              | None => printf "Can't convert random number\n" ;;; ret None
              | Some v => ret (Some (u32 v))
              end
      end
  end.

Definition set_rand_range_pointer (f : rand_fn) : M unit :=
  modify (fun w => set_crypto (MkCrypto (Some f) (software_prng (w_crypto w)) (crypto_setup (w_crypto w))) w).
Definition set_software_prng (v : Z) : M unit :=
  modify (fun w => set_crypto (MkCrypto (rand_range_pointer (w_crypto w)) v (crypto_setup (w_crypto w))) w).
Definition set_crypto_setup (v : Z) : M unit :=
  modify (fun w => set_crypto (MkCrypto (rand_range_pointer (w_crypto w)) (software_prng (w_crypto w)) v) w).

(** A value of the enum is one of its two constants, so the third branch of
    the function is not taken. *)
Definition setup_rand_range (method : crypto_method) : M Z :=
  match method with
  | NO_CRYPTO => set_rand_range_pointer fn_rand_range_no_crypto ;;; ret 0
  | CRYPTO => set_rand_range_pointer fn_rand_range_crypto ;;; ret 0
  end.

Definition call_rand_fn (f : rand_fn) (range : Z) : M (option Z) :=
  match f with
  | fn_rand_range_no_crypto => rand_range_no_crypto range
  | fn_rand_range_crypto => rand_range_crypto range
  end.

Definition rand_range (range : Z) : M (option Z) :=
  let! c := gets w_crypto in
  if negb (crypto_setup c =? TRUE) then printf "Call setup crypto first\n" ;;; ret None
  else
    match rand_range_pointer c with
    | None => crash
    | Some f => call_rand_fn f range
    end.

(** The engine calls answer 0 on failure. *)
Definition setup_hardware_acceleration : M Z :=
  let! engine := ask in
  if engine <? 0 then printf "No intel random number generator detected\n" ;;; ret 1
  else
    let! rtrn := ask in
    if rtrn =? 0 then printf "Can't init crypto engine\n" ;;; ret (-1)
    else
      let! rtrn := ask in
      if rtrn =? 0 then printf "Can't set default method\n" ;;; ret (-1)
      else ret 0.

(** ** Hashing *)

Definition SHA256_DIGEST_LENGTH : Z := 32.
Definition SHA512_DIGEST_LENGTH : Z := 64.

(** The character code of a hexadecimal digit, and [sprintf("%02x")]. *)
Definition hexdigit (d : Z) : Z := if d <? 10 then 48 + d else 87 + d.
Definition sprintf_02x (b : Z) : list Z := [hexdigit (b / 16); hexdigit (b mod 16)].

(** [for(i = 0; i < DIGEST_LENGTH; i++) sprintf( *out + (i * 2), "%02x", hash[i])];
    [sprintf] also writes the terminating NUL. *)
Fixpoint hex_loop (out : ptr) (i : Z) (hash : list Z) : M unit :=
  match hash with
  | [] => ret tt
  | b :: hash' => store_at out (i * 2) (sprintf_02x b ++ [0]) ;;; hex_loop out (i + 1) hash'
  end.

Section hashing.
Context (SHA512 SHA256 : list Z -> list Z).

(** libressl's Init, Update and Final answer 1.  The pointer [*out] is passed
    in and the pointer left there is answered with the return value. *)
Definition sha512 (inp out : ptr) : M (Z * ptr) :=
  let! rtrn := ret 1 in
  if rtrn <? 0 then printf "Sha init\n" ;;; ret (-1, out)
  else
    let! s := load_cstr inp in
    let! rtrn := ret 1 in
    if rtrn <? 0 then printf "Can't update input string\n" ;;; ret (-1, out)
    else
      let hash := SHA512 s in
      let! rtrn := ret 1 in
      if rtrn <? 0 then printf "Can't do this\n" ;;; ret (-1, out)
      else
        let! out := malloc (junk (SHA512_DIGEST_LENGTH * 2 + 1)) in
        match out with
        | None => printf "Can't allocate output buf\n" ;;; ret (-1, NULL)
        | Some _ =>
            hex_loop out 0 hash ;;;
            store_at out 128 [0] ;;;
            ret (0, out)
        end.

Definition sha256 (inp out : ptr) : M (Z * ptr) :=
  let! rtrn := ret 1 in
  if rtrn <? 0 then printf "Sha Init Error\n" ;;; ret (-1, out)
  else
    let! s := load_cstr inp in
    let! rtrn := ret 1 in
    if rtrn <? 0 then printf "Sha Update Error\n" ;;; ret (-1, out)
    else
      let hash := SHA256 s in
      let! rtrn := ret 1 in
      if rtrn <? 0 then printf "Sha Final Error\n" ;;; ret (-1, out)
      else
        let! out := malloc (junk (SHA256_DIGEST_LENGTH * 2 + 1)) in
        match out with
        | None => printf "Can't allocate output buf\n" ;;; ret (-1, NULL)
        | Some _ =>
            hex_loop out 0 hash ;;;
            store_at out 64 [0] ;;;
            ret (0, out)
        end.

(** ** Seeding *)

(** [RAND_add(buf, num, entropy)] reads [num] bytes of the buffer. *)
Definition RAND_add (buf : ptr) (num : Z) : M unit :=
  let! bs := load_bytes buf in
  let! raw := need (get_bytes bs (Z.to_nat num)) in
  emit (EvRandAdd raw).

(** The rest of the loop, with what [random_buffer] and [hash] hold. *)
Fixpoint seed_loop (loops : nat) (random_buffer hash : ptr) : M (Z * ptr * ptr) :=
  match loops with
  | O => ret (0, random_buffer, hash)
  | S n =>
      let! r := rand_range 4096 in
      match r with
      | None => printf "Can't generate random number\n" ;;; ret (-1, random_buffer, hash)
      | Some buf_len =>
          let! random_buffer := realloc random_buffer (buf_len + 1) in
          match random_buffer with
          | None => printf "realloc: %s\n" ;;; ret (-1, NULL, hash)
          | Some _ =>
              let! r := sys_read random_buffer buf_len in
              if negb (r =? buf_len) then printf "read: %s\n" ;;; ret (-1, random_buffer, hash)
              else
                store_at random_buffer buf_len [0] ;;;
                let! '(rtrn, hash) := sha512 random_buffer hash in
                if rtrn <? 0 then printf "can't SHA512 buffer\n" ;;; ret (-1, random_buffer, hash)
                else
                  RAND_add hash 128 ;;;
                  seed_loop n random_buffer hash
          end
      end
  end.

(** The body of [seed_prng]: the return value and what the automatic
    variables [hash], [random_fd] and [random_buffer] hold at the return. *)
Definition seed_body : M (Z * (ptr * Z * ptr)) :=
  let! random_buffer := malloc (junk 6000) in
  match random_buffer with
  | None => printf "Can't allocate random buffer\n" ;;; ret (-1, (NULL, 0, NULL))
  | Some _ =>
      let! random_fd := sys_open "/dev/urandom" in
      if random_fd <? 0 then
        printf "open '/dev/urandom': %s\n" ;;; ret (-1, (NULL, random_fd, random_buffer))
      else
        let! r := sys_read random_buffer 5999 in
        if negb (r =? 5999) then printf "read: %s\n" ;;; ret (-1, (NULL, random_fd, random_buffer))
        else
          store_at random_buffer 5999 [0] ;;;
          let! '(rtrn, hash) := sha512 random_buffer NULL in
          if rtrn <? 0 then
            printf "can't SHA512 buffer\n" ;;; ret (-1, (hash, random_fd, random_buffer))
          else
            RAND_add hash 128 ;;;
            let! r := rand_range 256 in
            match r with
            | None =>
                printf "Can't generate random number\n" ;;; ret (-1, (hash, random_fd, random_buffer))
            | Some loops =>
                let! '(rtrn, random_buffer, hash) := seed_loop (Z.to_nat loops) random_buffer hash in
                ret (rtrn, (hash, random_fd, random_buffer))
            end
  end.

(** The variables are cleaned up in reverse order of declaration. *)
Definition seed_prng : M Z :=
  let! '(rtrn, (hash, random_fd, random_buffer)) := seed_body in
  cleanup_buf random_buffer ;;;
  close_fd random_fd ;;;
  cleanup_buf hash ;;;
  ret rtrn.

Definition setup_crypto_module (method : crypto_method) : M Z :=
  printf "Setting up crypto\n" ;;;
  let! c := gets w_crypto in
  if crypto_setup c =? TRUE then printf "Crypto already setup\n" ;;; ret (-1)
  else
    let! rtrn := setup_rand_range method in
    if rtrn <? 0 then printf "Can't setup random range function.\n" ;;; ret (-1)
    else
      match method with
      | NO_CRYPTO => set_crypto_setup TRUE ;;; ret 0
      | CRYPTO =>
          let! rtrn := setup_hardware_acceleration in
          if rtrn =? 0 then
            printf "Using hardware crypto PRNG\n" ;;;
            set_software_prng 0 ;;;
            set_crypto_setup TRUE ;;;
            ret 0
          else if rtrn =? 1 then
            printf "Switching to /dev/urandom \n" ;;;
            printf "Seeding PRNG\n" ;;;
            set_software_prng 1 ;;;
            set_crypto_setup TRUE ;;;
            seed_prng
          else
            printf "Error while trying to setup hardware acceleration\n" ;;;
            ret (-1)
      end.
End hashing.

(** ** Random ranges *)

(** The smallest number a random-range function answers. *)
Definition least (f : rand_fn) : Z :=
  match f with fn_rand_range_no_crypto => 1 | fn_rand_range_crypto => 0 end.

(** The bignum a range is drawn from. *)
Lemma u32_succ range : 0 <= range < 2 ^ 32 ->
  u32 (range + 1) = if range =? UINT32_MAX then 0 else range + 1.
Proof.
  intros H. unfold UINT32_MAX. destruct (Z.eqb_spec range (2 ^ 32 - 1)) as [->|]; [done|].
  apply u32_small. lia.
Qed.

(** What a drawn number satisfies. *)
Definition drawn (lo range n : Z) : Prop := lo <= n <= range /\ (range = UINT32_MAX -> lo = 0 -> n = 0).

Lemma drawn_mod range a :
  0 <= range < 2 ^ 32 -> u32 (range + 1) <> 0 -> drawn 0 range (u32 (a mod u32 (range + 1))).
Proof.
  intros Hr. rewrite u32_succ by done. destruct (Z.eqb_spec range UINT32_MAX); [done|]. intros _.
  pose proof (Z.mod_pos_bound a (range + 1) ltac:(lia)). rewrite u32_small by lia. split; [lia|done].
Qed.

Lemma crypto_range_spec range w :
  0 <= range < 2 ^ 32 ->
  exists r w', rand_range_crypto range w = Ret r w' /\ env_step w w' /\
    (forall n, r = Some n -> drawn 0 range n) /\ (oracle_ok w -> is_Some r).
Proof.
  intros Hr. assert (Hz : drawn 0 range (u32 0)) by (by split; [change (u32 0) with 0; lia|]).
  unfold rand_range_crypto, BN_new, BN_set_word, BN_rand_range, BN_bn2dec, oracle_ok.
  destruct w as [h nx o out ev fs fds pid c sy en].
  unfold bind, ask, ret, printf, write, modify, set_out, set_oracle. cbn -[u32 Z.modulo].
  repeat (case_match; cbn -[u32 Z.modulo] in *; simplify_eq); (do 2 eexists; split; [reflexivity|]);
    (split; [by eexists _, _|]); split.
  all: try (intros HF; pose proof (answers_hd _ HF); pose proof (answers_hd _ (answers_tl _ HF));
    pose proof (answers_hd _ (answers_tl _ (answers_tl _ (answers_tl _ (answers_tl _ HF)))));
    first [by eexists | exfalso; lia]).
  all: intros n [= <-]; try exact Hz.
  all: match goal with H : _ || _ = false |- _ => apply orb_false_iff in H as [_ H] end; try done.
  apply drawn_mod; [done|]. by match goal with H : (u32 _ =? 0) = false |- _ => apply Z.eqb_neq in H end.
Qed.

Lemma no_crypto_range_spec range w :
  0 < range < 2 ^ 32 ->
  exists n w', rand_range_no_crypto range w = Ret (Some n) w' /\ env_step w w' /\ drawn 1 range n.
Proof.
  intros Hr. unfold rand_range_no_crypto, rand, bind, ask, ret. cbn -[u32 Z.modulo].
  rewrite (proj2 (Z.eqb_neq range 0)) by lia. do 2 eexists. split; [reflexivity|].
  split; [exists (tl (w_oracle w)), (w_out w); by destruct w|].
  pose proof (Z.mod_pos_bound (hd 0 (w_oracle w) mod 2 ^ 31) range ltac:(lia)).
  unfold drawn. rewrite u32_small by lia. lia.
Qed.

Lemma rand_range_spec f range w :
  crypto_setup (w_crypto w) = TRUE -> rand_range_pointer (w_crypto w) = Some f -> 0 < range < 2 ^ 32 ->
  exists r w', rand_range range w = Ret r w' /\ env_step w w' /\
    (forall n, r = Some n -> drawn (least f) range n) /\ (oracle_ok w -> is_Some r).
Proof.
  intros Hs Hf Hr. unfold rand_range. crun. rewrite Hs, Hf. cbn. destruct f; cbn.
  - destruct (no_crypto_range_spec range w Hr) as (n & w' & -> & He & Hd). do 2 eexists.
    split_and!; [done..|by intros ? [= <-]|done].
  - destruct (crypto_range_spec range w) as (r & w' & -> & He & Hd); [lia|]. by do 2 eexists.
Qed.

(** Once the module is set up, [rand_range] always returns, changing
    nothing but the console and the environment's answers: a number it
    answers lies between 0 and [range] inclusive for the cryptographic
    method (when [BN_rand_range] does not give up), between 1 and [range] for
    the other, and it only fails when the environment refuses an allocation. *)
Theorem rand_range_in_range f range w :
  crypto_setup (w_crypto w) = TRUE -> rand_range_pointer (w_crypto w) = Some f -> 0 < range < UINT32_MAX ->
  exists r w', rand_range range w = Ret r w' /\ env_step w w' /\
    (forall n, r = Some n -> least f <= n <= range) /\ (oracle_ok w -> is_Some r).
Proof.
  intros Hs Hf Hr. destruct (rand_range_spec f range w Hs Hf) as (r & w' & H1 & H2 & H3 & H4).
  { unfold UINT32_MAX in Hr. lia. }
  exists r, w'. split_and!; [done..| |done]. intros n Hn. by apply H3.
Qed.

(** Asked for the full range of a [uint32_t] the cryptographic method
    computes a bound of [range + 1], which wraps to zero; the failure of
    [BN_rand_range] is reported as 0, the code tests for a negative value,
    so the function succeeds and always answers 0. *)
Theorem rand_range_full_range_is_zero w n w' :
  rand_range_crypto UINT32_MAX w = Ret (Some n) w' -> n = 0.
Proof.
  intros H. destruct (crypto_range_spec UINT32_MAX w) as (r & w1 & Hrun & _ & Hd & _); [by vm_compute|].
  rewrite H in Hrun. injection Hrun as <- <-. by apply (Hd n eq_refl).
Qed.

(** The answers cover the range: for every number the method can give
    there is an environment in which [rand_range] gives it. *)
Theorem rand_range_covers f range n w :
  crypto_setup (w_crypto w) = TRUE -> rand_range_pointer (w_crypto w) = Some f ->
  0 < range < 2 ^ 31 -> least f <= n <= range ->
  exists answers w', rand_range range (set_oracle answers w) = Ret (Some n) w'.
Proof.
  intros Hs Hf Hr Hn. destruct f; cbn in Hn.
  - exists [n - 1]. unfold rand_range. crun. rewrite Hs, Hf. cbn -[rand_range_no_crypto].
    unfold rand_range_no_crypto, rand, bind, ask, ret. cbn -[u32 Z.modulo Z.eqb].
    rewrite (proj2 (Z.eqb_neq range 0)) by lia. rewrite (Z.mod_small (n - 1) (2 ^ 31)) by lia.
    rewrite Z.mod_small by lia. rewrite u32_small by lia. eexists. do 3 f_equal. lia.
  - exists [0; 0; 0; n; 0]. unfold rand_range. crun. rewrite Hs, Hf. cbn -[rand_range_crypto].
    unfold rand_range_crypto. do 2 (erewrite (bind_eq _ _ _ (Some tt)) by reflexivity; cbv beta iota).
    rewrite u32_small by lia. erewrite (bind_eq _ _ _ (1, range + 1)) by reflexivity. cbv beta iota.
    change (1 <? 0) with false. cbv iota.
    erewrite (bind_eq _ _ _ (1, n)).
    2: { unfold BN_rand_range, bind, ask, ret. cbn -[Z.modulo Z.eqb Z.ltb].
         rewrite (proj2 (Z.ltb_ge n 0)), (proj2 (Z.eqb_neq (range + 1) 0)), Z.mod_small by lia. reflexivity. }
    cbv beta iota. change (1 <? 0) with false. cbv iota. erewrite (bind_eq _ _ _ (Some n)) by reflexivity.
    cbv beta iota. rewrite u32_small by lia. by eexists.
Qed.

(** A process in which the module has been set up. *)
Definition crypto_world (f : rand_fn) (oracle : list Z) : world :=
  set_crypto (MkCrypto (Some f) 0 TRUE) (fresh_world oracle []).

Lemma rand_range_in_range_witness :
  exists r w', rand_range 7 (crypto_world fn_rand_range_crypto [0; 0; 0; 12; 0]) = Ret r w' /\ r = Some 4.
Proof.
  destruct (rand_range_in_range fn_rand_range_crypto 7 (crypto_world fn_rand_range_crypto [0; 0; 0; 12; 0])
    eq_refl eq_refl) as (r & w' & H & _); [unfold UINT32_MAX; lia|].
  exists r, w'. split; [exact H|]. vm_compute in H. by injection H as <- _.
Defined.

Lemma rand_range_full_range_is_zero_witness : 0 = 0.
Proof.
  exact (rand_range_full_range_is_zero (fresh_world [1; 1; 1; 77; 1] []) 0 _ eq_refl).
Defined.

Lemma rand_range_covers_witness :
  exists answers w', rand_range 7 (set_oracle answers (crypto_world fn_rand_range_no_crypto [])) = Ret (Some 7) w'.
Proof.
  apply (rand_range_covers fn_rand_range_no_crypto 7 7 (crypto_world fn_rand_range_no_crypto []) eq_refl eq_refl);
    cbn; lia.
Defined.

(** ** Hexadecimal hashes *)

Definition unhexdigit (c : Z) : option Z :=
  if (48 <=? c) && (c <=? 57) then Some (c - 48)
  else if (97 <=? c) && (c <=? 102) then Some (c - 87) else None.

Fixpoint unhex (cs : list Z) : option (list Z) :=
  match cs with
  | [] => Some []
  | a :: b :: cs' =>
      x ← unhexdigit a; y ← unhexdigit b; bs ← unhex cs'; Some (x * 16 + y :: bs)
  | _ => None
  end.

Definition is_byte (b : Z) : Prop := 0 <= b < 256.

(** The text of a digest. *)
Definition hex_text (hash : list Z) : list Z := concat (map sprintf_02x hash).

Lemma unhexdigit_hexdigit d : 0 <= d < 16 -> unhexdigit (hexdigit d) = Some d /\ hexdigit d <> 0.
Proof.
  intros H. unfold hexdigit, unhexdigit. destruct (Z.ltb_spec d 10).
  - rewrite (proj2 (Z.leb_le 48 _)), (proj2 (Z.leb_le (48 + d) 57)) by lia. cbn. split; [f_equal|]; lia.
  - rewrite (proj2 (Z.leb_le 48 _)), (proj2 (Z.leb_gt (87 + d) 57)) by lia. cbn.
    rewrite (proj2 (Z.leb_le 97 _)), (proj2 (Z.leb_le (87 + d) 102)) by lia. cbn. split; [f_equal|]; lia.
Qed.

Lemma unhex_hex_text hash : Forall is_byte hash -> unhex (hex_text hash) = Some hash.
Proof.
  induction 1 as [|b hash Hb _ IH]; [done|]. cbn -[Z.div Z.modulo]. unfold is_byte in Hb.
  pose proof (Z.mod_pos_bound b 16 eq_refl).
  destruct (unhexdigit_hexdigit (b / 16)) as [-> _]; [split; [apply Z.div_pos|apply Z.div_lt_upper_bound]; lia|].
  destruct (unhexdigit_hexdigit (b mod 16)) as [-> _]; [lia|]. cbn -[Z.div Z.modulo].
  unfold hex_text in IH. rewrite IH. cbn -[Z.div Z.modulo]. do 2 f_equal. pose proof (Z.div_mod b 16). lia.
Qed.

Lemma hex_text_nonzero hash : Forall is_byte hash -> Forall (fun c => c <> 0) (hex_text hash).
Proof.
  induction 1 as [|b hash Hb _ IH]; [constructor|]. unfold hex_text. cbn -[Z.div Z.modulo].
  unfold is_byte in Hb. pose proof (Z.mod_pos_bound b 16 eq_refl).
  constructor; [apply unhexdigit_hexdigit; split; [apply Z.div_pos|apply Z.div_lt_upper_bound]; lia|].
  constructor; [apply unhexdigit_hexdigit; lia|exact IH].
Qed.

Lemma length_hex_text hash : length (hex_text hash) = (2 * length hash)%nat.
Proof. unfold hex_text. induction hash as [|b hash IH]; [done|]. cbn in *. rewrite IH. lia. Qed.

Lemma cstr_text cs rest : Forall (fun c => c <> 0) cs -> cstr (map Some cs ++ Some 0 :: rest) = Some cs.
Proof.
  induction 1 as [|c cs Hc _ IH]; [done|]. cbn. rewrite (proj2 (Z.eqb_neq c 0)) by done. by rewrite IH.
Qed.

Lemma cstr_terminated raw : is_Some (cstr (map Some (raw ++ [0]))).
Proof.
  induction raw as [|z raw [s IH]]; [by eexists|]. cbn. destruct (z =? 0); [by eexists|].
  rewrite IH. by eexists.
Qed.

Lemma store_at_eq w l bs bs' off new :
  w_heap w !! l = Some (OBytes bs) -> put_at bs off new = Some bs' ->
  store_at (Some l) off new w = Ret tt (set_heap (<[l := OBytes bs']> (w_heap w)) w).
Proof.
  intros Hl Hp. unfold store_at. erewrite bind_eq by (by apply load_bytes_eq). rewrite Hp.
  erewrite bind_eq by reflexivity. by apply store_eq with (OBytes bs).
Qed.

(** Writing where a prefix ends. *)
Lemma put_at_end pre rest new :
  (length new <= length rest)%nat ->
  put_at (map Some pre ++ rest) (Z.of_nat (length pre)) new =
    Some (map Some (pre ++ new) ++ drop (length new) rest).
Proof.
  intros H. unfold put_at. rewrite length_app, length_map.
  rewrite (proj2 (Z.leb_le 0 _)), (proj2 (Z.leb_le (_ + _) _)) by lia. cbn. rewrite Nat2Z.id.
  rewrite take_app_length' by (by rewrite length_map).
  rewrite drop_app_ge by (rewrite length_map; lia). rewrite length_map.
  replace (length pre + length new - length pre)%nat with (length new) by lia.
  by rewrite map_app, <- app_assoc.
Qed.

(** Writing past a prefix, of which only the first bytes are kept. *)
Lemma hex_loop_spec l hash : forall w pre rest,
  w_heap w !! l = Some (OBytes (map Some pre ++ rest)) ->
  (2 * length hash + 1 <= length rest)%nat -> (length pre mod 2 = 0)%nat ->
  exists rest', length rest' = (length rest - 2 * length hash)%nat /\
    hex_loop (Some l) (Z.of_nat (length pre) / 2) hash w =
      Ret tt (set_heap (<[l := OBytes (map Some (pre ++ hex_text hash) ++ rest')]> (w_heap w)) w).
Proof.
  induction hash as [|b hash IH]; intros w pre rest Hl Hlen Hev.
  - exists rest. split; [cbn; lia|]. cbn. rewrite app_nil_r, insert_id by done. by destruct w.
  - cbn [length] in Hlen.
    assert (Heven : Z.of_nat (length pre) / 2 * 2 = Z.of_nat (length pre)).
    { apply Nat.Div0.mod_divides in Hev as [k ->]. rewrite Nat2Z.inj_mul, (Z.mul_comm 2), Z.div_mul; lia. }
    set (new := sprintf_02x b ++ [0]).
    assert (Hput : put_at (map Some pre ++ rest) (Z.of_nat (length pre)) new =
      Some (map Some (pre ++ sprintf_02x b) ++ Some 0 :: drop 3 rest)).
    { rewrite put_at_end by (cbn; lia). unfold new. rewrite app_assoc, map_app, <- app_assoc. done. }
    cbn [hex_loop]. rewrite Heven. fold new.
    erewrite bind_eq by (eapply store_at_eq; [exact Hl|exact Hput]).
    set (w1 := set_heap _ w). set (pre1 := pre ++ sprintf_02x b).
    assert (Hl1 : length pre1 = (length pre + 2)%nat) by (unfold pre1; rewrite length_app; done).
    destruct (IH w1 pre1 (Some 0 :: drop 3 rest)) as (rest' & Hr' & Hrun).
    + apply lookup_insert_eq.
    + cbn. rewrite length_drop. lia.
    + rewrite Hl1, <- Nat.Div0.add_mod_idemp_l, Hev. done.
    + replace (Z.of_nat (length pre) / 2 + 1) with (Z.of_nat (length pre1) / 2).
      2: { rewrite Hl1, Nat2Z.inj_add. change (Z.of_nat 2) with (1 * 2). rewrite Z.div_add by lia. done. }
      exists rest'. split; [rewrite Hr'; cbn; rewrite length_drop; lia|].
      rewrite Hrun. cbn. rewrite insert_insert_eq. unfold pre1. rewrite <- app_assoc. done.
Qed.

(** The formatting part of the two hash functions: a fresh buffer of
    [2 * n + 1] bytes filled from a digest of [n] bytes. *)
Lemma hex_buffer_spec w l hash n :
  w_heap w !! l = Some (junk (2 * Z.of_nat n + 1)) -> length hash = n ->
  (hex_loop (Some l) 0 hash ;;; store_at (Some l) (2 * Z.of_nat n) [0]) w =
    Ret tt (set_heap (<[l := OBytes (map Some (hex_text hash ++ [0]))]> (w_heap w)) w).
Proof.
  intros Hl Hn. unfold junk in Hl.
  destruct (hex_loop_spec l hash w [] (replicate (Z.to_nat (2 * Z.of_nat n + 1)) None)) as (rest & Hlen & Hrun).
  - exact Hl.
  - rewrite length_replicate. lia.
  - done.
  - cbn in Hrun. erewrite bind_eq by exact Hrun. rewrite length_replicate in Hlen.
    replace (2 * Z.of_nat n) with (Z.of_nat (length (hex_text hash))) by (rewrite length_hex_text; lia).
    erewrite store_at_eq; [|apply lookup_insert_eq|apply put_at_end; cbn; lia].
    rewrite (drop_ge rest) by (cbn; lia). cbn. rewrite app_nil_r, insert_insert_eq. done.
Qed.

(** What the two hash functions do when their buffer is granted: one proof,
    for a digest function [H] of [n] bytes. *)
Definition hex_hash (H : list Z -> list Z) (n : nat) (inp : ptr) : M (Z * ptr) :=
  let! s := load_cstr inp in
  let! out := malloc (junk (2 * Z.of_nat n + 1)) in
  match out with
  | None => printf "Can't allocate output buf\n" ;;; ret (-1, NULL)
  | Some _ => (hex_loop out 0 (H s) ;;; store_at out (2 * Z.of_nat n) [0]) ;;; ret (0, out)
  end.

Lemma sha512_hex H512 inp out w : sha512 H512 inp out w = hex_hash H512 64 inp w.
Proof.
  unfold sha512, hex_hash, bind, ret. cbn -[hex_loop store_at]. destruct (load_cstr inp w) as [s w1| | | |]; try done.
  destruct (malloc _ w1) as [[l|] w2| | | |]; try done.
  by destruct (hex_loop _ 0 _ w2).
Qed.

Lemma sha256_hex H256 inp out w : sha256 H256 inp out w = hex_hash H256 32 inp w.
Proof.
  unfold sha256, hex_hash, bind, ret. cbn -[hex_loop store_at]. destruct (load_cstr inp w) as [s w1| | | |]; try done.
  destruct (malloc _ w1) as [[l|] w2| | | |]; try done.
  by destruct (hex_loop _ 0 _ w2).
Qed.

Lemma hex_hash_spec H n w l bs s :
  0 <= hd 0 (w_oracle w) -> heap_wf w -> w_heap w !! l = Some (OBytes bs) -> cstr bs = Some s ->
  length (H s) = n ->
  hex_hash H n (Some l) w = Ret (0, Some (w_next w)) (granted (OBytes (map Some (hex_text (H s) ++ [0]))) w).
Proof.
  intros Ho Hwf Hl Hs Hlen. unfold hex_hash, load_cstr.
  erewrite bind_eq by (erewrite bind_eq by (by apply load_bytes_eq); by rewrite Hs).
  erewrite bind_eq by (unfold malloc, bind, ask; rewrite (proj2 (Z.ltb_ge _ 0)) by done; reflexivity).
  cbv beta iota. erewrite bind_eq.
  2: { apply hex_buffer_spec; [apply lookup_insert_eq|done]. }
  unfold granted, ret, asked. cbn. by rewrite insert_insert_eq.
Qed.

(** (C34) [sha512] and [sha256] turn the string in their input buffer into the
    hexadecimal text of its digest, in a new buffer of exactly twice the
    digest's length plus one byte that no write overruns; the text is a
    terminated C string and reading it back gives the digest, whatever the
    hash functions are, provided they answer 64 and 32 bytes. *)
Theorem sha_hex_roundtrip H512 H256 w l bs s :
  0 <= hd 0 (w_oracle w) -> heap_wf w -> w_heap w !! l = Some (OBytes bs) -> cstr bs = Some s ->
  length (H512 s) = 64%nat -> Forall is_byte (H512 s) ->
  length (H256 s) = 32%nat -> Forall is_byte (H256 s) ->
  exists text512 text256,
    sha512 H512 (Some l) NULL w = Ret (0, Some (w_next w)) (granted (OBytes (map Some text512)) w) /\
    (cs ← cstr (map Some text512); unhex cs) = Some (H512 s) /\ length text512 = 129%nat /\
    sha256 H256 (Some l) NULL w = Ret (0, Some (w_next w)) (granted (OBytes (map Some text256)) w) /\
    (cs ← cstr (map Some text256); unhex cs) = Some (H256 s) /\ length text256 = 65%nat.
Proof.
  intros Ho Hwf Hl Hs L5 B5 L2 B2. exists (hex_text (H512 s) ++ [0]), (hex_text (H256 s) ++ [0]).
  rewrite sha512_hex, sha256_hex, !(hex_hash_spec _ _ _ _ _ _ Ho Hwf Hl Hs) by done.
  rewrite !map_app. cbn [map].
  rewrite !cstr_text by (by apply hex_text_nonzero). cbn [mbind option_bind].
  rewrite !unhex_hex_text by done. rewrite !length_app, !length_hex_text, L5, L2. done.
Qed.

Definition hash_world : world :=
  set_next 2%positive (set_heap {[1%positive := OBytes [Some 97; Some 98; Some 0; None]]} (fresh_world [] [])).

Lemma sha_hex_roundtrip_witness :
  exists text512 text256,
    sha512 (fun _ => replicate 64 171) (Some 1%positive) NULL hash_world =
      Ret (0, Some 2%positive) (granted (OBytes (map Some text512)) hash_world) /\
    sha256 (fun _ => replicate 32 9) (Some 1%positive) NULL hash_world =
      Ret (0, Some 2%positive) (granted (OBytes (map Some text256)) hash_world).
Proof.
  destruct (sha_hex_roundtrip (fun _ => replicate 64 171) (fun _ => replicate 32 9) hash_world 1%positive
    [Some 97; Some 98; Some 0; None] [97; 98]) as (t5 & t2 & H1 & _ & _ & H2 & _);
    [cbn; lia| |done|done|done|apply Forall_replicate; unfold is_byte; lia|done|apply Forall_replicate; unfold is_byte; lia|].
  - intros l Hl. cbn in *. by rewrite lookup_singleton_ne by lia.
  - exists t5, t2. by split.
Defined.

(** ** Setting the module up *)

(** The module never believes to be set up without a random-range function. *)
Definition crypto_wf (c : crypto_statics) : Prop :=
  crypto_setup c = TRUE -> is_Some (rand_range_pointer c).

Section seeding.
Context {B : Type} (f : world -> B) `{!Framed f}.

Lemma keeps_rand_range n : keeps f (rand_range n).
Proof.
  unfold rand_range, call_rand_fn, rand_range_no_crypto, rand_range_crypto, rand, BN_new, BN_set_word,
    BN_rand_range, BN_bn2dec, printf. keep.
Qed.

Lemma keeps_realloc p n : keeps f (realloc p n).
Proof. unfold realloc. keep. Qed.

Lemma keeps_hex_loop p hash : forall i, keeps f (hex_loop p i hash).
Proof. induction hash as [|b hash IH]; intros i; cbn [hex_loop]; keep. Qed.

Lemma keeps_sha512 H inp out : keeps f (sha512 H inp out).
Proof. unfold sha512, printf. keep. apply keeps_hex_loop. Qed.

Context (emit_f : forall e w, f (set_events e w) = f w).

Lemma keeps_RAND_add p n : keeps f (RAND_add p n).
Proof. unfold RAND_add. keep. apply keeps_modify. intros w. apply emit_f. Qed.

Lemma keeps_seed_loop H n : forall buf hash, keeps f (seed_loop H n buf hash).
Proof.
  induction n as [|n IH]; intros buf hash; cbn [seed_loop]; [keep|].
  apply keeps_bind; [apply keeps_rand_range|]. intros [r|]; [|unfold printf; keep].
  apply keeps_bind; [apply keeps_realloc|]. intros [p|]; [|unfold printf; keep].
  apply keeps_bind; [keep|]. intros c. case_match; [unfold printf; keep|].
  apply keeps_bind; [keep|]. intros _.
  apply keeps_bind; [apply keeps_sha512|]. intros [rtrn h]. case_match; [unfold printf; keep|].
  apply keeps_bind; [apply keeps_RAND_add|]. intros _. apply IH.
Qed.
End seeding.

#[export] Hint Resolve keeps_rand_range keeps_realloc keeps_hex_loop keeps_sha512 : keeps.

Lemma keeps_seed_prng_crypto H : keeps w_crypto (seed_prng H).
Proof.
  unfold seed_prng. apply keeps_bind.
  - unfold seed_body, printf, sys_open. keep.
    all: try (apply keeps_modify; done). all: try (apply keeps_RAND_add; done).
    all: try (apply keeps_seed_loop; done).
  - intros [r [[h fd] b]]. unfold cleanup_buf, close_fd, sys_close, emit. keep; by apply keeps_modify.
Qed.

Lemma keeps_hardware f `{!Framed f} : @keeps Z crypto_statics f setup_hardware_acceleration.
Proof. unfold setup_hardware_acceleration, printf. keep. Qed.

(** The setup state machine: however the environment answers, a call of
    [setup_crypto_module] that returns keeps the module's invariant (it is
    only marked as set up with a random-range function in place); when it
    returns 0 the module is set up; a module that is already set up is
    refused with -1 and left as it is. *)
Theorem setup_crypto_invariant H method w r w' :
  crypto_wf (w_crypto w) -> setup_crypto_module H method w = Ret r w' ->
  crypto_wf (w_crypto w') /\ (r = 0 -> crypto_setup (w_crypto w') = TRUE) /\
  (crypto_setup (w_crypto w) = TRUE -> r = -1 /\ w_crypto w' = w_crypto w).
Proof.
  intros Hwf. unfold setup_crypto_module. erewrite bind_eq by reflexivity. erewrite bind_eq by reflexivity.
  cbn [w_crypto set_out]. destruct (Z.eqb_spec (crypto_setup (w_crypto w)) TRUE) as [Hs|Hs].
  { intros [= <- <-]. done. }
  destruct method.
  - unfold setup_rand_range. erewrite (bind_eq _ _ _ 0) by reflexivity. cbn -[setup_hardware_acceleration seed_prng].
    set (w1 := set_crypto _ _). assert (H1 : rand_range_pointer (w_crypto w1) = Some fn_rand_range_crypto) by done.
    assert (H2 : crypto_setup (w_crypto w1) <> TRUE) by done. clearbody w1. unfold bind at 1.
    destruct (setup_hardware_acceleration w1) as [a w2| | | |] eqn:Ea; try done.
    apply (keeps_hardware w_crypto) in Ea. rewrite <- Ea in H1, H2.
    destruct (a =? 0); [|destruct (a =? 1)].
    + intros [= <- <-]. split_and!; [by eexists|done|done].
    + do 4 (erewrite bind_eq by reflexivity; cbv beta iota).
      intros Hseed%keeps_seed_prng_crypto. rewrite Hseed. cbn. split_and!; [by intros _; eexists|done|done].
    + intros [= <- <-]. cbn. split_and!; [by intros ?|done|done].
  - intros [= <- <-]. cbn. split_and!; [by eexists|done|done].
Qed.

Lemma setup_crypto_invariant_witness :
  exists w', setup_crypto_module (fun _ => replicate 64 0) CRYPTO (fresh_world [5; 1; 1] []) = Ret 0 w' /\
    crypto_setup (w_crypto w') = TRUE.
Proof.
  eexists. split; [reflexivity|].
  apply (setup_crypto_invariant (fun _ => replicate 64 0) CRYPTO (fresh_world [5; 1; 1] []) 0 _); done.
Defined.

(** ** Descriptors *)

Lemma map_fold_max_ge (fds : gmap Z string) fd s :
  fds !! fd = Some s -> fd <= map_fold (fun fd _ m => Z.max fd m) 2 fds.
Proof.
  revert fds. apply (map_fold_weak_ind (fun r (m : gmap Z string) => m !! fd = Some s -> fd <= r)).
  - by rewrite lookup_empty.
  - intros i x m r Hi IH. destruct (decide (i = fd)) as [->|Hne]; [intros _; lia|].
    rewrite lookup_insert_ne by done. intros ?%IH. lia.
Qed.

Lemma fresh_fd_ge (fds : gmap Z string) : 3 <= fresh_fd fds.
Proof.
  unfold fresh_fd. cut (2 <= map_fold (fun fd (_ : string) m => Z.max fd m) 2 fds); [lia|].
  apply (map_fold_weak_ind (fun r (m : gmap Z string) => 2 <= r)); lia.
Qed.

Lemma fresh_fd_fresh (fds : gmap Z string) : fds !! fresh_fd fds = None.
Proof.
  destruct (fds !! fresh_fd fds) as [s|] eqn:E; [|done]. apply map_fold_max_ge in E.
  unfold fresh_fd in *. lia.
Qed.

(** What [seed_body] does to the table of descriptors. *)
Lemma seed_body_fds H w r h fd b w' :
  seed_body H w = Ret (r, (h, fd, b)) w' ->
  (w_fds w' = w_fds w /\ fd <= 0) \/
  (fd = fresh_fd (w_fds w) /\ w_fds w' = <[fd := "/dev/urandom"]> (w_fds w)).
Proof.
  unfold seed_body. unfold bind at 1. destruct (malloc _ w) as [p w1| | | |] eqn:E1; try done.
  apply (keeps_malloc w_fds) in E1. destruct p as [p|]; [|intros [= <- <- <- <- <-]; by left].
  unfold bind at 1, sys_open at 1. unfold bind at 1, ask at 1.
  destruct (_ <? 0).
  { intros [= <- <- <- <- <-]. left. cbn. by rewrite E1. }
  unfold bind at 1 2 3, gets at 1, modify at 1, ret at 1. cbn -[fresh_fd sys_read sha512 seed_loop RAND_add rand_range].
  set (fd0 := fresh_fd _). set (w2 := set_fds _ _).
  assert (Hfd0 : fd0 = fresh_fd (w_fds w)) by (unfold fd0; by rewrite E1).
  pose proof (fresh_fd_ge (w_fds w)). rewrite (proj2 (Z.ltb_ge fd0 0)) by lia.
  assert (E2 : w_fds w2 = <[fd0 := "/dev/urandom"]> (w_fds w)) by (unfold w2; cbn; by rewrite E1).
  assert (Hk : forall m : M (Z * (ptr * Z * ptr)), keeps w_fds m ->
    (forall w a w', m w = Ret a w' -> a.2.1.2 = fd0) -> m w2 = Ret (r, (h, fd, b)) w' ->
    fd = fresh_fd (w_fds w) /\ w_fds w' = <[fd:="/dev/urandom"]> (w_fds w)).
  { intros m Hkeep Hres Hrun. pose proof (Hres _ _ _ Hrun) as Hfd. cbn in Hfd. subst fd.
    apply Hkeep in Hrun. rewrite Hrun, E2. done. }
  intros Hrun. right. refine (Hk _ _ _ Hrun).
  - unfold printf. keep. all: first [by apply keeps_modify | by apply keeps_seed_loop].
  - clear. intros w a w'. unfold bind, ret, printf, write, modify.
    repeat (case_match; try done). all: intros [= <- <-]; done.
Qed.

(** [seed_prng] gives its descriptor back: whatever the environment
    answers and whichever error path it leaves by, when it returns the table
    of open descriptors is the one it started with. *)
Theorem seed_prng_closes H w r w' :
  (forall fd s, w_fds w !! fd = Some s -> 0 <= fd) ->
  seed_prng H w = Ret r w' -> w_fds w' = w_fds w.
Proof.
  intros Hpos. unfold seed_prng. unfold bind at 1.
  destruct (seed_body H w) as [[r1 [[h fd] b]] w1| | | |] eqn:E; try done.
  apply seed_body_fds in E. unfold bind at 1.
  destruct (cleanup_buf b w1) as [u w2| | | |] eqn:E2; try done.
  assert (F2 : w_fds w2 = w_fds w1).
  { revert E2. unfold cleanup_buf. destruct b; [apply keeps_free_loc, _|by intros [= <- <-]]. }
  unfold bind at 1. unfold close_fd at 1.
  assert (F3 : forall w3, w_fds w3 = w_fds w -> (cleanup_buf h ;;; ret r1) w3 = Ret r w' -> w_fds w' = w_fds w).
  { intros w3 E3 Hrun. rewrite <- E3. revert Hrun. apply keeps_bind; [|intros; apply keeps_ret].
    unfold cleanup_buf. destruct h; [apply keeps_free_loc, _|apply keeps_ret]. }
  destruct (Z.eqb_spec fd 0) as [->|Hne].
  - destruct E as [[E _]|[Hfd _]]; [|pose proof (fresh_fd_ge (w_fds w)); lia].
    apply F3. by rewrite F2.
  - unfold sys_close, bind, emit, modify. cbn -[cleanup_buf]. apply F3. cbn. rewrite F2.
    destruct E as [[-> Hle]|[-> ->]].
    + apply delete_id. destruct (w_fds w !! fd) as [s|] eqn:Efd; [|done]. apply Hpos in Efd. lia.
    + apply delete_insert_id, fresh_fd_fresh.
Qed.

Lemma seed_prng_closes_witness :
  exists w', seed_prng (fun _ => replicate 64 1) (fresh_world [0; 0; 10] []) = Ret (-1) w' /\ w_fds w' = ∅.
Proof.
  eexists. split; [vm_compute; reflexivity|].
  apply (seed_prng_closes (fun _ => replicate 64 1) (fresh_world [0; 0; 10] []) (-1)).
  - intros fd s Hfd. cbn in Hfd. by rewrite lookup_empty in Hfd.
  - vm_compute. reflexivity.
Defined.

(** ** Random bytes *)

Lemma store_at_overflow w l bs off new :
  w_heap w !! l = Some (OBytes bs) -> Z.of_nat (length bs) < off + Z.of_nat (length new) ->
  store_at (Some l) off new w = Crash.
Proof.
  intros Hl Hlt. unfold store_at. erewrite bind_eq by (by apply load_bytes_eq).
  unfold put_at. rewrite (proj2 (Z.leb_gt (off + Z.of_nat (length new)) _)) by done. by rewrite andb_false_r.
Qed.

Lemma put_at_start bs new :
  (length new <= length bs)%nat -> put_at bs 0 new = Some (map Some new ++ drop (length new) bs).
Proof. intros Hle. apply (put_at_end [] bs new Hle). Qed.

Lemma i32_small z : 0 <= z < 2 ^ 31 -> i32 z = z.
Proof.
  intros Hz. unfold i32. rewrite Z.mod_small by lia. by rewrite (proj2 (Z.ltb_lt z (2 ^ 31))) by lia.
Qed.

(** A buffer with room for the bytes and the terminator. *)
Lemma rand_bytes_spec w l bs n :
  w_heap w !! l = Some (OBytes bs) -> (0 < n)%nat -> Z.of_nat n < 2 ^ 31 -> length bs = S n ->
  (hd 0 (w_oracle w) < 0 /\ exists w', env_step w w' /\ rand_bytes (Some l) (Z.of_nat n) w = Ret (-1) w') \/
  (exists raw, length raw = n /\
     rand_bytes (Some l) (Z.of_nat n) w =
       Ret 0 (set_heap (<[l := OBytes (map Some (raw ++ [0]))]> (w_heap w)) (asked (asked w)))).
Proof.
  intros Hl Hn Hlt Hlen. unfold rand_bytes, RAND_bytes. rewrite i32_small by lia.
  rewrite bind_assoc. erewrite bind_eq by reflexivity. destruct (Z.ltb_spec (hd 0 (w_oracle w)) 0).
  - left. split; [done|]. eexists. split; [|reflexivity]. eexists _, _. by destruct w.
  - right. rewrite bind_assoc. erewrite bind_eq by reflexivity.
    rewrite (proj2 (Z.ltb_lt 0 (Z.of_nat n))), Nat2Z.id by lia.
    set (raw := le_bytes n _). assert (Hraw : length raw = n) by apply length_le_bytes.
    set (w2 := set_oracle _ _). rewrite bind_assoc.
    erewrite bind_eq by (eapply store_at_eq; [exact Hl|apply put_at_start; lia]).
    erewrite bind_eq by reflexivity. cbn [Z.eqb Pos.eqb negb]. clearbody raw. subst n.
    erewrite bind_eq by (eapply store_at_eq;
      [apply lookup_insert_eq|apply put_at_end; rewrite length_drop; cbn; lia]).
    exists raw. split; [done|]. cbn.
    rewrite insert_insert_eq, drop_drop, (drop_ge bs) by lia. by rewrite app_nil_r.
Qed.

(** [rand_bytes] writes a terminator behind the bytes it is asked for:
    with a buffer of one byte more it fails without touching the buffer or
    fills it with random bytes and a final NUL; with a buffer of exactly the
    length it is asked for, the terminator is written past the end. *)
Theorem rand_bytes_needs_terminator w l bs n :
  w_heap w !! l = Some (OBytes bs) -> (0 < n)%nat -> Z.of_nat n < 2 ^ 31 ->
  (length bs = S n ->
     exists r w', rand_bytes (Some l) (Z.of_nat n) w = Ret r w' /\
       (r = -1 /\ w_heap w' = w_heap w \/
        r = 0 /\ exists raw, length raw = n /\
          w_heap w' = <[l := OBytes (map Some (raw ++ [0]))]> (w_heap w))) /\
  (length bs = n -> 0 <= hd 0 (w_oracle w) -> rand_bytes (Some l) (Z.of_nat n) w = Crash).
Proof.
  intros Hl Hn Hlt. split.
  - intros Hlen. destruct (rand_bytes_spec w l bs n Hl Hn Hlt Hlen)
      as [(_ & w' & (o & x & ->) & Hr)|(raw & Hraw & Hr)];
      do 2 eexists; (split; [exact Hr|]); [by left|right; split; [done|by exists raw]].
  - intros Hlen Ho. unfold rand_bytes, RAND_bytes. rewrite i32_small by lia.
    rewrite bind_assoc. erewrite bind_eq by reflexivity.
    rewrite (proj2 (Z.ltb_ge (hd 0 (w_oracle w)) 0)) by done.
    rewrite bind_assoc. erewrite bind_eq by reflexivity.
    rewrite (proj2 (Z.ltb_lt 0 (Z.of_nat n))), Nat2Z.id, bind_assoc by lia.
    erewrite bind_eq by (eapply store_at_eq; [exact Hl|apply put_at_start; rewrite length_le_bytes; lia]).
    erewrite bind_eq by reflexivity. cbn [Z.eqb Pos.eqb negb]. apply bind_crash.
    eapply store_at_overflow; [apply lookup_insert_eq|].
    rewrite length_app, length_map, length_drop, length_le_bytes. cbn. lia.
Qed.

Lemma rand_bytes_needs_terminator_witness :
  rand_bytes (Some 1%positive) 4 (set_heap {[1%positive := junk 4]} (fresh_world [0; 7] [])) = Crash.
Proof.
  apply (rand_bytes_needs_terminator (set_heap {[1%positive := junk 4]} (fresh_world [0; 7] [])) 1%positive
    (replicate 4 None) 4); [done|lia|lia|done|cbn; lia].
Defined.
