(* ===== verification/Utils.v ===== *)
(** * Utils: files, names and conversions (utils/utils.c)

    The file functions work on the file system of the world (a map from paths
    to contents, regular files only); the mappings of [mmap] with
    [MAP_SHARED] are views of the file they map. *)

From Stdlib Require Import Ascii.
From S2P Require Import Prelude Types CWorld Memory Realloc Crypto.

(** ** Files *)

Definition lookup_fd (fd : Z) : M string :=
  let! fds := gets w_fds in need (fds !! fd).

(** [open(path, O_RDONLY)]: fails for a file that does not exist. *)
Definition open_rdonly (path : string) : M Z :=
  let! fs := gets w_fs in
  match fs !! path with
  | None => ret (-1)
  | Some _ => sys_open path
  end.

(** [open(path, O_RDWR | O_CREAT | O_TRUNC)]: the file is empty afterwards. *)
Definition open_trunc (path : string) : M Z :=
  let! fd := sys_open path in
  if fd <? 0 then ret (-1)
  else modify (fun w => set_fs (<[path := []]> (w_fs w)) w) ;;; ret fd.

(** [fstat(2)] of a regular file: its size. *)
Definition fstat (fd : Z) : M (option Z) :=
  let! st := ask_status in
  if st <? 0 then ret None
  else
    let! fds := gets w_fds in
    let! fs := gets w_fs in
    ret (path ← fds !! fd; content ← fs !! path; Some (Z.of_nat (length content))).

(** [lseek(fd, off, SEEK_SET)] refuses a negative offset. *)
Definition lseek (off : Z) : M Z :=
  let! st := ask_status in
  ret (if (st <? 0) || (off <? 0) then -1 else off).

(** [write(fd, "", 1)] at offset [off]: one NUL byte, the gap before it reads
    as zeroes. *)
Definition write_nul (fd off : Z) : M Z :=
  let! st := ask_status in
  if st <? 0 then ret (-1)
  else
    let! path := lookup_fd fd in
    modify (fun w => set_fs (alter (fun c => list.resize (Z.to_nat off) 0 c ++ [0]) path (w_fs w)) w) ;;;
    ret 1.

(** [mmap] of a file with [MAP_SHARED]. *)
Definition mmap_file (fd len prot : Z) : M ptr :=
  let! a := ask in
  if (a <? 0) || (len =? 0) then ret NULL
  else
    let! path := lookup_fd fd in
    alloc_obj (OMap path len prot).

(** The first [n] bytes of a buffer or of a mapped file.  Touching a mapping
    past the end of its file raises SIGBUS. *)
Definition buffer_bytes (p : ptr) (n : Z) : M (list Z) :=
  let! o := load p in
  match o with
  | OBytes bs => need (get_bytes bs (Z.to_nat n))
  | OMap path len _ =>
      if len <? n then crash
      else
        let! fs := gets w_fs in
        let! content := need (fs !! path) in
        if decide (Z.to_nat n <= length content)%nat then ret (take (Z.to_nat n) content) else crash
  | _ => crash
  end.

(** Writing the start of a mapped file. *)
Definition write_map (p : ptr) (bs : list Z) : M unit :=
  let! o := load p in
  match o with
  | OMap path len _ =>
      if decide (Z.of_nat (length bs) <= len) then
        let! fs := gets w_fs in
        let! content := need (fs !! path) in
        if decide (length bs <= length content)%nat
        then modify (fun w => set_fs (<[path := bs ++ drop (length bs) content]> (w_fs w)) w)
        else crash
      else crash
  | _ => crash
  end.

Definition READ : Z := 1.

Definition get_file_size (fd : Z) : M (option Z) :=
  let! st := fstat fd in
  match st with
  | None => write ERROR "fstat: %s\n" ;;; ret None
  | Some size => ret (Some size)
  end.

(** Answers the mapping and its size. *)
Definition map_file_in (fd perm : Z) : M (option (ptr * Z)) :=
  let! rtrn := get_file_size fd in
  match rtrn with
  | None => write ERROR "Can't get file size\n" ;;; ret None
  | Some size =>
      let! buf := mmap_file fd size perm in
      match buf with
      | None => write ERROR "mmap: %s\n" ;;; ret None
      | Some _ => ret (Some (buf, size))
      end
  end.

(** The body of [map_file_out] behind the [open]: the return value. *)
Definition map_file_out_body (fd : Z) (buf : ptr) (size : Z) : M Z :=
  let! off := lseek (size - 1) in
  if off =? -1 then write ERROR "lseek: %s\n" ;;; ret (-1)
  else
    let! r := write_nul fd off in
    if negb (r =? 1) then write ERROR "write: %s\n" ;;; ret (-1)
    else
      let! dst := mmap_file fd size 3 in
      match dst with
      | None => write ERROR "mmap: %s\n" ;;; ret (-1)
      | Some _ =>
          let! bs := buffer_bytes buf size in
          write_map dst bs ;;;
          munmap dst size ;;;
          ret 0
      end.

Definition map_file_out (path : string) (buf : ptr) (size : Z) : M Z :=
  let! fd := open_trunc path in
  let! rtrn :=
    (if fd <? 0 then write ERROR "open: %s\n" ;;; ret (-1)
     else map_file_out_body fd buf size) in
  close_fd fd ;;;
  ret rtrn.

(** The body of [copy_file_to] behind the [open]. *)
Definition copy_body (file : Z) (dst : string) : M Z :=
  let! r := map_file_in file READ in
  match r with
  | None => write ERROR "Can't read file to memory\n" ;;; ret (-1)
  | Some (file_buffer, file_size) =>
      let! rtrn := map_file_out dst file_buffer file_size in
      if rtrn <? 0 then
        write ERROR "Can't write file to disk\n" ;;; munmap file_buffer file_size ;;; ret (-1)
      else
        let! rtrn := ask_status in
        if rtrn <? 0 then
          write ERROR "Can't sync file on disk\n" ;;; munmap file_buffer file_size ;;; ret (-1)
        else munmap file_buffer file_size ;;; ret 0
  end.

Definition copy_file_to (src dst : string) : M Z :=
  let! file := open_rdonly src in
  let! rtrn :=
    (if file <? 0 then write ERROR "Can't open file: %s\n" ;;; ret (-1)
     else copy_body file dst) in
  close_fd file ;;;
  ret rtrn.

(** ** Privileges and the machine *)

Definition check_root : M Z :=
  printf "Making sure nextgen has root privileges\n" ;;;
  let! check := ask in
  if check =? 0 then ret 0 else ret (-1).

Definition drop_privileges : M Z :=
  let! rtrn := ask_status in
  if rtrn <? 0 then printf "Can't drop gid: %s\n" ;;; ret (-1)
  else
    let! rtrn := ask_status in
    if rtrn <? 0 then printf "Can't drop uid: %s\n" ;;; ret (-1) else ret 0.

(** The function adds two constants in registers and makes no call. *)
Definition run_syscall (number : Z) (args : list Z) : M Z := ret 0.

(** [sysctl] on the BSDs, [sysconf] on Linux. *)
Definition get_core_count (plat : platform) : M (option Z) :=
  match plat with
  | LINUX => let! n := ask in ret (Some (u32 n))
  | _ =>
      let! rtrn := ask_status in
      if rtrn <? 0 then printf "sysctl: %s\n" ;;; ret None
      else
        let! n := ask in
        let core_count := u32 n in
        ret (Some (if core_count <? 1 then 1 else core_count))
  end.

(** ** Names *)

(** [strrchr(s, c)]: the string from the last occurrence of [c] on. *)
Fixpoint strrchr (s : string) (c : ascii) : option string :=
  match s with
  | EmptyString => None
  | String a s' =>
      match strrchr s' c with
      | Some r => Some r
      | None => if Ascii.eqb a c then Some s else None
      end
  end.

Definition newline : string := String "010"%char "".

Definition get_extension (path : string) : M (option string) :=
  match strrchr path "." with
  | None => printf "Can't find . %s:\n" ;;; ret None
  | Some (String _ ext) =>
      let! r := asprintf (ext +:+ newline) in
      match r with
      | None => printf "Can't alloc extension: %s\n" ;;; ret None
      | Some s => ret (Some s)
      end
  | Some EmptyString => crash
  end.

(** The name is an out-parameter neither function assigns. *)
Definition generate_file_name (name : option string) (extension : string) : M (Z * option string) := ret (0, name).
Definition generate_directory_name (name : option string) : M (Z * option string) := ret (0, name).

(** The string of a text given by its character codes. *)
Definition string_of_codes (cs : list Z) : string :=
  fold_right (fun c s => String (ascii_of_nat (Z.to_nat c)) s) EmptyString cs.

(** ** Strings in the heap *)

Fixpoint codes (s : string) : list Z :=
  match s with
  | EmptyString => []
  | String a s' => Z.of_nat (nat_of_ascii a) :: codes s'
  end.

(** The bytes of a string with the NUL behind it. *)
Definition text_of (s : string) : hobj := OBytes (map Some (codes s ++ [0])).

(** The buffer [asprintf] left a string in (its allocation was asked for
    there). *)
Definition heap_string (s : string) : M ptr := alloc_obj (text_of s).

Definition load_string (p : ptr) : M string := let! s := load_cstr p in ret (string_of_codes s).

(** The string an object holds, where it holds one. *)
Definition string_at (h : gmap loc hobj) (p : ptr) : option string :=
  l ← p; o ← h !! l; match o with OBytes bs => string_of_codes <$> cstr bs | _ => None end.

(** Reading a string answers what is there, or is undefined. *)
Lemma load_string_run p w :
  load_string p w = match string_at (w_heap w) p with Some s => Ret s w | None => Crash end.
Proof.
  unfold load_string, load_cstr, load_bytes, load, string_at, bind, ret, need, crash.
  destruct p as [l|]; [|done]. cbn. destruct (w_heap w !! l) as [o|]; [|done]. cbn.
  destruct o; try done. cbn. by destruct (cstr bs).
Qed.

(** A string stays readable when the heap grows, and when another kind of object
    is overwritten. *)
Lemma string_at_mono h h' p s : h ⊆ h' -> string_at h p = Some s -> string_at h' p = Some s.
Proof.
  intros Hsub. unfold string_at. destruct p as [l|]; [cbn|done]. destruct (h !! l) as [o|] eqn:E; [|done].
  by rewrite (lookup_weaken _ _ _ _ E Hsub).
Qed.

Lemma string_at_insert h p s l o o' :
  h !! l = Some o -> (forall bs, o <> OBytes bs) -> string_at h p = Some s -> string_at (<[l := o']> h) p = Some s.
Proof.
  intros Hl Hno. unfold string_at. destruct p as [x|]; [cbn|done]. destruct (decide (l = x)) as [->|Hne].
  - rewrite Hl. cbn. destruct o; try done. by destruct (Hno bs).
  - by rewrite lookup_insert_ne.
Qed.

Lemma string_app_cons a (p s : string) : String a p +:+ s = String a (p +:+ s).
Proof. done. Qed.

Lemma string_app_assoc (a b c : string) : (a +:+ b) +:+ c = a +:+ b +:+ c.
Proof. induction a as [|x a IH]; [done|]. by rewrite !string_app_cons, IH. Qed.

Lemma length_string_app (a b : string) : String.length (a +:+ b) = (String.length a + String.length b)%nat.
Proof. induction a as [|x a IH]; [done|]. rewrite string_app_cons. cbn. by rewrite IH. Qed.

Lemma string_app_nil_r (s : string) : s +:+ "" = s.
Proof. induction s as [|a s IH]; [done|]. by rewrite string_app_cons, IH. Qed.

Section names.
(** [PATH_MAX] is the platform's. *)
Context (SHA256 : list Z -> list Z) (PATH_MAX : Z).

(** The last part of [generate_name], on the hash in [tmp_buf]. *)
Definition make_name (tmp_buf : ptr) (extension : option string) (type : name_type) : M (Z * option string) :=
  match type with
  | DIR_NAME =>
      let! text := load_cstr tmp_buf in
      let! r := asprintf (string_of_codes text) in
      match r with
      | None => printf "Can't create dir path: %s\n" ;;; ret (-1, None)
      | Some s => ret (0, Some s)
      end
  | FILE_NAME =>
      let! extension := need extension in
      match strrchr extension "." with
      | None =>
          let! ext := asprintf ("." +:+ extension) in
          match ext with
          | None => printf "Can't create extension string\n" ;;; ret (-1, None)
          | Some ext =>
              let! text := load_cstr tmp_buf in
              let! r := asprintf (string_of_codes text +:+ ext) in
              match r with
              | None => printf "Can't create file path: %s\n" ;;; ret (-1, None)
              | Some s => ret (0, Some s)
              end
          end
      | Some _ =>
          let! text := load_cstr tmp_buf in
          let! r := asprintf (string_of_codes text +:+ extension) in
          match r with
          | None => printf "Can't create file path: %s\n" ;;; ret (-1, None)
          | Some s => ret (0, Some s)
          end
      end
  end.

(** The name is answered instead of written through the pointer. *)
Definition generate_name (extension : option string) (type : name_type) : M (Z * option string) :=
  if bool_decide (extension = None) && negb (bool_decide (type = DIR_NAME)) then
    printf "File extension is NULL\n" ;;; ret (-1, None)
  else
    let! random_data := malloc (junk (PATH_MAX + 1)) in
    match random_data with
    | None => printf "Can't Allocate Space\n" ;;; ret (-1, None)
    | Some _ =>
        let! rtrn := rand_bytes random_data PATH_MAX in
        if rtrn <? 0 then
          printf "Can't get random bytes\n" ;;; cleanup_buf random_data ;;; ret (-1, None)
        else
          store_at random_data PATH_MAX [0] ;;;
          let! '(rtrn, tmp_buf) := sha256 SHA256 random_data NULL in
          if rtrn <? 0 then
            printf "Can't Hash Random Data\n" ;;;
            cleanup_buf tmp_buf ;;; cleanup_buf random_data ;;; ret (-1, None)
          else
            let! r := make_name tmp_buf extension type in
            cleanup_buf tmp_buf ;;; cleanup_buf random_data ;;; ret r
    end.
End names.

(** ** Conversions *)

(** [for(b = 0x80; b; b >>= 1) *o++ = ch & b ? '1' : '0']. *)
Definition byte_bits (ch : Z) : list Z :=
  map (fun b => if Z.land ch b =? 0 then 48 else 49) [128; 64; 32; 16; 8; 4; 2; 1].

(** [8 * i] is a product of 32-bit integers. *)
Fixpoint binary_loop (out : ptr) (i : Z) (input : list Z) : M unit :=
  match input with
  | [] => ret tt
  | ch :: input' => store_at out (u32 (8 * i)) (byte_bits ch) ;;; binary_loop out (i + 1) input'
  end.

(** The first [input_len] bytes of [input] become the buffer left in [*out];
    [*out_len] is answered with it.  The index of the loop has 32 bits and never
    reaches a longer length. *)
Definition ascii_to_binary (input : ptr) (input_len : Z) : M (Z * ptr * Z) :=
  if input_len =? 0 then printf "Length argument is zero\n" ;;; ret (-1, NULL, 0)
  else
    let out_len := u64 (input_len * 8) in
    let! out := malloc (junk (u64 (out_len + 1))) in
    match out with
    | None => printf "Can't allocate binary string\n" ;;; ret (-1, NULL, out_len)
    | Some _ =>
        let! bs := load_bytes input in
        let! chars := need (get_bytes bs (Z.to_nat input_len)) in
        binary_loop out 0 chars ;;;
        (if input_len <? 2 ^ 32 then ret tt else spin) ;;;
        store_at out out_len [0] ;;;
        ret (0, out, out_len)
    end.

(** The conversion back is not written: the buffer is allocated and
    terminated, its contents stay indeterminate. *)
Definition binary_to_ascii (input : ptr) (input_len : Z) : M (Z * ptr * Z) :=
  if input_len =? 0 then printf "Input length is zero\n" ;;; ret (-1, NULL, 0)
  else
    let out_len := input_len / 8 in
    let! out := malloc (junk (out_len + 1)) in
    match out with
    | None => printf "Can't allocate binary string\n" ;;; ret (-1, NULL, out_len)
    | Some _ => store_at out out_len [0] ;;; ret (0, out, out_len)
    end.

(** ** Random files *)

(** What [asprintf] prints for a [char *] that can be [NULL]. *)
Definition show_str (s : option string) : string := default "(null)"%string s.

(** The return value, the path left in [*path] and the size left in [*size].
    [size] is passed as the address of a 32-bit integer, so a draw replaces
    the low half of [*size]. *)
Definition create_random_file (root ext : string) (size : Z) (random : random_generator)
    (allocator : memory_allocator) : M (Z * option string * Z) :=
  let! extension :=
    (match strrchr ext "." with
     | None => let! e := asprintf ("." +:+ ext) in ret e
     | Some _ => ret (Some ext)
     end) in
  match extension with
  | None => write ERROR "Can't create extension string\n" ;;; ret (-1, None, size)
  | Some extension =>
      let! '(rtrn, name) := generate_file_name None extension in
      if rtrn <? 0 then write ERROR "Can't generate random file name\n" ;;; ret (-1, None, size)
      else
        let! path := asprintf (root +:+ "/" +:+ show_str name) in
        match path with
        | None => write ERROR "Can't join paths: %s\n" ;;; ret (-1, None, size)
        | Some path =>
            let! f := need (range random) in
            let! r := f 4095 in
            match r with
            | None => write ERROR "Can't choose random number\n" ;;; ret (-1, Some path, size)
            | Some n =>
                let size := u64 (size - u32 size + n + 1) in
                let! junk_buf := alloc allocator (junk (u64 (size + 1))) in
                match junk_buf with
                | None => write ERROR "Can't alloc junk buf: %s\n" ;;; ret (-1, Some path, size)
                | Some _ =>
                    let! g := need (bytes random) in
                    let! rtrn := g junk_buf (u32 size) in
                    if rtrn <? 0 then
                      write ERROR "Can't alloc junk buf: %s\n" ;;;
                      cleanup_buf junk_buf ;;; ret (-1, Some path, size)
                    else
                      let! rtrn := map_file_out path junk_buf size in
                      if rtrn <? 0 then
                        write ERROR "Can't write junk to disk\n" ;;;
                        cleanup_buf junk_buf ;;; ret (-1, Some path, size)
                      else cleanup_buf junk_buf ;;; ret (0, Some path, size)
                end
            end
        end
  end.

(** ** Random names *)

(** The extension with a dot in front of it, unless it has one. *)
Definition dotted (ext : string) : string :=
  match strrchr ext "." with None => "." +:+ ext | Some _ => ext end.

Lemma asprintf_ok w s : oracle_ok w -> asprintf s w = Ret (Some s) (asked w).
Proof. intros Ho. unfold asprintf, bind, ask, ret. by rewrite oracle_ok_hd. Qed.

Lemma make_name_ok w l cs ext :
  oracle_ok w -> w_heap w !! l = Some (OBytes (map Some (cs ++ [0]))) -> Forall (fun c => c <> 0) cs ->
  exists o, Forall (fun a => 0 <= a) o /\
    make_name (Some l) (Some ext) FILE_NAME w = Ret (0, Some (string_of_codes cs +:+ dotted ext)) (set_oracle o w).
Proof.
  intros Ho Hl Hcs. rewrite map_app in Hl.
  assert (Hload : forall w', w_heap w' = w_heap w -> load_cstr (Some l) w' = Ret cs w').
  { intros w' Hw. unfold load_cstr. erewrite bind_eq by (apply load_bytes_eq; rewrite Hw; exact Hl). cbn [map].
    by rewrite cstr_text. }
  unfold make_name, dotted. cbn [need]. erewrite bind_eq by reflexivity. destruct (strrchr ext ".").
  - erewrite bind_eq by (by apply Hload). erewrite bind_eq by (by apply asprintf_ok).
    eexists. split; [exact (oracle_ok_tl _ Ho)|reflexivity].
  - erewrite bind_eq by (by apply asprintf_ok). cbv beta iota. erewrite bind_eq by (by apply Hload).
    erewrite bind_eq by (apply asprintf_ok; exact (oracle_ok_tl _ Ho)).
    eexists. split; [exact (oracle_ok_tl _ (oracle_ok_tl _ Ho))|reflexivity].
Qed.

(** With an environment that grants everything the name is the hexadecimal
    text of a digest and the extension, and both buffers are freed again. *)
Lemma generate_name_ok SHA256 PATH_MAX w ext :
  (forall s, length (SHA256 s) = 32%nat /\ Forall is_byte (SHA256 s)) -> 0 < PATH_MAX < 2 ^ 31 ->
  oracle_ok w -> heap_wf w ->
  exists digest o n, length digest = 32%nat /\ Forall (fun a => 0 <= a) o /\ (w_next w <= n)%positive /\
    generate_name SHA256 PATH_MAX (Some ext) FILE_NAME w =
      Ret (0, Some (string_of_codes (hex_text digest) +:+ dotted ext)) (set_next n (set_oracle o w)).
Proof.
  intros HH Hmax Ho Hwf. unfold generate_name. rewrite bool_decide_eq_false_2 by done. cbn [andb].
  set (l := w_next w). assert (Hl0 : w_heap w !! l = None) by (apply Hwf; lia).
  erewrite bind_eq by (by apply malloc_ok). cbv beta iota. fold l. set (w1 := granted _ w).
  assert (Ho1 : oracle_ok w1) by (exact (oracle_ok_tl _ Ho)).
  destruct (rand_bytes_spec w1 l (replicate (Z.to_nat (PATH_MAX + 1)) None) (Z.to_nat PATH_MAX)) as
    [[Hbad _]|(raw & Hraw & Hr)]; [apply lookup_insert_eq|lia|lia|rewrite length_replicate; lia| |].
  { pose proof (answers_hd _ Ho1). lia. }
  rewrite Z2Nat.id in Hr by lia. erewrite bind_eq by exact Hr. cbv beta. cbn [Z.ltb Z.compare].
  set (w2 := set_heap _ (asked (asked w1))).
  assert (Hl2 : w_heap w2 !! l = Some (OBytes (map Some (raw ++ [0])))) by (cbn; apply lookup_insert_eq).
  erewrite bind_eq.
  2: { eapply store_at_eq; [exact Hl2|]. rewrite map_app. replace PATH_MAX with (Z.of_nat (length raw)) by lia.
       apply put_at_end. done. }
  cbn [length drop map]. rewrite app_nil_r, insert_id by exact Hl2. replace (set_heap (w_heap w2) w2) with w2 by (by destruct w2).
  destruct (cstr_terminated raw) as [s Hs]. destruct (HH s) as [Hlen Hbytes].
  assert (Ho2 : oracle_ok w2) by exact (oracle_ok_tl _ (oracle_ok_tl _ Ho1)).
  assert (Hwf2 : heap_wf w2).
  { intros x Hx. cbn in *. rewrite !lookup_insert_ne by (unfold l; lia). apply Hwf. lia. }
  assert (Hsha : sha256 SHA256 (Some l) NULL w2 =
    Ret (0, Some (w_next w2)) (granted (OBytes (map Some (hex_text (SHA256 s) ++ [0]))) w2)).
  { rewrite sha256_hex. eapply hex_hash_spec; [by apply answers_hd|done|exact Hl2|exact Hs|done]. }
  erewrite bind_eq by exact Hsha. cbv beta iota. cbn [Z.ltb Z.compare]. set (w3 := granted _ w2). set (t := w_next w2).
  destruct (make_name_ok w3 t (hex_text (SHA256 s)) ext) as (o & Hpos & Hmake).
  - exact (oracle_ok_tl _ Ho2).
  - apply lookup_insert_eq.
  - by apply hex_text_nonzero.
  - erewrite bind_eq by exact Hmake. exists (SHA256 s), o, (w_next w3).
    split_and!; [done|done|cbn; lia|].
    assert (Hfree : forall x w', is_Some (w_heap w' !! x) -> cleanup_buf (Some x) w' = Ret tt (set_heap (delete x (w_heap w')) w')).
    { intros x w' [ob Hx]. unfold cleanup_buf, free_loc. by rewrite Hx. }
    assert (Htl : t <> l) by (unfold t, l; cbn; lia).
    erewrite bind_eq by (apply Hfree; cbn; rewrite lookup_insert_eq; by eexists).
    erewrite bind_eq.
    2: { apply Hfree. cbn. rewrite lookup_delete_ne, lookup_insert_ne, lookup_insert_eq by done. by eexists. }
    unfold ret. f_equal. cbn. rewrite delete_insert_id.
    2: { cbn. rewrite !lookup_insert_ne by (unfold l; lia). apply Hwf. lia. }
    rewrite insert_insert_eq, delete_insert_id by done. by destruct w.
Qed.

(** ** Copying a file *)

Lemma sys_open_ok w path :
  oracle_ok w ->
  sys_open path w =
    Ret (fresh_fd (w_fds w)) (set_fds (<[fresh_fd (w_fds w) := path]> (w_fds w)) (asked w)).
Proof. intros Ho. unfold sys_open, bind, ask. by rewrite oracle_ok_hd. Qed.

Lemma ask_status_ok w : oracle_ok w -> ask_status w = Ret 0 (asked w).
Proof. intros Ho. unfold ask_status, bind, ask, ret. by rewrite oracle_ok_hd. Qed.

Lemma mmap_file_ok w fd path len prot :
  oracle_ok w -> len <> 0 -> w_fds w !! fd = Some path ->
  mmap_file fd len prot w = Ret (Some (w_next w)) (granted (OMap path len prot) w).
Proof.
  intros Ho Hlen%Z.eqb_neq Hfd. unfold mmap_file, lookup_fd, bind, ask, gets.
  rewrite oracle_ok_hd, Hlen by done. cbn. by rewrite Hfd.
Qed.

Lemma map_file_in_ok w fd path content perm :
  oracle_ok w -> content <> [] -> w_fds w !! fd = Some path -> w_fs w !! path = Some content ->
  let size := Z.of_nat (length content) in
  map_file_in fd perm w = Ret (Some (Some (w_next w), size)) (granted (OMap path size perm) (asked w)).
Proof.
  intros Ho Hne Hfd Hfs size. unfold map_file_in, get_file_size, fstat.
  rewrite !bind_assoc. erewrite bind_eq by (by apply ask_status_ok). cbn.
  rewrite !bind_assoc. erewrite bind_eq by reflexivity. rewrite bind_assoc. erewrite bind_eq by reflexivity.
  cbn. rewrite Hfd. cbn. rewrite Hfs. cbn. erewrite bind_eq by reflexivity. cbn.
  erewrite bind_eq by reflexivity. cbn -[mmap_file].
  erewrite bind_eq by (apply mmap_file_ok; [by apply oracle_ok_tl|destruct content; [done|cbn; lia]|exact Hfd]).
  done.
Qed.

(** The world after the new file has been written, before it is closed. *)
Lemma map_file_out_body_ok w fd path buf size bs :
  oracle_ok w -> heap_wf w -> w_fds w !! fd = Some path -> w_fs w !! path = Some [] ->
  size = Z.of_nat (length bs) -> bs <> [] ->
  (forall w', w_heap w' = <[w_next w := OMap path size 3]> (w_heap w) ->
     (forall q, q <> path -> w_fs w' !! q = w_fs w !! q) -> buffer_bytes buf size w' = Ret bs w') ->
  exists o, Forall (fun a => 0 <= a) o /\
    map_file_out_body fd buf size w =
      Ret 0 (set_next (Pos.succ (w_next w)) (set_fs (<[path := bs]> (w_fs w)) (set_oracle o w))).
Proof.
  intros Ho Hwf Hfd Hfs Hsize Hne Hbuf. assert (0 < size) by (destruct bs; [done|cbn in Hsize; lia]).
  unfold map_file_out_body, lseek. rewrite bind_assoc. erewrite bind_eq by (by apply ask_status_ok).
  erewrite bind_eq by reflexivity. cbn -[write_nul mmap_file]. rewrite (proj2 (Z.ltb_ge (size - 1) 0)) by lia.
  rewrite (proj2 (Z.eqb_neq (size - 1) (-1))) by lia.
  set (w1 := asked w). assert (Ho1 : oracle_ok w1) by (by apply oracle_ok_tl).
  unfold write_nul, lookup_fd. rewrite bind_assoc. erewrite bind_eq by (by apply ask_status_ok). cbn -[mmap_file].
  rewrite !bind_assoc. erewrite bind_eq by reflexivity. cbn -[mmap_file]. rewrite Hfd. cbn -[mmap_file].
  erewrite bind_eq by reflexivity. rewrite bind_assoc. erewrite bind_eq by reflexivity.
  erewrite bind_eq by reflexivity. cbn -[mmap_file].
  set (w2 := set_fs _ _). assert (Ho2 : oracle_ok w2) by (exact (oracle_ok_tl _ Ho1)).
  erewrite bind_eq by (apply mmap_file_ok; [exact Ho2|lia|exact Hfd]). cbv beta iota.
  set (w3 := granted _ w2).
  assert (Hfs2 : w_fs w2 = <[path := replicate (length bs) 0]> (w_fs w)).
  { unfold w2. cbn. apply map_eq. intros q. destruct (decide (q = path)) as [->|Hq].
    - rewrite lookup_alter_eq, lookup_insert_eq, Hfs. cbn. f_equal. rewrite resize_nil.
      replace (length bs) with (S (Z.to_nat (size - 1))) by lia. by rewrite <- replicate_S_end.
    - by rewrite lookup_alter_ne, lookup_insert_ne by done. }
  assert (Hbytes : buffer_bytes buf size w3 = Ret bs w3).
  { apply Hbuf; [done|]. intros q Hq. change (w_fs w3) with (w_fs w2). rewrite Hfs2.
    by rewrite lookup_insert_ne. }
  erewrite bind_eq by exact Hbytes.
  erewrite bind_eq.
  2: { unfold write_map. erewrite bind_eq by (apply load_eq; apply lookup_insert_eq). cbv beta iota.
       rewrite decide_True by lia. erewrite bind_eq by reflexivity.
       change (w_fs w3) with (w_fs w2). rewrite Hfs2, lookup_insert_eq. erewrite bind_eq by reflexivity.
       rewrite decide_True by (rewrite length_replicate; lia).
       rewrite drop_ge, app_nil_r by (rewrite length_replicate; lia). reflexivity. }
  erewrite bind_eq by (eapply munmap_eq; [apply lookup_insert_eq|cbn; lia|lia]).
  exists (tl (w_oracle w2)). split; [exact (oracle_ok_tl _ Ho2)|]. unfold ret. f_equal.
  assert (Hd : delete (w_next w) (w_heap w3) = w_heap w)
    by (apply delete_insert_id, Hwf, Pos.le_refl).
  assert (Hi : <[path := bs]> (w_fs w2) = <[path := bs]> (w_fs w)) by (by rewrite Hfs2, insert_insert_eq).
  change (w_heap (set_fs _ w3)) with (w_heap w3). change (w_next w2) with (w_next w). rewrite Hd.
  change (w_fs w3) with (w_fs w2). rewrite Hi. unfold w3, w2, w1. by destruct w.
Qed.

Lemma map_file_out_ok w path buf size bs :
  oracle_ok w -> heap_wf w -> size = Z.of_nat (length bs) -> bs <> [] ->
  (forall w', w_heap w' = <[w_next w := OMap path size 3]> (w_heap w) ->
     (forall q, q <> path -> w_fs w' !! q = w_fs w !! q) -> buffer_bytes buf size w' = Ret bs w') ->
  exists w', map_file_out path buf size w = Ret 0 w' /\ oracle_ok w' /\
    w_heap w' = w_heap w /\ w_fds w' = w_fds w /\ w_fs w' = <[path := bs]> (w_fs w) /\
    (w_next w <= w_next w')%positive /\ w_modes w' = w_modes w /\ w_mods w' = w_mods w.
Proof.
  intros Ho Hwf Hsize Hne Hbuf. unfold map_file_out, open_trunc.
  rewrite bind_assoc. erewrite bind_eq by (by apply sys_open_ok).
  set (fd := fresh_fd (w_fds w)). pose proof (fresh_fd_ge (w_fds w)) as Hge. fold fd in Hge.
  cbv beta. rewrite (proj2 (Z.ltb_ge fd 0)) by lia. rewrite bind_assoc. erewrite bind_eq by reflexivity.
  erewrite bind_eq by reflexivity. cbv beta. rewrite (proj2 (Z.ltb_ge fd 0)) by lia.
  set (w1 := set_fs _ _). destruct (map_file_out_body_ok w1 fd path buf size bs) as (o & Hpos & Hrun).
  - exact (oracle_ok_tl _ Ho).
  - exact Hwf.
  - apply lookup_insert_eq.
  - apply lookup_insert_eq.
  - done.
  - done.
  - intros w' Hh Hq. apply Hbuf; [done|]. intros q Hq'. rewrite Hq by done. cbn. by rewrite lookup_insert_ne.
  - erewrite bind_eq by exact Hrun. unfold close_fd. rewrite (proj2 (Z.eqb_neq fd 0)) by lia.
    unfold sys_close. rewrite !bind_assoc. erewrite bind_eq by reflexivity. erewrite bind_eq by reflexivity.
    eexists. split; [reflexivity|]. cbn. split_and!; [done|done| |by rewrite insert_insert_eq|lia|done|done].
    apply delete_insert_id, fresh_fd_fresh.
Qed.

(** (C35) Copying: with an environment that grants every call, [copy_file_to]
    from a non-empty file to another path returns 0 and leaves the
    destination with exactly the source's contents, every other file as it
    was, no descriptor open and no mapping behind. *)
Theorem copy_file_to_correct w src dst content :
  oracle_ok w -> heap_wf w -> src <> dst -> w_fs w !! src = Some content -> content <> [] ->
  exists w', copy_file_to src dst w = Ret 0 w' /\
    w_fs w' = <[dst := content]> (w_fs w) /\ w_fds w' = w_fds w /\ w_heap w' = w_heap w.
Proof.
  intros Ho Hwf Hsd Hsrc Hne. set (size := Z.of_nat (length content)).
  assert (Hpos : 0 < size) by (unfold size; destruct content; [done|cbn; lia]).
  unfold copy_file_to, open_rdonly. rewrite bind_assoc. erewrite bind_eq by reflexivity. cbv beta. rewrite Hsrc.
  erewrite bind_eq by (by apply sys_open_ok).
  set (fd := fresh_fd (w_fds w)). pose proof (fresh_fd_ge (w_fds w)) as Hge. fold fd in Hge. cbv beta.
  rewrite (proj2 (Z.ltb_ge fd 0)) by lia. set (w1 := set_fds _ _).
  assert (Ho1 : oracle_ok w1) by (exact (oracle_ok_tl _ Ho)).
  unfold copy_body. rewrite !bind_assoc. erewrite bind_eq.
  2: { apply (map_file_in_ok w1 fd src content READ); [done|done|apply lookup_insert_eq|exact Hsrc]. }
  cbv beta iota. fold size. set (m := w_next w1). set (w2 := granted _ _).
  destruct (map_file_out_ok w2 dst (Some m) size content) as (w3 & Hout & Ho3 & Hh3 & Hfd3 & Hfs3 & _).
  - apply oracle_ok_granted. by apply oracle_ok_tl.
  - by apply heap_wf_granted.
  - done.
  - done.
  - intros w' Hh Hq. unfold buffer_bytes. erewrite bind_eq.
    2: { apply load_eq. rewrite Hh, lookup_insert_ne by (cbn; lia). apply lookup_insert_eq. }
    cbv beta iota. rewrite Z.ltb_irrefl. erewrite bind_eq by reflexivity. cbv beta.
    rewrite Hq by done. change (w_fs w2) with (w_fs w). rewrite Hsrc. erewrite bind_eq by reflexivity.
    unfold size. rewrite Nat2Z.id, decide_True, take_ge by lia. done.
  - rewrite bind_assoc. erewrite bind_eq by exact Hout. cbv beta. rewrite (proj2 (Z.ltb_ge 0 0)) by lia.
    rewrite bind_assoc. erewrite bind_eq by (by apply ask_status_ok). cbv beta. rewrite (proj2 (Z.ltb_ge 0 0)) by lia.
    rewrite bind_assoc. erewrite bind_eq.
    2: { eapply munmap_eq; [cbn; rewrite Hh3; apply lookup_insert_eq|cbn; lia|lia]. }
    erewrite bind_eq by reflexivity. unfold close_fd. rewrite (proj2 (Z.eqb_neq fd 0)) by lia.
    unfold sys_close. rewrite !bind_assoc. erewrite bind_eq by reflexivity. erewrite bind_eq by reflexivity.
    eexists. split; [reflexivity|]. cbn. rewrite Hfs3, Hfd3, Hh3. cbn. split_and!; [done| |].
    + apply delete_insert_id, fresh_fd_fresh.
    + apply delete_insert_id, Hwf, Pos.le_refl.
Qed.

Lemma copy_file_to_correct_witness :
  exists w', copy_file_to "a" "b" (set_fs {["a"%string := [104; 105]]} (fresh_world [] [])) = Ret 0 w' /\
    w_fs w' = <["b"%string := [104; 105]]> {["a"%string := [104; 105]]}.
Proof.
  destruct (copy_file_to_correct (set_fs {["a"%string := [104; 105]]} (fresh_world [] [])) "a" "b" [104; 105])
    as (w' & H1 & H2 & _); [apply (fresh_world_ok [] []); constructor|apply (fresh_world_ok [] []); constructor
                           |done|done|done|].
  by exists w'.
Defined.

(** ** Binary strings *)

(** The integer a string of eight binary digits stands for. *)
Definition bits_value (bits : list Z) : Z := fold_left (fun acc b => 2 * acc + (b - 48)) bits 0.

Fixpoint unbinary (n : nat) (cs : list Z) : list Z :=
  match n with
  | O => []
  | S n' => bits_value (take 8 cs) :: unbinary n' (drop 8 cs)
  end.

Definition binary_text (chars : list Z) : list Z := concat (map byte_bits chars).

(** The digit for a mask is the bit at the mask's position. *)
Lemma bit_digit ch n :
  0 <= n -> (if Z.land ch (2 ^ n) =? 0 then 48 else 49) - 48 = (ch / 2 ^ n) mod 2.
Proof.
  intros Hn. rewrite <- (Z.testbit_spec' ch n Hn).
  assert (Hland : Z.land ch (2 ^ n) = if Z.testbit ch n then 2 ^ n else 0).
  { apply Z.bits_inj'. intros m Hm. rewrite Z.land_spec, Z.pow2_bits_eqb by done.
    destruct (Z.eqb_spec n m) as [<-|Hne].
    - rewrite andb_true_r. destruct (Z.testbit ch n); [by rewrite Z.pow2_bits_true|by rewrite Z.bits_0].
    - rewrite andb_false_r. destruct (Z.testbit ch n); [by rewrite Z.pow2_bits_false|by rewrite Z.bits_0]. }
  rewrite Hland. destruct (Z.testbit ch n); [|done].
  rewrite (proj2 (Z.eqb_neq (2 ^ n) 0)); [done|]. pose proof (Z.pow_pos_nonneg 2 n). lia.
Qed.

Lemma bits_value_byte ch : 0 <= ch < 256 -> bits_value (byte_bits ch) = ch.
Proof.
  intros Hch. change (byte_bits ch) with
    (map (fun n => if Z.land ch (2 ^ n) =? 0 then 48 else 49) [7; 6; 5; 4; 3; 2; 1; 0]).
  unfold bits_value. cbn [map fold_left].
  rewrite (bit_digit ch 7), (bit_digit ch 6), (bit_digit ch 5), (bit_digit ch 4), (bit_digit ch 3),
    (bit_digit ch 2), (bit_digit ch 1), (bit_digit ch 0) by lia.
  Z.div_mod_to_equations. lia.
Qed.

Lemma unbinary_text chars :
  Forall (fun c => 0 <= c < 256) chars -> unbinary (length chars) (binary_text chars) = chars.
Proof.
  induction 1 as [|c chars Hc _ IH]; [done|]. cbn [length unbinary]. unfold binary_text. cbn [map concat].
  rewrite take_app_length', drop_app_length' by done. rewrite bits_value_byte by done. f_equal. exact IH.
Qed.

Lemma length_binary_text chars : length (binary_text chars) = (8 * length chars)%nat.
Proof. induction chars as [|c chars IH]; [done|]. unfold binary_text in *. cbn in *. lia. Qed.

Lemma binary_loop_spec l chars : forall w pre rest,
  w_heap w !! l = Some (OBytes (map Some pre ++ rest)) -> (8 * length chars <= length rest)%nat ->
  forall i, Z.of_nat (length pre) = 8 * i -> 0 <= i /\ i + Z.of_nat (length chars) <= 2 ^ 29 ->
  binary_loop (Some l) i chars w =
    Ret tt (set_heap (<[l := OBytes (map Some (pre ++ binary_text chars) ++ drop (8 * length chars) rest)]> (w_heap w)) w).
Proof.
  induction chars as [|c chars IH]; intros w pre rest Hl Hlen i Hi Hb.
  - cbn. rewrite app_nil_r, drop_0, insert_id by done. by destruct w.
  - cbn [length] in Hlen, Hb. cbn [binary_loop]. rewrite u32_small, <- Hi by lia.
    erewrite bind_eq by (eapply store_at_eq; [exact Hl|apply put_at_end; cbn; lia]).
    rewrite (IH _ (pre ++ byte_bits c) (drop 8 rest)).
    + replace (8 * length (c :: chars))%nat with (8 + 8 * length chars)%nat by (cbn; lia).
      rewrite drop_drop, <- app_assoc. cbn [w_heap set_heap]. by rewrite insert_insert_eq.
    + apply lookup_insert_eq.
    + rewrite length_drop. lia.
    + rewrite length_app, Nat2Z.inj_add, Hi. cbn -[Z.mul]. lia.
    + lia.
Qed.

(** [ascii_to_binary] on [n] bytes, at most 2^29, allocates [8 * n + 1] bytes, fills
    them exactly with the text of [8 * n] binary digits and a final NUL, and
    reading the digits back in groups of eight gives the bytes. *)
Theorem ascii_to_binary_roundtrip w l bs chars :
  oracle_ok w -> heap_wf w -> w_heap w !! l = Some (OBytes bs) -> chars <> [] ->
  get_bytes bs (length chars) = Some chars -> Forall (fun c => 0 <= c < 256) chars ->
  Z.of_nat (length chars) <= 2 ^ 29 ->
  exists w', ascii_to_binary (Some l) (Z.of_nat (length chars)) w =
      Ret (0, Some (w_next w), 8 * Z.of_nat (length chars)) w' /\
    w_heap w' !! w_next w = Some (OBytes (map Some (binary_text chars ++ [0]))) /\
    Forall (fun c => c = 48 \/ c = 49) (binary_text chars) /\
    length (binary_text chars) = (8 * length chars)%nat /\
    unbinary (length chars) (binary_text chars) = chars.
Proof.
  intros Ho Hwf Hl Hne Hget Hb Hlt. unfold ascii_to_binary. set (n := Z.of_nat (length chars)).
  assert (Hn : 0 < n) by (unfold n; destruct chars; [done|cbn; lia]).
  rewrite (proj2 (Z.eqb_neq n 0)), (u64_small (n * 8)), u64_small by lia.
  erewrite bind_eq by (by apply malloc_ok). cbv beta iota.
  pose proof (heap_wf_lt _ _ _ Hwf Hl). set (w1 := granted _ w).
  erewrite bind_eq by (eapply load_bytes_eq; cbn; rewrite lookup_insert_ne by lia; exact Hl).
  unfold n. rewrite Nat2Z.id, Hget. erewrite bind_eq by reflexivity. fold n. cbv beta.
  erewrite bind_eq.
  2: { apply (binary_loop_spec _ _ w1 [] (replicate (Z.to_nat (n * 8 + 1)) None)).
       - apply lookup_insert_eq.
       - rewrite length_replicate. unfold n. lia.
       - done.
       - unfold n in *. lia. }
  rewrite (proj2 (Z.ltb_lt n (2 ^ 32))) by (unfold n; lia). erewrite bind_eq by reflexivity.
  rewrite drop_replicate. cbn [app].
  erewrite bind_eq.
  2: { eapply store_at_eq; [apply lookup_insert_eq|].
       etrans; [refine (f_equal (fun off => put_at _ off _) _)|apply put_at_end].
       - rewrite length_binary_text. unfold n. lia.
       - rewrite length_replicate. cbn [length]. unfold n. lia. }
  eexists. split; [unfold ret; rewrite Z.mul_comm; reflexivity|]. cbn -[map]. rewrite lookup_insert_eq.
  rewrite drop_replicate. cbn [length].
  match goal with |- context [replicate ?k None] => replace k with 0%nat by (unfold n; lia) end.
  cbn [replicate]. rewrite app_nil_r. split_and!; [done| |rewrite length_binary_text; lia|by apply unbinary_text].
  unfold binary_text. apply Forall_concat, Forall_fmap, Forall_true. intros c. unfold byte_bits. cbn.
  repeat (apply Forall_cons; split; [destruct (_ =? 0); auto|]). by apply Forall_nil.
Qed.

Lemma ascii_to_binary_roundtrip_witness :
  exists w', ascii_to_binary (Some 1%positive) 2 hash_world = Ret (0, Some 2%positive, 16) w'.
Proof.
  destruct (ascii_to_binary_roundtrip hash_world 1%positive [Some 97; Some 98; Some 0; None] [97; 98])
    as (w' & H & _); [constructor| |done|done|done|repeat constructor; lia|cbn; lia|by exists w'].
  intros l Hl. cbn in *. by rewrite lookup_singleton_ne by lia.
Defined.

(** ** The default random generator and random files *)

(** A function that always returns, and one that never returns success. *)
Definition returns {A} (m : M A) : Prop := forall w, exists a w', m w = Ret a w'.
Definition never_succeeds (m : M (Z * option string * Z)) : Prop :=
  forall w, match m w with Ret (r, _, _) _ => r = -1 | Crash => True | _ => False end.

Lemma never_succeeds_bind {A} (m : M A) k :
  returns m -> (forall a, never_succeeds (k a)) -> never_succeeds (bind m k).
Proof. intros Hm Hk w. destruct (Hm w) as (a & w' & H). rewrite (bind_eq _ _ _ _ _ H). apply Hk. Qed.

Lemma returns_bind {A B} (m : M A) (k : A -> M B) :
  returns m -> (forall a, returns (k a)) -> returns (bind m k).
Proof. intros Hm Hk w. destruct (Hm w) as (a & w' & H). rewrite (bind_eq _ _ _ _ _ H). apply Hk. Qed.

Lemma returns_ret {A} (a : A) : returns (ret a).
Proof. intros w. by do 2 eexists. Qed.
Lemma returns_ask : returns ask.
Proof. intros w. by do 2 eexists. Qed.
Lemma returns_write t s : returns (write t s).
Proof. intros w. by do 2 eexists. Qed.
Lemma returns_alloc_obj o : returns (alloc_obj o).
Proof. intros w. by do 2 eexists. Qed.

Create HintDb returns.
#[local] Hint Resolve returns_ret returns_ask returns_write returns_alloc_obj : returns.
Ltac always := repeat first [solve [eauto with returns] | apply returns_bind; [|intros] | case_match].

Lemma returns_asprintf s : returns (asprintf s).
Proof. unfold asprintf. always. Qed.
Lemma returns_default_rand_range n : returns (default_rand_range n).
Proof. unfold default_rand_range, BN_new, BN_set_word, BN_rand_range, BN_bn2dec, printf. always. Qed.
Lemma returns_default_alloc o : returns (default_mem_alloc o).
Proof. unfold default_mem_alloc, malloc. always. Qed.
Lemma returns_default_generator : returns (get_default_random_generator default_allocator).
Proof. unfold get_default_random_generator. always. Qed.

Lemma never_succeeds_error t s p n : never_succeeds (write t s ;;; ret (-1, p, n)).
Proof. done. Qed.

Lemma create_random_file_default root ext size :
  never_succeeds (create_random_file root ext size
    (MkRandom (Some default_rand_range) None (Some default_seed_prng)) default_allocator).
Proof.
  unfold create_random_file. cbn [range bytes alloc default_allocator]. apply never_succeeds_bind.
  { case_match; [apply returns_ret|]. apply returns_bind; [apply returns_asprintf|intros; apply returns_ret]. }
  intros [extension|]; [|apply never_succeeds_error].
  apply never_succeeds_bind; [apply returns_ret|]. intros [r name]. case_match; [apply never_succeeds_error|].
  apply never_succeeds_bind; [apply returns_asprintf|]. intros [path|]; [|apply never_succeeds_error].
  intros w. erewrite bind_eq by reflexivity. revert w.
  apply never_succeeds_bind; [apply returns_default_rand_range|]. intros [n|]; [|apply never_succeeds_error].
  apply never_succeeds_bind; [apply returns_default_alloc|]. intros [p|]; [done|apply never_succeeds_error].
Qed.

(** [create_random_file] through the generator of
    [get_default_random_generator] never succeeds, whatever the environment
    answers: that generator's member [bytes] is never assigned, so the
    function either fails with -1 before it gets there or calls through the
    indeterminate pointer. *)
Theorem default_generator_cannot_create_files root ext size w :
  match (let! g := get_default_random_generator default_allocator in
         let! g := need g in create_random_file root ext size g default_allocator) w with
  | Ret (r, _, _) _ => r = -1
  | Crash => True
  | _ => False
  end.
Proof.
  destruct (returns_default_generator w) as (g & w1 & Hg). rewrite (bind_eq _ _ _ _ _ Hg).
  assert (Hcases : g = None \/ g = Some (MkRandom (Some default_rand_range) None (Some default_seed_prng))).
  { revert Hg. unfold get_default_random_generator, bind. destruct (alloc _ _ _) as [[p|] w2| | | |]; try done.
    - intros [= <- _]. by right.
    - intros [= <- _]. by left. }
  destruct Hcases as [-> | ->]; [done|]. erewrite bind_eq by reflexivity. apply create_random_file_default.
Qed.

(** ** Extensions *)

Fixpoint has_char (c : ascii) (s : string) : bool :=
  match s with EmptyString => false | String a s' => Ascii.eqb a c || has_char c s' end.

Lemma strrchr_none s c : has_char c s = false -> strrchr s c = None.
Proof.
  induction s as [|a s IH]; cbn; [done|]. intros [Ha Hs]%orb_false_iff. by rewrite IH, Ha.
Qed.

Lemma strrchr_last pre c s : has_char c s = false -> strrchr (pre +:+ String c s) c = Some (String c s).
Proof.
  intros Hs. induction pre as [|a pre IH].
  - change ("" +:+ String c s)%string with (String c s). cbn -[Ascii.eqb].
    rewrite (strrchr_none _ _ Hs). by destruct (Ascii.eqb_spec c c).
  - change (String a pre +:+ String c s)%string with (String a (pre +:+ String c s)). cbn. by rewrite IH.
Qed.

(** [get_extension] answers what follows the last period of the path,
    but with a newline appended to it; a path without a period is refused. *)
Theorem get_extension_appends_newline pre ext path w :
  has_char "." ext = false -> has_char "." path = false -> 0 <= hd 0 (w_oracle w) ->
  get_extension (pre +:+ String "." ext) w = Ret (Some (ext +:+ newline)) (asked w) /\
  exists w', get_extension path w = Ret None w'.
Proof.
  intros He Hp Ho%Z.ltb_ge. unfold get_extension. rewrite strrchr_last, strrchr_none by done. split.
  - unfold asprintf, bind, ask, ret. by rewrite Ho.
  - by eexists.
Qed.

Lemma get_extension_appends_newline_witness :
  get_extension "dir.d/file.txt" (fresh_world [3] []) =
    Ret (Some ("txt" +:+ newline)%string) (asked (fresh_world [3] [])).
Proof. apply (get_extension_appends_newline "dir.d/file" "txt" "file" (fresh_world [3] [])); [done|done|cbn; lia]. Defined.
