(* ===== verification/Dirs.v ===== *)
(** * Dirs: directories (the second half of utils/utils.c)

    What the C library says about paths ([stat], [mkdir], [rmdir], [unlink],
    [opendir], the tree walk of fts(3)) and the functions of utils.c that
    count, create and delete directories.  A path exists when it has contents
    ([w_fs]) or a mode ([w_modes]); the entries of a directory are the paths
    one level below it.  [delete_dir_contents] walks the tree with
    [FTS_LOGICAL], which follows symbolic links, so the walk keeps the path
    it reports apart from the place that path stands for. *)

From Stdlib Require Import Ascii.
From stdpp Require Import sorting.
From S2P Require Import Prelude Types CWorld Memory Realloc Crypto Utils.

(** ** <sys/stat.h> *)

Definition S_IFMT : Z := 61440.
Definition S_IFREG : Z := 32768.
Definition S_IFDIR : Z := 16384.
Definition S_IFSOCK : Z := 49152.
Definition S_IXUSR : Z := 64.

(** A test [mode & flag] of the code. *)
Definition has_flag (mode flag : Z) : bool := negb (Z.land mode flag =? 0).

(** What the kernel itself takes for a directory. *)
Definition is_dir (mode : Z) : bool := Z.land mode S_IFMT =? S_IFDIR.

Definition plain_file : Z := 33279.  (* 0100777 *)

Definition mode_of (w : world) (path : string) : option Z :=
  match w_modes w !! path with
  | Some m => Some m
  | None => match w_fs w !! path with Some _ => Some plain_file | None => None end
  end.

(** [stat(2)]: the mode, unless the path does not exist or the environment
    refuses. *)
Definition sys_stat (path : string) : M (option Z) :=
  let! a := ask in
  if a <? 0 then ret None else gets (fun w => mode_of w path).

(** ** Directory entries *)

Fixpoint strip_prefix (p s : string) : option string :=
  match p, s with
  | EmptyString, _ => Some s
  | String a p', String b s' => if decide (a = b) then strip_prefix p' s' else None
  | String _ _, EmptyString => None
  end.

(** The name of [path] in [dir], when it lies directly in it. *)
Definition name_in (dir path : string) : option string :=
  match strip_prefix (dir +:+ "/") path with
  | Some EmptyString => None
  | Some name => if has_char "/" name then None else Some name
  | None => None
  end.

Definition paths (w : world) : list string := elements (dom (w_fs w) ∪ dom (w_modes w)).

Definition entries_of (w : world) (dir : string) : list string := omap (name_in dir) (paths w).

(** What [readdir(3)] gives one after the other. *)
Definition listing (w : world) (dir : string) : list string := "."%string :: ".."%string :: entries_of w dir.

Definition dir_exists (w : world) (dir : string) : bool :=
  match mode_of w dir with Some m => is_dir m | None => false end.

(** [opendir(3)]: the descriptor behind the stream and the names still to be
    read. *)
Definition opendir (dir : string) : M (option (Z * list string)) :=
  let! a := ask in
  if a <? 0 then ret None
  else
    let! names := gets (fun w => if dir_exists w dir then Some (listing w dir) else None) in
    match names with
    | None => ret None
    | Some names =>
        let! fds := gets w_fds in
        let fd := fresh_fd fds in
        modify (set_fds (<[fd := dir]> fds)) ;;; ret (Some (fd, names))
    end.

(** [closedir(3)] gives the descriptor back. *)
Definition closedir (fd : Z) : M Z :=
  modify (fun w => set_fds (delete fd (w_fds w)) w) ;;; ask_status.

(** [entry->d_name[0] == '.']. *)
Definition hidden (name : string) : bool :=
  match name with String a _ => Ascii.eqb a "." | EmptyString => false end.

(** ** Changing the tree *)

Definition drop_path (path : string) (w : world) : world :=
  set_links (delete path (w_links w)) (set_modes (delete path (w_modes w)) (set_fs (delete path (w_fs w)) w)).

(** [mkdir(path, S_IRWXU | S_IRWXG | S_IROTH | S_IXOTH)]. *)
Definition mkdir (path : string) : M Z :=
  let! a := ask in
  let! old := gets (fun w => mode_of w path) in
  match old with
  | Some _ => ret (-1)
  | None =>
      if a <? 0 then ret (-1)
      else modify (fun w => set_modes (<[path := 16893]> (w_modes w)) w) ;;; ret 0  (* 040775 *)
  end.

(** [rmdir(2)]: an empty directory. *)
Definition rmdir (path : string) : M Z :=
  let! a := ask in
  let! empty := gets (fun w => dir_exists w path && bool_decide (entries_of w path = [])) in
  if (a <? 0) || negb empty then ret (-1) else modify (drop_path path) ;;; ret 0.

(** [unlink(2)]: anything but a directory; of a link the link itself. *)
Definition unlink (path : string) : M Z :=
  let! a := ask in
  let! old := gets (fun w => mode_of w path) in
  match old with
  | None => ret (-1)
  | Some m => if (a <? 0) || is_dir m then ret (-1) else modify (drop_path path) ;;; ret 0
  end.

(** ** Creating a directory *)

(** The return value and the path left in [*path]. *)
Definition create_random_directory (root : string) : M (Z * option string) :=
  let! '(rtrn, name) := generate_directory_name None in
  if rtrn <? 0 then printf "Failed to generate directory name\n" ;;; ret (-1, None)
  else
    let! path := asprintf (root +:+ "/" +:+ show_str name) in
    match path with
    | None => printf "String concatenation failed\n" ;;; ret (-1, None)
    | Some path =>
        let! rtrn := mkdir path in
        if rtrn <? 0 then printf "Directory creation failed: %s\n" ;;; ret (-1, Some path)
        else ret (0, Some path)
    end.

(** ** Counting the files of a directory *)

(** The loop over the names; [None] when the walk came to its end, the
    return value otherwise, and the count so far. *)
Fixpoint count_names (names : list string) (dir : string) (count : Z) : M (option Z * Z) :=
  match names with
  | [] => ret (None, count)
  | name :: names' =>
      if hidden name then count_names names' dir count
      else
        let! file_path := asprintf (dir +:+ "/" +:+ name) in
        match file_path with
        | None => ret (Some (-1), count)
        | Some file_path =>
            let! buf := sys_stat file_path in
            match buf with
            | None => printf "Can't get file stats: %s\n" ;;; ret (Some (-1), count)
            | Some st_mode =>
                count_names names' dir (if has_flag st_mode S_IFREG then u32 (count + 1) else count)
            end
        end
  end.

(** The return value and the count left in [*count]. *)
Definition count_files_directory (count : Z) (dir : string) : M (Z * Z) :=
  let! directory := opendir dir in
  match directory with
  | None => printf "Can't open dir: %s\n" ;;; ret (-1, count)
  | Some (fd, names) =>
      let! '(failed, count) := count_names names dir count in
      match failed with
      | Some rtrn => let! _ := closedir fd in ret (rtrn, count)
      | None =>
          let! rtrn := closedir fd in
          if rtrn <? 0 then printf "Can't close directory\n" ;;; ret (-1, count) else ret (0, count)
      end
  end.

(** ** Deleting a directory *)

(** Where a path leads: a symbolic link to the place [w_links] names, which
    is no link itself, anything else to itself. *)
Definition follow (w : world) (path : string) : string := default path (w_links w !! path).

(** The place of a path that is there. *)
Definition resolve (w : world) (path : string) : option string :=
  match mode_of w path with Some _ => Some (follow w path) | None => None end.

(** [stat(2)] of a path that may be a link. *)
Definition stat_link (path : string) : M (option Z) :=
  let! a := ask in
  if a <? 0 then ret None else gets (fun w => resolve w path ≫= mode_of w).

(** The body of the loop of [delete_dir_contents] for an entry of the walk:
    [path] is [fts_path], [ent] the same file named by the place of its
    directory.  [true] is [continue], [false] is [return (-1)]. *)
Definition delete_entry (dir path ent : string) : M bool :=
  if decide (path = dir) then ret true
  else
    let! sb := stat_link ent in
    match sb with
    | None => printf "Can't get path stats: %s\n" ;;; ret false
    | Some st_mode =>
        if has_flag st_mode S_IFDIR then let! _ := rmdir ent in ret true
        else
          let! rtrn := unlink ent in
          if rtrn <? 0 then printf "Can't remove file\n" ;;; ret false else ret true
    end.

(** [entcmp]: the entries of a directory in the order of [strcmp]. *)
Definition entcmp (a b : string) : Prop := String.leb a b = true.
#[export] Instance entcmp_dec : RelDecision entcmp.
Proof. intros a b. unfold entcmp. apply _. Defined.
Definition sorted_entries (w : world) (dir : string) : list string := merge_sort entcmp (entries_of w dir).

(** One visit after the other, until one of them returns from the function. *)
Fixpoint each (visit : string -> M bool) (names : list string) : M bool :=
  match names with
  | [] => ret true
  | name :: names' =>
      let! ok := visit name in
      if negb ok then ret false else each visit names'
  end.

(** The directory an entry of the walk leads to: [None] when it is gone, is
    no directory, or is one of the directories the walk is in already, which
    fts(3) reports as [FTS_DC] and does not enter. *)
Definition enters (w : world) (ancestors : list string) (ent : string) : option string :=
  place ← resolve w ent;
  if dir_exists w place && bool_decide (place ∉ ancestors) then Some place else None.

(** The walk of [fts_read]: a directory before and after its entries, any
    other path once; a directory that is gone or unreadable by the time it is
    entered is only reported ([FTS_DNR]), which the loop skips.  [depth]
    bounds the nesting. *)
Fixpoint walk (depth : nat) (dir : string) (ancestors : list string) (path ent : string) : M bool :=
  match depth with
  | O => spin
  | S n =>
      let! ok := delete_entry dir path ent in
      if negb ok then ret false
      else
        let! enter := gets (fun w => enters w ancestors ent) in
        match enter with
        | None => ret true
        | Some place =>
            let! names := gets (fun w => sorted_entries w place) in
            let! ok := each (fun name => walk n dir (place :: ancestors) (path +:+ "/" +:+ name) (place +:+ "/" +:+ name)) names in
            if negb ok then ret false else delete_entry dir path ent
        end
  end.

(** The directories the walk is in at a time are all different. *)
Definition tree_depth (w : world) : nat := S (length (paths w)).

Definition delete_dir_contents (dir : string) : M Z :=
  let! tree := ask in
  if tree <? 0 then printf "Can't walk directory\n" ;;; ret (-1)
  else
    let! depth := gets tree_depth in
    let! ok := walk depth dir [] dir dir in
    if negb ok then ret (-1)
    else
      let! rtrn := ask_status in
      if rtrn <? 0 then printf "fts: %s\n" ;;; ret (-1) else ret 0.

Definition delete_directory (path : option string) : M Z :=
  match path with
  | None => printf "Path pointer is NULL\n" ;;; ret (-1)
  | Some path =>
      let! sb := stat_link path in
      match sb with
      | None => printf "Can't get stats: %s\n" ;;; ret (-1)
      | Some st_mode =>
          if has_flag st_mode S_IFDIR then
            let! rtrn := delete_dir_contents path in
            if rtrn <? 0 then printf "Can't delete dir contents\n" ;;; ret (-1)
            else
              let! rtrn := rmdir path in
              if rtrn <? 0 then printf "Can't remove directory: %s\n" ;;; ret (-1) else ret 0
          else printf "Input path is not a directory\n" ;;; ret (-1)
      end
  end.

(** ** The user's home directory *)

(** [getpwuid] of the platform's user database gives [pw_dir]. *)
Definition get_home (getpwuid : Z -> option string) : M (option string) :=
  let! uid := ask in
  match getpwuid (u32 uid) with
  | None => printf "Can't Get pwd struct: %s\n" ;;; ret None
  | Some pw_dir =>
      let! home := asprintf pw_dir in
      match home with
      | None => printf "Can't Create home string: %s\n" ;;; ret None
      | Some home => ret (Some home)
      end
  end.

(** ** Strings and paths *)

Lemma strip_prefix_app p s : strip_prefix p (p +:+ s) = Some s.
Proof. induction p as [|a p IH]; [done|]. rewrite string_app_cons. cbn. by rewrite decide_True. Qed.

Lemma strip_prefix_eq p s r : strip_prefix p s = Some r -> s = p +:+ r.
Proof.
  revert s; induction p as [|a p IH]; intros s H; [by injection H as ->|].
  destruct s as [|b s]; [done|]. cbn [strip_prefix] in H. case_decide as Hab; [subst b|done].
  rewrite string_app_cons. f_equal. by apply IH.
Qed.

(** [p] lies below [dir], at any level. *)
Definition below (dir p : string) : Prop := exists s, p = dir +:+ "/" +:+ s.

Lemma below_child dir p name : below dir p -> below dir (p +:+ "/" +:+ name).
Proof. intros [s ->]. exists (s +:+ "/" +:+ name). by rewrite !string_app_assoc. Qed.

Lemma elem_of_paths w p : p ∈ paths w <-> is_Some (mode_of w p).
Proof.
  unfold paths, mode_of. rewrite elem_of_elements, elem_of_union, !elem_of_dom.
  destruct (w_modes w !! p), (w_fs w !! p); split; intros H; try done; try (by right); try (by left);
    try (by eexists); destruct H as [[? ?]|[? ?]]; done.
Qed.

Lemma name_in_eq dir p name : name_in dir p = Some name -> p = dir +:+ "/" +:+ name.
Proof.
  unfold name_in. destruct (strip_prefix _ p) as [s|] eqn:E; [|done]. apply strip_prefix_eq in E.
  rewrite string_app_assoc in E. destruct s; [done|]. case_match; [done|]. by intros [= <-].
Qed.

Lemma elem_of_entries w dir name :
  name ∈ entries_of w dir <-> is_Some (mode_of w (dir +:+ "/" +:+ name)) /\ name_in dir (dir +:+ "/" +:+ name) = Some name.
Proof.
  unfold entries_of. rewrite list_elem_of_omap. split.
  - intros (p & Hp & Hn). pose proof (name_in_eq _ _ _ Hn) as ->. split; [by apply elem_of_paths|done].
  - intros [Hp Hn]. eexists. split; [by apply elem_of_paths|done].
Qed.

(** ** What the functions do to the tree

    [prunes P w w']: between [w] and [w'] paths in [P] were removed, with
    their contents, their modes and the links they are; nothing else happened
    to the tree, and the rest of the world differs in the answers consumed and
    the messages printed. *)
Definition prunes (P : string -> Prop) (w w' : world) : Prop :=
  exists f m ls o x, w' = set_links ls (set_modes m (set_fs f (set_oracle o (set_out x w)))) /\
    forall p, (f !! p = w_fs w !! p /\ m !! p = w_modes w !! p /\ ls !! p = w_links w !! p) \/
      (P p /\ f !! p = None /\ m !! p = None /\ ls !! p = None).

Lemma prunes_env P w w' : env_step w w' -> prunes P w w'.
Proof. intros (o & x & ->). exists (w_fs w), (w_modes w), (w_links w), o, x. split; [by destruct w|by left]. Qed.

#[export] Instance prunes_preorder P : PreOrder (prunes P).
Proof.
  split; [intros w; apply prunes_env, env_step_refl|].
  intros w1 w2 w3 (f & m & ls & o & x & -> & Hk) (f' & m' & ls' & o' & x' & -> & Hk').
  cbn in *. exists f', m', ls', o', x'. split; [done|]. intros p.
  destruct (Hk p) as [(<- & <- & <-)|(HP & Hf & Hm & Hl)]; [apply Hk'|]. right.
  destruct (Hk' p) as [(-> & -> & ->)|(_ & -> & -> & ->)]; done.
Qed.

Lemma prunes_weaken (P Q : string -> Prop) w w' : (forall p, P p -> Q p) -> prunes P w w' -> prunes Q w w'.
Proof.
  intros HPQ (f & m & ls & o & x & -> & Hk). exists f, m, ls, o, x. split; [done|].
  intros p. destruct (Hk p) as [|[]]; auto.
Qed.

Lemma prunes_drop P w p : P p -> prunes P w (drop_path p w).
Proof.
  intros Hp. exists (delete p (w_fs w)), (delete p (w_modes w)), (delete p (w_links w)), (w_oracle w), (w_out w).
  split; [by destruct w|]. intros q. destruct (decide (q = p)) as [->|Hq].
  - right. by rewrite !lookup_delete_eq.
  - left. by rewrite !lookup_delete_ne by congruence.
Qed.

(** A path that is still there has not changed. *)
Lemma prunes_same P w w' p : prunes P w w' -> is_Some (mode_of w' p) ->
  mode_of w' p = mode_of w p /\ w_links w' !! p = w_links w !! p.
Proof.
  intros (f & m & ls & o & x & -> & Hk). unfold mode_of. cbn.
  destruct (Hk p) as [(-> & -> & ->)|(_ & -> & -> & ->)]; [done|by intros []].
Qed.

Lemma prunes_mode P w w' p : prunes P w w' -> is_Some (mode_of w' p) -> is_Some (mode_of w p).
Proof. intros Hp Hs. by destruct (prunes_same _ _ _ _ Hp Hs) as [<- _]. Qed.

(** Nothing happened to [p]. *)
Definition same_path (w w' : world) (p : string) : Prop :=
  mode_of w' p = mode_of w p /\ w_fs w' !! p = w_fs w !! p /\ w_links w' !! p = w_links w !! p.

Lemma prunes_outside P w w' p : prunes P w w' -> ~ P p -> same_path w w' p.
Proof.
  intros (f & m & ls & o & x & -> & Hk) Hp. unfold same_path, mode_of. cbn.
  destruct (Hk p) as [(-> & -> & ->)|[]]; done.
Qed.

Lemma prunes_dir P w w' p : prunes P w w' -> dir_exists w' p = true -> dir_exists w p = true.
Proof.
  intros Hp. unfold dir_exists. destruct (mode_of w' p) as [m|] eqn:E; [|done].
  destruct (prunes_same _ _ _ p Hp) as [<- _]; [by rewrite E|]. by rewrite E.
Qed.

Lemma prunes_resolve P w w' p q : prunes P w w' -> resolve w' p = Some q -> resolve w p = Some q.
Proof.
  intros Hp. unfold resolve, follow. destruct (mode_of w' p) as [m|] eqn:E; [|done].
  destruct (prunes_same _ _ _ p Hp) as [<- <-]; [by rewrite E|]. by rewrite E.
Qed.

Lemma prunes_entries P w w' dir name : prunes P w w' -> name ∈ entries_of w' dir -> name ∈ entries_of w dir.
Proof. intros Hp. rewrite !elem_of_entries. intros [Hs Hn]. split; [by eapply prunes_mode|done]. Qed.

Lemma sys_stat_spec w path :
  wp (sys_stat path) (fun r w' => w' = asked w /\ (r = None \/ r = mode_of w path)) w.
Proof.
  apply wp_bind, wp_ask. intros a. case_match; [apply wp_ret; auto|]. apply wp_gets.
  split; [done|by right].
Qed.

Lemma stat_link_spec w path :
  wp (stat_link path) (fun r w' => w' = asked w /\ (r = None \/ r = resolve w path ≫= mode_of w)) w.
Proof.
  apply wp_bind, wp_ask. intros a. case_match; [apply wp_ret; auto|]. apply wp_gets.
  split; [done|by right].
Qed.

Lemma rmdir_spec w path :
  wp (rmdir path) (fun r w' =>
    (r = -1 /\ w' = asked w) \/
    (r = 0 /\ dir_exists w path = true /\ entries_of w path = [] /\ w' = drop_path path (asked w))) w.
Proof.
  apply wp_bind, wp_ask. intros a. apply wp_bind, wp_gets.
  replace (dir_exists (asked w) path) with (dir_exists w path) by done.
  replace (entries_of (asked w) path) with (entries_of w path) by done.
  destruct (dir_exists w path); cbn [andb negb]; [|rewrite orb_true_r; apply wp_ret; auto].
  case_bool_decide as He; cbn [negb]; [|rewrite orb_true_r; apply wp_ret; auto]. rewrite orb_false_r.
  case_match; [apply wp_ret; auto|]. right. auto.
Qed.

Lemma unlink_spec w path :
  wp (unlink path) (fun r w' => (r = -1 /\ w' = asked w) \/ (r = 0 /\ w' = drop_path path (asked w))) w.
Proof.
  apply wp_bind, wp_ask. intros a. apply wp_bind, wp_gets. case_match; [|apply wp_ret; auto].
  case_match; [apply wp_ret; auto|]. right. auto.
Qed.

(** Removing a directory adds no entry. *)
Lemma entries_dropped w dir : entries_of w dir = [] -> entries_of (drop_path dir w) dir = [].
Proof.
  intros He. destruct (entries_of (drop_path dir w) dir) as [|name names] eqn:E; [done|].
  assert (Hn : name ∈ entries_of (drop_path dir w) dir) by (rewrite E; set_solver).
  apply elem_of_entries in Hn as [Hn1 Hn2]. exfalso.
  apply (not_elem_of_nil name). rewrite <- He. apply elem_of_entries. split; [|done].
  eapply (prunes_mode (fun p => p = dir)); [|exact Hn1]. by apply prunes_drop.
Qed.

(** A path the code takes for a directory and the kernel does not: a socket
    or a block device shares the bit [S_IFDIR]. *)
Definition stuck (w : world) (p : string) : Prop :=
  exists m, mode_of w p = Some m /\ has_flag m S_IFDIR = true /\ is_dir m = false /\ w_links w !! p = None.

(** The directories a walk from [dir] comes to: where [dir] leads, and where
    the entries of such a directory lead. *)
Inductive reached (w : world) (dir : string) : string -> Prop :=
| reached_dir place : resolve w dir = Some place -> dir_exists w place = true -> reached w dir place
| reached_entry d name place :
    reached w dir d -> name ∈ entries_of w d -> resolve w (d +:+ "/" +:+ name) = Some place ->
    dir_exists w place = true -> reached w dir place.

(** Their entries. *)
Definition in_reach (w : world) (dir p : string) : Prop :=
  exists d name, reached w dir d /\ name ∈ entries_of w d /\ p = d +:+ "/" +:+ name.

(** Without links these lie below [dir]. *)
Definition no_links (w : world) (dir : string) : Prop :=
  w_links w !! dir = None /\ forall p, below dir p -> w_links w !! p = None.

Lemma resolve_no_link w p q : w_links w !! p = None -> resolve w p = Some q -> q = p.
Proof. intros Hl. unfold resolve, follow. rewrite Hl. case_match; [|done]. by intros [= <-]. Qed.

Lemma reached_below w dir d : no_links w dir -> reached w dir d -> d = dir \/ below dir d.
Proof.
  intros [H0 Hl]. induction 1 as [place Hr _|d name place _ IH _ Hr _]; [left; by eapply resolve_no_link|].
  right. assert (Hb : below dir (d +:+ "/" +:+ name)) by (destruct IH as [->|IH]; [by exists name|by apply below_child]).
  by rewrite (resolve_no_link _ _ _ (Hl _ Hb) Hr).
Qed.

Lemma in_reach_below w dir p : no_links w dir -> in_reach w dir p -> below dir p.
Proof.
  intros Hl (d & name & Hd & _ & ->). destruct (reached_below _ _ _ Hl Hd) as [->|Hb]; [by exists name|by apply below_child].
Qed.

Section deleting.
(** [w0] is the world the walk starts in, [Q] are its stuck paths. *)
Context (w0 : world) (dir : string) (Q : string -> Prop) (HQ : forall q, Q q -> stuck w0 q).

(** The paths the walk may remove. *)
Definition removable (p : string) : Prop := in_reach w0 dir p /\ ~ Q p.

#[local] Abbreviation pruned := (prunes removable w0).

Lemma stuck_kept w q : pruned w -> Q q -> stuck w q.
Proof.
  intros Hp Hqq. destruct (HQ q Hqq) as (m & Hm & H1 & H2 & H3). exists m.
  destruct (prunes_outside _ _ _ q Hp) as (-> & _ & ->); [by intros [_ ?]|done].
Qed.

Lemma pruned_env w w' : pruned w -> env_step w w' -> pruned w'.
Proof. intros Hp He. etrans; [exact Hp|by apply prunes_env]. Qed.

Lemma pruned_drop w p : pruned w -> removable p -> pruned (drop_path p w).
Proof. intros Hp He. etrans; [exact Hp|by apply prunes_drop]. Qed.

Lemma delete_entry_spec w path ent :
  pruned w -> (path = dir \/ in_reach w0 dir ent) -> wp (delete_entry dir path ent) (fun _ w' => pruned w') w.
Proof.
  intros Hw Hp. unfold delete_entry. case_decide as Hd; [by apply wp_ret|].
  destruct Hp as [|Hp]; [done|].
  apply wp_bind. eapply wp_mono; [apply stat_link_spec|]. intros [m|] w1 [-> Hsb].
  - destruct Hsb as [|Hsb]; [done|].
    assert (H1 : pruned (asked (asked w))) by (do 2 (eapply pruned_env; [|apply env_asked]); done).
    destruct (has_flag m S_IFDIR) eqn:Ef; apply wp_bind.
    + eapply wp_mono; [apply rmdir_spec|]. intros r w2 [[-> ->]|(-> & Hd' & _ & ->)]; apply wp_ret; [done|].
      apply pruned_drop; [done|]. split; [done|]. intros Hq. destruct (stuck_kept w ent Hw Hq) as (m' & Hm' & _ & Hnd & _).
      unfold dir_exists in Hd'. change (mode_of (asked w) ent) with (mode_of w ent) in Hd'.
      rewrite Hm' in Hd'. congruence.
    + eapply wp_mono; [apply unlink_spec|]. intros r w2 [[-> ->]|[-> ->]]; cbn [Z.ltb Z.compare].
      * apply wp_bind, wp_write, wp_ret. eapply pruned_env; [exact H1|apply env_write].
      * apply wp_ret. apply pruned_drop; [done|]. split; [done|]. intros Hq.
        destruct (stuck_kept w ent Hw Hq) as (m' & Hm' & Hf & _ & Hl).
        unfold resolve, follow in Hsb. rewrite Hm', Hl in Hsb. cbn in Hsb. rewrite Hm' in Hsb. congruence.
  - apply wp_bind, wp_write, wp_ret. eapply pruned_env; [|apply env_write]. eapply pruned_env; [done|apply env_asked].
Qed.

(** Where the walk is: an entry of a directory it has come to, or [dir]. *)
Definition visits (path ent : string) : Prop := (path = dir /\ ent = dir) \/ in_reach w0 dir ent.

Lemma enters_spec w ancestors path ent place :
  pruned w -> visits path ent -> enters w ancestors ent = Some place ->
  reached w0 dir place /\ (place ∉ ancestors) /\ (place ∈ paths w0).
Proof.
  intros Hw Hv. unfold enters. destruct (resolve w ent) as [q|] eqn:Hr; [cbn|done].
  destruct (dir_exists w q) eqn:Hd; [cbn|done]. case_bool_decide as Ha; [|done]. intros [= <-].
  apply (prunes_resolve _ _ _ _ _ Hw) in Hr. apply (prunes_dir _ _ _ _ Hw) in Hd. split_and!; [|done|].
  - destruct Hv as [[_ ->]|(d & name & H1 & H2 & ->)]; [by apply reached_dir|by eapply reached_entry].
  - apply elem_of_paths. unfold dir_exists in Hd. case_match; [by eexists|done].
Qed.

Lemma entry_visited w place path name :
  pruned w -> reached w0 dir place -> name ∈ sorted_entries w place -> visits path (place +:+ "/" +:+ name).
Proof.
  intros Hw Hr Hn. unfold sorted_entries in Hn. rewrite merge_sort_Permutation in Hn.
  right. exists place, name. split_and!; [done|by eapply prunes_entries|done].
Qed.

(** The walk ends, whatever is in its way. *)
Lemma walk_spec n : forall w ancestors path ent,
  pruned w -> visits path ent -> NoDup ancestors -> ancestors ⊆ paths w0 ->
  (length (paths w0) < n + length ancestors)%nat ->
  wp (walk n dir ancestors path ent) (fun _ w' => pruned w') w.
Proof.
  induction n as [|n IH]; intros w ancestors path ent Hw Hv Hnd Hsub Hn.
  { pose proof (NoDup_incl_length (proj1 (NoDup_ListNoDup _) Hnd) (fun x Hx => proj1 (list_elem_of_In _ _)
      (Hsub x (proj2 (list_elem_of_In _ _) Hx)))). lia. }
  assert (Hde : path = dir \/ in_reach w0 dir ent) by (destruct Hv as [[? _]|?]; auto). cbn [walk].
  apply wp_bind. eapply wp_mono; [by apply delete_entry_spec|]. intros ok w1 H1.
  destruct ok; cbn [negb]; [|by apply wp_ret]. apply wp_bind, wp_gets.
  destruct (enters w1 ancestors ent) as [place|] eqn:He; [|by apply wp_ret].
  destruct (enters_spec _ _ _ _ _ H1 Hv He) as (Hr & Ha & Hp). apply wp_bind, wp_gets, wp_bind.
  assert (Hnames : forall name, name ∈ sorted_entries w1 place -> visits (path +:+ "/" +:+ name) (place +:+ "/" +:+ name))
    by (intros name; by apply entry_visited).
  assert (Hloop : forall names w2,
    (forall name, name ∈ names -> visits (path +:+ "/" +:+ name) (place +:+ "/" +:+ name)) -> pruned w2 ->
    wp (each (fun name => walk n dir (place :: ancestors) (path +:+ "/" +:+ name) (place +:+ "/" +:+ name)) names)
      (fun _ w' => pruned w') w2).
  { induction names as [|name names IHn]; intros w2 Hin H2; cbn [each]; [by apply wp_ret|].
    apply wp_bind. eapply wp_mono; [apply IH|].
    - done.
    - apply Hin. set_solver.
    - by constructor.
    - set_solver.
    - cbn [length]. lia.
    - intros ok w3 H3. destruct ok; cbn [negb]; [|by apply wp_ret]. apply IHn; [set_solver|done]. }
  eapply wp_mono; [by apply (Hloop _ w1 Hnames)|]. intros ok w2 H2.
  destruct ok; cbn [negb]; [|by apply wp_ret]. by apply delete_entry_spec.
Qed.

Lemma delete_dir_contents_spec : forall w, paths w = paths w0 -> pruned w ->
  wp (delete_dir_contents dir) (fun _ w' => pruned w') w.
Proof.
  intros w Hpw Hw. apply wp_bind, wp_ask. intros a.
  assert (H0 : pruned (asked w)) by (eapply pruned_env; [done|apply env_asked]).
  case_match; [apply wp_bind, wp_write, wp_ret; eapply pruned_env; [exact H0|apply env_write]|].
  apply wp_bind, wp_gets, wp_bind.
  eapply wp_mono; [apply walk_spec; [done|by left|constructor|set_solver|]|].
  - unfold tree_depth. change (paths (asked w)) with (paths w). rewrite Hpw. cbn. lia.
  - intros ok w1 H1. destruct ok; cbn [negb]; [|by apply wp_ret]. apply wp_bind, wp_bind, wp_ask. intros b. apply wp_ret.
    assert (H2 : pruned (asked w1)) by (eapply pruned_env; [exact H1|apply env_asked]).
    case_match; [|by apply wp_ret]. apply wp_bind, wp_write, wp_ret. eapply pruned_env; [exact H2|apply env_write].
Qed.

Lemma delete_directory_spec :
  wp (delete_directory (Some dir)) (fun r w' => (r = 0 \/ r = -1) /\
    prunes (fun p => p = dir \/ removable p) w0 w' /\
    (r = 0 -> mode_of w' dir = None /\ entries_of w' dir = [])) w0.
Proof.
  assert (Hfail : forall w1 s, pruned w1 ->
    wp (write STD s ;;; ret (-1)) (fun r w' => (r = 0 \/ r = -1) /\
      prunes (fun p => p = dir \/ removable p) w0 w' /\
      (r = 0 -> mode_of w' dir = None /\ entries_of w' dir = [])) w1).
  { intros w1 s H1. apply wp_bind, wp_write, wp_ret. split_and!; [by right| |done].
    apply (prunes_weaken removable); [by right|]. eapply pruned_env; [exact H1|apply env_write]. }
  pose proof (prunes_env removable _ _ (env_asked w0)) as H0.
  apply wp_bind. eapply wp_mono; [apply stat_link_spec|]. intros sb w1 [-> _].
  destruct sb as [m|]; [|by apply Hfail].
  destruct (has_flag m S_IFDIR); [|by apply Hfail]. apply wp_bind.
  eapply wp_mono; [by apply delete_dir_contents_spec|]. intros r w1 H1.
  destruct (r <? 0); [by apply Hfail|]. apply wp_bind. eapply wp_mono; [apply rmdir_spec|].
  intros r' w2 [[-> ->]|(-> & _ & He & ->)]; cbn [Z.ltb Z.compare].
  - apply Hfail. eapply pruned_env; [exact H1|apply env_asked].
  - apply wp_ret. split_and!; [by left| |].
    + etrans; [apply (prunes_weaken removable); [by right|exact H1]|].
      etrans; [apply prunes_env, env_asked|apply prunes_drop; by left].
    + intros _. split; [unfold mode_of; cbn; by rewrite !lookup_delete_eq|]. by apply entries_dropped.
Qed.
End deleting.

(** (C21) [delete_directory] always returns, for every tree, with symbolic links
    and with cycles of them, and every behaviour of the environment.  It is
    confined to the directory itself and to the entries of the directories
    that can be come to from it through directories and through links to
    directories; when no path below the directory is a link, nothing outside
    the directory is touched.  When it returns 0 the directory is gone and
    nothing is left directly below it. *)
Theorem delete_directory_correct w dir :
  exists r w', delete_directory (Some dir) w = Ret r w' /\ (r = 0 \/ r = -1) /\
    (forall p, p <> dir -> ~ in_reach w dir p -> same_path w w' p) /\
    (no_links w dir -> forall p, p <> dir -> ~ below dir p -> same_path w w' p) /\
    (r = 0 -> mode_of w' dir = None /\ entries_of w' dir = []).
Proof.
  destruct (wp_run _ _ _ (delete_directory_spec w dir (fun _ => False) ltac:(done)))
    as (r & w' & Hrun & Hr & Hp & Hz).
  assert (Ho : forall p, p <> dir -> ~ in_reach w dir p -> same_path w w' p).
  { intros p H1 H2. eapply prunes_outside; [exact Hp|]. intros [|[]]; done. }
  exists r, w'. split_and!; [done|done|done| |done]. intros Hl p H1 H2. apply Ho; [done|].
  intros H3. by apply H2, (in_reach_below w).
Qed.

(** What a link leads to is deleted: a directory that holds a link to another
    directory is not removed, and the files of the other one are. *)
Definition linked_tree : world :=
  set_links {[ "/tmp/a/l"%string := "/home"%string ]}
    (set_modes (list_to_map [("/tmp/a"%string, 16893); ("/home"%string, 16893); ("/tmp/a/l"%string, 41471)])
      (set_fs {[ "/home/f"%string := [65] ]} (fresh_world [] []))).

Lemma delete_through_link :
  exists w', delete_directory (Some "/tmp/a"%string) linked_tree = Ret (-1) w' /\
    w_fs linked_tree !! "/home/f"%string = Some [65] /\ w_fs w' !! "/home/f"%string = None /\
    mode_of w' "/tmp/a/l"%string = Some 41471.
Proof. eexists. split_and!; vm_compute; reflexivity. Qed.

(** The test [st_mode & S_IFDIR] is true of sockets and block devices: the
    walk calls [rmdir] on them, which fails, so a directory that holds one is
    never deleted and the call answers -1. *)
Theorem delete_directory_stuck w dir name :
  stuck w (dir +:+ "/" +:+ name) -> name_in dir (dir +:+ "/" +:+ name) = Some name ->
  exists w', delete_directory (Some dir) w = Ret (-1) w' /\
    mode_of w' (dir +:+ "/" +:+ name) = mode_of w (dir +:+ "/" +:+ name).
Proof.
  intros Hs Hn. set (p := dir +:+ "/" +:+ name) in *.
  assert (Hne : p <> dir).
  { intros Hp. assert (Hl : String.length p = String.length dir) by (by rewrite Hp).
    unfold p in Hl. rewrite !length_string_app in Hl. cbn in Hl. lia. }
  destruct (wp_run _ _ _ (delete_directory_spec w dir (fun q => q = p) ltac:(by intros q ->)))
    as (r & w' & Hrun & Hr & Hp & Hz).
  assert (Hm : mode_of w' p = mode_of w p).
  { eapply prunes_outside; [exact Hp|]. intros [?|[_ []]]; done. }
  exists w'. split; [|done]. destruct Hr as [-> | ->]; [|done]. exfalso. destruct (Hz eq_refl) as [_ He].
  apply (not_elem_of_nil name). rewrite <- He. apply elem_of_entries. split; [|done].
  fold p. rewrite Hm. destruct Hs as (m & -> & _). by eexists.
Qed.

Lemma delete_directory_stuck_witness :
  exists w', delete_directory (Some "/tmp/a"%string) (set_modes (list_to_map [("/tmp/a"%string, 16893);
    ("/tmp/a/s"%string, S_IFSOCK)]) (fresh_world [] [])) = Ret (-1) w'.
Proof.
  destruct (delete_directory_stuck (set_modes (list_to_map [("/tmp/a"%string, 16893);
    ("/tmp/a/s"%string, S_IFSOCK)]) (fresh_world [] [])) "/tmp/a" "s") as (w' & H & _).
  - exists S_IFSOCK. by vm_compute.
  - reflexivity.
  - exists w'. exact H.
Defined.

(** ** Counting *)

(** The entries the loops over a directory take: not hidden, and with the
    bit [S_IFREG] in their mode. *)
Definition taken (w : world) (dir name : string) : bool :=
  negb (hidden name) &&
  match mode_of w (dir +:+ "/" +:+ name) with Some m => has_flag m S_IFREG | None => false end.

Definition taken_names (w : world) (dir : string) (names : list string) : list string :=
  List.filter (taken w dir) names.

(** The environment's answers and the console do not matter for the tree. *)
Lemma env_step_mode w w' p : env_step w w' -> mode_of w' p = mode_of w p.
Proof. by intros (o & x & ->). Qed.

Lemma env_step_taken w w' dir name : env_step w w' -> taken w' dir name = taken w dir name.
Proof. intros H. unfold taken. by rewrite (env_step_mode _ _ _ H). Qed.

Lemma env_step_taken_names w w' dir names :
  env_step w w' -> taken_names w' dir names = taken_names w dir names.
Proof. intros H. apply List.filter_ext. intros name. by apply env_step_taken. Qed.

(** The names the walk can [stat]. *)
Definition names_exist (w : world) (dir : string) (names : list string) : Prop :=
  forall name, name ∈ names -> hidden name = false -> is_Some (mode_of w (dir +:+ "/" +:+ name)).

Lemma listing_exist w dir : names_exist w dir (listing w dir).
Proof.
  intros name [->|[->|Hn]%elem_of_cons]%elem_of_cons; [done..|]. intros _. by apply elem_of_entries in Hn as [? _].
Qed.

(** What a walk over [names] answers: it fails with -1, or it has counted the
    names to be taken. *)
Definition walked (w : world) (dir : string) (names : list string) (count : Z) (rc : option Z * Z) (w' : world) : Prop :=
  env_step w w' /\ (rc.1 = None \/ rc.1 = Some (-1)) /\
  (rc.1 = None -> rc.2 = u32 (count + Z.of_nat (length (taken_names w dir names)))) /\
  (oracle_ok w -> names_exist w dir names -> rc.1 = None /\ oracle_ok w').

Lemma oracle_ok_env w t s : oracle_ok w -> oracle_ok (set_out ((t, s) :: w_out w) w).
Proof. done. Qed.

Lemma walked_step w w1 dir names count count' rc w' name :
  env_step w w1 -> (oracle_ok w -> oracle_ok w1) ->
  u32 count' = u32 (count + (if taken w dir name then 1 else 0)) ->
  walked w1 dir names count' rc w' -> walked w dir (name :: names) count rc w'.
Proof.
  intros H1 Ho1 Hc (H2 & Hrc & Hn & Ho). split_and!; [by eapply env_step_trans|done| |].
  - intros Hr. rewrite (Hn Hr), (env_step_taken_names w w1) by done.
    rewrite <- u32_add_l, Hc, u32_add_l. f_equal. unfold taken_names. cbn [List.filter].
    destruct (taken w dir name); cbn [length]; lia.
  - intros Hok Hex. apply Ho; [auto|]. intros n Hin Hh. rewrite (env_step_mode w w1) by done.
    apply Hex; [set_solver|done].
Qed.

Lemma walked_failed w w' dir name names count :
  hidden name = false -> env_step w w' ->
  (oracle_ok w -> is_Some (mode_of w (dir +:+ "/" +:+ name)) -> False) ->
  walked w dir (name :: names) count (Some (-1), count) w'.
Proof.
  intros Hh He Hno. split_and!; [done|by right|done|]. intros Hok Hex. exfalso. apply Hno; [done|].
  apply Hex; [set_solver|done].
Qed.

Lemma count_names_spec names : forall w dir count,
  0 <= count < 2 ^ 32 -> wp (count_names names dir count) (walked w dir names count) w.
Proof.
  induction names as [|name names IH]; intros w dir count Hc; cbn [count_names].
  { apply wp_ret. split_and!; [apply env_step_refl|by left| |done].
    intros _. cbn. by rewrite Z.add_0_r, u32_small. }
  destruct (hidden name) eqn:Hh.
  { eapply wp_mono; [by apply IH|]. intros rc w' Hw. eapply walked_step; [apply env_step_refl|done| |exact Hw].
    unfold taken. rewrite Hh. cbn. by rewrite Z.add_0_r. }
  unfold asprintf. apply wp_bind, wp_bind, wp_answer.
  apply wp_ret. destruct (hd 0 (w_oracle w) <? 0) eqn:Ea.
  { apply wp_ret, walked_failed; [done|apply env_asked|intros ? _; by eapply oracle_ok_refused]. }
  unfold sys_stat. apply wp_bind, wp_bind, wp_answer.
  destruct (hd 0 (w_oracle (asked w)) <? 0) eqn:Eb; [apply wp_ret|apply wp_gets].
  { apply wp_bind, wp_write, wp_ret.
    apply walked_failed; [done| |intros ? _; eapply (oracle_ok_refused (asked w)); [by apply oracle_ok_tl|done]].
    eapply env_step_trans; [apply env_asked|]. eapply env_step_trans; [apply env_asked|apply env_write]. }
  change (mode_of (asked (asked w)) (dir +:+ "/" +:+ name)) with (mode_of w (dir +:+ "/" +:+ name)).
  assert (H2 : env_step w (asked (asked w))) by (eapply env_step_trans; apply env_asked).
  destruct (mode_of w (dir +:+ "/" +:+ name)) as [m|] eqn:Em.
  - assert (Ht : taken w dir name = has_flag m S_IFREG) by (unfold taken; by rewrite Hh, Em).
    eapply wp_mono; [apply IH; case_match; [apply u32_range|done]|]. intros rc w' Hw.
    eapply walked_step; [exact H2|intros ?; by do 2 apply oracle_ok_tl| |exact Hw].
    rewrite Ht. destruct (has_flag m S_IFREG); [|by rewrite Z.add_0_r].
    pose proof (u32_add_l (count + 1) 0) as Hu. by rewrite !Z.add_0_r in Hu.
  - apply wp_bind, wp_write, wp_ret.
    apply walked_failed; [done| |intros _ Hs; rewrite Em in Hs; by destruct Hs].
    eapply env_step_trans; [exact H2|apply env_write].
Qed.

(** A descriptor taken and given back again. *)
Lemma env_step_fds w w' fd path :
  env_step (set_fds (<[fd := path]> (w_fds w)) w) w' -> w_fds w !! fd = None ->
  env_step w (set_fds (delete fd (w_fds w')) w').
Proof.
  intros (o & x & ->) Hfd. exists o, x. cbn. rewrite delete_insert_id by done. by destruct w.
Qed.

Lemma opendir_spec w dir :
  wp (opendir dir) (fun r w' =>
    (r = None /\ w' = asked w /\ (oracle_ok w -> dir_exists w dir = false)) \/
    (r = Some (fresh_fd (w_fds w), listing w dir) /\ dir_exists w dir = true /\ 0 <= hd 0 (w_oracle w) /\
       w' = set_fds (<[fresh_fd (w_fds w) := dir]> (w_fds w)) (asked w))) w.
Proof.
  unfold opendir. apply wp_bind, wp_answer. destruct (hd 0 (w_oracle w) <? 0) eqn:Ea.
  { apply wp_ret. left. split_and!; [done|done|]. intros Ho. exfalso. by eapply oracle_ok_refused. }
  apply wp_bind, wp_gets. change (dir_exists (asked w) dir) with (dir_exists w dir).
  change (listing (asked w) dir) with (listing w dir). destruct (dir_exists w dir) eqn:Ed; [|apply wp_ret; by left].
  apply wp_bind, wp_gets, wp_bind, wp_modify, wp_ret. right. by apply Z.ltb_ge in Ea.
Qed.

Lemma closedir_spec w fd :
  wp (closedir fd) (fun r w' => w' = set_fds (delete fd (w_fds w)) (asked w) /\ (r = 0 \/ r = -1) /\
    (oracle_ok w -> r = 0 /\ oracle_ok w')) w.
Proof.
  unfold closedir, ask_status. apply wp_bind, wp_modify, wp_bind, wp_answer, wp_ret. split; [done|].
  change (w_oracle (set_fds _ w)) with (w_oracle w). destruct (hd 0 (w_oracle w) <? 0) eqn:Ea.
  - split; [by right|]. intros Ho. exfalso. by eapply oracle_ok_refused.
  - split; [by left|]. intros Ho. split; [done|]. exact (oracle_ok_tl w Ho).
Qed.

Lemma count_files_spec w dir count :
  0 <= count < 2 ^ 32 ->
  wp (count_files_directory count dir) (fun rc w' => env_step w w' /\ (rc.1 = 0 \/ rc.1 = -1) /\
    (rc.1 = 0 -> dir_exists w dir = true /\ rc.2 = u32 (count + Z.of_nat (length (taken_names w dir (entries_of w dir))))) /\
    (oracle_ok w -> dir_exists w dir = true -> rc.1 = 0 /\ oracle_ok w')) w.
Proof.
  intros Hc. unfold count_files_directory. apply wp_bind. eapply wp_mono; [apply opendir_spec|].
  intros d w1 [(-> & -> & Hno)|(-> & Hd & _ & ->)].
  { apply wp_bind, wp_write, wp_ret. split_and!; [|by right|done|intros Ho Hd; by rewrite Hno in Hd].
    eapply env_step_trans; [apply env_asked|apply env_write]. }
  set (fd := fresh_fd (w_fds w)). set (w1 := set_fds _ _). apply wp_bind.
  eapply wp_mono; [by apply count_names_spec|]. intros [f c] w2 (H1 & Hf & Hn & Ho). cbn in Hf, Hn, Ho.
  assert (Hok : oracle_ok w -> f = None /\ oracle_ok w2)
    by (intros Hw; apply Ho; [exact (oracle_ok_tl w Hw)|apply (listing_exist w)]).
  assert (H2 : env_step w (set_fds (delete fd (w_fds w2)) (asked w2))).
  { eapply env_step_trans; [apply env_asked|]. eapply env_step_trans; [apply (env_step_fds _ w2 fd dir)|].
    - exact H1.
    - apply fresh_fd_fresh.
    - apply env_asked. }
  destruct Hf as [-> | ->]; apply wp_bind; (eapply wp_mono; [apply closedir_spec|]); intros r w3 (-> & Hr & Hcl).
  - destruct Hr as [-> | ->]; cbn [Z.ltb Z.compare].
    + apply wp_ret. split_and!; [exact H2|by left| |].
      * intros _. split; [done|]. cbn. by apply Hn.
      * intros [_ Hw]%Hok _. split; [done|by apply Hcl].
    + apply wp_bind, wp_write, wp_ret. split_and!; [|by right|done|].
      * eapply env_step_trans; [exact H2|apply env_write].
      * intros [_ Hw]%Hok. by destruct (Hcl Hw).
  - apply wp_ret. split_and!; [exact H2|by right|done|]. by intros [? _]%Hok.
Qed.

(** [count_files_directory] returns -1, or 0 after adding to the counter
    exactly the number of visible entries of the directory that pass the test
    [st_mode & S_IFREG]; when the path is a directory and the environment
    grants what it is asked for it is 0.  Nothing else changes. *)
Theorem count_files_directory_correct w dir count :
  0 <= count < 2 ^ 32 ->
  exists r c w', count_files_directory count dir w = Ret (r, c) w' /\ env_step w w' /\ (r = 0 \/ r = -1) /\
    (r = 0 -> dir_exists w dir = true /\ c = u32 (count + Z.of_nat (length (taken_names w dir (entries_of w dir))))) /\
    (oracle_ok w -> dir_exists w dir = true -> r = 0).
Proof.
  intros Hc. destruct (wp_run _ _ _ (count_files_spec w dir count Hc)) as ([r c] & w' & Hrun & H1 & H2 & H3 & H4).
  exists r, c, w'. split_and!; [done..|]. intros Ho Hd. by destruct (H4 Ho Hd).
Qed.

(** Two files, one of them hidden, and a directory. *)
Definition demo_tree (oracle : list Z) : world :=
  set_fs (list_to_map [("/in/a.txt"%string, [65]); ("/in/.b"%string, [66])])
    (set_modes (list_to_map [("/in"%string, 16893); ("/in/sub"%string, 16893)]) (fresh_world oracle [])).

Lemma count_files_directory_correct_witness :
  exists w', count_files_directory 0 "/in" (demo_tree []) = Ret (0, 1) w'.
Proof.
  destruct (count_files_directory_correct (demo_tree []) "/in" 0) as (r & c & w' & H & _ & _ & Hc & Hr); [lia|].
  assert (r = 0) as -> by (apply Hr; [constructor|reflexivity]). destruct (Hc eq_refl) as [_ ->].
  exists w'. exact H.
Defined.

(** ** A random directory is always the same one *)

Lemma mkdir_spec w path :
  wp (mkdir path) (fun r w' =>
    (r = -1 /\ w' = asked w) \/
    (r = 0 /\ mode_of w path = None /\ w' = set_modes (<[path := 16893]> (w_modes w)) (asked w))) w.
Proof.
  apply wp_bind, wp_ask. intros a. apply wp_bind, wp_gets.
  change (mode_of (asked w) path) with (mode_of w path). destruct (mode_of w path); [apply wp_ret; auto|].
  case_match; [apply wp_ret; auto|]. right. auto.
Qed.

(** [generate_directory_name] leaves the name NULL, so the path is always
    [root/(null)]: [create_random_directory] succeeds only while that
    directory does not exist, and what it then hands out is that path. *)
Theorem create_random_directory_not_random w root :
  exists r p w', create_random_directory root w = Ret (r, p) w' /\ (r = 0 \/ r = -1) /\
    (r = 0 -> p = Some (root +:+ "/(null)") /\ mode_of w (root +:+ "/(null)") = None /\
       dir_exists w' (root +:+ "/(null)") = true) /\
    (r = -1 -> env_step w w').
Proof.
  assert (Hwp : wp (create_random_directory root) (fun rp w' => (rp.1 = 0 \/ rp.1 = -1) /\
    (rp.1 = 0 -> rp.2 = Some (root +:+ "/(null)") /\ mode_of w (root +:+ "/(null)") = None /\
       dir_exists w' (root +:+ "/(null)") = true) /\ (rp.1 = -1 -> env_step w w')) w).
  { unfold create_random_directory. apply wp_bind. change (generate_directory_name None) with (@ret (Z * option string) (0, None)).
    apply wp_ret. cbn [Z.ltb Z.compare show_str default]. unfold asprintf. apply wp_bind, wp_bind, wp_ask. intros a. apply wp_ret.
    change ("/" +:+ "(null)"%string) with "/(null)"%string. destruct (a <? 0).
    - apply wp_bind, wp_write, wp_ret. split_and!; [by right|done|]. intros _.
      eapply env_step_trans; [apply env_asked|apply env_write].
    - apply wp_bind. eapply wp_mono; [apply mkdir_spec|]. intros r w1 [[-> ->]|(-> & Hm & ->)]; cbn [Z.ltb Z.compare].
      + apply wp_bind, wp_write, wp_ret. split_and!; [by right|done|]. intros _.
        eapply env_step_trans; [apply env_asked|]. eapply env_step_trans; [apply env_asked|apply env_write].
      + apply wp_ret. split_and!; [by left| |done]. intros _. split_and!; [done|exact Hm|].
        unfold dir_exists, mode_of. cbn. by rewrite lookup_insert_eq. }
  apply wp_run in Hwp as ([r p] & w' & Hrun & H1 & H2 & H3). exists r, p, w'. by split_and!.
Qed.
