(* ===== verification/Network.v ===== *)
(** * Network: the loopback socket server (network/network.c, network-bsd.c,
    network-linux.c)

    The server listens on two ports of the loopback interface so that the
    resource module can hand out connected sockets.  Sockets are descriptors
    of the world; [bind] and [connect] are recorded with the socket and the
    address they are given.  A thread that is started is recorded; what it runs
    ([start_thread], [accept_thread_start]) is a function of its own. *)

From S2P Require Import Prelude Types CWorld Io Memory Realloc Crypto.

Definition AF_INET : Z := 2.
Definition AF_INET6 : Z := 30.

(** [htons] of a [uint32_t]: the argument is converted to 16 bits. *)
Definition u16 (z : Z) : Z := z mod 2 ^ 16.

(** ** System calls *)

Definition sys_socket (family : Z) : M Z :=
  let! a := ask in
  if a <? 0 then ret (-1)
  else
    let! fds := gets w_fds in
    let fd := fresh_fd fds in
    modify (set_fds (<[fd := "socket"%string]> fds)) ;;; ret fd.

Definition sys_connect (fd family port : Z) : M Z := emit (EvConnect fd family port) ;;; ask_status.
Definition sys_bind (fd family port : Z) : M Z := emit (EvBind fd family port) ;;; ask_status.
Definition sys_listen (fd : Z) : M Z := emit (EvListen fd) ;;; ask_status.

(** [accept(2)]: a new descriptor for the client. *)
Definition sys_accept (fd : Z) : M Z := emit (EvAccept fd) ;;; sys_socket 0.

(** [pthread_create(3)] answers 0 or a positive error number. *)
Definition pthread_create (start : thread_fn) : M Z :=
  let! a := ask in if a <? 0 then ret 35 else emit (EvThread start) ;;; ret 0.

(** ** The port *)

Definition set_ss_port (p : Z) (n : net_statics) : net_statics :=
  MkNet p (net_stop n) (listen_fd4 n) (listen_fd6 n).
Definition set_listen_fd4 (fd : Z) (n : net_statics) : net_statics :=
  MkNet (ss_port n) (net_stop n) fd (listen_fd6 n).
Definition set_listen_fd6 (fd : Z) (n : net_statics) : net_statics :=
  MkNet (ss_port n) (net_stop n) (listen_fd4 n) fd.

Definition get_server_port : M Z := get_mods (fun m => ss_port (m_net m)).

(** ** Connecting: the return value and the descriptor left in [*sockFd] *)

Definition connect_ipv4 : M (Z * Z) :=
  let! ss_port := get_server_port in
  let! sockFd := sys_socket AF_INET in
  if sockFd <? 0 then printf "socket: %s\n" ;;; ret (-1, sockFd)
  else
    let! rtrn := sys_connect sockFd AF_INET (u16 ss_port) in
    if rtrn <? 0 then printf "connect: %s\n" ;;; ret (-1, sockFd) else ret (0, sockFd).

Definition connect_ipv6 : M (Z * Z) :=
  let! ss_port := get_server_port in
  let! sockFd := sys_socket AF_INET6 in
  if sockFd <? 0 then printf "socket: %s\n" ;;; ret (-1, sockFd)
  else
    let! rtrn := sys_connect sockFd AF_INET6 (u16 (u32 (ss_port + 1))) in
    if rtrn <? 0 then printf "connect: %s\n" ;;; ret (-1, sockFd) else ret (0, sockFd).

(** ** The servers (network-bsd.c and network-linux.c, which differ in the
    length field of the address only); [sockFd] is [&listen_fd4] and
    [&listen_fd6] in the one call there is *)

Definition setup_ipv4_tcp_server : M Z :=
  let! sockFd := sys_socket AF_INET in
  mod_net (set_listen_fd4 sockFd) ;;;
  if sockFd <? 0 then printf "Socket: %s\n" ;;; ret (-1)
  else
    let! ss_port := get_server_port in
    let! rtrn := sys_bind sockFd AF_INET (u16 ss_port) in
    if rtrn <? 0 then printf "Bind: %s\n" ;;; ret (-1) else ret 0.

Definition setup_ipv6_tcp_server : M Z :=
  let! sockFd := sys_socket AF_INET6 in
  mod_net (set_listen_fd6 sockFd) ;;;
  if sockFd <? 0 then printf "Socket ipv6: %s\n" ;;; ret (-1)
  else
    let! ss_port := get_server_port in
    let! rtrn := sys_bind sockFd AF_INET6 (u16 (u32 (ss_port + 1))) in
    if rtrn <? 0 then printf "bind 6: %s\n" ;;; ret (-1) else ret 0.

Definition setup_socket_server : M Z :=
  printf "Setting Up Socket Server\n" ;;;
  let! rtrn := setup_ipv4_tcp_server in
  if rtrn <? 0 then printf "Can't set up ipv4 socket server\n" ;;; ret (-1)
  else
    let! rtrn := setup_ipv6_tcp_server in
    if rtrn <? 0 then printf "Can't set up ipv6 socket server\n" ;;; ret (-1) else ret 0.

(** ** The threads *)

Definition accept_client (listenFd : Z) : M Z :=
  let! clientFd := sys_accept listenFd in
  if clientFd <? 0 then printf "accept: %s\n" ;;; ret (-1)
  else sys_close clientFd ;;; ret 0.

(** The loop both threads run, on the listening descriptor [get_fd] reads;
    it is left on a failure or when [stop] is set. *)
Fixpoint accept_loop (fuel : nat) (get_fd : M Z) : M bool :=
  match fuel with
  | O => spin
  | S n =>
      let! stop := get_mods (fun m => net_stop (m_net m)) in
      if stop =? TRUE then ret true
      else
        let! fd := get_fd in
        let! rtrn := sys_listen fd in
        if rtrn <? 0 then printf "listen: %s\n" ;;; ret false
        else
          let! rtrn := accept_client fd in
          if rtrn <? 0 then printf "Can't accept\n" ;;; ret false
          else accept_loop n get_fd
  end.

Definition accept_thread_start (fuel : nat) : M unit :=
  let! _ := accept_loop fuel (get_mods (fun m => listen_fd6 (m_net m))) in ret tt.

(** [pthread_join] of the second thread answers when that thread has ended. *)
Definition start_thread (fuel : nat) : M unit :=
  printf "Starting Socket Server\n" ;;;
  let! rtrn := pthread_create fn_accept_thread_start in
  if rtrn <? 0 then printf "Can't start the IPV6 accept thread\n"
  else
    let! ok := accept_loop fuel (get_mods (fun m => listen_fd4 (m_net m))) in
    if ok : bool then let! _ := ask in ret tt else ret tt.

(** ** Starting the server *)

(** The return value and the port left in [*port]. *)
Definition pick_random_port (port : Z) : M (Z * Z) :=
  let! allocator := get_default_allocator in
  match allocator with
  | None => printf "Failed to get allocator\n" ;;; ret (-1, port)
  | Some allocator =>
      let! output := get_console_writter in
      match output with
      | None => printf "Failed to get console writter\n" ;;; ret (-1, port)
      | Some _ =>
          let! random := get_default_random_generator allocator in
          match random with
          | None => printf "Failed to get random number generator\n" ;;; ret (-1, port)
          | Some random =>
              let! f := need (range random) in
              let! offset := f 10000 in
              match offset with
              | None => printf "Can't generate random number\n" ;;; ret (-1, port)
              | Some offset => ret (0, u32 (1200 + offset))
              end
          end
      end
  end.

Definition select_port_number : M Z :=
  let! old := get_server_port in
  let! '(rtrn, port) := pick_random_port old in
  mod_net (set_ss_port port) ;;;
  if rtrn <? 0 then printf "Can't pick random port\n" ;;; ret (-1) else ret 0.

Definition start_socket_server : M Z :=
  let! rtrn := select_port_number in
  if rtrn <? 0 then printf "Can't select port number\n" ;;; ret (-1)
  else
    let! rtrn := setup_socket_server in
    if rtrn <? 0 then printf "Can't set up socket server\n" ;;; ret (-1)
    else
      let! rtrn := pthread_create fn_start_thread in
      if rtrn <? 0 then printf "Can't start socket server thread\n" ;;; ret (-1) else ret 0.

(** The enum has one value, so the [default] case cannot be reached. *)
Definition setup_network_module (mode : network_mode) : M Z :=
  match mode with
  | SOCKET_SERVER =>
      let! rtrn := start_socket_server in
      if rtrn <? 0 then printf "Can't setup the socket server\n" ;;; ret (-1) else ret 0
  end.

(** ** The port is a port *)

Lemma allocs_alloc o : allocs (fun _ => True) (default_mem_alloc o).
Proof.
  unfold default_mem_alloc. case_match; [by apply allocs_ret|].
  eapply allocs_bind; [apply allocs_malloc|]. intros [l|] _; by apply allocs_ret.
Qed.

Lemma allocs_default_allocator :
  allocs (fun a => a = None \/ a = Some default_allocator) get_default_allocator.
Proof. eapply allocs_bind; [apply allocs_alloc|]. intros [l|] _; apply allocs_ret; auto. Qed.

(** The generator every caller gets: [bytes] is not assigned. *)
Definition default_random : random_generator := MkRandom (Some default_rand_range) None (Some default_seed_prng).

Lemma allocs_default_random :
  allocs (fun g => g = None \/ g = Some default_random) (get_default_random_generator default_allocator).
Proof.
  eapply allocs_bind; [apply allocs_alloc|]. intros [l|] _; [apply allocs_ret; auto|apply allocs_error; auto].
Qed.

Lemma mod_range a b : 0 < b -> 0 <= a mod b <= b - 1.
Proof. intros. pose proof (Z.mod_pos_bound a b). lia. Qed.

(** What [random->range] answers is in the range, ends included. *)
Lemma allocs_default_range n :
  0 <= n < 2 ^ 32 - 1 ->
  allocs (fun r => match r with Some v => 0 <= v <= n | None => True end) (default_rand_range n).
Proof.
  intros Hn. unfold default_rand_range, BN_new.
  eapply allocs_bind; [eapply allocs_bind; [apply allocs_ask|intros a _; by apply (allocs_ret (fun _ => True))]|].
  intros [|] _; [|by apply allocs_error].
  eapply allocs_bind; [eapply allocs_bind; [apply allocs_ask|intros a _; by apply (allocs_ret (fun _ => True))]|].
  intros [|] _; [|by apply allocs_error].
  eapply (allocs_bind (fun r : Z * Z => 0 <= r.2 <= n + 1)).
  { eapply allocs_bind; [apply allocs_ask|]. intros a _. apply allocs_ret. case_match; cbn; [lia|].
    rewrite u32_small by lia. lia. }
  intros [r bound] Hb. cbn in Hb. case_match; [by apply allocs_error|].
  eapply (allocs_bind (fun r : Z * Z => 0 <= r.2 <= n)).
  { eapply allocs_bind; [apply allocs_ask|]. intros a _. apply allocs_ret.
    destruct (a <? 0), (bound =? 0) eqn:E; cbn; try lia. apply Z.eqb_neq in E.
    pose proof (mod_range a bound). lia. }
  intros [r' v] Hv. cbn in Hv. case_match; [by apply allocs_error|].
  eapply (allocs_bind (fun o => o = None \/ o = Some v)).
  { eapply allocs_bind; [apply allocs_ask|]. intros a _. apply allocs_ret. case_match; auto. }
  intros o [-> | ->]; [by apply allocs_error|]. apply allocs_ret. rewrite u32_small; lia.
Qed.

Lemma allocs_pick_random_port old :
  allocs (fun r => (r.1 = 0 /\ 1200 <= r.2 <= 11200) \/ r = (-1, old)) (pick_random_port old).
Proof.
  unfold pick_random_port. eapply allocs_bind; [apply allocs_default_allocator|].
  intros a [-> | ->]; [apply allocs_error; auto|]. eapply allocs_bind; [apply allocs_console|].
  intros [c|] _; [|apply allocs_error; auto]. eapply allocs_bind; [apply allocs_default_random|].
  intros g [-> | ->]; [apply allocs_error; auto|]. cbn [range default_random need].
  eapply (allocs_bind (fun f => f = default_rand_range)); [by apply allocs_ret|]. intros f ->.
  eapply allocs_bind; [by apply allocs_default_range|]. intros [v|] Hv; [|apply allocs_error; auto].
  apply allocs_ret. left. cbn. rewrite u32_small; lia.
Qed.

(** ** Setting up the server *)

Lemma sys_socket_spec w family :
  wp (sys_socket family) (fun r w' =>
    (r = -1 /\ w' = asked w) \/
    (r = fresh_fd (w_fds w) /\ w' = set_fds (<[fresh_fd (w_fds w) := "socket"%string]> (w_fds w)) (asked w))) w.
Proof. apply wp_bind, wp_ask. intros a. case_match; [apply wp_ret; auto|]. right. auto. Qed.

Lemma ask_status_spec w : wp ask_status (fun r w' => (r = 0 \/ r = -1) /\ w' = asked w) w.
Proof. apply wp_bind, wp_ask. intros a. apply wp_ret. case_match; auto. Qed.

Lemma sys_bind_spec w fd family port :
  wp (sys_bind fd family port) (fun r w' =>
    (r = 0 \/ r = -1) /\ w' = asked (set_events (EvBind fd family port :: w_events w) w)) w.
Proof. apply wp_bind, wp_modify, ask_status_spec. Qed.

(** A failing statement: a message and -1. *)
Lemma wp_error (Q : Z -> world -> Prop) w t s :
  Q (-1) (set_out ((t, s) :: w_out w) w) -> wp (write t s ;;; ret (-1)) Q w.
Proof. intros H. apply wp_bind, wp_write, wp_ret, H. Qed.

Section server.
Context (w0 : world).

(** The heap and the resource module are as at the start. *)
Definition same_heap (w : world) : Prop :=
  w_heap w = w_heap w0 /\ w_next w = w_next w0 /\ m_rsrc (w_mods w) = m_rsrc (w_mods w0) /\
  m_file (w_mods w) = m_file (w_mods w0) /\ w_fs w = w_fs w0 /\ w_modes w = w_modes w0.

Lemma setup_ipv4_spec w :
  same_heap w ->
  wp setup_ipv4_tcp_server (fun r w' => same_heap w' /\ (r = 0 \/ r = -1) /\
    (r = 0 -> m_net (w_mods w') = set_listen_fd4 (fresh_fd (w_fds w)) (m_net (w_mods w)) /\
       w_fds w' = <[fresh_fd (w_fds w) := "socket"%string]> (w_fds w) /\
       w_events w' = EvBind (fresh_fd (w_fds w)) AF_INET (u16 (ss_port (m_net (w_mods w)))) :: w_events w)) w.
Proof.
  intros Hw. apply wp_bind. eapply wp_mono; [apply sys_socket_spec|].
  pose proof (fresh_fd_ge (w_fds w)) as Hfd. intros r w1 [[-> ->]|[-> ->]]; apply wp_bind, wp_modify.
  - apply wp_error. split_and!; [done|by right|done].
  - rewrite (proj2 (Z.ltb_ge _ 0)) by lia. apply wp_bind, wp_gets, wp_bind.
    eapply wp_mono; [apply sys_bind_spec|]. intros r w1 [[-> | ->] ->]; cbn [Z.ltb Z.compare].
    + apply wp_ret. split_and!; [done|by left|done].
    + apply wp_error. split_and!; [done|by right|done].
Qed.

Lemma setup_ipv6_spec w :
  same_heap w ->
  wp setup_ipv6_tcp_server (fun r w' => same_heap w' /\ (r = 0 \/ r = -1) /\
    (r = 0 -> m_net (w_mods w') = set_listen_fd6 (fresh_fd (w_fds w)) (m_net (w_mods w)) /\
       w_fds w' = <[fresh_fd (w_fds w) := "socket"%string]> (w_fds w) /\
       w_events w' = EvBind (fresh_fd (w_fds w)) AF_INET6 (u16 (u32 (ss_port (m_net (w_mods w)) + 1))) :: w_events w)) w.
Proof.
  intros Hw. apply wp_bind. eapply wp_mono; [apply sys_socket_spec|].
  pose proof (fresh_fd_ge (w_fds w)) as Hfd. intros r w1 [[-> ->]|[-> ->]]; apply wp_bind, wp_modify.
  - apply wp_error. split_and!; [done|by right|done].
  - rewrite (proj2 (Z.ltb_ge _ 0)) by lia. apply wp_bind, wp_gets, wp_bind.
    eapply wp_mono; [apply sys_bind_spec|]. intros r w1 [[-> | ->] ->]; cbn [Z.ltb Z.compare].
    + apply wp_ret. split_and!; [done|by left|done].
    + apply wp_error. split_and!; [done|by right|done].
Qed.
End server.

(** The two descriptors are open and distinct, the first is bound to [port]
    and the second to [port + 1]; a thread may have been started after that. *)
Definition listening (w w' : world) : Prop :=
  exists port started, 1200 <= port <= 11200 /\
    let fd4 := fresh_fd (w_fds w) in
    let fd6 := fresh_fd (<[fd4 := "socket"%string]> (w_fds w)) in
    m_net (w_mods w') = MkNet port (net_stop (m_net (w_mods w))) fd4 fd6 /\ fd4 <> fd6 /\
    w_fds w' = <[fd6 := "socket"%string]> (<[fd4 := "socket"%string]> (w_fds w)) /\
    w_events w' = (if started : bool then [EvThread fn_start_thread] else []) ++
      EvBind fd6 AF_INET6 (port + 1) :: EvBind fd4 AF_INET port :: w_events w.

Lemma u16_port p : 0 <= p < 2 ^ 16 -> u16 p = p.
Proof. intros. unfold u16. by apply Z.mod_small. Qed.

(** What every step of the set-up keeps. *)
Definition unserved (w w' : world) : Prop :=
  (forall l o, w_heap w !! l = Some o -> w_heap w' !! l = Some o) /\ (w_next w <= w_next w')%positive /\
  (heap_wf w -> heap_wf w') /\ m_rsrc (w_mods w') = m_rsrc (w_mods w) /\ m_file (w_mods w') = m_file (w_mods w) /\
  w_fs w' = w_fs w /\ w_modes w' = w_modes w.

Lemma same_heap_unserved w w1 w2 : unserved w w1 -> same_heap w1 w2 -> unserved w w2.
Proof.
  intros (H1 & H2 & H3 & H4 & H5 & H6 & H7) (S1 & S2 & S3 & S4 & S5 & S6). split_and!; [| | |congruence..].
  - intros l o Hl. rewrite S1. auto.
  - by rewrite S2.
  - intros Hwf l Hl. rewrite S1. apply (H3 Hwf). by rewrite <- S2.
Qed.

Lemma start_socket_server_spec w :
  heap_wf w ->
  wp start_socket_server (fun r w' => (r = 0 \/ r = -1) /\ unserved w w' /\ (r = 0 -> listening w w')) w.
Proof.
  intros Hwf. unfold start_socket_server, select_port_number. apply wp_bind, wp_bind, wp_gets, wp_bind.
  eapply wp_mono; [by apply allocs_pick_random_port|]. intros [r port] w1 [H1 Hport]. apply wp_bind, wp_modify.
  set (w2 := set_mods _ w1).
  assert (H2 : unserved w w2).
  { destruct H1 as [A1 A2 A3 (_ & B1 & _ & _ & _ & _ & _ & B2 & B3)]. split_and!; [done..| | |done|done];
      cbn; by rewrite B3. }
  assert (Hev : w_events w2 = w_events w /\ w_fds w2 = w_fds w /\
    m_net (w_mods w2) = set_ss_port port (m_net (w_mods w))).
  { destruct H1 as [_ _ _ (E1 & _ & E2 & _ & _ & _ & _ & _ & E3)]. split_and!; [done..|]. cbn. by rewrite E3. }
  destruct Hev as (E1 & E2 & E3). clearbody w2.
  destruct Hport as [[Hr Hp]|[= -> ->]]; cbn in *.
  2: { apply wp_error. apply wp_error. split_and!; [by right|exact H2|done]. }
  subst r. apply wp_ret. cbn [Z.ltb Z.compare]. unfold setup_socket_server. apply wp_bind, wp_bind, wp_write, wp_bind.
  set (w3 := set_out _ w2). assert (S3 : same_heap w3 w3) by (by split_and!).
  eapply wp_mono; [by apply (setup_ipv4_spec w3)|]. intros r w4 (S4 & [-> | ->] & H4); cbn [Z.ltb Z.compare].
  2: { apply wp_error, wp_error. split_and!; [by right|by apply (same_heap_unserved _ w3)|done]. }
  destruct (H4 eq_refl) as (N4 & F4 & V4). apply wp_bind.
  eapply wp_mono; [by apply (setup_ipv6_spec w3)|]. intros r w5 (S5 & [-> | ->] & H5); cbn [Z.ltb Z.compare].
  2: { apply wp_error, wp_error. split_and!; [by right|by apply (same_heap_unserved _ w3)|done]. }
  destruct (H5 eq_refl) as (N5 & F5 & V5). apply wp_ret. cbn [Z.ltb Z.compare].
  assert (Hdone : forall w6 (started : bool), w_heap w6 = w_heap w5 -> w_next w6 = w_next w5 -> w_mods w6 = w_mods w5 ->
    w_fds w6 = w_fds w5 -> w_fs w6 = w_fs w5 -> w_modes w6 = w_modes w5 ->
    w_events w6 = (if started then [EvThread fn_start_thread] else []) ++ w_events w5 ->
    (0 = 0 \/ 0 = -1) /\ unserved w w6 /\ (0 = 0 -> listening w w6)).
  { intros w6 started X1 X2 X3 X4 X5 X6 X7. split; [by left|]. split.
    - apply (same_heap_unserved _ w3); [done|]. destruct S5 as (Y1 & Y2 & Y3 & Y4 & Y5 & Y6).
      split_and!; congruence.
    - intros _. exists port, started. split; [done|]. rewrite X3, X4, X7, N5, F5, V5, N4, F4, V4. cbn. rewrite E1, E2, E3. cbn.
      split_and!; [done| |done|].
      + intros Heq. pose proof (fresh_fd_fresh (<[fresh_fd (w_fds w):="socket"%string]> (w_fds w))) as Hf.
        rewrite <- Heq, lookup_insert_eq in Hf. done.
      + rewrite u32_small, !u16_port by lia. done. }
  apply wp_bind. unfold pthread_create. apply wp_bind, wp_ask. intros a. case_match; [apply wp_ret|apply wp_bind].
  - cbn [Z.ltb Z.compare]. apply wp_ret. by apply (Hdone _ false).
  - apply wp_modify, wp_ret. cbn [Z.ltb Z.compare]. apply wp_ret. by apply (Hdone _ true).
Qed.

Lemma setup_network_spec w :
  heap_wf w ->
  exists r w', setup_network_module SOCKET_SERVER w = Ret r w' /\ (r = 0 \/ r = -1) /\
    unserved w w' /\ (r = 0 -> listening w w').
Proof.
  intros Hwf. apply wp_run. unfold setup_network_module. apply wp_bind.
  eapply wp_mono; [by apply start_socket_server_spec|]. intros r w' ([-> | ->] & H1 & H2); cbn [Z.ltb Z.compare].
  - apply wp_ret. auto.
  - apply wp_error. split_and!; [by right|exact H1|done].
Qed.

(** (C25) Setting up the network module returns 0 or -1 on every behaviour of the
    environment and keeps the heap, the files and the other modules'
    variables.  After 0, the server's port lies between 1200 and 11200, so
    both it and its successor fit the 16 bits of an address; the two
    descriptors the module keeps are distinct open sockets, the IPv4 one is
    bound to the port and then the IPv6 one to its successor. *)
Theorem setup_network_correct w :
  heap_wf w ->
  exists r w', setup_network_module SOCKET_SERVER w = Ret r w' /\ (r = 0 \/ r = -1) /\
    unserved w w' /\ (r = 0 -> listening w w').
Proof. apply setup_network_spec. Qed.

Lemma setup_network_correct_witness :
  exists w', setup_network_module SOCKET_SERVER (fresh_world [0; 0; 0; 0; 0; 0; 77; 0] []) = Ret 0 w' /\
    ss_port (m_net (w_mods w')) = 1277 /\ listening (fresh_world [0; 0; 0; 0; 0; 0; 77; 0] []) w'.
Proof.
  destruct (setup_network_correct (fresh_world [0; 0; 0; 0; 0; 0; 77; 0] [])) as (r & w' & Hrun & _ & _ & Hl).
  { apply fresh_world_ok. repeat constructor; lia. }
  exists w'. pose proof Hrun as Hrun'. vm_compute in Hrun'. injection Hrun' as <- <-. split_and!; [exact Hrun|done|].
  by apply Hl.
Defined.

(** [pthread_create] reports a failure with a positive number, which
    [rtrn < 0] does not see: the module says it is set up although no thread
    accepts connections. *)
Theorem network_ignores_thread_failure :
  exists oracle w', setup_network_module SOCKET_SERVER (fresh_world oracle []) = Ret 0 w' /\
    (forall t, EvThread t ∉ w_events w').
Proof.
  exists [0; 0; 0; 0; 0; 0; 0; 0; 0; 0; 0; 0; -1]. eexists. split; [vm_compute; reflexivity|]. intros t. cbn.
  rewrite !elem_of_cons, elem_of_nil. naive_solver.
Qed.

(** When [connect] fails, the descriptor that was opened for it is neither
    closed nor forgotten: both functions leave it in [*sockFd] and return -1,
    and the descriptor table has grown by one. *)
Theorem connect_failure_leaks w fd w' :
  connect_ipv4 w = Ret (-1, fd) w' \/ connect_ipv6 w = Ret (-1, fd) w' ->
  fd = -1 /\ w_fds w' = w_fds w \/ fd = fresh_fd (w_fds w) /\ w_fds w' = <[fd := "socket"%string]> (w_fds w).
Proof.
  assert (Hgo : forall family port,
    wp (let! sockFd := sys_socket family in
        if sockFd <? 0 then printf "socket: %s\n" ;;; ret (-1, sockFd)
        else let! rtrn := sys_connect sockFd family port in
             if rtrn <? 0 then printf "connect: %s\n" ;;; ret (-1, sockFd) else ret (0, sockFd))
      (fun rf w' => rf.2 = -1 /\ w_fds w' = w_fds w \/
         rf.2 = fresh_fd (w_fds w) /\ w_fds w' = <[rf.2 := "socket"%string]> (w_fds w)) w).
  { intros family port. apply wp_bind. eapply wp_mono; [apply sys_socket_spec|].
    pose proof (fresh_fd_ge (w_fds w)) as Hfd. intros r w1 [[-> ->]|[-> ->]]; cbn [Z.ltb Z.compare].
    - apply wp_bind, wp_write, wp_ret. by left.
    - rewrite (proj2 (Z.ltb_ge _ 0)) by lia. apply wp_bind, wp_bind, wp_modify.
      eapply wp_mono; [apply ask_status_spec|]. intros r w1 [_ ->].
      case_match; [apply wp_bind, wp_write|]; apply wp_ret; by right. }
  intros [H|H]; [pose proof (Hgo AF_INET (u16 (ss_port (m_net (w_mods w))))) as Hw
                |pose proof (Hgo AF_INET6 (u16 (u32 (ss_port (m_net (w_mods w)) + 1)))) as Hw];
    unfold wp in Hw; [unfold connect_ipv4 in H|unfold connect_ipv6 in H];
    erewrite bind_eq in H by reflexivity; cbv zeta beta in Hw; rewrite H in Hw; exact Hw.
Qed.
