(* ===== verification/Resource.v ===== *)
(** * Resource: descriptors, sockets and paths (resource/resource.c)

    The module hands out resources in one of two ways: made anew for every
    request ([*_nocached]) or taken from pools in shared memory that are
    filled when the module is set up ([*_cached]).  A block of a pool points
    to a [resource_ctx], which points to the resource itself: four bytes for
    a descriptor or a socket, a buffer of [PATH_MAX + 1] bytes for a path.
    Which way is used is a matter of the function pointers of the interface
    ([rsrc_iface]).

    A [char **] or [int32_t *] argument is given by the pointer found there
    (for [char **] the answer says what is left there). *)

From Stdlib Require Import Ascii.
From S2P Require Import Prelude Types CWorld Io Memory Realloc Crypto Utils Dirs Network.

Definition load_resource (p : ptr) : M resource_ctx :=
  let! o := load p in match o with OResource r => ret r | _ => crash end.

(** The [int32_t] at [p]. *)
Definition load_i32 (p : ptr) : M Z := let! z := load_uint p 4 in ret (i32 z).

(** [open(path, O_RDWR)] of an existing file, all of which are writable. *)
Definition open_rdwr (path : string) : M Z := open_rdonly path.

Section resource.
Context (PATH_MAX : Z).

(** The objects most functions start with: a console writter, the default
    allocator and the default random generator; [e] is what they answer when
    one of them cannot be had. *)
Definition with_allocator {A} (e : A) (k : memory_allocator -> M A) : M A :=
  let! output := get_console_writter in
  match output with
  | None => printf "Failed to get console writter\n" ;;; ret e
  | Some _ =>
      let! allocator := get_default_allocator in
      match allocator with
      | None => write ERROR "Failed to get default memory allocator\n" ;;; ret e
      | Some allocator => k allocator
      end
  end.

Definition with_random {A} (e : A) (k : random_generator -> memory_allocator -> M A) : M A :=
  with_allocator e (fun allocator =>
    let! random := get_default_random_generator allocator in
    match random with
    | None => write ERROR "Failed to get random number generator\n" ;;; ret e
    | Some random => k random allocator
    end).

(** ** Resources made anew *)

Definition get_dirpath_nocached : M ptr :=
  let! output := get_console_writter in
  match output with
  | None => printf "Failed to get console writter\n" ;;; ret NULL
  | Some _ =>
      let! '(rtrn, path) := create_random_directory "/tmp" in
      if rtrn <? 0 then write ERROR "Can't create directory" ;;; ret NULL
      else match path with Some path => heap_string path | None => ret NULL end
  end.

Definition get_filepath_nocached : M ptr :=
  with_random NULL (fun random allocator =>
    let! '(rtrn, path, size) := create_random_file "/tmp" ".txt" 0 random allocator in
    if rtrn <? 0 then write ERROR "Can't create random file\n" ;;; ret NULL
    else match path with Some path => heap_string path | None => ret NULL end).

Definition get_mountpath_nocached : M ptr := ret NULL.

Definition get_socket_nocached : M Z :=
  with_random (-1) (fun random allocator =>
    let! f := need (range random) in
    let! num := f 1 in
    match num with
    | None => write ERROR "Can't generate random number\n" ;;; ret (-1)
    | Some num =>
        if num =? 0 then let! '(_, sock) := connect_ipv6 in ret sock
        else if num =? 1 then let! '(_, sock) := connect_ipv4 in ret sock
        else write ERROR "Should not get here\n" ;;; ret (-1)
    end).

Definition get_desc_nocached : M Z :=
  with_random (-1) (fun random allocator =>
    let! '(rtrn, path, size) := create_random_file "/tmp" ".txt" 0 random allocator in
    if rtrn <? 0 then write ERROR "Can't create random file\n" ;;; ret (-1)
    else
      let! path := need path in
      let! fd := open_rdwr path in
      if fd <? 0 then write ERROR "Can't open file: %s" ;;; ret (-1) else ret fd).

Definition free_filepath_nocached (path : ptr) : M (Z * ptr) :=
  match path with
  | None => ret (-1, path)
  | Some _ =>
      with_allocator (-1, path) (fun allocator =>
        let! s := load_string path in
        let! rtrn := unlink s in
        if rtrn <? 0 then write ERROR "Can't remove file: %s\n" ;;; ret (-1, path)
        else let! path := free allocator path in ret (0, path))
  end.

Definition free_mountpath_nocached (path : ptr) : M (Z * ptr) :=
  match path with None => ret (-1, path) | Some _ => ret (0, path) end.

Definition free_dirpath_nocached (path : ptr) : M (Z * ptr) :=
  match path with
  | None => ret (-1, path)
  | Some _ =>
      with_allocator (-1, path) (fun allocator =>
        let! s := load_string path in
        let! rtrn := delete_directory (Some s) in
        if rtrn <? 0 then write ERROR "Can't delete directory" ;;; ret (-1, path)
        else let! path := free allocator path in ret (0, path))
  end.

Definition free_socket_nocached (socket_fd : ptr) : M Z :=
  let! fd := load_i32 socket_fd in sys_close fd ;;; ret 0.

Definition free_desc_nocached (fd : ptr) : M Z :=
  let! fd := load_i32 fd in sys_close fd ;;; ret 0.

(** ** Resources from the pools *)

(** The loop of the [free_*_cached] functions: the first block on the list
    whose resource [matches], or [NULL].  The list has fewer blocks than the
    heap has objects. *)
Fixpoint find_block (fuel : nat) (m_blk : ptr) (matches : ptr -> M bool) : M ptr :=
  match fuel with
  | O => spin
  | S n =>
      match m_blk with
      | None => ret NULL
      | Some _ =>
          let! b := load_block m_blk in
          let! resource := load_resource (block_ptr b) in
          let! found := matches (rsrc_ptr resource) in
          if found : bool then ret m_blk else find_block n (sle_next b) matches
      end
  end.

Definition free_cached (pool : ptr) (matches : ptr -> M bool) : M unit :=
  let! p := load_pool pool in
  let! n := gets (fun w => S (size (w_heap w))) in
  let! m_blk := find_block n (allocated_list p) matches in
  match m_blk with
  | Some _ => mem_free_shared_block m_blk pool
  | None => ret tt
  end.

(** [memcmp] of the path and [filepath] over [strlen(filepath)] bytes is 0. *)
Definition memcmp_path (path filepath : ptr) : M bool :=
  let! f := load_cstr filepath in
  let! bs := load_bytes path in
  let! pre := need (get_bytes bs (length f)) in
  ret (bool_decide (pre = f)).

(** [strcmp] of the path and [dirpath] is 0. *)
Definition strcmp_path (path dirpath : ptr) : M bool :=
  let! a := load_cstr path in
  let! b := load_cstr dirpath in
  ret (bool_decide (a = b)).

(** The descriptors at [fd] and [desc] are equal. *)
Definition same_int (fd desc : ptr) : M bool :=
  let! b := load_i32 desc in
  let! a := load_i32 fd in
  ret (a =? b).

Definition free_filepath_cached (path : ptr) : M (Z * ptr) :=
  let! pool := get_mods (fun m => file_pool (m_rsrc m)) in
  free_cached pool (memcmp_path path) ;;; ret (0, path).

Definition free_mountpath_cached (path : ptr) : M (Z * ptr) :=
  let! pool := get_mods (fun m => mount_pool (m_rsrc m)) in
  free_cached pool (strcmp_path path) ;;; ret (0, path).

Definition free_dirpath_cached (path : ptr) : M (Z * ptr) :=
  let! pool := get_mods (fun m => dirpath_pool (m_rsrc m)) in
  free_cached pool (strcmp_path path) ;;; ret (0, path).

Definition free_socket_cached (sock_fd : ptr) : M Z :=
  let! pool := get_mods (fun m => socket_pool (m_rsrc m)) in
  free_cached pool (same_int sock_fd) ;;; ret 0.

Definition free_desc_cached (fd : ptr) : M Z :=
  let! pool := get_mods (fun m => desc_pool (m_rsrc m)) in
  free_cached pool (same_int fd) ;;; ret 0.

(** The common part of the [get_*_cached] functions: the pointer to the
    resource of a block taken from the pool, [None] without one.  [fuel]
    bounds the turns [mem_get_shared_block] waits for a free block. *)
Definition get_cached (fuel : nat) (pool : ptr) : M (option ptr) :=
  let! m_blk := mem_get_shared_block fuel pool in
  match m_blk with
  | None => printf "Can't get shared block\n" ;;; ret None
  | Some _ =>
      let! b := load_block m_blk in
      let! resource := load_resource (block_ptr b) in
      ret (Some (rsrc_ptr resource))
  end.

Definition get_dirpath_cached (fuel : nat) : M ptr :=
  let! pool := get_mods (fun m => dirpath_pool (m_rsrc m)) in
  let! path := get_cached fuel pool in ret (default NULL path).

Definition get_filepath_cached (fuel : nat) : M ptr :=
  let! pool := get_mods (fun m => file_pool (m_rsrc m)) in
  let! path := get_cached fuel pool in ret (default NULL path).

Definition get_mountpath_cached (fuel : nat) : M ptr :=
  let! pool := get_mods (fun m => mount_pool (m_rsrc m)) in
  let! path := get_cached fuel pool in ret (default NULL path).

Definition get_socket_cached (fuel : nat) : M Z :=
  let! pool := get_mods (fun m => socket_pool (m_rsrc m)) in
  let! sock := get_cached fuel pool in
  match sock with None => ret (-1) | Some sock => load_i32 sock end.

Definition get_desc_cached (fuel : nat) : M Z :=
  let! pool := get_mods (fun m => desc_pool (m_rsrc m)) in
  let! fd := get_cached fuel pool in
  match fd with None => ret (-1) | Some fd => load_i32 fd end.

(** ** The interface *)

(** A call through a function pointer of the interface; one that was never
    assigned is [NULL]. *)
Definition through {A} (f : rsrc_interface -> option rsrc_gen_type) (cached nocached : M A) : M A :=
  let! which := get_mods (fun m => f (rsrc_iface (m_rsrc m))) in
  match which with
  | Some CACHE => cached
  | Some NO_CACHE => nocached
  | None => crash
  end.

(** [if(setup == 0)] with the answer [e] of a module that is not set up. *)
Definition when_setup {A} (e : A) (m : M A) : M A :=
  let! setup := get_mods (fun m => rsrc_setup (m_rsrc m)) in
  if setup =? 0 then printf "Setup resource module first\n" ;;; ret e else m.

Definition get_desc (fuel : nat) : M Z :=
  when_setup (-1) (through get_desc_interface (get_desc_cached fuel) get_desc_nocached).

Definition free_desc (fd : ptr) : M Z :=
  when_setup (-1) (through free_desc_interface (free_desc_cached fd) (free_desc_nocached fd)).

Definition get_socket (fuel : nat) : M Z :=
  when_setup (-1) (through get_socket_interface (get_socket_cached fuel) get_socket_nocached).

Definition free_socket (sock_fd : ptr) : M Z :=
  when_setup (-1) (through free_socket_interface (free_socket_cached sock_fd) (free_socket_nocached sock_fd)).

Definition get_mountpath (fuel : nat) : M ptr :=
  when_setup NULL (through get_mountpath_interface (get_mountpath_cached fuel) get_mountpath_nocached).

Definition free_mountpath (path : ptr) : M (Z * ptr) :=
  when_setup (-1, path)
    (through free_mountpath_interface (free_mountpath_cached path) (free_mountpath_nocached path)).

Definition get_dirpath (fuel : nat) : M ptr :=
  when_setup NULL (through get_dirpath_interface (get_dirpath_cached fuel) get_dirpath_nocached).

Definition free_dirpath (path : ptr) : M (Z * ptr) :=
  when_setup (-1, path) (through free_dirpath_interface (free_dirpath_cached path) (free_dirpath_nocached path)).

Definition get_filepath (fuel : nat) : M ptr :=
  when_setup NULL (through get_filepath_interface (get_filepath_cached fuel) get_filepath_nocached).

Definition free_filepath (path : ptr) : M (Z * ptr) :=
  when_setup (-1, path) (through free_filepath_interface (free_filepath_cached path) (free_filepath_nocached path)).

(** ** Filling the pools *)

(** The return value and what is left in [*resource]. *)
Definition init_resource_ctx (size : Z) : M (Z * ptr) :=
  let! allocator := get_default_allocator in
  match allocator with
  | None => printf "Failed to get default memory allocator\n" ;;; ret (-1, NULL)
  | Some allocator =>
      let! resource := shared allocator (OResource (MkResource NULL NULL)) in
      match resource with
      | None => printf "Can't allocate resource context\n" ;;; ret (-1, NULL)
      | Some _ =>
          let! p := shared allocator (zeros size) in
          let! r := load_resource resource in
          store resource (OResource (MkResource (rsrc_m_blk r) p)) ;;;
          match p with
          | None => printf "Can't alloc resource pointer\n" ;;; ret (-1, resource)
          | Some _ => ret (0, resource)
          end
      end
  end.

(** [NX_SLIST_FOREACH(m_blk, list)] with a body that says whether to go on:
    [false] is a [return] out of the loop. *)
Fixpoint foreach_block (fuel : nat) (m_blk : ptr) (body : ptr -> M bool) : M bool :=
  match fuel with
  | O => spin
  | S n =>
      match m_blk with
      | None => ret true
      | Some _ =>
          let! ok := body m_blk in
          if negb ok then ret false
          else
            let! b := load_block m_blk in
            foreach_block n (sle_next b) body
      end
  end.

(** The loop over the free blocks of a new pool, and the pool it returns. *)
Definition fill_pool (pool : ptr) (body : ptr -> M bool) : M ptr :=
  let! p := load_pool pool in
  let! n := gets (fun w => S (size (w_heap w))) in
  let! ok := foreach_block n (free_list p) body in
  if ok : bool then ret pool else ret NULL.

(** [memmove(resource->ptr, bytes)], then the block and the resource point
    to each other. *)
Definition place (m_blk resource : ptr) (bytes : list Z) : M unit :=
  let! r := load_resource resource in
  store_at (rsrc_ptr r) 0 bytes ;;;
  store resource (OResource (MkResource m_blk (rsrc_ptr r))) ;;;
  let! b := load_block m_blk in
  store m_blk (OBlock (MkBlock resource (sle_next b))).

Definition fd_body (path : string) (random : random_generator) (allocator : memory_allocator) (m_blk : ptr) : M bool :=
  let! '(rtrn, resource) := init_resource_ctx 4 in
  if rtrn <? 0 then printf "Can't initialize resource context\n" ;;; ret false
  else
    let! '(rtrn, file_path, size) := create_random_file path ".txt" 0 random allocator in
    if rtrn <? 0 then printf "Can't create random file\n" ;;; ret false
    else
      let! file_path := need file_path in
      let! fd := open_rdwr file_path in
      if fd <? 0 then printf "Can't open newly created file: %s\n" ;;; ret false
      else place m_blk resource (le_bytes 4 fd) ;;; ret true.

Definition file_body (path : string) (random : random_generator) (allocator : memory_allocator) (m_blk : ptr) : M bool :=
  let! '(rtrn, resource) := init_resource_ctx (PATH_MAX + 1) in
  if rtrn <? 0 then printf "Initialize resource context\n" ;;; ret false
  else
    let! '(rtrn, file_path, size) := create_random_file path ".txt" 0 random allocator in
    if rtrn <? 0 then printf "Can't create random file\n" ;;; ret false
    else
      let! file_path := need file_path in
      place m_blk resource (codes file_path) ;;; ret true.

Definition create_fd_pool (path : string) : M ptr :=
  with_random NULL (fun random allocator =>
    let! pool := mem_create_shared_pool 8 POOL_SIZE in
    match pool with
    | None => printf "Can't allocate descriptor memory pool\n" ;;; ret NULL
    | Some _ => fill_pool pool (fd_body path random allocator)
    end).

Definition create_file_pool (path : string) : M ptr :=
  with_random NULL (fun random allocator =>
    let! pool := mem_create_shared_pool 8 POOL_SIZE in
    match pool with
    | None => printf "Can't allocate file path memory pool\n" ;;; ret NULL
    | Some _ => fill_pool pool (file_body path random allocator)
    end).

Definition dirpath_body (path : string) (allocator : memory_allocator) (m_blk : ptr) : M bool :=
  let! resource := shared allocator (OResource (MkResource NULL NULL)) in
  match resource with
  | None => printf "Can't alloc resource object\n" ;;; ret false
  | Some _ =>
      let! p := shared allocator (zeros (PATH_MAX + 1)) in
      let! r := load_resource resource in
      store resource (OResource (MkResource (rsrc_m_blk r) p)) ;;;
      match p with
      | None => printf "Can't alloc resource pointer\n" ;;; ret false
      | Some _ =>
          let! '(rtrn, dir_name) := generate_directory_name None in
          if rtrn <? 0 then printf "Can't generate file path\n" ;;; ret false
          else
            let! dir_path := asprintf (path +:+ "/" +:+ show_str dir_name) in
            match dir_path with
            | None => printf "Can't join paths: %s\n" ;;; ret false
            | Some dir_path => place m_blk resource (codes dir_path) ;;; ret true
            end
      end
  end.

Definition create_dirpath_pool (path : string) : M ptr :=
  let! output := get_console_writter in
  match output with
  | None => printf "Failed to get console writter\n" ;;; ret NULL
  | Some _ =>
      let! pool := mem_create_shared_pool 8 POOL_SIZE in
      match pool with
      | None => printf "Can't allocate dir path memory pool\n" ;;; ret NULL
      | Some _ =>
          let! allocator := get_default_allocator in
          match allocator with
          | None => printf "Failed to get default memory allocator\n" ;;; ret NULL
          | Some allocator => fill_pool pool (dirpath_body path allocator)
          end
      end
  end.

Definition socket_body (allocator : memory_allocator) (m_blk : ptr) : M bool :=
  let! '(rtrn, resource) := init_resource_ctx 4 in
  if rtrn <? 0 then printf "Initialize resource context\n" ;;; ret false
  else
    let! sock := alloc allocator (junk 4) in
    match sock with
    | None => printf "Can't allocate socket\n" ;;; ret false
    | Some _ =>
        let! '(rtrn, fd) := connect_ipv6 in
        store_int sock 4 fd ;;;
        if rtrn <? 0 then
          printf "Can't create socket\n" ;;;
          let! _ := free allocator sock in ret false
        else place m_blk resource (le_bytes 4 fd) ;;; ret true
    end.

Definition create_socket_pool : M ptr :=
  let! pool := mem_create_shared_pool 4 POOL_SIZE in
  match pool with
  | None => printf "Can't allocate socket memory pool\n" ;;; ret NULL
  | Some _ =>
      let! allocator := get_default_allocator in
      match allocator with
      | None => printf "Failed to get default memory allocator\n" ;;; ret NULL
      | Some allocator => fill_pool pool (socket_body allocator)
      end
  end.

(** ** Cleaning up *)

(** The loop of [clean_allocated_file_list]: the block is unmapped, and
    [m_blk] set to [NULL], before the loop asks it for its successor. *)
Fixpoint clean_files (fuel : nat) (allocator : memory_allocator) (m_blk : ptr) : M Z :=
  match fuel with
  | O => spin
  | S n =>
      match m_blk with
      | None => ret 0
      | Some _ =>
          let! b := load_block m_blk in
          let! resource := load_resource (block_ptr b) in
          let! path := load_string (rsrc_ptr resource) in
          let! rtrn := unlink path in
          if rtrn <? 0 then printf "Can't remove temp file\n" ;;; ret (-1)
          else
            let! p := free_shared allocator (rsrc_ptr resource) (PATH_MAX + 1) in
            store (block_ptr b) (OResource (MkResource (rsrc_m_blk resource) p)) ;;;
            let! p := free_shared allocator (block_ptr b) 16 in
            store m_blk (OBlock (MkBlock p (sle_next b))) ;;;
            let! m_blk := free_shared allocator m_blk 16 in
            let! b := load_block m_blk in
            clean_files n allocator (sle_next b)
      end
  end.

Definition clean_allocated_file_list (pool : ptr) : M Z :=
  let! allocator := get_default_allocator in
  match allocator with
  | None => printf "Failed to get default memory allocator\n" ;;; ret (-1)
  | Some allocator =>
      let! p := load_pool pool in
      let! n := gets (fun w => S (size (w_heap w))) in
      clean_files n allocator (allocated_list p)
  end.

Definition clean_file_pool (pool : ptr) : M Z :=
  match pool with
  | None => printf "File pool already clean\n" ;;; ret (-1)
  | Some _ =>
      nx_spinlock_lock pool ;;;
      let! p := load_pool pool in
      let! rtrn :=
        (match allocated_list p with
         | None => ret 0
         | Some _ => clean_allocated_file_list pool
         end) in
      if rtrn <? 0 then printf "Can't clean allocated file list\n" ;;; ret (-1)
      else
        nx_spinlock_unlock pool ;;;
        mem_clean_shared_pool pool ;;;
        ret 0
  end.

Definition cleanup_resource_pools : M Z :=
  let! pool := get_mods (fun m => file_pool (m_rsrc m)) in
  let! rtrn := clean_file_pool pool in
  if rtrn <? 0 then printf "Can't clean file pool\n" ;;; ret (-1) else ret 0.

Definition set_rsrc_setup (v : Z) (r : rsrc_statics) : rsrc_statics :=
  MkRsrc v (desc_pool r) (mount_pool r) (dirpath_pool r) (file_pool r) (socket_pool r) (rsrc_iface r).

Definition cleanup_resource_module : M Z :=
  let! rtrn := cleanup_resource_pools in
  if rtrn <? 0 then printf "Failed to clean resource pools\n" ;;; ret 0
  else mod_rsrc (set_rsrc_setup 0) ;;; ret 0.

(** ** Setting up *)

Definition every_interface (t : rsrc_gen_type) : rsrc_interface :=
  MkInterface (Some t) (Some t) (Some t) (Some t) (Some t) (Some t) (Some t) (Some t) (Some t) (Some t).

Definition set_iface (i : rsrc_interface) (r : rsrc_statics) : rsrc_statics :=
  MkRsrc (rsrc_setup r) (desc_pool r) (mount_pool r) (dirpath_pool r) (file_pool r) (socket_pool r) i.

Definition setup_nocache_interface : M unit := mod_rsrc (set_iface (every_interface NO_CACHE)).
Definition setup_cached_interface : M unit := mod_rsrc (set_iface (every_interface CACHE)).

Definition set_file_pool (p : ptr) (r : rsrc_statics) : rsrc_statics :=
  MkRsrc (rsrc_setup r) (desc_pool r) (mount_pool r) (dirpath_pool r) p (socket_pool r) (rsrc_iface r).
Definition set_socket_pool (p : ptr) (r : rsrc_statics) : rsrc_statics :=
  MkRsrc (rsrc_setup r) (desc_pool r) (mount_pool r) (dirpath_pool r) (file_pool r) p (rsrc_iface r).
Definition set_desc_pool (p : ptr) (r : rsrc_statics) : rsrc_statics :=
  MkRsrc (rsrc_setup r) p (mount_pool r) (dirpath_pool r) (file_pool r) (socket_pool r) (rsrc_iface r).
Definition set_dirpath_pool (p : ptr) (r : rsrc_statics) : rsrc_statics :=
  MkRsrc (rsrc_setup r) (desc_pool r) (mount_pool r) p (file_pool r) (socket_pool r) (rsrc_iface r).

Definition create_resource_pools (path : string) : M Z :=
  printf "Creating resource pools\n" ;;;
  let! p := create_file_pool path in
  mod_rsrc (set_file_pool p) ;;;
  match p with
  | None => printf "Can't create file pool\n" ;;; ret (-1)
  | Some _ =>
      let! p := create_socket_pool in
      mod_rsrc (set_socket_pool p) ;;;
      match p with
      | None => printf "Can't create socket pool\n" ;;; ret (-1)
      | Some _ =>
          let! p := create_fd_pool path in
          mod_rsrc (set_desc_pool p) ;;;
          match p with
          | None => printf "Can't create fd pool\n" ;;; ret (-1)
          | Some _ =>
              let! p := create_dirpath_pool path in
              mod_rsrc (set_dirpath_pool p) ;;;
              match p with
              | None => printf "Can't create dirpath pool\n" ;;; ret (-1)
              | Some _ => ret 0
              end
          end
      end
  end.

(** struct desc_generator: its two members. *)
Record desc_generator := MkDescGen { dg_get_desc : M Z; dg_free_desc : ptr -> M Z }.

Definition get_default_desc_generator (allocator : memory_allocator) : M (option desc_generator) :=
  let! desc_gen := alloc allocator (junk 16) in
  match desc_gen with
  | None => write ERROR "Failed to allocate memory for the descriptor generator\n" ;;; ret None
  | Some _ => ret (Some (MkDescGen get_desc_nocached free_desc_nocached))
  end.

Definition setup_resource_module (type : rsrc_gen_type) (path : option string) : M Z :=
  let! setup := get_mods (fun m => rsrc_setup (m_rsrc m)) in
  if negb (setup =? 0) then printf "Resource module already setup\n" ;;; ret (-1)
  else
    match path with
    | None => printf "Path is NULL\n" ;;; ret (-1)
    | Some path =>
        let! rtrn := setup_network_module SOCKET_SERVER in
        if rtrn <? 0 then printf "Can't start socket server\n" ;;; ret (-1)
        else
          let! rtrn :=
            (match type with
             | CACHE =>
                 let! rtrn := create_resource_pools path in
                 if rtrn <? 0 then printf "Can't create resource pools\n" ;;; ret (-1)
                 else setup_cached_interface ;;; ret 0
             | NO_CACHE => setup_nocache_interface ;;; ret 0
             end) in
          if rtrn <? 0 then ret (-1)
          else mod_rsrc (set_rsrc_setup 1) ;;; ret 0
    end.
End resource.
