(* ===== verification/ResourceCache.v ===== *)
(** * ResourceCache: the pools of the resource module as collections of
    resources

    A filled pool is a pool of Memory.v each block of which leads, over a
    [resource_ctx], to a buffer of its own ([pool_of]).  For the pools of
    descriptors and sockets the module refines the obvious abstract one: a
    stack of free numbers and the numbers handed out. *)

From S2P Require Import Prelude Types CWorld Io Memory Realloc Crypto Utils Dirs Network Resource.

(** ** Representation *)

(** At [pl] there is an unlocked pool with free blocks [fr] and handed out
    blocks [al]; block [b] leads, over the [resource_ctx] at [d b], to the
    buffer at [buf b], which holds [val b]. *)
Definition pool_with (h : gmap loc hobj) (pl : loc) (d : loc -> ptr) (buf : loc -> loc) (val : loc -> list (option Z))
    (fr al : list loc) : Prop :=
  pool_repr h pl 0 d fr al /\
  forall b, b ∈ fr ++ al -> exists rl m, d b = Some rl /\
    h !! rl = Some (OResource (MkResource m (Some (buf b)))) /\ h !! buf b = Some (OBytes (val b)).

Definition pool_of (h : gmap loc hobj) (pl : loc) (buf : loc -> loc) (val : loc -> list (option Z))
    (fr al : list loc) : Prop :=
  exists d, pool_with h pl d buf val fr al.

Lemma pool_repr_block h pl lk d fr al b :
  pool_repr h pl lk d fr al -> b ∈ fr ++ al -> exists nx, h !! b = Some (OBlock (MkBlock (d b) nx)).
Proof.
  intros (p & _ & _ & Hf & Ha & _) [Hb|Hb]%elem_of_app;
    [exact (slist_block _ _ _ _ _ Hf Hb)|exact (slist_block _ _ _ _ _ Ha Hb)].
Qed.

Lemma pool_repr_pool h pl lk d fr al : pool_repr h pl lk d fr al -> exists p, h !! pl = Some (OPool p).
Proof. intros (p & Hp & _). by exists p. Qed.

(** What is neither the pool nor one of its blocks is untouched by a pool
    operation. *)
Lemma pool_of_frame h h' pl buf val fr al fr' al' d :
  pool_with h pl d buf val fr al ->
  pool_repr h' pl 0 d fr' al' -> pool_frame h h' pl (fr ++ al) -> fr' ++ al' ≡ₚ fr ++ al ->
  pool_with h' pl d buf val fr' al'.
Proof.
  intros [Hr Hv] Hr' Hf Hp. split; [done|]. intros b Hb. rewrite Hp in Hb.
  destruct (Hv b Hb) as (rl & m & Hd & H1 & H2). exists rl, m.
  assert (Hout : forall x o, h !! x = Some o -> (forall q, o <> OPool q) -> (forall q, o <> OBlock q) ->
    h' !! x = Some o).
  { intros x o Hx Ho1 Ho2. rewrite <- Hx. apply Hf.
    - intros ->. destruct (pool_repr_pool _ _ _ _ _ _ Hr) as [p Hpl]. rewrite Hpl in Hx. by injection Hx as <-; destruct (Ho1 p).
    - intros Hin. destruct (pool_repr_block _ _ _ _ _ _ _ Hr Hin) as [nx Hbl]. rewrite Hbl in Hx.
      injection Hx as <-. by eapply Ho2. }
  split_and!; [done|by apply Hout|by apply Hout].
Qed.

(** ** Taking a resource *)

Lemma load_resource_eq w l r : w_heap w !! l = Some (OResource r) -> load_resource (Some l) w = Ret r w.
Proof. intros H. unfold load_resource. by rewrite (bind_eq _ _ _ _ _ (load_eq _ _ _ H)). Qed.

Lemma get_cached_run n w pl d buf val b fr al :
  pool_with (w_heap w) pl d buf val (b :: fr) al ->
  exists h', get_cached (S n) (Some pl) w = Ret (Some (Some (buf b))) (set_heap h' w) /\
    pool_with h' pl d buf val fr (b :: al) /\ pool_frame (w_heap w) h' pl ((b :: fr) ++ al).
Proof.
  intros Hw. pose proof Hw as [Hr Hv]. destruct (get_block_spec n _ _ _ _ _ _ Hr) as (h' & Hrun & Hr' & Hf).
  assert (Hp : pool_with h' pl d buf val fr (b :: al)).
  { eapply pool_of_frame; [exact Hw|exact Hr'|exact Hf|]. by rewrite <- Permutation_middle. }
  exists h'. split; [|done]. unfold get_cached. erewrite bind_eq by exact Hrun. cbv beta iota.
  destruct (pool_repr_block _ _ _ _ _ _ b Hr' ltac:(set_solver)) as [nx Hb].
  erewrite bind_eq by (apply load_block_eq; exact Hb). cbn [block_ptr].
  destruct (Hv b ltac:(set_solver)) as (rl & m & Hd & H1 & _). rewrite Hd.
  assert (Hrl : h' !! rl = Some (OResource (MkResource m (Some (buf b))))).
  { rewrite <- H1. apply Hf.
    - intros ->. destruct (pool_repr_pool _ _ _ _ _ _ Hr). congruence.
    - intros Hin. destruct (pool_repr_block _ _ _ _ _ _ _ Hr Hin). congruence. }
  by erewrite bind_eq by (by apply load_resource_eq).
Qed.

Lemma get_cached_spec n w pl buf val b fr al :
  pool_of (w_heap w) pl buf val (b :: fr) al ->
  exists h', get_cached (S n) (Some pl) w = Ret (Some (Some (buf b))) (set_heap h' w) /\
    pool_of h' pl buf val fr (b :: al) /\ pool_frame (w_heap w) h' pl ((b :: fr) ++ al).
Proof.
  intros [d Hd]. destruct (get_cached_run n _ _ _ _ _ _ _ _ Hd) as (h' & Hrun & Hp & Hf).
  exists h'. split_and!; [done|by exists d|done].
Qed.

(** With nothing free the request waits for ever. *)
Lemma get_cached_empty n w pl buf val al :
  pool_of (w_heap w) pl buf val [] al -> get_cached n (Some pl) w = Spin.
Proof. intros (d & Hr & _). apply bind_spin. by eapply get_block_empty. Qed.

(** ** Giving one back *)

Section finding.
Context (w : world) (buf : loc -> loc) (matches : ptr -> M bool) (test : loc -> bool).

Lemma find_block_spec d ls : forall p fuel,
  slist (w_heap w) d p ls -> (length ls < fuel)%nat ->
  (forall b, b ∈ ls -> exists rl m, d b = Some rl /\ w_heap w !! rl = Some (OResource (MkResource m (Some (buf b)))) /\
     matches (Some (buf b)) w = Ret (test b) w) ->
  find_block fuel p matches w = Ret (List.find test ls) w.
Proof.
  induction ls as [|b ls IH]; intros p fuel Hs Hn Hm; (destruct fuel as [|n]; [cbn in Hn; lia|]); cbn [find_block].
  - unfold slist in Hs. by subst p.
  - destruct Hs as (-> & nx & Hb & Hs). destruct (Hm b ltac:(set_solver)) as (rl & m & Hd & Hrl & Ht).
    erewrite bind_eq by (by apply load_block_eq). cbn [block_ptr sle_next]. rewrite Hd.
    erewrite bind_eq by (by apply load_resource_eq). cbn [rsrc_ptr]. erewrite bind_eq by exact Ht.
    cbn [List.find]. destruct (test b); [done|]. apply IH; [done|cbn in Hn; lia|set_solver].
Qed.
End finding.

Lemma find_split {A} (f : A -> bool) ls b :
  List.find f ls = Some b -> exists l1 l2, ls = l1 ++ b :: l2 /\ f b = true /\ forall x, x ∈ l1 -> f x = false.
Proof.
  induction ls as [|a ls IH]; [done|]. cbn. destruct (f a) eqn:E.
  - intros [= <-]. exists [], ls. split_and!; [done..|]. by intros x ?%not_elem_of_nil.
  - intros H. destruct (IH H) as (l1 & l2 & -> & Hb & Hl). exists (a :: l1), l2.
    split_and!; [done..|]. intros x [->|Hx]%elem_of_cons; auto.
Qed.

Lemma free_cached_spec w pl buf val fr al matches test :
  pool_of (w_heap w) pl buf val fr al ->
  (forall b, b ∈ al -> matches (Some (buf b)) w = Ret (test b) w) ->
  match List.find test al with
  | None => free_cached (Some pl) matches w = Ret tt w
  | Some b => exists l1 l2 h', al = l1 ++ b :: l2 /\ (forall x, x ∈ l1 -> test x = false) /\
      free_cached (Some pl) matches w = Ret tt (set_heap h' w) /\
      pool_of h' pl buf val (b :: fr) (l1 ++ l2) /\ pool_frame (w_heap w) h' pl (fr ++ al)
  end.
Proof.
  intros (d & Hr & Hv) Ht. pose proof Hr as (p & Hp & Hlk & Hfr & Hal & Hnd).
  assert (Hfind : free_cached (Some pl) matches w =
    (match List.find test al with Some b => mem_free_shared_block (Some b) (Some pl) | None => ret tt end) w).
  { unfold free_cached. erewrite bind_eq by (by apply load_pool_eq). erewrite bind_eq by reflexivity.
    erewrite bind_eq.
    2: { apply (find_block_spec w buf matches test d al); [exact Hal| |].
         - apply NoDup_app in Hnd as (_ & _ & Hnd). pose proof (slist_length _ _ _ _ Hnd Hal). lia.
         - intros b Hb. destruct (Hv b ltac:(set_solver)) as (rl & m & Hd & H1 & _). exists rl, m.
           split_and!; [done..|]. by apply Ht. }
    by destruct (List.find test al). }
  rewrite Hfind. destruct (List.find test al) as [b|] eqn:E; [|done].
  apply find_split in E as (l1 & l2 & -> & Hb & Hl). exists l1, l2.
  destruct (free_block_spec _ _ _ _ _ _ _ Hr) as (h' & Hrun & Hr' & Hf). exists h'. split_and!; [done..| |done].
  exists d. eapply pool_of_frame; [split; [exact Hr|exact Hv]|exact Hr'|exact Hf|].
  cbn. by rewrite <- (Permutation_middle l1), <- (Permutation_middle fr).
Qed.

(** ** Abstract specification of a pool of numbers *)

Record rpool := MkRpool { r_free : list Z; r_out : list Z }.

Inductive rop := RGet | RFree (z : Z).

Fixpoint remove_first (z : Z) (l : list Z) : list Z :=
  match l with
  | [] => []
  | a :: l' => if z =? a then l' else a :: remove_first z l'
  end.

(** A request is answered with the number on top of the stack; freeing a
    number that is handed out puts it back, freeing any other number does
    nothing; the answer of a free is always 0. *)
Definition rpool_step (a : rpool) (o : rop) : option (rpool * Z) :=
  match o with
  | RGet => match r_free a with [] => None | z :: f => Some (MkRpool f (z :: r_out a), z) end
  | RFree z =>
      if existsb (Z.eqb (i32 z)) (r_out a)
      then Some (MkRpool (i32 z :: r_free a) (remove_first (i32 z) (r_out a)), 0)
      else Some (a, 0)
  end.

Fixpoint rpool_run (a : rpool) (ops : list rop) : option (rpool * list Z) :=
  match ops with
  | [] => Some (a, [])
  | o :: ops' =>
      '(a1, r) ← rpool_step a o;
      '(a2, rs) ← rpool_run a1 ops';
      Some (a2, r :: rs)
  end.

(** The two kinds of numbers the module hands out. *)
Inductive int_kind := KDesc | KSocket.

Definition kind_pool (k : int_kind) (r : rsrc_statics) : ptr :=
  match k with KDesc => desc_pool r | KSocket => socket_pool r end.
Definition kind_get (k : int_kind) (fuel : nat) : M Z :=
  match k with KDesc => get_desc fuel | KSocket => get_socket fuel end.
Definition kind_free (k : int_kind) (p : ptr) : M Z :=
  match k with KDesc => free_desc p | KSocket => free_socket p end.

(** A client frees the number in its own variable at [p]. *)
Definition rcall (k : int_kind) (p : ptr) (o : rop) : M Z :=
  match o with
  | RGet => kind_get k 1
  | RFree z => store_int p 4 z ;;; kind_free k p
  end.

Fixpoint rcalls (k : int_kind) (p : ptr) (ops : list rop) : M (list Z) :=
  match ops with
  | [] => ret []
  | o :: ops' =>
      let! r := rcall k p o in
      let! rs := rcalls k p ops' in
      ret (r :: rs)
  end.

(** ** The representation of a pool of numbers *)

Definition int_at (bs : list (option Z)) (z : Z) : Prop :=
  exists raw, get_bytes bs 4 = Some raw /\ i32 (le_value raw) = z.

(** The module serves requests of kind [k] from the pool at [pl]. *)
Definition serves (k : int_kind) (w : world) (pl : loc) : Prop :=
  let r := m_rsrc (w_mods w) in
  rsrc_setup r <> 0 /\ rsrc_iface r = every_interface CACHE /\ kind_pool k r = Some pl.

Record int_pool (h : gmap loc hobj) (pl p : loc) (a : rpool) : Prop := {
  ip_pool : exists buf val fr al, pool_of h pl buf val fr al /\
    (exists v, (forall b, b ∈ fr ++ al -> int_at (val b) (v b)) /\ map v fr = r_free a /\ map v al = r_out a) /\
    (forall b, b ∈ fr ++ al -> buf b <> p);
  ip_client : exists bs, h !! p = Some (OBytes bs) /\ (4 <= length bs)%nat
}.

Lemma load_i32_eq w l bs z :
  w_heap w !! l = Some (OBytes bs) -> int_at bs z -> load_i32 (Some l) w = Ret z w.
Proof.
  intros Hl (raw & Hr & <-). unfold load_i32, load_uint. rewrite bind_assoc.
  erewrite bind_eq by (by apply load_bytes_eq). rewrite Hr. done.
Qed.

Lemma i32_range z : - 2 ^ 31 <= i32 z < 2 ^ 31.
Proof. unfold i32. pose proof (Z.mod_pos_bound z (2 ^ 32)). case_match; lia. Qed.

Lemma i32_mod z : i32 (z mod 2 ^ 32) = i32 z.
Proof. unfold i32. by rewrite Z.mod_mod by lia. Qed.

Lemma mapM_Some_id (zs : list Z) : mapM id (map Some zs) = Some zs.
Proof. induction zs as [|z zs IH]; [done|]. cbn. cbn in IH. by rewrite IH. Qed.

Lemma int_at_stored z rest : int_at (map Some (le_bytes 4 z) ++ rest) (i32 z).
Proof.
  exists (le_bytes 4 z). split.
  - unfold get_bytes. rewrite decide_True by (rewrite length_app, length_map, length_le_bytes; lia).
    rewrite take_app_length' by (by rewrite length_map, length_le_bytes). apply mapM_Some_id.
  - rewrite le_value_bytes. change (256 ^ Z.of_nat 4) with (2 ^ 32). apply i32_mod.
Qed.

Lemma find_existsb v z (al : list loc) :
  existsb (Z.eqb z) (map v al) = match List.find (fun b => z =? v b) al with Some _ => true | None => false end.
Proof. induction al as [|b al IH]; [done|]. cbn. destruct (z =? v b); [done|]. cbn. exact IH. Qed.

Lemma remove_first_map v z (l1 l2 : list loc) b :
  (forall x, x ∈ l1 -> (z =? v x) = false) -> v b = z ->
  remove_first z (map v (l1 ++ b :: l2)) = map v (l1 ++ l2).
Proof.
  intros Hl <-. induction l1 as [|a l1 IH]; cbn; [by rewrite Z.eqb_refl|].
  rewrite Hl by set_solver. f_equal. apply IH. set_solver.
Qed.

(** ** Refinement *)

(** What a call leaves alone: every object but the pools, their blocks and
    the client's variable. *)
Definition pool_kept (h h' : gmap loc hobj) (p : loc) : Prop :=
  forall l o, l <> p -> (forall q, o <> OPool q) -> (forall q, o <> OBlock q) ->
    h !! l = Some o -> h' !! l = Some o.

Lemma pool_kept_trans h1 h2 h3 p : pool_kept h1 h2 p -> pool_kept h2 h3 p -> pool_kept h1 h3 p.
Proof. intros H1 H2 l o Hl Ho1 Ho2 H. apply H2; auto. Qed.

Lemma frame_kept h h' pl buf val fr al p :
  pool_of h pl buf val fr al -> pool_frame h h' pl (fr ++ al) -> pool_kept h h' p.
Proof.
  intros (d & Hr & _) Hf l o _ Ho1 Ho2 Hl. rewrite <- Hl. apply Hf.
  - intros ->. destruct (pool_repr_pool _ _ _ _ _ _ Hr) as [q Hq]. rewrite Hq in Hl. injection Hl as <-. by eapply Ho1.
  - intros Hin. destruct (pool_repr_block _ _ _ _ _ _ _ Hr Hin) as [nx Hb]. rewrite Hb in Hl.
    injection Hl as <-. by eapply Ho2.
Qed.

(** A call that goes to the cached implementation. *)
Lemma served_cached {A} w (e : A) f cached nocached :
  rsrc_setup (m_rsrc (w_mods w)) <> 0 -> f (rsrc_iface (m_rsrc (w_mods w))) = Some CACHE ->
  when_setup e (through f cached nocached) w = cached w.
Proof.
  intros Hs Hf. unfold when_setup. erewrite bind_eq by reflexivity. rewrite (proj2 (Z.eqb_neq _ 0)) by done.
  unfold through. erewrite bind_eq by reflexivity. by rewrite Hf.
Qed.

Lemma kind_get_eq k w pl n :
  serves k w pl ->
  kind_get k n w = (let! fd := get_cached n (Some pl) in match fd with None => ret (-1) | Some fd => load_i32 fd end) w.
Proof.
  intros (Hs & Hi & Hp). destruct k; cbn in Hp; unfold kind_get, get_desc, get_socket;
    rewrite served_cached by (done || by rewrite Hi).
  - unfold get_desc_cached. erewrite bind_eq by reflexivity. by rewrite Hp.
  - unfold get_socket_cached. erewrite bind_eq by reflexivity. by rewrite Hp.
Qed.

Lemma kind_free_eq k w pl p :
  serves k w pl -> kind_free k p w = (free_cached (Some pl) (same_int p) ;;; ret 0) w.
Proof.
  intros (Hs & Hi & Hp). destruct k; cbn in Hp; unfold kind_free, free_desc, free_socket;
    rewrite served_cached by (done || by rewrite Hi).
  - unfold free_desc_cached. erewrite bind_eq by reflexivity. by rewrite Hp.
  - unfold free_socket_cached. erewrite bind_eq by reflexivity. by rewrite Hp.
Qed.

(** Storing into the client's variable keeps the pool. *)
Lemma pool_of_client h pl buf val fr al p bs bs' :
  h !! p = Some (OBytes bs) -> (forall b, b ∈ fr ++ al -> buf b <> p) ->
  pool_of h pl buf val fr al -> pool_of (<[p := OBytes bs']> h) pl buf val fr al.
Proof.
  intros Hp Hne (d & (q & Hq & Hlk & Hf & Ha & Hnd) & Hv).
  assert (Hother : forall x o, h !! x = Some o -> (forall c, o <> OBytes c) -> <[p := OBytes bs']> h !! x = Some o).
  { intros x o Hx Ho. rewrite lookup_insert_ne; [done|]. intros ->. rewrite Hp in Hx. injection Hx as <-. by eapply Ho. }
  assert (Hkeep : forall ls pp, slist h d pp ls -> slist (<[p := OBytes bs']> h) d pp ls).
  { intros ls pp Hs. refine (slist_frame _ _ _ _ _ _ Hs). intros l Hl.
    destruct (slist_block _ _ _ _ _ Hs Hl) as [nx Hnx]. rewrite Hnx. by apply Hother. }
  exists d. split.
  - exists q. split_and!; [by apply Hother|done|by apply Hkeep|by apply Hkeep|done].
  - intros b Hb. destruct (Hv b Hb) as (rl & m & Hd & H1 & H2). exists rl, m. split_and!; [done|by apply Hother|].
    rewrite lookup_insert_ne; [done|]. by apply not_eq_sym, Hne.
Qed.

Lemma rget_refines k w pl p z f out :
  serves k w pl -> int_pool (w_heap w) pl p (MkRpool (z :: f) out) ->
  exists h', rcall k (Some p) RGet w = Ret z (set_heap h' w) /\ int_pool h' pl p (MkRpool f (z :: out)) /\
    pool_kept (w_heap w) h' p.
Proof.
  intros Hs [(buf & val & fr & al & Hpool & (v & Hv & Hvf & Hva) & Hne) (bs & Hbs & Hlen)]. cbn in Hvf, Hva.
  destruct fr as [|b fr]; [done|]. cbn in Hvf. injection Hvf as Hvb Hvf.
  destruct (get_cached_spec 0 _ _ _ _ _ _ _ Hpool) as (h' & Hrun & Hpool' & Hf).
  pose proof (frame_kept _ _ _ _ _ _ _ p Hpool Hf) as Hk.
  assert (Hsub : forall x, x ∈ fr ++ b :: al -> x ∈ (b :: fr) ++ al) by set_solver.
  exists h'. split_and!; [|split|done].
  - cbn [rcall]. rewrite (kind_get_eq k w pl) by done. erewrite bind_eq by exact Hrun. cbv beta iota.
    destruct Hpool' as (d & _ & Hd). destruct (Hd b ltac:(set_solver)) as (_ & _ & _ & _ & Hb).
    eapply load_i32_eq; [exact Hb|]. rewrite <- Hvb. apply Hv. set_solver.
  - exists buf, val, fr, (b :: al). split_and!; [done| |by auto]. exists v. split_and!; [auto|done|]. cbn. by rewrite Hvb, Hva.
  - exists bs. split; [|done]. rewrite <- Hbs. apply Hf.
    + intros ->. destruct Hpool as (d & (q & Hq & _) & _). congruence.
    + intros Hin. destruct Hpool as (d & Hr & _). destruct (pool_repr_block _ _ _ _ _ _ _ Hr Hin). congruence.
Qed.

Lemma pool_of_not_client h h' pl buf val fr al p bs :
  pool_of h pl buf val fr al -> pool_frame h h' pl (fr ++ al) -> h !! p = Some (OBytes bs) -> h' !! p = Some (OBytes bs).
Proof.
  intros (d & Hr & _) Hf Hp. rewrite <- Hp. apply Hf.
  - intros ->. destruct (pool_repr_pool _ _ _ _ _ _ Hr). congruence.
  - intros Hin. destruct (pool_repr_block _ _ _ _ _ _ _ Hr Hin). congruence.
Qed.

Lemma rfree_refines k w pl p z a a' r :
  serves k w pl -> int_pool (w_heap w) pl p a -> rpool_step a (RFree z) = Some (a', r) ->
  exists h', rcall k (Some p) (RFree z) w = Ret r (set_heap h' w) /\ int_pool h' pl p a' /\
    pool_kept (w_heap w) h' p.
Proof.
  intros Hs [(buf & val & fr & al & Hpool & (v & Hv & Hvf & Hva) & Hne) (bs & Hbs & Hlen)] Hstep.
  set (bs' := map Some (le_bytes 4 z) ++ drop 4 bs). set (h1 := <[p := OBytes bs']> (w_heap w)).
  assert (Hlen' : (4 <= length bs')%nat) by (unfold bs'; rewrite length_app, length_map, length_le_bytes; lia).
  assert (Hpool1 : pool_of h1 pl buf val fr al) by (by eapply pool_of_client).
  assert (Hk1 : pool_kept (w_heap w) h1 p).
  { intros l o Hl _ _ Ho. unfold h1. by rewrite lookup_insert_ne by done. }
  assert (Hp1 : h1 !! p = Some (OBytes bs')) by apply lookup_insert_eq.
  cbn [rcall]. erewrite bind_eq by (by eapply store_int_eq). fold bs' h1. rewrite (kind_free_eq k (set_heap h1 w) pl) by done.
  pose proof (free_cached_spec (set_heap h1 w) pl buf val fr al (same_int (Some p)) (fun b => i32 z =? v b) Hpool1) as Hfree.
  assert (Htest : forall b, b ∈ al -> same_int (Some p) (Some (buf b)) (set_heap h1 w) = Ret (i32 z =? v b) (set_heap h1 w)).
  { intros b Hb. unfold same_int. destruct Hpool1 as (d & _ & Hd).
    destruct (Hd b ltac:(set_solver)) as (_ & _ & _ & _ & Hbuf).
    erewrite bind_eq by (eapply load_i32_eq; [exact Hbuf|apply Hv; set_solver]).
    by erewrite bind_eq by (eapply load_i32_eq; [exact Hp1|apply int_at_stored]). }
  specialize (Hfree Htest). cbn [rpool_step] in Hstep. rewrite <- Hva, find_existsb in Hstep.
  destruct (List.find _ al) as [b|] eqn:E.
  - destruct Hfree as (l1 & l2 & h' & -> & Hl1 & Hrun & Hpool2 & Hf). simplify_eq.
    pose proof (find_split _ _ _ E) as (_ & _ & _ & Hb%Z.eqb_eq & _).
    exists h'. erewrite bind_eq by exact Hrun. split_and!; [done|split|].
    + exists buf, val, (b :: fr), (l1 ++ l2).
      assert (Hsub : forall x, x ∈ (b :: fr) ++ l1 ++ l2 -> x ∈ fr ++ l1 ++ b :: l2) by set_solver.
      split_and!; [done| |by auto]. exists v. split_and!; [auto|cbn; congruence|]. cbn [r_out].
      by rewrite remove_first_map.
    + exists bs'. split; [|done]. eapply pool_of_not_client; [exact Hpool1|exact Hf|exact Hp1].
    + eapply pool_kept_trans; [exact Hk1|]. by eapply frame_kept.
  - simplify_eq. exists h1. erewrite bind_eq by exact Hfree. split_and!; [done|split|done].
    + exists buf, val, fr, al. split_and!; [done| |done]. by exists v.
    + by exists bs'.
Qed.

(** (C17) Refinement: with the module set up over its pools, every sequence of
    requests and frees the specification allows (a request only while a
    number is free) runs to the end, gets the answers of the specification
    and leaves a pool that represents its result; only the pool and the
    client's variable change. *)
Theorem cached_numbers_refine ops : forall k w pl p a a' rs,
  serves k w pl -> int_pool (w_heap w) pl p a -> rpool_run a ops = Some (a', rs) ->
  exists h', rcalls k (Some p) ops w = Ret rs (set_heap h' w) /\ int_pool h' pl p a' /\
    pool_kept (w_heap w) h' p.
Proof.
  induction ops as [|o ops IH]; intros k w pl p a a' rs Hs Hi Hrun; cbn in *; simplify_eq.
  - exists (w_heap w). split_and!; [by destruct w|done|by intros ?].
  - destruct (rpool_step a o) as [[a1 r]|] eqn:Ho; cbn in Hrun; [|done].
    destruct (rpool_run a1 ops) as [[a2 rs']|] eqn:Hos; cbn in Hrun; simplify_eq.
    assert (Hstep : exists h1, rcall k (Some p) o w = Ret r (set_heap h1 w) /\ int_pool h1 pl p a1 /\
      pool_kept (w_heap w) h1 p).
    { destruct o as [|z]; [|by eapply rfree_refines]. destruct a as [[|z f] out]; cbn in Ho; simplify_eq.
      by apply rget_refines. }
    destruct Hstep as (h1 & H1 & Hi1 & Hk1).
    destruct (IH k (set_heap h1 w) pl p a1 a' rs' Hs Hi1 Hos) as (h2 & H2 & Hi2 & Hk2).
    exists h2. erewrite bind_eq by exact H1. erewrite bind_eq by exact H2. split_and!; [done..|].
    by eapply pool_kept_trans.
Qed.

(** A pool of two descriptors, 7 on top of 9, and a client's variable. *)
Definition demo_rsrc : gmap loc hobj :=
  list_to_map
    [ (1%positive, OPool (MkPool 0 8 2 (Some 2%positive) NULL));
      (2%positive, OBlock (MkBlock (Some 3%positive) (Some 5%positive)));
      (3%positive, OResource (MkResource (Some 2%positive) (Some 4%positive)));
      (4%positive, OBytes (map Some (le_bytes 4 7)));
      (5%positive, OBlock (MkBlock (Some 6%positive) NULL));
      (6%positive, OResource (MkResource (Some 5%positive) (Some 7%positive)));
      (7%positive, OBytes (map Some (le_bytes 4 9)));
      (8%positive, junk 4) ].

Definition demo_module : world :=
  set_mods (set_m_rsrc (MkRsrc 1 (Some 1%positive) NULL NULL NULL NULL (every_interface CACHE)) initial_mods)
    (set_heap demo_rsrc (fresh_world [] [])).

Lemma demo_int_pool : int_pool demo_rsrc 1%positive 8%positive (MkRpool [7; 9] []).
Proof.
  split; [|eexists; split; [reflexivity|apply le_n]].
  exists (fun b => if decide (b = 2%positive) then 4%positive else 7%positive),
    (fun b => map Some (le_bytes 4 (if decide (b = 2%positive) then 7 else 9))), [2; 5]%positive, [].
  split_and!.
  - exists (fun b => if decide (b = 2%positive) then Some 3%positive else Some 6%positive). split.
    + eexists. split; [reflexivity|]. split_and!; [done| |done|by apply (bool_decide_unpack _)].
      split; [done|]. eexists. split; [reflexivity|]. split; [done|]. eexists. by split.
    + intros b Hb. assert (b = 2%positive \/ b = 5%positive) as [-> | ->] by set_solver;
        do 2 eexists; split_and!; reflexivity.
  - exists (fun b => if decide (b = 2%positive) then 7 else 9). split_and!; [|done..].
    intros b _. eexists. split; [reflexivity|]. by case_decide.
  - intros b _. by case_decide.
Defined.

Lemma cached_numbers_refine_witness :
  exists h', rcalls KDesc (Some 8%positive) [RGet; RGet; RFree 7; RFree 3; RGet] demo_module =
    Ret [7; 9; 0; 0; 7] (set_heap h' demo_module).
Proof.
  destruct (cached_numbers_refine [RGet; RGet; RFree 7; RFree 3; RGet] KDesc demo_module 1%positive 8%positive
    (MkRpool [7; 9] []) (MkRpool [] [7; 9]) [7; 9; 0; 0; 7]) as (h' & H & _);
    [by split_and!|exact demo_int_pool|reflexivity|]. exists h'. exact H.
Defined.
