(* ===== verification/ResourceLife.v ===== *)
(** * ResourceLife: setting the resource module up and cleaning it up

    What [setup_resource_module] and [cleanup_resource_module] do in the two
    modes, and what a client gets from a module in each state. *)

From S2P Require Import Prelude Types CWorld Io Memory Realloc Crypto Utils Dirs Network Resource ResourceCache.

(** ** Partial correctness

    [post Q m]: whenever [m] returns, the static variables are as before and
    the result satisfies [Q]. *)
Definition post {A} (Q : A -> Prop) (m : M A) : Prop :=
  forall w a w', m w = Ret a w' -> w_mods w' = w_mods w /\ Q a.

Lemma post_bind {A B} (P : A -> Prop) (Q : B -> Prop) (m : M A) (k : A -> M B) :
  post P m -> (forall a, P a -> post Q (k a)) -> post Q (bind m k).
Proof.
  intros Hm Hk w b w'. unfold bind. destruct (m w) as [a w1| | | |] eqn:E; try done.
  destruct (Hm _ _ _ E) as [Hw Hp]. intros H. destruct (Hk a Hp _ _ _ H) as [-> Hq]. done.
Qed.

Lemma post_ret {A} (Q : A -> Prop) a : Q a -> post Q (ret a).
Proof. by intros Hq w ? ? [= <- <-]. Qed.

Lemma post_keeps {A} (m : M A) : keeps w_mods m -> post (fun _ => True) m.
Proof. intros H w a w' Hm. split; [by eapply H|done]. Qed.

Lemma post_crash {A} (Q : A -> Prop) : post Q crash.
Proof. done. Qed.

Lemma post_mono {A} (P Q : A -> Prop) (m : M A) : post P m -> (forall a, P a -> Q a) -> post Q m.
Proof. intros Hm H w a w' E. destruct (Hm _ _ _ E). auto. Qed.

Lemma post_error {A} (Q : A -> Prop) t s a : Q a -> post Q (write t s ;;; ret a).
Proof. intros Hq. eapply post_bind; [apply post_keeps, keeps_write; apply _|]. intros _ _. by apply post_ret. Qed.

(** Statements whose result does not matter. *)
Lemma post_skip {A B} (Q : B -> Prop) (m : M A) (k : A -> M B) :
  keeps w_mods m -> (forall a, post Q (k a)) -> post Q (bind m k).
Proof. intros Hm Hk. eapply post_bind; [by apply post_keeps|]. auto. Qed.

Lemma keeps_default_alloc o : keeps w_mods (default_mem_alloc o).
Proof. unfold default_mem_alloc. keep. Qed.
Lemma keeps_default_shared o : keeps w_mods (default_mem_alloc_shared o).
Proof. unfold default_mem_alloc_shared. keep. Qed.
Lemma keeps_console : keeps w_mods get_console_writter.
Proof. unfold get_console_writter. keep. Qed.

Lemma post_default_allocator : post (fun a => a = None \/ a = Some default_allocator) get_default_allocator.
Proof. apply post_skip; [apply keeps_default_alloc|]. intros [l|]; apply post_ret; auto. Qed.

Lemma post_default_random :
  post (fun g => g = None \/ g = Some default_random) (get_default_random_generator default_allocator).
Proof.
  apply post_skip; [apply keeps_default_alloc|]. intros [l|]; [apply post_ret; auto|apply post_error; auto].
Qed.

(** The functions that start with the three objects get the default ones. *)
Lemma post_with_random {A} (Q : A -> Prop) e k :
  Q e -> post Q (k default_random default_allocator) -> post Q (with_random e k).
Proof.
  intros He Hk. apply post_skip; [apply keeps_console|]. intros [c|]; [|by apply post_error].
  eapply post_bind; [apply post_default_allocator|]. intros a [-> | ->]; [by apply post_error|].
  eapply post_bind; [apply post_default_random|]. intros g [-> | ->]; [by apply post_error|done].
Qed.

Lemma keeps_default_range n : keeps w_mods (default_rand_range n).
Proof. unfold default_rand_range, BN_new, BN_set_word, BN_rand_range, BN_bn2dec. keep. Qed.

(** A file is never created: the generator's [bytes] is not assigned. *)
Lemma post_random_file root ext size :
  post (fun r => r.1.1 = -1) (create_random_file root ext size default_random default_allocator).
Proof.
  unfold create_random_file. cbn [range bytes alloc default_allocator default_random need]. apply post_skip.
  { case_match; keep. }
  intros [e|]; [|by apply post_error].
  eapply (post_bind (fun r => r.1 = 0)); [exact (post_ret (fun r : Z * option string => r.1 = 0) (0, None) eq_refl)|]. intros [r name] Hr. cbn in Hr. subst r. cbn [Z.ltb Z.compare].
  apply post_skip; [keep|]. intros [path|]; [|by apply post_error].
  eapply (post_bind (fun f => f = default_rand_range)); [by apply post_ret|]. intros f ->.
  apply post_skip; [apply keeps_default_range|]. intros [n|]; [|by apply post_error].
  apply post_skip; [apply keeps_default_alloc|]. intros [b|]; [|by apply post_error].
  eapply post_bind; [exact (post_crash (fun _ => False))|]. done.
Qed.

Lemma post_init_resource_ctx size : post (fun _ => True) (init_resource_ctx size).
Proof.
  eapply post_bind; [apply post_default_allocator|]. intros a [-> | ->]; [by apply post_error|].
  apply post_skip; [apply keeps_default_shared|]. intros [l|]; [|by apply post_error].
  apply post_skip; [apply keeps_default_shared|]. intros p. apply post_keeps. unfold load_resource. keep.
Qed.

Section setup.
Context (PATH_MAX : Z).

(** The loop bodies that need a random file never get to their end. *)
Lemma post_file_body path m_blk : post (fun ok => ok = false) (file_body PATH_MAX path default_random default_allocator m_blk).
Proof.
  eapply post_bind; [apply post_init_resource_ctx|]. intros [r resource] _. case_match; [by apply post_error|].
  eapply post_bind; [apply post_random_file|]. intros [[r' p] sz] Hr. cbn in Hr. subst r'. by apply post_error.
Qed.

(** ** A pool that was created is not empty *)

Lemma insert_head_first pool wl elm w w' :
  NX_SLIST_INSERT_HEAD (Some pool) wl elm w = Ret tt w' ->
  exists p, w_heap w' !! pool = Some (OPool p) /\ slh_first wl p = elm.
Proof.
  unfold NX_SLIST_INSERT_HEAD, bind, load_pool, load_block, store, load, bind.
  repeat (case_match; try done). intros [= <-]. cbn. simplify_eq. eexists. rewrite lookup_insert_eq.
  split; [done|]. by destruct wl.
Qed.

Lemma create_blocks_nonempty n : forall pool bs w w',
  create_blocks n (Some pool) bs w = Ret true w' -> (0 < n)%nat ->
  exists p b, w_heap w' !! pool = Some (OPool p) /\ free_list p = Some b.
Proof.
  induction n as [|n IH]; intros pool bs w w' Hrun Hn; [lia|]. cbn [create_blocks] in Hrun. revert Hrun.
  unfold bind at 1. destruct (default_mem_alloc_shared _ w) as [[blk|] w1| | | |]; try done.
  unfold bind at 1. destruct (default_mem_alloc_shared _ w1) as [buf w2| | | |]; try done.
  unfold bind at 1. destruct (load_block _ w2) as [b w3| | | |]; try done.
  unfold bind at 1. destruct (store _ _ w3) as [[] w4| | | |]; try done.
  destruct buf as [buf|]; [|done]. unfold bind at 1.
  destruct (NX_SLIST_INSERT_HEAD _ _ _ w4) as [[] w5| | | |] eqn:E; try done.
  destruct n as [|n]; [|intros H; eapply IH; [exact H|lia]].
  cbn. intros [= <-]. apply insert_head_first in E as (p & Hp & Hf). by exists p, blk.
Qed.

Lemma create_pool_nonempty bs bc w pl w' :
  0 < bc -> mem_create_shared_pool bs bc w = Ret (Some pl) w' ->
  exists p b, w_heap w' !! pl = Some (OPool p) /\ free_list p = Some b.
Proof.
  intros Hbc. unfold mem_create_shared_pool. case_match; [done|]. case_match; [done|].
  unfold bind at 1. destruct (default_mem_alloc_shared _ w) as [[q|] w1| | | |]; try done.
  unfold bind at 1. destruct (store _ _ w1) as [[] w2| | | |]; try done.
  unfold bind at 1. destruct (NX_SLIST_INIT _ _ w2) as [[] w3| | | |]; try done.
  unfold bind at 1. destruct (NX_SLIST_INIT _ _ w3) as [[] w4| | | |]; try done.
  unfold bind at 1. destruct (create_blocks _ _ _ w4) as [[] w5| | | |] eqn:E; try done.
  intros [= -> ->]. eapply create_blocks_nonempty; [exact E|lia].
Qed.

Lemma keeps_create_blocks n : forall pool bs, keeps w_mods (create_blocks n pool bs).
Proof.
  induction n as [|n IH]; intros pool bs; cbn [create_blocks]; [keep|].
  apply keeps_bind; [apply keeps_default_shared|]. intros [blk|]; [|keep].
  apply keeps_bind; [apply keeps_default_shared|]. intros buf. unfold load_block, NX_SLIST_INSERT_HEAD, load_pool, load_block.
  keep.
Qed.

Lemma keeps_create_pool bs bc : keeps w_mods (mem_create_shared_pool bs bc).
Proof.
  unfold mem_create_shared_pool. case_match; [keep|]. case_match; [keep|].
  apply keeps_bind; [apply keeps_default_shared|]. intros [p|]; [|keep]. unfold NX_SLIST_INIT, load_pool.
  apply keeps_bind; [keep|]. intros _. apply keeps_bind; [keep|]. intros _. apply keeps_bind; [keep|]. intros _.
  apply keeps_bind; [apply keeps_create_blocks|]. intros []; keep.
Qed.

(** Filling a non-empty pool with a body that never succeeds answers [NULL]. *)
Lemma fill_pool_fails w pl p b body r w' :
  w_heap w !! pl = Some (OPool p) -> free_list p = Some b -> (forall m, post (fun ok => ok = false) (body m)) ->
  fill_pool (Some pl) body w = Ret r w' -> w_mods w' = w_mods w /\ r = NULL.
Proof.
  intros Hp Hb Hbody. unfold fill_pool. erewrite bind_eq by (by apply load_pool_eq).
  erewrite bind_eq by reflexivity. cbn [foreach_block]. rewrite Hb. rewrite bind_assoc. unfold bind at 1.
  destruct (body (Some b) w) as [ok w1| | | |] eqn:E; try done. destruct (Hbody _ _ _ _ E) as [Hm ->].
  cbn [negb]. intros [= <- <-]. done.
Qed.

Lemma post_create_file_pool path : post (fun p => p = NULL) (create_file_pool PATH_MAX path).
Proof.
  apply post_with_random; [done|]. intros w r w'. unfold bind. destruct (mem_create_shared_pool _ _ w) as [[pl|] w1| | | |] eqn:E; try done.
  - apply create_pool_nonempty in E as E'; [|done]. destruct E' as (p & b & Hp & Hb). intros Hf.
    eapply fill_pool_fails in Hf; [|exact Hp|exact Hb|apply post_file_body].
    rewrite <- (keeps_create_pool _ _ _ _ _ E). done.
  - intros H. apply (post_error (fun p : ptr => p = NULL) _ _ NULL eq_refl) in H.
    rewrite <- (keeps_create_pool _ _ _ _ _ E). done.
Qed.

(** ** Setting up with pools *)

Lemma create_resource_pools_fails path w r w' :
  create_resource_pools PATH_MAX path w = Ret r w' ->
  r = -1 /\ m_rsrc (w_mods w') = set_file_pool NULL (m_rsrc (w_mods w)).
Proof.
  unfold create_resource_pools. erewrite bind_eq by reflexivity. unfold bind at 1.
  destruct (create_file_pool _ _ _) as [p w1| | | |] eqn:E; try done.
  apply post_create_file_pool in E as [Hm ->]. cbn in Hm. erewrite bind_eq by reflexivity.
  intros [= <- <-]. cbn. by rewrite Hm.
Qed.

(** (C23) Setting the module up in CACHE mode never succeeds, whatever the
    environment answers: the file pool is filled with random files, and the
    default generator cannot make one ([bytes] is never assigned).  When the
    call returns it returns -1, and the module is not set up. *)
Theorem cache_setup_never_succeeds path w r w' :
  heap_wf w -> rsrc_setup (m_rsrc (w_mods w)) = 0 ->
  setup_resource_module PATH_MAX CACHE path w = Ret r w' ->
  r = -1 /\ rsrc_setup (m_rsrc (w_mods w')) = 0.
Proof.
  intros Hwf Hs. unfold setup_resource_module. erewrite bind_eq by reflexivity. rewrite Hs. cbn [Z.eqb negb].
  destruct path as [path|]; [|by intros [= <- <-]].
  destruct (setup_network_spec w Hwf) as (rn & w1 & Hn & Hrn & (_ & _ & _ & Hr & _) & _).
  erewrite bind_eq by exact Hn. destruct Hrn as [-> | ->]; cbn [Z.ltb Z.compare].
  - unfold bind at 1 2. destruct (create_resource_pools _ _ w1) as [rp w2| | | |] eqn:E; try done.
    apply create_resource_pools_fails in E as [-> Hp]. cbn [Z.ltb Z.compare]. intros [= <- <-]. cbn.
    split; [done|]. rewrite Hp. cbn. by rewrite Hr.
  - intros [= <- <-]. cbn. by rewrite Hr.
Qed.

(** ** Setting up without pools *)

Lemma nocache_setup_spec path w :
  heap_wf w -> rsrc_setup (m_rsrc (w_mods w)) = 0 ->
  exists r w', setup_resource_module PATH_MAX NO_CACHE (Some path) w = Ret r w' /\ (r = 0 \/ r = -1) /\
    (r = -1 -> m_rsrc (w_mods w') = m_rsrc (w_mods w)) /\
    (r = 0 -> m_rsrc (w_mods w') = set_rsrc_setup 1 (set_iface (every_interface NO_CACHE) (m_rsrc (w_mods w)))).
Proof.
  intros Hwf Hs. unfold setup_resource_module. erewrite bind_eq by reflexivity. rewrite Hs. cbn [Z.eqb negb].
  destruct (setup_network_spec w Hwf) as (rn & w1 & Hn & Hrn & (_ & _ & _ & Hr & _) & _).
  erewrite bind_eq by exact Hn. destruct Hrn as [-> | ->]; cbn [Z.ltb Z.compare].
  - do 2 eexists. split; [reflexivity|]. split_and!; [by left|done|]. intros _. cbn. by rewrite Hr.
  - do 2 eexists. split; [reflexivity|]. split_and!; [by right| |done]. intros _. cbn. by rewrite Hr.
Qed.

(** The life of the module without pools.  Setting it up returns 0 or -1,
    and -1 leaves it as it was; after 0 every function pointer is assigned.
    But [cleanup_resource_module] fails on the file pool that was never made:
    it answers 0 and the module stays set up, so that it cannot be set up
    again. *)
Theorem nocache_lifecycle path path' w :
  heap_wf w -> rsrc_setup (m_rsrc (w_mods w)) = 0 -> file_pool (m_rsrc (w_mods w)) = NULL ->
  exists r w1, setup_resource_module PATH_MAX NO_CACHE (Some path) w = Ret r w1 /\ (r = 0 \/ r = -1) /\
    (r = -1 -> m_rsrc (w_mods w1) = m_rsrc (w_mods w)) /\
    (r = 0 -> rsrc_iface (m_rsrc (w_mods w1)) = every_interface NO_CACHE /\
       exists w2 w3, cleanup_resource_module PATH_MAX w1 = Ret 0 w2 /\ m_rsrc (w_mods w2) = m_rsrc (w_mods w1) /\
         rsrc_setup (m_rsrc (w_mods w2)) = 1 /\
         forall type, setup_resource_module PATH_MAX type path' w2 = Ret (-1) w3).
Proof.
  intros Hwf Hs Hf. destruct (nocache_setup_spec path w Hwf Hs) as (r & w1 & Hrun & Hr & H1 & H2).
  exists r, w1. split_and!; [done..|]. intros Hr0. specialize (H2 Hr0). split; [by rewrite H2|].
  do 2 eexists. split.
  - unfold cleanup_resource_module, cleanup_resource_pools. rewrite bind_assoc. erewrite bind_eq by reflexivity.
    rewrite H2. cbn [file_pool set_rsrc_setup set_iface]. rewrite Hf. reflexivity.
  - split; [done|]. split; [cbn; by rewrite H2|]. intros type. unfold setup_resource_module.
    erewrite bind_eq by reflexivity. cbn. rewrite H2. reflexivity.
Qed.

(** ** Resources made anew *)

(** Neither a descriptor nor a file path is ever made: when the functions
    return they report failure. *)
Theorem nocached_files_fail w :
  (forall r w', get_desc_nocached w = Ret r w' -> r = -1) /\
  (forall p w', get_filepath_nocached w = Ret p w' -> p = NULL).
Proof.
  split.
  - intros r w' H. refine (proj2 ((_ : post (fun r => r = -1) get_desc_nocached) w r w' H)).
    apply post_with_random; [done|].
    eapply post_bind; [apply post_random_file|]. intros [[r' p] sz] Hr. cbn in Hr. subst r'. by apply post_error.
  - intros p w' H. refine (proj2 ((_ : post (fun p => p = NULL) get_filepath_nocached) w p w' H)).
    apply post_with_random; [done|].
    eapply post_bind; [apply post_random_file|]. intros [[r' p'] sz] Hr. cbn in Hr. subst r'. by apply post_error.
Qed.
End setup.

(** ** Cleaning up *)

(** Once a file is removed, the loop reads the successor of a block it has
    set to [NULL]. *)
Lemma clean_files_tail PATH_MAX n b resource m_blk w :
  (let! p := free_shared default_allocator (rsrc_ptr resource) (PATH_MAX + 1) in
   store (block_ptr b) (OResource (MkResource (rsrc_m_blk resource) p)) ;;;
   let! p := free_shared default_allocator (block_ptr b) 16 in
   store (Some m_blk) (OBlock (MkBlock p (sle_next b))) ;;;
   let! m_blk := free_shared default_allocator (Some m_blk) 16 in
   let! b := load_block m_blk in
   clean_files PATH_MAX n default_allocator (sle_next b)) w = Crash.
Proof.
  assert (Hfree : forall p k w, exists w', free_shared default_allocator p k w = Ret (match p with None => p | Some _ => NULL end) w').
  { intros [l|] k w0; [|by eexists]. cbn. unfold default_mem_free_shared, munmap. case_match; eexists; reflexivity. }
  assert (Hstore : forall p o w0, store p o w0 = Crash \/ exists w1, store p o w0 = Ret tt w1).
  { intros [l|] o w0; unfold store; [|by left]. case_match; eauto. }
  destruct (Hfree (rsrc_ptr resource) (PATH_MAX + 1) w) as [w1 H1]. erewrite bind_eq by exact H1.
  match goal with |- bind (store ?p ?o) _ _ = _ => destruct (Hstore p o w1) as [H2|[w2 H2]] end;
    [by apply bind_crash|]. erewrite bind_eq by exact H2.
  destruct (Hfree (block_ptr b) 16 w2) as [w3 H3]. erewrite bind_eq by exact H3.
  match goal with |- bind (store ?p ?o) _ _ = _ => destruct (Hstore p o w3) as [H4|[w4 H4]] end;
    [by apply bind_crash|]. erewrite bind_eq by exact H4.
  destruct (Hfree (Some m_blk) 16 w4) as [w5 H5]. erewrite bind_eq by exact H5. by apply bind_crash.
Qed.

Section cleanup.
Context (PATH_MAX : Z) (w : world) (pl : loc) (buf : loc -> loc) (val : loc -> list (option Z)).
Context (Hfile : file_pool (m_rsrc (w_mods w)) = Some pl) (Hwf : heap_wf w).

(** With the lock taken and the allocator at hand. *)
Lemma cleanup_lock fr al p :
  pool_of (w_heap w) pl buf val fr al -> w_heap w !! pl = Some (OPool p) ->
  clean_file_pool PATH_MAX (Some pl) w =
    (let! rtrn := (match al with [] => ret 0 | _ => clean_allocated_file_list PATH_MAX (Some pl) end) in
     if rtrn <? 0 then printf "Can't clean allocated file list\n" ;;; ret (-1)
     else nx_spinlock_unlock (Some pl) ;;; mem_clean_shared_pool (Some pl) ;;; ret 0)
      (set_heap (<[pl := OPool (set_lock 1 p)]> (w_heap w)) w).
Proof.
  intros (d & (p' & Hp' & Hlk & _ & Hal & _) & _) Hp. rewrite Hp in Hp'. injection Hp' as <-.
  unfold clean_file_pool. erewrite bind_eq by (by eapply lock_spec).
  erewrite bind_eq by (apply load_pool_eq; apply lookup_insert_eq). cbn [allocated_list set_lock].
  destruct al as [|b al]; [unfold slist in Hal; by rewrite Hal|]. by destruct Hal as [-> _].
Qed.

(** With no file handed out the pool is left as it is and the module is no
    longer set up. *)
Theorem cleanup_idle fr :
  pool_of (w_heap w) pl buf val fr [] ->
  exists h', cleanup_resource_module PATH_MAX w =
    Ret 0 (set_mods (set_m_rsrc (set_rsrc_setup 0 (m_rsrc (w_mods w))) (w_mods w)) (set_heap h' w)) /\
    pool_of h' pl buf val fr [].
Proof.
  intros Hpool. pose proof Hpool as (d & (p & Hp & Hlk & Hrest) & Hv).
  unfold cleanup_resource_module, cleanup_resource_pools. rewrite bind_assoc. erewrite bind_eq by reflexivity. rewrite Hfile.
  rewrite bind_assoc. rewrite (bind_eq (clean_file_pool PATH_MAX (Some pl)) _ w 0
    (set_heap (<[pl := OPool (set_lock 0 (set_lock 1 p))]> (<[pl := OPool (set_lock 1 p)]> (w_heap w))) w)).
  2: { rewrite (cleanup_lock fr [] p Hpool Hp). erewrite bind_eq by reflexivity. cbn [Z.ltb Z.compare].
       erewrite bind_eq by (eapply unlock_spec; apply lookup_insert_eq). reflexivity. }
  eexists. split; [reflexivity|]. rewrite insert_insert_eq.
  replace (set_lock 0 (set_lock 1 p)) with p by (destruct p; cbn in *; by subst). by rewrite insert_id.
Qed.

Section handed_out.
Context (fr al : list loc) (b : loc) (s : list Z) (m : Z).
Context (Hpool : pool_of (w_heap w) pl buf val fr (b :: al)).
Context (Hpath : cstr (val b) = Some s) (Hmode : mode_of w (string_of_codes s) = Some m) (Hdir : is_dir m = false).
Context (a1 a2 : Z) (rest : list Z) (Ho : w_oracle w = a1 :: a2 :: rest) (H1 : 0 <= a1).

(** Up to the call of [unlink]. *)
Lemma cleanup_to_unlink :
  exists w1 p, w_oracle w1 = a2 :: rest /\ w_heap w1 !! pl = Some (OPool (set_lock 1 p)) /\
    mode_of w1 (string_of_codes s) = Some m /\ w_mods w1 = w_mods w /\
    exists n blk resource, clean_file_pool PATH_MAX (Some pl) w =
      (let! rtrn :=
         (let! rtrn := unlink (string_of_codes s) in
          if rtrn <? 0 then printf "Can't remove temp file\n" ;;; ret (-1)
          else
            let! p := free_shared default_allocator (rsrc_ptr resource) (PATH_MAX + 1) in
            store (block_ptr blk) (OResource (MkResource (rsrc_m_blk resource) p)) ;;;
            let! p := free_shared default_allocator (block_ptr blk) 16 in
            store (Some b) (OBlock (MkBlock p (sle_next blk))) ;;;
            let! m_blk := free_shared default_allocator (Some b) 16 in
            let! b := load_block m_blk in
            clean_files PATH_MAX n default_allocator (sle_next b)) in
       if rtrn <? 0 then printf "Can't clean allocated file list\n" ;;; ret (-1)
       else nx_spinlock_unlock (Some pl) ;;; mem_clean_shared_pool (Some pl) ;;; ret 0) w1.
Proof.
  pose proof Hpool as (d & (p & Hp & Hlk & _ & Hal & _) & Hv).
  rewrite (cleanup_lock fr (b :: al) p Hpool Hp). destruct Hal as (Hhd & nx & Hb & _).
  destruct (Hv b ltac:(set_solver)) as (rl & mm & Hd & Hrl & Hbuf).
  set (w0 := set_heap (<[pl := OPool (set_lock 1 p)]> (w_heap w)) w).
  assert (Halloc : get_default_allocator w0 = Ret (Some default_allocator) (granted (junk 32) w0)).
  { unfold get_default_allocator. rewrite (bind_eq _ _ _ _ _ (alloc_granted w0 (junk 32) ltac:(cbn; by rewrite Ho) ltac:(done))).
    done. }
  assert (Hk : forall x o, x <> pl -> w_heap w !! x = Some o -> w_heap (granted (junk 32) w0) !! x = Some o).
  { intros x o Hx Hxo. cbn. rewrite !lookup_insert_ne; [done|done|]. pose proof (heap_wf_lt _ _ _ Hwf Hxo). lia. }
  assert (Hpl : w_heap (granted (junk 32) w0) !! pl = Some (OPool (set_lock 1 p))).
  { cbn. rewrite lookup_insert_ne; [apply lookup_insert_eq|]. pose proof (heap_wf_lt _ _ _ Hwf Hp). lia. }
  exists (granted (junk 32) w0), p. split; [cbn; by rewrite Ho|]. split; [exact Hpl|]. split; [exact Hmode|]. split; [done|].
  exists (size (w_heap (granted (junk 32) w0))), (MkBlock (d b) nx), (MkResource mm (Some (buf b))).
  unfold clean_allocated_file_list. rewrite !bind_assoc. erewrite bind_eq by exact Halloc. cbv beta iota.
  rewrite bind_assoc. erewrite bind_eq by (by apply load_pool_eq). cbn [allocated_list set_lock].
  rewrite bind_assoc. erewrite bind_eq by reflexivity. rewrite Hhd. cbn [clean_files]. rewrite bind_assoc.
  erewrite bind_eq by (apply load_block_eq, Hk; [congruence|exact Hb]). cbn [block_ptr sle_next]. rewrite Hd.
  rewrite bind_assoc. erewrite bind_eq by (apply load_resource_eq, Hk; [congruence|exact Hrl]). cbn [rsrc_ptr].
  rewrite bind_assoc. unfold load_string at 1. rewrite bind_assoc.
  erewrite bind_eq.
  2: { unfold load_cstr. erewrite bind_eq by (apply load_bytes_eq, Hk; [congruence|exact Hbuf]). by rewrite Hpath. }
  erewrite bind_eq by reflexivity. by rewrite bind_assoc.
Qed.

(** With a file handed out, removing it leads into undefined behaviour. *)
Theorem cleanup_handed_out_crashes : 0 <= a2 -> cleanup_resource_module PATH_MAX w = Crash.
Proof.
  intros H2. destruct cleanup_to_unlink as (w1 & p & Ho1 & _ & Hm1 & _ & n & blk & resource & Hrun).
  unfold cleanup_resource_module, cleanup_resource_pools. apply bind_crash. erewrite bind_eq by reflexivity. rewrite Hfile.
  apply bind_crash. rewrite Hrun. apply bind_crash.
  assert (Hu : unlink (string_of_codes s) w1 = Ret 0 (drop_path (string_of_codes s) (asked w1))).
  { unfold unlink, bind, ask, gets. rewrite Ho1. cbn [hd].
    change (mode_of (set_oracle _ w1) (string_of_codes s)) with (mode_of w1 (string_of_codes s)). rewrite Hm1, Hdir.
    rewrite (proj2 (Z.ltb_ge a2 0)) by done. cbn. unfold asked. by rewrite Ho1. }
  erewrite bind_eq by exact Hu. cbn [Z.ltb Z.compare]. apply clean_files_tail.
Qed.

(** If the file cannot be removed the call answers 0, the module stays set
    up and the pool stays locked: the next request for a file waits for
    ever. *)
Theorem cleanup_failure_keeps_lock :
  a2 < 0 -> get_filepath_interface (rsrc_iface (m_rsrc (w_mods w))) = Some CACHE ->
  rsrc_setup (m_rsrc (w_mods w)) <> 0 ->
  exists w', cleanup_resource_module PATH_MAX w = Ret 0 w' /\ m_rsrc (w_mods w') = m_rsrc (w_mods w) /\
    forall fuel, get_filepath fuel w' = Spin.
Proof.
  intros H2 Hi Hs. destruct cleanup_to_unlink as (w1 & p & Ho1 & Hpl & Hm1 & Hmods & n & blk & resource & Hrun).
  assert (Hu : unlink (string_of_codes s) w1 = Ret (-1) (asked w1)).
  { unfold unlink, bind, ask, gets. rewrite Ho1. cbn [hd].
    change (mode_of (set_oracle _ w1) (string_of_codes s)) with (mode_of w1 (string_of_codes s)). rewrite Hm1.
    rewrite (proj2 (Z.ltb_lt a2 0)) by done. cbn. unfold asked. by rewrite Ho1. }
  eassert (Hclean : clean_file_pool PATH_MAX (Some pl) w = Ret (-1) _).
  { rewrite Hrun, bind_assoc. rewrite (bind_eq _ _ _ _ _ Hu). reflexivity. }
  eexists. split; [|split].
  - unfold cleanup_resource_module, cleanup_resource_pools. rewrite bind_assoc. erewrite bind_eq by reflexivity.
    rewrite Hfile, bind_assoc. rewrite (bind_eq _ _ _ _ _ Hclean). reflexivity.
  - cbn. by rewrite Hmods.
  - intros fuel. unfold get_filepath. rewrite served_cached by (cbn; rewrite Hmods; done).
    unfold get_filepath_cached. erewrite bind_eq by reflexivity. cbn [w_mods set_out write]. apply bind_spin, bind_spin.
    cbn. rewrite Hmods, Hfile. destruct fuel as [|fuel]; [done|]. cbn [mem_get_shared_block]. apply bind_spin, bind_spin.
    unfold nx_spinlock_lock. by erewrite bind_eq by (apply load_pool_eq; exact Hpl).
Qed.
End handed_out.
End cleanup.

(** ** A module that is not set up *)

(** Before the module is set up every one of its ten functions refuses: it
    prints a message, answers -1 or [NULL] and changes nothing else. *)
Theorem not_setup_refused fuel p w :
  rsrc_setup (m_rsrc (w_mods w)) = 0 ->
  let w' := set_out ((STD, "Setup resource module first\n"%string) :: w_out w) w in
  get_desc fuel w = Ret (-1) w' /\ free_desc p w = Ret (-1) w' /\
  get_socket fuel w = Ret (-1) w' /\ free_socket p w = Ret (-1) w' /\
  get_mountpath fuel w = Ret NULL w' /\ free_mountpath p w = Ret (-1, p) w' /\
  get_dirpath fuel w = Ret NULL w' /\ free_dirpath p w = Ret (-1, p) w' /\
  get_filepath fuel w = Ret NULL w' /\ free_filepath p w = Ret (-1, p) w'.
Proof.
  intros Hs w'.
  assert (Hgo : forall A (e : A) m, when_setup e m w = Ret e w').
  { intros A e m. unfold when_setup. erewrite bind_eq by reflexivity. by rewrite Hs. }
  split_and!; apply Hgo.
Qed.

(** ** Concrete runs *)

(** The environment refuses the console writter after the network is up. *)
Definition demo_refusing : world := fresh_world [0; 0; 0; 0; 0; 0; 77; 0; 0; 0; 0; 0; 0; -1] [].

Lemma cache_setup_never_succeeds_witness :
  exists w', setup_resource_module 1024 CACHE (Some "/tmp"%string) demo_refusing = Ret (-1) w' /\
    rsrc_setup (m_rsrc (w_mods w')) = 0.
Proof.
  eassert (Hrun : setup_resource_module 1024 CACHE (Some "/tmp"%string) demo_refusing = Ret (-1) _)
    by (vm_compute; reflexivity).
  destruct (cache_setup_never_succeeds 1024 (Some "/tmp"%string) demo_refusing _ _
    (fun l _ => lookup_empty l) eq_refl Hrun) as [_ Hs].
  eexists. split; [exact Hrun|exact Hs].
Defined.

Lemma nocache_lifecycle_witness :
  exists w1 w2, setup_resource_module 1024 NO_CACHE (Some "/tmp"%string) (fresh_world [] []) = Ret 0 w1 /\
    cleanup_resource_module 1024 w1 = Ret 0 w2 /\ rsrc_setup (m_rsrc (w_mods w2)) = 1.
Proof.
  destruct (nocache_lifecycle 1024 "/tmp" None (fresh_world [] []) (fun l _ => lookup_empty l) eq_refl eq_refl)
    as (r & w1 & Hrun & Hr & _ & H0).
  assert (r = 0) as ->.
  { destruct Hr as [Hr | ->]; [exact Hr|]. vm_compute in Hrun. discriminate. }
  destruct (H0 eq_refl) as (_ & w2 & w3 & Hc & _ & Hs & _). exists w1, w2. split_and!; assumption.
Defined.

(** A file pool with one file, [/f], handed out. *)
Definition demo_handed_out : world :=
  set_fs (list_to_map [("/f"%string, [65])])
    (set_mods (set_m_rsrc (MkRsrc 1 NULL NULL NULL (Some 1%positive) NULL (every_interface CACHE)) initial_mods)
      (set_next 5%positive (set_heap (list_to_map
        [ (1%positive, OPool (MkPool 0 8 1 NULL (Some 2%positive)));
          (2%positive, OBlock (MkBlock (Some 3%positive) NULL));
          (3%positive, OResource (MkResource (Some 2%positive) (Some 4%positive)));
          (4%positive, OBytes (map Some (codes "/f" ++ [0]))) ]) (fresh_world [0; 0] [])))).

Lemma demo_handed_out_pool :
  pool_of (w_heap demo_handed_out) 1%positive (fun _ => 4%positive) (fun _ => map Some (codes "/f" ++ [0])) [] [2%positive].
Proof.
  exists (fun _ => Some 3%positive). split.
  - eexists. split; [reflexivity|]. split_and!; [done|done| |by apply (bool_decide_unpack _)].
    split; [done|]. eexists. by split.
  - intros b Hb. do 2 eexists. by split_and!.
Defined.

Lemma demo_handed_out_wf : heap_wf demo_handed_out.
Proof. intros l Hl. cbn in *. rewrite !lookup_insert_ne by lia. apply lookup_empty. Qed.

Lemma cleanup_handed_out_crashes_witness : cleanup_resource_module 1024 demo_handed_out = Crash.
Proof.
  apply (cleanup_handed_out_crashes 1024 demo_handed_out 1%positive _ _ eq_refl demo_handed_out_wf [] [] 2%positive
    [47; 102] plain_file demo_handed_out_pool eq_refl eq_refl eq_refl 0 0 [] eq_refl); lia.
Defined.
