(* ===== verification/ArgTypes.v ===== *)
(** * ArgTypes: the argument contexts (syscall/arg_types.c)

    One [arg_context] per argument type and [get_arg_context], which finds
    it; the padding of the arrays of an entry (syscall/entry.h) and of a
    table (syscall/syscall_table.h), whose elements that are not initialised
    are zero. *)

From S2P Require Import Prelude Types CWorld.

Definition file_desc_ctx : arg_context := MkArgCtx "FILE_DESC" FILE_DESC NX_NO NUMBER.
Definition void_buf_ctx : arg_context := MkArgCtx "VOID_BUF" VOID_BUF NX_YES POINTER.
Definition size_ctx : arg_context := MkArgCtx "SIZE" SIZE NX_YES NUMBER.
Definition file_path_ctx : arg_context := MkArgCtx "FILE_PATH" FILE_PATH NX_NO PATH.
Definition open_flag_ctx : arg_context := MkArgCtx "OPEN_FLAG" OPEN_FLAG NX_YES NUMBER.
Definition mode_ctx : arg_context := MkArgCtx "MODE" MODE NX_YES NUMBER.
Definition stat_fs_ctx : arg_context := MkArgCtx "STAT_FS" STAT_FS NX_YES POINTER.
Definition stat_flag_ctx : arg_context := MkArgCtx "STAT_FLAG" STAT_FLAG NX_YES NUMBER.
Definition int_ctx : arg_context := MkArgCtx "INT" INT NX_YES NUMBER.
Definition rusage_ctx : arg_context := MkArgCtx "RUSAGE" RUSAGE NX_YES POINTER.
Definition pid_ctx : arg_context := MkArgCtx "PID" PID NX_YES POINTER.
Definition wait_option_ctx : arg_context := MkArgCtx "WAIT_OPTION" WAIT_OPTION NX_YES NUMBER.
Definition socket_ctx : arg_context := MkArgCtx "SOCKET" SOCKET NX_YES NUMBER.
Definition whence_ctx : arg_context := MkArgCtx "WHENCE" WHENCE NX_YES NUMBER.
Definition offset_ctx : arg_context := MkArgCtx "OFFSET" OFFSET NX_YES NUMBER.
Definition mount_type_ctx : arg_context := MkArgCtx "MOUNT_TYPE" MOUNT_TYPE NX_YES POINTER.
Definition dir_path_ctx : arg_context := MkArgCtx "DIR_PATH" DIR_PATH NX_NO POINTER.
Definition mount_flag_ctx : arg_context := MkArgCtx "MOUNT_FLAG" MOUNT_FLAG NX_YES NUMBER.
Definition unmount_flag_ctx : arg_context := MkArgCtx "UNMOUNT_FLAG" UNMOUNT_FLAG NX_YES NUMBER.
Definition recv_flag_ctx : arg_context := MkArgCtx "RECV_FLAG" RECV_FLAG NX_YES NUMBER.
Definition request_ctx : arg_context := MkArgCtx "REQUEST" REQUEST NX_YES NUMBER.
Definition mount_path_ctx : arg_context := MkArgCtx "MOUNT_PATH" MOUNT_PATH NX_NO PATH.
Definition dev_ctx : arg_context := MkArgCtx "DEV" DEV NX_YES NUMBER.
Definition message_ctx : arg_context := MkArgCtx "MESSAGE" MESSAGE NX_YES POINTER.
Definition recv_flags_ctx : arg_context := MkArgCtx "RECV_FLAG" RECV_FLAG NX_YES NUMBER.
Definition send_flags_ctx : arg_context := MkArgCtx "SEND_FLAG" SEND_FLAG NX_YES NUMBER.
Definition sockaddr_ctx : arg_context := MkArgCtx "SOCKADDR" SOCKADDR NX_YES POINTER.
Definition socklen_ctx : arg_context := MkArgCtx "SOCKLEN" SOCKLEN NX_YES NUMBER.
Definition amode_ctx : arg_context := MkArgCtx "AMODE" AMODE NX_YES NUMBER.
Definition chflags_ctx : arg_context := MkArgCtx "CHFLAGS" CHFLAGS NX_YES NUMBER.

Definition get_arg_context (type : arg_type) : M (option arg_context) :=
  match type with
  | FILE_DESC => ret (Some file_desc_ctx)
  | VOID_BUF => ret (Some void_buf_ctx)
  | SIZE => ret (Some size_ctx)
  | FILE_PATH => ret (Some file_path_ctx)
  | OPEN_FLAG => ret (Some open_flag_ctx)
  | MODE => ret (Some mode_ctx)
  | STAT_FS => ret (Some stat_fs_ctx)
  | STAT_FLAG => ret (Some stat_flag_ctx)
  | INT => ret (Some int_ctx)
  | RUSAGE => ret (Some rusage_ctx)
  | PID => ret (Some pid_ctx)
  | WAIT_OPTION => ret (Some wait_option_ctx)
  | SOCKET => ret (Some socket_ctx)
  | WHENCE => ret (Some whence_ctx)
  | OFFSET => ret (Some offset_ctx)
  | MOUNT_TYPE => ret (Some mount_type_ctx)
  | DIR_PATH => ret (Some dir_path_ctx)
  | MOUNT_FLAG => ret (Some mount_flag_ctx)
  | UNMOUNT_FLAG => ret (Some unmount_flag_ctx)
  | RECV_FLAG => ret (Some recv_flag_ctx)
  | REQUEST => ret (Some request_ctx)
  | MOUNT_PATH => ret (Some mount_path_ctx)
  | DEV => ret (Some dev_ctx)
  | MESSAGE => ret (Some message_ctx)
  | SEND_FLAG => ret (Some send_flags_ctx)
  | SOCKADDR => ret (Some sockaddr_ctx)
  | SOCKLEN => ret (Some socklen_ctx)
  | AMODE => ret (Some amode_ctx)
  | CHFLAGS => ret (Some chflags_ctx)
  | PTRACE_REQUEST => write ERROR "Unlisted arg type\n" ;;; ret None
  end.

(** ** Partly initialised arrays *)

Definition arg_types (ts : list arg_type) : list arg_type := list.resize 7 FILE_DESC ts.
Definition generators (gs : list (option generator)) : list (option generator) := list.resize 7 None gs.
Definition no_contexts : list (option arg_context) := replicate 7 None.
Definition table_of (total : Z) (n : nat) : syscall_table :=
  MkTable total (list.resize 56 None (map Some (seq 0 n))).

(** ** Lookup *)

(** [get_arg_context] finds the context of the very type it is asked
    for, whose name is the type's, for every argument type but
    [PTRACE_REQUEST], for which it reports an error and answers [NULL]; it
    changes nothing else. *)
Theorem get_arg_context_exact t w :
  match get_arg_context t w with
  | Ret (Some c) w' => ctx_type c = t /\ w' = w /\ t <> PTRACE_REQUEST
  | Ret None w' => t = PTRACE_REQUEST /\ w' = set_out ((ERROR, "Unlisted arg type\n") :: w_out w) w
  | _ => False
  end.
Proof. by destruct t. Qed.

(** The contexts an argument is never freed through. *)
Definition not_freed (t : arg_type) : bool :=
  match t with FILE_DESC | FILE_PATH | DIR_PATH | MOUNT_PATH => true | _ => false end.

Lemma get_arg_context_eq t w :
  t <> PTRACE_REQUEST ->
  exists c, get_arg_context t w = Ret (Some c) w /\ ctx_type c = t /\
    should_free c = if not_freed t then NX_NO else NX_YES.
Proof. intros H. destruct t; try done; by eexists. Qed.
