(* ===== verification/EntriesFreebsd.v ===== *)
(** * EntriesFreebsd: the system calls of FreeBSD

    The entries of syscall/freebsd/entry_*.c and the table of
    syscall/freebsd_syscall_table.h. *)

From S2P Require Import Prelude Types ArgTypes.

Definition entry_chdir : syscall_entry := MkEntry "chdir" SYS_chdir ON NX_NO NX_NO
  (arg_types [FILE_PATH]) 1 0 no_contexts
  (generators [Some fn_generate_path]) None V_ID.

Definition entry_chmod : syscall_entry := MkEntry "chmod" SYS_chmod ON NX_NO NX_NO
  (arg_types [FILE_PATH; MODE]) 2 0 no_contexts
  (generators [Some fn_generate_path; Some fn_generate_mode]) None V_ID.

Definition entry_close : syscall_entry := MkEntry "close" SYS_close ON NX_NO NX_NO
  (arg_types [FILE_DESC]) 1 0 no_contexts
  (generators [Some fn_generate_fd]) None V_ID.

Definition entry_creat : syscall_entry := MkEntry "creat" SYS_creat ON NX_NO NX_NO
  (arg_types [FILE_PATH; MODE]) 2 0 no_contexts
  (generators [Some fn_generate_path; Some fn_generate_mode]) None V_ID.

Definition entry_fchdir : syscall_entry := MkEntry "fchdir" SYS_fchdir ON NX_NO NX_NO
  (arg_types [FILE_DESC]) 1 0 no_contexts
  (generators [Some fn_generate_fd]) None V_ID.

Definition entry_getfsstat : syscall_entry := MkEntry "getfsstat" SYS_getfsstat ON NX_NO NX_NO
  (arg_types [STAT_FS; SIZE; STAT_FLAG]) 3 0 no_contexts
  (generators [Some fn_generate_fs_stat; Some fn_generate_length; Some fn_generate_fs_stat_flag]) None V_ID.

Definition entry_link : syscall_entry := MkEntry "link" SYS_link ON NX_NO NX_NO
  (arg_types [FILE_PATH; FILE_PATH]) 2 0 no_contexts
  (generators [Some fn_generate_path; Some fn_generate_path]) None V_ID.

Definition entry_lseek : syscall_entry := MkEntry "lseek" SYS_lseek ON NX_NO NX_NO
  (arg_types [FILE_DESC; OFFSET; WHENCE]) 3 0 no_contexts
  (generators [Some fn_generate_fd; Some fn_generate_offset; Some fn_generate_whence]) None V_ID.

Definition entry_mknod : syscall_entry := MkEntry "mknod" SYS_mknod ON NX_NO NX_NO
  (arg_types [FILE_PATH; MODE; DEV]) 3 0 no_contexts
  (generators [Some fn_generate_path; Some fn_generate_mode; Some fn_generate_dev]) None V_ID.

Definition entry_mount : syscall_entry := MkEntry "mount" SYS_mount ON NX_NO NX_YES
  (arg_types [MOUNT_TYPE; MOUNT_PATH; MOUNT_FLAG; VOID_BUF]) 4 0 no_contexts
  (generators [Some fn_generate_mount_type; Some fn_generate_mountpath; Some fn_generate_mount_flags; Some fn_generate_buf]) None V_ID.

Definition entry_open : syscall_entry := MkEntry "open" SYS_open ON NX_NO NX_NO
  (arg_types [FILE_PATH; OPEN_FLAG; MODE]) 3 0 no_contexts
  (generators [Some fn_generate_path; Some fn_generate_open_flag; Some fn_generate_mode]) None V_ID.

Definition entry_ptrace : syscall_entry := MkEntry "ptrace" SYS_ptrace ON NX_NO NX_YES
  (arg_types [REQUEST; PID; VOID_BUF; INT]) 4 0 no_contexts
  (generators [Some fn_generate_request; Some fn_generate_pid; Some fn_generate_buf; Some fn_generate_int]) None V_ID.

Definition entry_read : syscall_entry := MkEntry "read" SYS_read ON NX_YES NX_NO
  (arg_types [FILE_DESC; VOID_BUF; SIZE]) 3 0 no_contexts
  (generators [Some fn_generate_fd; Some fn_generate_buf; Some fn_generate_length]) None V_ID.

Definition entry_recvmsg : syscall_entry := MkEntry "recvmsg" SYS_recvmsg ON NX_YES NX_NO
  (arg_types [SOCKET; VOID_BUF; SIZE; RECV_FLAG]) 4 0 no_contexts
  (generators [Some fn_generate_socket; Some fn_generate_buf; Some fn_generate_length; Some fn_generate_recv_flags]) None V_ID.

Definition entry_setuid : syscall_entry := MkEntry "setuid" SYS_setuid ON NX_NO NX_NO
  (arg_types [INT]) 1 0 no_contexts
  (generators [Some fn_generate_int]) None V_ID.

Definition entry_unlink : syscall_entry := MkEntry "unlink" SYS_unlink ON NX_NO NX_NO
  (arg_types [FILE_PATH]) 1 0 no_contexts
  (generators [Some fn_generate_path]) None V_ID.

Definition entry_unmount : syscall_entry := MkEntry "unmount" SYS_unmount ON NX_NO NX_YES
  (arg_types [DIR_PATH; UNMOUNT_FLAG]) 2 0 no_contexts
  (generators [Some fn_generate_dirpath; Some fn_generate_unmount_flags]) None V_ID.

Definition entry_wait4 : syscall_entry := MkEntry "wait4" SYS_wait4 ON NX_NO NX_NO
  (arg_types [PID; INT; WAIT_OPTION; RUSAGE]) 4 0 no_contexts
  (generators [Some fn_generate_pid; Some fn_generate_int; Some fn_generate_wait_option; Some fn_generate_rusage]) None V_ID.

Definition entry_write : syscall_entry := MkEntry "write" SYS_write ON NX_NO NX_NO
  (arg_types [FILE_DESC; VOID_BUF; SIZE]) 3 0 no_contexts
  (generators [Some fn_generate_fd; Some fn_generate_buf; Some fn_generate_length]) None V_ID.

(** The static entries of the platform: those of the table first, in its order,
    then the ones the table does not list. *)
Definition freebsd_syscall_table_entries : list syscall_entry :=
  [entry_read; entry_write; entry_open; entry_close; entry_wait4; entry_link; entry_unlink; entry_chdir; entry_fchdir; entry_mknod; entry_getfsstat; entry_lseek; entry_setuid; entry_ptrace; entry_recvmsg; entry_chmod; entry_creat; entry_mount; entry_unmount].

(** The table: [sys_entry[i]] points to entry [i] of the list above, the rest
    of its 56 slots are [NULL]. *)
Definition freebsd_syscall_table : syscall_table := table_of 15 15.
