(* ===== verification/EntriesMac.v ===== *)
(** * EntriesMac: the system calls of macOS

    The entries of syscall/mac/entry_*.c and the table of
    syscall/mac_osx_syscall_table.h. *)

From S2P Require Import Prelude Types ArgTypes.

Definition entry_accept : syscall_entry := MkEntry "accept" SYS_accept ON NX_NO NX_NO
  (arg_types [SOCKET; SOCKADDR; SOCKLEN]) 3 0 no_contexts
  (generators [Some fn_generate_socket; Some fn_generate_sockaddr; Some fn_generate_socklen]) None VPV_ID.

Definition entry_access : syscall_entry := MkEntry "access" SYS_access ON NX_NO NX_NO
  (arg_types [FILE_PATH; AMODE]) 2 0 no_contexts
  (generators [Some fn_generate_path; Some fn_generate_amode]) None PV_ID.

Definition entry_chdir : syscall_entry := MkEntry "chdir" SYS_chdir ON NX_NO NX_NO
  (arg_types [FILE_PATH]) 1 0 no_contexts
  (generators [Some fn_generate_path]) None P_ID.

Definition entry_chflags : syscall_entry := MkEntry "chflags" SYS_chflags ON NX_NO NX_NO
  (arg_types [FILE_PATH; CHFLAGS]) 2 0 no_contexts
  (generators [Some fn_generate_path; Some fn_generate_chflags]) None PV_ID.

Definition entry_chmod : syscall_entry := MkEntry "chmod" SYS_chmod ON NX_NO NX_NO
  (arg_types [FILE_PATH; MODE]) 2 0 no_contexts
  (generators [Some fn_generate_path; Some fn_generate_mode]) None PV_ID.

Definition entry_close : syscall_entry := MkEntry "close" SYS_close ON NX_NO NX_NO
  (arg_types [FILE_DESC]) 1 0 no_contexts
  (generators [Some fn_generate_fd]) None V_ID.

Definition entry_fchdir : syscall_entry := MkEntry "fchdir" SYS_fchdir ON NX_NO NX_NO
  (arg_types [FILE_DESC]) 1 0 no_contexts
  (generators [Some fn_generate_fd]) None V_ID.

Definition entry_getfsstat : syscall_entry := MkEntry "getfsstat" SYS_getfsstat ON NX_NO NX_NO
  (arg_types [STAT_FS; SIZE; STAT_FLAG]) 3 0 no_contexts
  (generators [Some fn_generate_fs_stat; Some fn_generate_length; Some fn_generate_fs_stat_flag]) None PVV_ID.

Definition entry_getpeername : syscall_entry := MkEntry "getpeername" SYS_getpeername ON NX_NO NX_NO
  (arg_types [SOCKET; SOCKADDR; SOCKLEN]) 3 0 no_contexts
  (generators [Some fn_generate_socket; Some fn_generate_sockaddr; Some fn_generate_socklen]) None VPV_ID.

Definition entry_getsockname : syscall_entry := MkEntry "getsockname" SYS_getsockname ON NX_NO NX_NO
  (arg_types [SOCKET; SOCKADDR; SOCKLEN]) 3 0 no_contexts
  (generators [Some fn_generate_socket; Some fn_generate_sockaddr; Some fn_generate_socklen]) None VPV_ID.

Definition entry_link : syscall_entry := MkEntry "link" SYS_link ON NX_NO NX_NO
  (arg_types [FILE_PATH; FILE_PATH]) 2 0 no_contexts
  (generators [Some fn_generate_path; Some fn_generate_path]) None PP_ID.

Definition entry_mknod : syscall_entry := MkEntry "mknod" SYS_mknod ON NX_NO NX_NO
  (arg_types [FILE_PATH; MODE; DEV]) 3 0 no_contexts
  (generators [Some fn_generate_path; Some fn_generate_mode; Some fn_generate_dev]) None PVV_ID.

Definition entry_open : syscall_entry := MkEntry "open" SYS_open ON NX_NO NX_NO
  (arg_types [FILE_PATH; OPEN_FLAG; MODE]) 3 0 no_contexts
  (generators [Some fn_generate_path; Some fn_generate_open_flag; Some fn_generate_mode]) None PVV_ID.

Definition entry_ptrace : syscall_entry := MkEntry "ptrace" SYS_ptrace ON NX_NO NX_YES
  (arg_types [REQUEST; PID; VOID_BUF; INT]) 4 0 no_contexts
  (generators [Some fn_generate_request; Some fn_generate_pid; Some fn_generate_buf; Some fn_generate_int]) None VVPV_ID.

Definition entry_read : syscall_entry := MkEntry "read" SYS_read ON NX_YES NX_NO
  (arg_types [FILE_DESC; VOID_BUF; SIZE]) 3 0 no_contexts
  (generators [Some fn_generate_fd; Some fn_generate_buf; Some fn_generate_length]) None VPV_ID.

Definition entry_recvfrom : syscall_entry := MkEntry "recvfrom" SYS_sendmsg ON NX_YES NX_NO
  (arg_types [SOCKET; VOID_BUF; SIZE; RECV_FLAG; SOCKADDR; SOCKLEN]) 6 0 no_contexts
  (generators [Some fn_generate_socket; Some fn_generate_message; Some fn_generate_length; Some fn_generate_recv_flags; Some fn_generate_sockaddr; Some fn_generate_socklen]) None VPVVPV_ID.

Definition entry_recvmsg : syscall_entry := MkEntry "recvmsg" SYS_recvmsg ON NX_NO NX_NO
  (arg_types [SOCKET; MESSAGE; RECV_FLAG]) 3 0 no_contexts
  (generators [Some fn_generate_socket; Some fn_generate_message; Some fn_generate_recv_flags]) None VPV_ID.

Definition entry_sendmsg : syscall_entry := MkEntry "sendmsg" SYS_sendmsg ON NX_NO NX_NO
  (arg_types [SOCKET; MESSAGE; SEND_FLAG]) 3 0 no_contexts
  (generators [Some fn_generate_socket; Some fn_generate_message; Some fn_generate_send_flags]) None VPV_ID.

Definition entry_setuid : syscall_entry := MkEntry "setuid" SYS_setuid ON NX_NO NX_NO
  (arg_types [INT]) 1 0 no_contexts
  (generators [Some fn_generate_int]) None V_ID.

Definition entry_unlink : syscall_entry := MkEntry "unlink" SYS_unlink ON NX_NO NX_NO
  (arg_types [FILE_PATH]) 1 0 no_contexts
  (generators [Some fn_generate_path]) None P_ID.

Definition entry_wait4 : syscall_entry := MkEntry "wait4" SYS_wait4 ON NX_NO NX_NO
  (arg_types [PID; INT; WAIT_OPTION; RUSAGE]) 4 0 no_contexts
  (generators [Some fn_generate_pid; Some fn_generate_int; Some fn_generate_wait_option; Some fn_generate_rusage]) None VPVP_ID.

Definition entry_write : syscall_entry := MkEntry "write" SYS_write ON NX_NO NX_NO
  (arg_types [FILE_DESC; VOID_BUF; SIZE]) 3 0 no_contexts
  (generators [Some fn_generate_fd; Some fn_generate_buf; Some fn_generate_length]) None VPV_ID.

(** The static entries of the platform: those of the table first, in its order,
    then the ones the table does not list. *)
Definition mac_osx_syscall_table_entries : list syscall_entry :=
  [entry_read; entry_write; entry_open; entry_close; entry_wait4; entry_link; entry_unlink; entry_chdir; entry_fchdir; entry_mknod; entry_getfsstat; entry_setuid; entry_ptrace; entry_recvmsg; entry_sendmsg; entry_recvfrom; entry_accept; entry_getpeername; entry_getsockname; entry_access; entry_chflags; entry_chmod].

(** The table: [sys_entry[i]] points to entry [i] of the list above, the rest
    of its 56 slots are [NULL]. *)
Definition mac_osx_syscall_table : syscall_table := table_of 21 21.
