(* ===== verification/EntriesLinux.v ===== *)
(** * EntriesLinux: the system calls of Linux

    The entries of syscall/linux/entry_*.c and the table of
    syscall/linux_syscall_table.h. *)

From S2P Require Import Prelude Types ArgTypes.

Definition entry_read : syscall_entry := MkEntry "read" SYS_read ON NX_YES NX_NO
  (arg_types [FILE_DESC; VOID_BUF; SIZE]) 3 0 no_contexts
  (generators [Some fn_generate_fd; Some fn_generate_buf; Some fn_generate_length]) None V_ID.

(** The static entries of the platform: those of the table first, in its order,
    then the ones the table does not list. *)
Definition linux_syscall_table_entries : list syscall_entry :=
  [entry_read].

(** The table: [sys_entry[i]] points to entry [i] of the list above, the rest
    of its 56 slots are [NULL]. *)
Definition linux_syscall_table : syscall_table := table_of 1 1.
