(* ===== verification/SetTest.v ===== *)
(** * SetTest: the system call wrappers (syscall/set_test.c)

    Each wrapper makes a system call with the arguments in an array of
    pointers, passing some as pointers and some as the 64-bit integers they
    point to; [set_test_syscall] picks the wrapper of an entry. *)

From S2P Require Import Prelude Types CWorld ArgTypes EntriesFreebsd EntriesMac EntriesLinux.

(** [array[i]] and [( *array[i])]. *)
Definition arg_ptr (array : ptr) (i : Z) : M arg_passed :=
  let! p := load_elem array i in ret (ByPtr p).
Definition arg_val (array : ptr) (i : Z) : M arg_passed :=
  let! p := load_elem array i in
  let! v := load_uint p 8 in ret (ByVal v).

(** [syscall(2)]: the environment answers, -1 for an error. *)
Definition syscall (symbol : option sysno) (args : list arg_passed) : M Z :=
  emit (EvSyscall symbol args) ;;;
  let! a := ask in ret (i32 a).

Definition test_val_ptr_val_ptr (symbol : option sysno) (array : ptr) : M Z :=
  let! a := arg_val array 0 in let! b := arg_ptr array 1 in let! c := arg_val array 2 in
  let! d := arg_ptr array 3 in syscall symbol [a; b; c; d].

Definition test_val_ptr_val_val_ptr_val (symbol : option sysno) (array : ptr) : M Z :=
  let! a := arg_val array 0 in let! b := arg_ptr array 1 in let! c := arg_val array 2 in
  let! d := arg_val array 3 in let! e := arg_ptr array 4 in let! f := arg_val array 5 in
  syscall symbol [a; b; c; d; e; f].

Definition test_val_val_ptr_val (symbol : option sysno) (array : ptr) : M Z :=
  let! a := arg_val array 0 in let! b := arg_val array 1 in let! c := arg_ptr array 2 in
  let! d := arg_val array 3 in syscall symbol [a; b; c; d].

Definition test_ptr_val_ptr (symbol : option sysno) (array : ptr) : M Z :=
  let! a := arg_ptr array 0 in let! b := arg_val array 1 in let! c := arg_ptr array 2 in
  syscall symbol [a; b; c].

Definition test_ptr_ptr_val (symbol : option sysno) (array : ptr) : M Z :=
  let! a := arg_ptr array 0 in let! b := arg_ptr array 1 in let! c := arg_val array 2 in
  syscall symbol [a; b; c].

Definition test_ptr_val_val (symbol : option sysno) (array : ptr) : M Z :=
  let! a := arg_val array 0 in let! b := arg_val array 1 in syscall symbol [a; b].

Definition test_ptr_ptr_ptr (symbol : option sysno) (array : ptr) : M Z :=
  let! a := arg_ptr array 0 in let! b := arg_ptr array 1 in let! c := arg_ptr array 2 in
  syscall symbol [a; b; c].

Definition test_val_ptr_ptr (symbol : option sysno) (array : ptr) : M Z :=
  let! a := arg_val array 0 in let! b := arg_ptr array 1 in let! c := arg_ptr array 2 in
  syscall symbol [a; b; c].

Definition test_val_val_ptr (symbol : option sysno) (array : ptr) : M Z :=
  let! a := arg_val array 0 in let! b := arg_val array 1 in let! c := arg_ptr array 2 in
  syscall symbol [a; b; c].

Definition test_val_ptr_val (symbol : option sysno) (array : ptr) : M Z :=
  let! a := arg_val array 0 in let! b := arg_ptr array 1 in let! c := arg_val array 2 in
  syscall symbol [a; b; c].

Definition test_val_val_val (symbol : option sysno) (array : ptr) : M Z :=
  let! a := arg_val array 0 in let! b := arg_val array 1 in let! c := arg_val array 2 in
  syscall symbol [a; b; c].

Definition test_val_val (symbol : option sysno) (array : ptr) : M Z :=
  let! a := arg_val array 0 in let! b := arg_val array 1 in syscall symbol [a; b].

Definition test_val_ptr (symbol : option sysno) (array : ptr) : M Z :=
  let! a := arg_val array 0 in let! b := arg_ptr array 1 in syscall symbol [a; b].

Definition test_ptr_val (symbol : option sysno) (array : ptr) : M Z :=
  let! a := arg_ptr array 0 in let! b := arg_val array 1 in syscall symbol [a; b].

Definition test_ptr_ptr (symbol : option sysno) (array : ptr) : M Z :=
  let! a := arg_ptr array 0 in let! b := arg_ptr array 1 in syscall symbol [a; b].

Definition test_ptr (symbol : option sysno) (array : ptr) : M Z :=
  let! a := arg_ptr array 0 in syscall symbol [a].

Definition test_val (symbol : option sysno) (array : ptr) : M Z :=
  let! a := arg_val array 0 in syscall symbol [a].

(** The wrapper an id selects. *)
Definition test_of_id (id : test_id) : test_fn :=
  match id with
  | V_ID => fn_test_val
  | P_ID => fn_test_ptr
  | PV_ID => fn_test_ptr_val
  | VP_ID => fn_test_val_ptr
  | VPV_ID => fn_test_val_ptr_val
  | PVV_ID => fn_test_ptr_val_val
  | PP_ID => fn_test_ptr_ptr
  | VVPV_ID => fn_test_val_val_ptr_val
  | VPVVPV_ID => fn_test_val_ptr_val_val_ptr_val
  | VPVP_ID => fn_test_val_ptr_val_ptr
  end.

Definition set_test_syscall (entry : syscall_entry) (id : test_id) : syscall_entry :=
  MkEntry (syscall_name entry) (syscall_symbol entry) (status entry) (need_alarm entry)
    (requires_root entry) (arg_type_array entry) (total_args entry) (entry_number entry)
    (arg_context_array entry) (get_arg_array entry) (Some (test_of_id id)) (entry_id entry).

(** A call through a pointer to a wrapper. *)
Definition call_test (f : test_fn) : option sysno -> ptr -> M Z :=
  match f with
  | fn_test_val_ptr_val_ptr => test_val_ptr_val_ptr
  | fn_test_val_ptr_val_val_ptr_val => test_val_ptr_val_val_ptr_val
  | fn_test_val_val_ptr_val => test_val_val_ptr_val
  | fn_test_ptr_val_ptr => test_ptr_val_ptr
  | fn_test_ptr_ptr_val => test_ptr_ptr_val
  | fn_test_ptr_val_val => test_ptr_val_val
  | fn_test_ptr_ptr_ptr => test_ptr_ptr_ptr
  | fn_test_val_ptr_ptr => test_val_ptr_ptr
  | fn_test_val_val_ptr => test_val_val_ptr
  | fn_test_val_ptr_val => test_val_ptr_val
  | fn_test_val_val_val => test_val_val_val
  | fn_test_val_val => test_val_val
  | fn_test_val_ptr => test_val_ptr
  | fn_test_ptr_val => test_ptr_val
  | fn_test_ptr_ptr => test_ptr_ptr
  | fn_test_ptr => test_ptr
  | fn_test_val => test_val
  end.

(** ** What a wrapper is meant to do *)

Inductive kind := KVal | KPtr.

#[export] Instance kind_eq : EqDecision kind.
Proof. solve_decision. Defined.

(** The calling convention a wrapper is named after. *)
Definition signature (f : test_fn) : list kind :=
  match f with
  | fn_test_val_ptr_val_ptr => [KVal; KPtr; KVal; KPtr]
  | fn_test_val_ptr_val_val_ptr_val => [KVal; KPtr; KVal; KVal; KPtr; KVal]
  | fn_test_val_val_ptr_val => [KVal; KVal; KPtr; KVal]
  | fn_test_ptr_val_ptr => [KPtr; KVal; KPtr]
  | fn_test_ptr_ptr_val => [KPtr; KPtr; KVal]
  | fn_test_ptr_val_val => [KPtr; KVal; KVal]
  | fn_test_ptr_ptr_ptr => [KPtr; KPtr; KPtr]
  | fn_test_val_ptr_ptr => [KVal; KPtr; KPtr]
  | fn_test_val_val_ptr => [KVal; KVal; KPtr]
  | fn_test_val_ptr_val => [KVal; KPtr; KVal]
  | fn_test_val_val_val => [KVal; KVal; KVal]
  | fn_test_val_val => [KVal; KVal]
  | fn_test_val_ptr => [KVal; KPtr]
  | fn_test_ptr_val => [KPtr; KVal]
  | fn_test_ptr_ptr => [KPtr; KPtr]
  | fn_test_ptr => [KPtr]
  | fn_test_val => [KVal]
  end.

(** The arguments an argument array holds, read as [ks] says: [None] where a
    slot or a value cannot be read. *)
Definition read_arg (h : gmap loc hobj) (ps : list ptr) (i : nat) (k : kind) : option arg_passed :=
  p ← ps !! i;
  match k with
  | KPtr => Some (ByPtr p)
  | KVal =>
      l ← p; o ← h !! l;
      match o with OBytes bs => ByVal ∘ le_value <$> get_bytes bs 8 | _ => None end
  end.

Fixpoint read_args (h : gmap loc hobj) (ps : list ptr) (i : nat) (ks : list kind) : option (list arg_passed) :=
  match ks with
  | [] => Some []
  | k :: ks' => a ← read_arg h ps i k; rest ← read_args h ps (S i) ks'; Some (a :: rest)
  end.

(** The system call a wrapper makes and what it answers. *)
Definition made (symbol : option sysno) (args : list arg_passed) (w : world) : outcome Z :=
  Ret (i32 (hd 0 (w_oracle w)))
    (set_oracle (tl (w_oracle w)) (set_events (EvSyscall symbol args :: w_events w) w)).

(** Reading one argument never changes the world. *)
Definition read_kind (array : ptr) (i : Z) (k : kind) : M arg_passed :=
  match k with KVal => arg_val array i | KPtr => arg_ptr array i end.

Lemma read_kind_spec w arr ps (i : nat) k :
  w_heap w !! arr = Some (OPtrs ps) ->
  read_kind (Some arr) (Z.of_nat i) k w =
    match read_arg (w_heap w) ps i k with Some a => Ret a w | None => Crash end.
Proof.
  intros Harr. unfold read_kind, read_arg, arg_val, arg_ptr.
  destruct (ps !! i) as [p|] eqn:Hi; cbn.
  - destruct k.
    + erewrite bind_eq by (eapply load_elem_eq; [exact Harr|by rewrite nth_z_nat]).
      destruct p as [l|]; [|done]. cbn. destruct (w_heap w !! l) as [o|] eqn:Hl; cbn.
      * destruct o; cbn;
          try (by unfold load_uint, load_bytes, bind, load; rewrite Hl).
        unfold load_uint. rewrite bind_assoc. erewrite bind_eq by (by apply load_bytes_eq).
        by destruct (get_bytes bs 8).
      * by unfold load_uint, load_bytes, bind, load; rewrite Hl.
    + by erewrite bind_eq by (eapply load_elem_eq; [exact Harr|by rewrite nth_z_nat]).
  - destruct k; apply bind_crash; eapply load_elem_oob; [exact Harr|by rewrite nth_z_nat|exact Harr|by rewrite nth_z_nat].
Qed.

Lemma read_step {A} w arr ps i k (c : arg_passed -> M A) :
  w_heap w !! arr = Some (OPtrs ps) -> 0 <= i ->
  (let! a := read_kind (Some arr) i k in c a) w =
    match read_arg (w_heap w) ps (Z.to_nat i) k with Some a => c a w | None => Crash end.
Proof.
  intros Harr Hi. rewrite <- (Z2Nat.id i) at 1 by done. unfold bind.
  rewrite (read_kind_spec _ _ _ _ _ Harr). by destruct (read_arg _ _ _ _).
Qed.

Lemma val_step {A} w arr ps i (c : arg_passed -> M A) :
  w_heap w !! arr = Some (OPtrs ps) -> 0 <= i ->
  (let! a := arg_val (Some arr) i in c a) w =
    match read_arg (w_heap w) ps (Z.to_nat i) KVal with Some a => c a w | None => Crash end.
Proof. apply (read_step w arr ps i KVal). Qed.

Lemma ptr_step {A} w arr ps i (c : arg_passed -> M A) :
  w_heap w !! arr = Some (OPtrs ps) -> 0 <= i ->
  (let! a := arg_ptr (Some arr) i in c a) w =
    match read_arg (w_heap w) ps (Z.to_nat i) KPtr with Some a => c a w | None => Crash end.
Proof. apply (read_step w arr ps i KPtr). Qed.

(** What a wrapper passes: its signature, but for one wrapper. *)
Definition passes (f : test_fn) : list kind :=
  match f with fn_test_ptr_val_val => [KVal; KVal] | _ => signature f end.

Ltac next_arg arr ps Harr :=
  first [rewrite (val_step _ arr ps) by (done || exact Harr) | rewrite (ptr_step _ arr ps) by (done || exact Harr)];
  match goal with |- context [match read_arg ?h ?q (Z.to_nat ?i) ?k with _ => _ end] =>
    let n := eval vm_compute in (Z.to_nat i) in change (Z.to_nat i) with n; destruct (read_arg h q n k); cbn; [|done]
  end.

Lemma call_test_spec f symbol w arr ps :
  w_heap w !! arr = Some (OPtrs ps) ->
  call_test f symbol (Some arr) w =
    match read_args (w_heap w) ps 0 (passes f) with Some args => made symbol args w | None => Crash end.
Proof.
  intros Harr. destruct f; cbn [call_test passes signature read_args];
    unfold test_val_ptr_val_ptr, test_val_ptr_val_val_ptr_val, test_val_val_ptr_val, test_ptr_val_ptr,
      test_ptr_ptr_val, test_ptr_val_val, test_ptr_ptr_ptr, test_val_ptr_ptr, test_val_val_ptr,
      test_val_ptr_val, test_val_val_val, test_val_val, test_val_ptr, test_ptr_val, test_ptr_ptr,
      test_ptr, test_val; repeat (next_arg arr ps Harr); done.
Qed.

(** (C36) Every wrapper but [test_ptr_val_val] makes exactly one system call,
    with the entry's symbol and with the arguments of its array in order,
    each passed the way the wrapper's name says (the pointer itself, or the
    64-bit integer it points to), and answers what the call answers; when a
    slot or a value it has to read is not there, it is undefined and no call
    is made. *)
Theorem wrappers_follow_signature f symbol w arr ps :
  w_heap w !! arr = Some (OPtrs ps) -> f <> fn_test_ptr_val_val ->
  call_test f symbol (Some arr) w =
    match read_args (w_heap w) ps 0 (signature f) with Some args => made symbol args w | None => Crash end.
Proof. intros Harr Hf. rewrite (call_test_spec _ _ _ _ _ Harr). by destruct f. Qed.

(** [test_ptr_val_val] does not follow its name: it passes two of its
    three arguments, and the first as the integer found at the address
    instead of the address. *)
Theorem test_ptr_val_val_drops_argument symbol w arr p0 p1 p2 rest a b :
  w_heap w !! arr = Some (OPtrs (p0 :: p1 :: p2 :: rest)) ->
  read_args (w_heap w) (p0 :: p1 :: p2 :: rest) 0 [KVal; KVal] = Some [ByVal a; ByVal b] ->
  test_ptr_val_val symbol (Some arr) w = made symbol [ByVal a; ByVal b] w.
Proof. intros Harr Ha. rewrite (call_test_spec fn_test_ptr_val_val _ _ _ _ Harr). cbn [passes]. by rewrite Ha. Qed.

(** ** The entries of the three platforms *)

(** The wrapper the entry's id selects passes as many arguments as the system
    call takes. *)
Definition passes_all (e : syscall_entry) : bool :=
  Z.of_nat (length (passes (test_of_id (entry_id e)))) =? total_args e.

(** The calls of a table whose wrapper passes too few or too many arguments. *)
Definition wrong_arity (es : list syscall_entry) : list string :=
  map syscall_name (filter (fun e => passes_all e = false) es).

(** An entry has a generator for each of its arguments, and no more
    arguments than an array has slots. *)
Definition well_formed_entry (e : syscall_entry) : bool :=
  (0 <? total_args e) && (total_args e <=? ARG_LIMIT) &&
  bool_decide (length (arg_type_array e) = 7%nat) && bool_decide (length (get_arg_array e) = 7%nat) &&
  forallb (fun i => match get_arg_array e !! i with Some (Some _) => true | _ => false end)
    (seq 0 (Z.to_nat (total_args e))).

Definition table_ok (es : list syscall_entry) (t : syscall_table) : bool :=
  (total_syscalls t <=? 56) && bool_decide (length (sys_entry t) = 56%nat) &&
  forallb (fun i => match sys_entry t !! i with
                    | Some (Some k) => match es !! k with Some e => well_formed_entry e | None => false end
                    | _ => false
                    end) (seq 0 (Z.to_nat (total_syscalls t))).

(** The tables of the three platforms are well formed: each of the
    first [total_syscalls] slots points to an entry, and each such entry has
    between one and seven arguments and a generator for every one of them. *)
Theorem tables_well_formed :
  table_ok freebsd_syscall_table_entries freebsd_syscall_table = true /\
  table_ok mac_osx_syscall_table_entries mac_osx_syscall_table = true /\
  table_ok linux_syscall_table_entries linux_syscall_table = true.
Proof. by vm_compute. Qed.

(** Which system calls are made with all of their arguments.  On macOS
    all but the three that are wrapped by [test_ptr_val_val].  The entries of
    FreeBSD and Linux never set their id, so every one of them is called
    through [test_val]: only the calls of one argument are made with all of
    their arguments. *)
Theorem wrapped_arity :
  wrong_arity mac_osx_syscall_table_entries = ["open"; "mknod"; "getfsstat"]%string /\
  Forall (fun e => test_of_id (entry_id e) = fn_test_val)
    (freebsd_syscall_table_entries ++ linux_syscall_table_entries) /\
  map syscall_name (filter (fun e => passes_all e = true)
    (freebsd_syscall_table_entries ++ linux_syscall_table_entries)) = ["close"; "unlink"; "chdir"; "fchdir"; "setuid"]%string.
Proof. split_and!; [by vm_compute|repeat constructor|by vm_compute]. Qed.

(** ** Two arguments on the heap *)

Definition arg_world : world :=
  set_heap (list_to_map
    [ (1%positive, OPtrs [Some 2%positive; Some 3%positive; Some 2%positive]);
      (2%positive, OBytes (map Some (le_bytes 8 5))); (3%positive, zeros 16) ]) (fresh_world [12] []).

Lemma wrappers_follow_signature_witness :
  call_test fn_test_val_ptr_val (Some SYS_read) (Some 1%positive) arg_world =
    made (Some SYS_read) [ByVal 5; ByPtr (Some 3%positive); ByVal 5] arg_world.
Proof.
  refine (eq_trans (wrappers_follow_signature fn_test_val_ptr_val (Some SYS_read) arg_world 1%positive
    [Some 2%positive; Some 3%positive; Some 2%positive] eq_refl _) _); [done|by vm_compute].
Defined.

Lemma test_ptr_val_val_drops_argument_witness :
  test_ptr_val_val (Some SYS_open) (Some 1%positive) arg_world =
    made (Some SYS_open) [ByVal 5; ByVal 0] arg_world.
Proof.
  exact (test_ptr_val_val_drops_argument (Some SYS_open) arg_world 1%positive (Some 2%positive)
    (Some 3%positive) (Some 2%positive) [] 5 0 eq_refl eq_refl).
Defined.
