(* ===== verification/Child.v ===== *)
(** * Child: the context of a child process (syscall/syscall.c)

    The accessors of [struct child_ctx] and the lookups in the table of
    children and in the system call table, which the argument generators, the
    signal handlers and the fuzzing loops use. *)

From S2P Require Import Prelude Types CWorld Memory Crypto.

(** ** Assignments to single members *)

Definition with_pid (pid : Z) (c : child_ctx) : child_ctx :=
  let '(MkChild _ n s a t nm v cp sz r e g j al f jb) := c in MkChild pid n s a t nm v cp sz r e g j al f jb.
Definition with_syscall (n : Z) (s : option sysno) (t : Z) (nm : option string) (al : yes_no) (c : child_ctx)
    : child_ctx :=
  let '(MkChild p _ _ a _ _ v cp sz r e g j _ f jb) := c in MkChild p n s a t nm v cp sz r e g j al f jb.
Definition with_current_arg (a : Z) (c : child_ctx) : child_ctx :=
  let '(MkChild p n s _ t nm v cp sz r e g j al f jb) := c in MkChild p n s a t nm v cp sz r e g j al f jb.
Definition with_arrays (v cp sz : ptr) (c : child_ctx) : child_ctx :=
  let '(MkChild p n s a t nm _ _ _ r e g j al f jb) := c in MkChild p n s a t nm v cp sz r e g j al f jb.
Definition with_ret_value (r : Z) (c : child_ctx) : child_ctx :=
  let '(MkChild p n s a t nm v cp sz _ e g j al f jb) := c in MkChild p n s a t nm v cp sz r e g j al f jb.
Definition with_had_error (e : yes_no) (c : child_ctx) : child_ctx :=
  let '(MkChild p n s a t nm v cp sz r _ g j al f jb) := c in MkChild p n s a t nm v cp sz r e g j al f jb.
Definition with_sig_num (g : Z) (c : child_ctx) : child_ctx :=
  let '(MkChild p n s a t nm v cp sz r e _ j al f jb) := c in MkChild p n s a t nm v cp sz r e g j al f jb.
Definition with_did_jump (j : yes_no) (c : child_ctx) : child_ctx :=
  let '(MkChild p n s a t nm v cp sz r e g _ al f jb) := c in MkChild p n s a t nm v cp sz r e g j al f jb.
Definition with_test_syscall (f : option test_fn) (c : child_ctx) : child_ctx :=
  let '(MkChild p n s a t nm v cp sz r e g j al _ jb) := c in MkChild p n s a t nm v cp sz r e g j al f jb.
Definition with_return_jump (b : option Z) (c : child_ctx) : child_ctx :=
  let '(MkChild p n s a t nm v cp sz r e g j al f _) := c in MkChild p n s a t nm v cp sz r e g j al f b.

Definition update_child (child : ptr) (f : child_ctx -> child_ctx) : M unit :=
  let! c := load_child child in store child (OChild (f c)).

(** ** Accessors *)

Definition set_had_error (child : ptr) (val : yes_no) : M unit := update_child child (with_had_error val).
Definition set_ret_value (child : ptr) (val : Z) : M unit := update_child child (with_ret_value val).
Definition set_sig_num (child : ptr) (num : Z) : M unit := update_child child (with_sig_num num).
Definition set_did_jump (child : ptr) (val : yes_no) : M unit := update_child child (with_did_jump val).

(** [longjmp(child->return_jump, 0)]: it is undefined unless the buffer was
    filled by a [setjmp] of the process that jumps. *)
Definition jump {A} (child : ptr) : M A :=
  let! c := load_child child in
  let! pid := gets w_pid in
  if decide (return_jump c = Some pid) then fun w => Jump w else crash.

(** [cas_loop_int32] on the member: alone it is an assignment. *)
Definition set_child_pid (child : ptr) (pid : Z) : M unit := update_child child (with_pid pid).

(** The output writer is only called through in the error branch. *)
Definition get_arg_size (child : ptr) (arg_num : Z) (output : ptr) : M (option Z) :=
  if ARG_LIMIT <? arg_num then
    match output with
    | None => crash
    | Some _ => write ERROR "Arg number is greater than the arg limit.\n" ;;; ret None
    end
  else
    let! c := load_child child in
    let! sizes := load_words (arg_size_array c) in
    let! size := need (nth_z sizes arg_num) in
    ret (Some size).

Definition get_current_arg (child : ptr) : M Z :=
  let! c := load_child child in ret (child_current_arg c).

Definition set_arg_size (child : ptr) (size : Z) : M unit := ret tt.

(** ** Static variables *)

Definition sys_set_state (p : ptr) : M unit := modify (fun w => let s := w_sys w in
  set_sys (MkSys p (total_children s) (children s) (sys_table s) (sys_stop s) (sys_mode s) (table_set s) (sys_epoch s)) w).
Definition sys_set_total (n : Z) : M unit := modify (fun w => let s := w_sys w in
  set_sys (MkSys (sys_state s) n (children s) (sys_table s) (sys_stop s) (sys_mode s) (table_set s) (sys_epoch s)) w).
Definition sys_set_children (p : ptr) : M unit := modify (fun w => let s := w_sys w in
  set_sys (MkSys (sys_state s) (total_children s) p (sys_table s) (sys_stop s) (sys_mode s) (table_set s) (sys_epoch s)) w).
Definition sys_set_table (p : ptr) : M unit := modify (fun w => let s := w_sys w in
  set_sys (MkSys (sys_state s) (total_children s) (children s) p (sys_stop s) (sys_mode s) (table_set s) (sys_epoch s)) w).
Definition sys_set_run (stop : ptr) (mode : Z) (ep : ptr) (set : Z) : M unit := modify (fun w => let s := w_sys w in
  set_sys (MkSys (sys_state s) (total_children s) (children s) (sys_table s) stop mode set ep) w).

(** ** The system call table *)

Definition get_total_syscalls : M Z :=
  let! s := gets w_sys in
  let! t := load_table (sys_table s) in ret (total_syscalls t).

(** An entry pointer is [Some k]: entry [k] of the static entries. *)
Definition load_sys_entry (t : syscall_table) (i : Z) : M (option nat) := need (nth_z (sys_entry t) i).

Definition deref_entry (e : option nat) : M syscall_entry :=
  match e with
  | None => crash
  | Some k => let! es := gets w_entries in need (es !! k)
  end.

Definition get_entry (syscall_number : Z) : M (option nat) :=
  let! s := gets w_sys in
  let! t := load_table (sys_table s) in
  if total_syscalls t <? syscall_number then ret None
  else load_sys_entry t syscall_number.

(** ** The children *)

Definition get_child_from_index (i : Z) : M ptr :=
  let! s := gets w_sys in
  if total_children s <? i then ret NULL
  else load_elem (children s) i.

(** The loop of [get_child_index_number] from index [i] on; [n] slots are
    left. *)
Fixpoint find_pid (n : nat) (i : Z) (pid : Z) : M (option Z) :=
  match n with
  | O => ret None
  | S n' =>
      let! s := gets w_sys in
      let! p := load_elem (children s) i in
      let! c := load_child p in
      if child_pid c =? pid then ret (Some i) else find_pid n' (i + 1) pid
  end.

Definition get_child_index_number : M (option Z) :=
  let! pid := gets w_pid in
  let! s := gets w_sys in
  find_pid (Z.to_nat (total_children s)) 0 pid.

Definition get_child_ctx_from_pid (pid : Z) : M ptr :=
  let! s := gets w_sys in
  let! r := find_pid (Z.to_nat (total_children s)) 0 pid in
  match r with
  | None => ret NULL
  | Some i => load_elem (children s) i
  end.

Definition get_child : M ptr :=
  let! r := get_child_index_number in
  match r with
  | None => write ERROR "Can't grab child number\n" ;;; ret NULL
  | Some offset =>
      let! s := gets w_sys in
      load_elem (children s) offset
  end.

(** ** Bounds *)

Lemma update_child_eq w l c f :
  w_heap w !! l = Some (OChild c) ->
  update_child (Some l) f w = Ret tt (set_heap (<[l := OChild (f c)]> (w_heap w)) w).
Proof.
  intros Hl. unfold update_child. erewrite bind_eq by (by apply load_child_eq).
  by apply store_eq with (OChild c).
Qed.

(** The children are an array of [total_children] contexts. *)
Definition children_ok (w : world) (arr : loc) (ps : list ptr) (cs : list child_ctx) : Prop :=
  children (w_sys w) = Some arr /\ w_heap w !! arr = Some (OPtrs ps) /\
  total_children (w_sys w) = Z.of_nat (length ps) /\
  Forall2 (fun p c => exists l, p = Some l /\ w_heap w !! l = Some (OChild c)) ps cs.

(** The first child with a process id, from a given index on. *)
Fixpoint first_pid (cs : list child_ctx) (pid : Z) : option nat :=
  match cs with
  | [] => None
  | c :: cs' => if child_pid c =? pid then Some 0%nat else S <$> first_pid cs' pid
  end.

Lemma first_pid_spec cs pid k :
  first_pid cs pid = Some k ->
  exists c, cs !! k = Some c /\ child_pid c = pid /\
    forall j c', (j < k)%nat -> cs !! j = Some c' -> child_pid c' <> pid.
Proof.
  revert k; induction cs as [|c cs IH]; intros k; [done|]. cbn.
  destruct (Z.eqb_spec (child_pid c) pid) as [Heq|Hne].
  - intros [= <-]. exists c. split_and!; [done..|]. intros j ? Hj. lia.
  - intros (k' & Hk' & ->)%fmap_Some. destruct (IH k') as (c' & ? & ? & Hb); [done|].
    exists c'. split_and!; [done..|]. intros [|j] c'' Hj Hc''; [by simplify_eq/=|].
    apply (Hb j); [lia|done].
Qed.

Lemma first_pid_none cs pid c : first_pid cs pid = None -> c ∈ cs -> child_pid c <> pid.
Proof.
  induction cs as [|c' cs IH]; intros Hn Hc; [by apply not_elem_of_nil in Hc|]. cbn in Hn.
  destruct (Z.eqb_spec (child_pid c') pid) as [|Hne]; [done|].
  apply fmap_None in Hn. apply elem_of_cons in Hc as [->|Hc]; auto.
Qed.

Lemma find_pid_spec w arr ps cs pid :
  children_ok w arr ps cs -> forall n i, (i + n = length ps)%nat ->
  find_pid n (Z.of_nat i) pid w = Ret ((fun k => Z.of_nat (i + k)) <$> first_pid (drop i cs) pid) w.
Proof.
  intros (Hch & Harr & _ & Hall). induction n as [|n IH]; intros i Hi; cbn [find_pid].
  - rewrite drop_ge; [done|]. apply Forall2_length in Hall. unfold ptr in *. lia.
  - erewrite bind_eq by reflexivity. rewrite Hch.
    destruct (lookup_lt_is_Some_2 ps i) as [p Hp]; [lia|].
    destruct (Forall2_lookup_l _ _ _ _ _ Hall Hp) as (c & Hc & l & -> & Hl).
    erewrite bind_eq by (eapply load_elem_eq; [exact Harr|by rewrite nth_z_nat]).
    erewrite bind_eq by (by eapply load_child_eq).
    rewrite (drop_S _ _ _ Hc). cbn [first_pid].
    destruct (child_pid c =? pid); [cbn; do 2 f_equal; lia|].
    replace (Z.of_nat i + 1) with (Z.of_nat (S i)) by lia. rewrite IH by lia.
    destruct (first_pid (drop (S i) cs) pid); cbn; do 3 f_equal; lia.
Qed.

(** [get_child] finds the context of the calling process: the first
    child of the array that carries the process's id, without reading past
    the array; when no child carries it, it reports so and answers [NULL]. *)
Theorem get_child_correct w arr ps cs :
  children_ok w arr ps cs ->
  match get_child w with
  | Ret (Some l) w' => w' = w /\ exists k c, ps !! k = Some (Some l) /\ w_heap w !! l = Some (OChild c) /\
      child_pid c = w_pid w /\ forall j c', (j < k)%nat -> cs !! j = Some c' -> child_pid c' <> w_pid w
  | Ret None w' => w' = set_out ((ERROR, "Can't grab child number\n") :: w_out w) w /\
      Forall (fun c => child_pid c <> w_pid w) cs
  | _ => False
  end.
Proof.
  intros Hok. pose proof Hok as (Hch & Harr & Htot & Hall).
  unfold get_child, get_child_index_number. rewrite !bind_assoc.
  erewrite bind_eq by reflexivity. rewrite bind_assoc. erewrite bind_eq by reflexivity.
  rewrite Htot, Nat2Z.id. erewrite bind_eq by (apply (find_pid_spec _ _ _ _ _ Hok _ 0%nat); done).
  rewrite drop_0. destruct (first_pid cs (w_pid w)) as [k|] eqn:Hk; cbn -[Z.of_nat].
  - destruct (first_pid_spec _ _ _ Hk) as (c & Hc & Hpid & Hb).
    erewrite bind_eq by reflexivity. rewrite Hch.
    destruct (Forall2_lookup_r _ _ _ _ _ Hall Hc) as (p & Hp & l & -> & Hl).
    erewrite load_elem_eq; [|exact Harr|by rewrite nth_z_nat]. split; [done|].
    exists k, c. by split_and!.
  - cbn. split; [done|]. apply Forall_forall. intros c Hc. by eapply first_pid_none.
Qed.

(** The bounds checks of two lookups admit one index too many:
    [get_arg_size] accepts the argument number 7 of an array of seven sizes,
    [get_child_from_index] the index [total_children], and both read past the
    end of their array. *)
Theorem off_by_one_lookups w child c sz sizes arr ps :
  w_heap w !! child = Some (OChild c) -> arg_size_array c = Some sz ->
  w_heap w !! sz = Some (OWords sizes) -> length sizes = 7%nat ->
  children (w_sys w) = Some arr -> w_heap w !! arr = Some (OPtrs ps) ->
  total_children (w_sys w) = Z.of_nat (length ps) ->
  (forall out, get_arg_size (Some child) ARG_LIMIT out w = Crash) /\
  get_child_from_index (Z.of_nat (length ps)) w = Crash.
Proof.
  intros Hc Hsz Hs Hlen Hch Harr Htot. split.
  - intros out. unfold get_arg_size. cbn [Z.ltb ARG_LIMIT]. rewrite Z.ltb_irrefl.
    erewrite bind_eq by (by eapply load_child_eq). rewrite Hsz.
    erewrite bind_eq by (by eapply load_words_eq). rewrite nth_z_ge; [done|]. by rewrite Hlen.
  - unfold get_child_from_index. erewrite bind_eq by reflexivity. rewrite Htot, Z.ltb_irrefl, Hch.
    eapply load_elem_oob; [exact Harr|]. by apply nth_z_ge.
Qed.

(** ** Two children *)

Definition blank_child (pid : Z) : child_ctx :=
  MkChild pid 0 None 0 0 None NULL NULL (Some 4%positive) 0 NX_YES 0 NX_YES NX_YES None None.

Definition two_children : world :=
  set_sys (MkSys NULL 2 (Some 1%positive) NULL NULL 0 0 NULL) (set_heap (list_to_map
    [ (1%positive, OPtrs [Some 2%positive; Some 3%positive]); (2%positive, OChild (blank_child 0));
      (3%positive, OChild (blank_child 100)); (4%positive, OWords (replicate 7 0)) ]) (fresh_world [] [])).

Lemma two_children_ok :
  children_ok two_children 1%positive [Some 2%positive; Some 3%positive] [blank_child 0; blank_child 100].
Proof. split_and!; try done. repeat constructor; by eexists. Qed.

Example two_children_run : get_child two_children = Ret (Some 3%positive) two_children.
Proof. vm_compute. reflexivity. Qed.

Lemma get_child_correct_witness :
  exists k c, [Some 2%positive; Some 3%positive] !! k = Some (Some 3%positive) /\
    w_heap two_children !! 3%positive = Some (OChild c) /\ child_pid c = w_pid two_children.
Proof.
  pose proof (get_child_correct two_children 1%positive [Some 2%positive; Some 3%positive]
    [blank_child 0; blank_child 100] two_children_ok) as H.
  rewrite two_children_run in H. destruct H as (_ & k & c & H1 & H2 & H3 & _). exists k, c. auto.
Defined.

Lemma off_by_one_lookups_witness :
  get_arg_size (Some 2%positive) ARG_LIMIT NULL two_children = Crash /\
  get_child_from_index 2 two_children = Crash.
Proof.
  destruct (off_by_one_lookups two_children 2%positive (blank_child 0) 4%positive (replicate 7 0) 1%positive
    [Some 2%positive; Some 3%positive]) as [H1 H2]; [done..|]. split; [apply H1|exact H2].
Defined.
