(* ===== verification/Generate.v ===== *)
(** * Generate: the argument generators (syscall/generate.c, generate-macos.c)

    Each generator allocates a value for one argument of a system call,
    leaves the pointer in its slot of the child's argument array and returns
    0, or -1.  A generator takes the address of the slot and the child's
    context; in the model it is given the pointer in the slot and answers the
    return value and the pointer it leaves there.

    The generators get their descriptors, sockets and paths from the resource
    module through the interface [resources]; the constants of the system
    headers are the parameter [headers]. *)

From S2P Require Import Prelude Types CWorld Io Memory Crypto Child.

(** ** The system headers *)

Inductive hconst :=
| O_RDONLY | O_WRONLY | O_RDWR | O_NONBLOCK | O_APPEND | O_CREAT | O_TRUNC | O_EXCL
| MNT_NOWAIT | MNT_WAIT | WUNTRACED | WNOHANG
| SEEK_SET | SEEK_CUR | SEEK_END | SEEK_HOLE | SEEK_DATA
| MSG_OOB | MSG_PEEK | MSG_WAITALL | MSG_DONTROUTE
| R_OK | W_OK | X_OK
| UF_NODUMP | UF_IMMUTABLE | UF_APPEND | UF_OPAQUE | UF_HIDDEN | SF_ARCHIVED | SF_IMMUTABLE | SF_APPEND
| MNT_RDONLY | MNT_NOEXEC | MNT_NOSUID | MNT_NODEV | MNT_UNION | MNT_SYNCHRONOUS | MNT_CPROTECT
| PT_TRACE_ME | PT_DENY_ATTACH | PT_CONTINUE | PT_STEP | PT_KILL | PT_ATTACH | PT_ATTACHEXC | PT_DETACH.

Record headers := MkHeaders {
  h_platform : platform;
  h_const : hconst -> Z;
  sizeof_statfs : Z;
  sizeof_rusage : Z;
  sizeof_dev_t : Z;
  sizeof_msghdr : Z;
  makedev_10_2 : Z
}.

(** What the code relies on: the structs are not empty, a [struct msghdr] has
    the members of the LP64 ABIs (48 bytes, and 56 on Linux), the constants
    are non-negative [int]s. *)
Definition headers_ok (H : headers) : Prop :=
  0 < sizeof_statfs H /\ 0 < sizeof_rusage H /\ 0 < sizeof_dev_t H /\ 48 <= sizeof_msghdr H /\
  forall k, 0 <= h_const H k < 2 ^ 31.

(** ** The resource module, as the generators use it *)

Record resources := MkResources {
  get_desc : M Z;
  get_socket : M Z;
  get_filepath : M ptr;
  get_dirpath : M ptr
}.

(** ** Reading and writing through [uint64_t *] *)

(** [( **p) |= v] and [( **p) = v]. *)
Definition or_u64 (p : ptr) (v : Z) : M unit :=
  let! old := load_uint p 8 in store_int p 8 (Z.lor old v).
Definition set_u64 (p : ptr) (v : Z) : M unit := store_int p 8 v.

(** A [switch] over the cases 0, 1, ... with what each of them does, [d] for
    the default. *)
Definition switch {A} (number : Z) (cases : list A) (d : M (Z * ptr)) (k : A -> M (Z * ptr)) : M (Z * ptr) :=
  match nth_z cases number with Some a => k a | None => d end.

Section generate.
Context (H : headers) (R : resources).
Let c := h_const H.

Definition generate_fd (fd child : ptr) : M (Z * ptr) :=
  let! fd := mem_alloc (junk 4) in
  match fd with
  | None => write ERROR "Can't allocate a descriptor\n" ;;; ret (-1, NULL)
  | Some _ =>
      let! desc := get_desc R in
      if desc <? 0 then write ERROR "Can't get file descriptor\n" ;;; ret (-1, fd)
      else
        store_int fd 4 desc ;;;
        set_arg_size child 4 ;;;
        ret (0, fd)
  end.

Definition generate_socket (sock child : ptr) : M (Z * ptr) :=
  let! sock := mem_alloc (junk 4) in
  match sock with
  | None => write ERROR "Can't allocate socket\n" ;;; ret (-1, NULL)
  | Some _ =>
      let! sock_fd := get_socket R in
      if sock_fd <? 0 then write ERROR "Can't get socket\n" ;;; ret (-1, sock)
      else
        store_int sock 4 sock_fd ;;;
        set_arg_size child 4 ;;;
        ret (0, sock)
  end.

(** The three mappings differ in their protection only; a page fresh from
    [mmap] is zeroed.  A failure leaves [MAP_FAILED] in the slot, which is
    not [NULL] but no valid pointer either. *)
Definition generate_buf (buf child : ptr) : M (Z * ptr) :=
  let! nbytes := rand_range 1023 in
  match nbytes with
  | None => write ERROR "Can't pick random size\n" ;;; ret (-1, buf)
  | Some nbytes =>
      let nbytes := u32 (nbytes + 1) in
      let! number := rand_range 2 in
      match number with
      | None => write ERROR "Can't pick random number\n" ;;; ret (-1, buf)
      | Some number =>
          switch number [tt; tt; tt]
            (write ERROR "Should not get here\n" ;;; ret (-1, buf))
            (fun _ =>
               let! buf := mmap_anon (zeros nbytes) in
               match buf with
               | None => write ERROR "mmap: %s\n" ;;; ret (-1, NULL)
               | Some _ => set_arg_size child nbytes ;;; ret (0, buf)
               end)
      end
  end.

Definition generate_length (length child : ptr) : M (Z * ptr) :=
  let! cur := get_current_arg child in
  let last_arg := if cur =? 0 then 0 else u32 (cur - 1) in
  let! length := mem_alloc (junk 8) in
  match length with
  | None => write ERROR "Can't alloc length\n" ;;; ret (-1, NULL)
  | Some _ =>
      let! console := get_console_writter in
      let! arg_size := get_arg_size child last_arg console in
      match arg_size with
      | None => write ERROR "Can't get argument size.\n" ;;; ret (-1, length)
      | Some arg_size =>
          store_int length 8 arg_size ;;;
          set_arg_size child 8 ;;;
          ret (0, length)
      end
  end.

Definition generate_path (path child : ptr) : M (Z * ptr) :=
  let! path := get_filepath R in
  match path with
  | None => write ERROR "Can't get file path\n" ;;; ret (-1, NULL)
  | Some _ =>
      let! s := load_cstr path in
      set_arg_size child (Z.of_nat (length s)) ;;;
      ret (0, path)
  end.

Definition generate_open_flag (flag child : ptr) : M (Z * ptr) :=
  let! number := rand_range 7 in
  match number with
  | None => write ERROR "Can't generate random number\n" ;;; ret (-1, flag)
  | Some number =>
      let! flag := mem_alloc (junk 12) in
      match flag with
      | None => write ERROR "Can't alloc flag\n" ;;; ret (-1, NULL)
      | Some _ =>
          switch number [O_RDONLY; O_WRONLY; O_RDWR; O_NONBLOCK; O_APPEND; O_CREAT; O_TRUNC; O_EXCL]
            (write ERROR "Should not get here\n" ;;; ret (-1, flag))
            (fun k => or_u64 flag (c k) ;;; set_arg_size child 8 ;;; ret (0, flag))
      end
  end.

(** The first fourteen cases are octal literals, the last seven are not. *)
Definition mode_values : list Z :=
  [1; 2; 3; 4; 5; 6; 7; 8; 16; 24; 32; 40; 48; 56; 100; 200; 300; 400; 500; 600; 700].

Definition generate_mode (mode child : ptr) : M (Z * ptr) :=
  let! number := rand_range 20 in
  match number with
  | None => write ERROR "Can't generate random number\n" ;;; ret (-1, mode)
  | Some number =>
      let! mode := mem_alloc (junk 12) in
      match mode with
      | None => write ERROR "Can't alloc mode\n" ;;; ret (-1, NULL)
      | Some _ =>
          switch number mode_values
            (write ERROR "Can't get mode\n" ;;; ret (-1, mode))
            (fun v => set_u64 mode v ;;; set_arg_size child 8 ;;; ret (0, mode))
      end
  end.

Definition generate_fs_stat (stat child : ptr) : M (Z * ptr) :=
  let! stat_buf := mem_alloc (junk (sizeof_statfs H)) in
  match stat_buf with
  | None => write ERROR "Can't alloc stat\n" ;;; ret (-1, stat)
  | Some _ => set_arg_size child (sizeof_statfs H) ;;; ret (0, stat_buf)
  end.

(** Not compiled on Linux. *)
Definition generate_fs_stat_flag (flag child : ptr) : M (Z * ptr) :=
  let! flag := mem_alloc (junk 12) in
  match flag with
  | None => write ERROR "Can't alloc flag\n" ;;; ret (-1, NULL)
  | Some _ =>
      let! number := rand_range 1 in
      match number with
      | None => write ERROR "Can't generate random number\n" ;;; ret (-1, flag)
      | Some number =>
          switch number [MNT_NOWAIT; MNT_WAIT]
            (write ERROR "Can't pick stat flag\n" ;;; ret (-1, flag))
            (fun k => set_u64 flag (c k) ;;; set_arg_size child 8 ;;; ret (0, flag))
      end
  end.

Definition generate_pid (pid child : ptr) : M (Z * ptr) :=
  let! pid := mem_alloc (junk 8) in
  match pid with
  | None => write STD "Can't alloc pid\n" ;;; ret (-1, NULL)
  | Some _ =>
      let! p := gets w_pid in
      set_u64 pid p ;;;
      set_arg_size child 8 ;;;
      ret (0, pid)
  end.

Definition generate_int (integer child : ptr) : M (Z * ptr) :=
  let! integer := mem_alloc (junk 8) in
  match integer with
  | None => write ERROR "Can't alloc int\n" ;;; ret (-1, NULL)
  | Some _ =>
      let! number := rand_range INT_MAX in
      match number with
      | None => write ERROR "Can't pick random int\n" ;;; ret (-1, integer)
      | Some number =>
          set_u64 integer number ;;;
          set_arg_size child 8 ;;;
          ret (0, integer)
      end
  end.

Definition generate_rusage (usage child : ptr) : M (Z * ptr) :=
  let! buf := mem_alloc (junk (sizeof_rusage H)) in
  match buf with
  | None => write ERROR "Can't alloc rusage\n" ;;; ret (-1, usage)
  | Some _ => set_arg_size child (sizeof_rusage H) ;;; ret (0, buf)
  end.

Definition generate_wait_option (option child : ptr) : M (Z * ptr) :=
  let! option := mem_alloc (junk 8) in
  match option with
  | None => write ERROR "Can't alloc option\n" ;;; ret (-1, NULL)
  | Some _ =>
      let! number := rand_range 1 in
      match number with
      | None => write ERROR "Can't generate random number\n" ;;; ret (-1, option)
      | Some number =>
          switch number [WUNTRACED; WNOHANG]
            (write ERROR "Should not get here\n" ;;; ret (-1, option))
            (fun k => set_u64 option (c k) ;;; set_arg_size child 8 ;;; ret (0, option))
      end
  end.

Definition whence_cases : list hconst :=
  match h_platform H with
  | FREEBSD => [SEEK_SET; SEEK_CUR; SEEK_END; SEEK_HOLE; SEEK_DATA]
  | _ => [SEEK_SET; SEEK_CUR; SEEK_END]
  end.

Definition generate_whence (whence child : ptr) : M (Z * ptr) :=
  let! whence := mem_alloc (junk 8) in
  match whence with
  | None => write ERROR "mem_alloc\n" ;;; ret (-1, NULL)
  | Some _ =>
      let! number := rand_range (match h_platform H with FREEBSD => 4 | _ => 2 end) in
      match number with
      | None => write ERROR "Can't generate random number\n" ;;; ret (-1, whence)
      | Some number =>
          switch number whence_cases
            (write ERROR "Should not get here\n" ;;; ret (-1, whence))
            (fun k => set_u64 whence (c k) ;;; set_arg_size child 8 ;;; ret (0, whence))
      end
  end.

(** [rand_range] writes its 32-bit number into the first half of the value. *)
Definition generate_offset (offset child : ptr) : M (Z * ptr) :=
  let! offset := mem_alloc (junk 8) in
  match offset with
  | None => write ERROR "mem_alloc\n" ;;; ret (-1, NULL)
  | Some _ =>
      let! number := rand_range INT_MAX in
      match number with
      | None => write ERROR "Can't generate random number\n" ;;; ret (-1, offset)
      | Some number =>
          store_int offset 4 number ;;;
          set_arg_size child 8 ;;;
          ret (0, offset)
      end
  end.

Definition generate_mountpath (path child : ptr) : M (Z * ptr) := ret (0, path).
Definition generate_mount_type (type child : ptr) : M (Z * ptr) := ret (0, type).

Definition generate_dirpath (dirpath child : ptr) : M (Z * ptr) :=
  let! dirpath := get_dirpath R in
  match dirpath with
  | None => write ERROR "Can't get directory path\n" ;;; ret (-1, NULL)
  | Some _ =>
      let! s := load_cstr dirpath in
      set_arg_size child (Z.of_nat (length s)) ;;;
      ret (0, dirpath)
  end.

Definition generate_recv_flags (flag child : ptr) : M (Z * ptr) :=
  let! flag := mem_alloc (junk 4) in
  match flag with
  | None => write ERROR "Can't alloc mount flags\n" ;;; ret (-1, NULL)
  | Some _ =>
      let! number := rand_range 2 in
      match number with
      | None => write ERROR "Can't generate random number\n" ;;; ret (-1, flag)
      | Some number =>
          switch number [MSG_OOB; MSG_PEEK; MSG_WAITALL]
            (write ERROR "Should not get here\n" ;;; ret (-1, flag))
            (fun k => set_u64 flag (c k) ;;; set_arg_size child 4 ;;; ret (0, flag))
      end
  end.

Definition generate_dev (dev child : ptr) : M (Z * ptr) :=
  let! dev := mem_alloc (junk (sizeof_dev_t H)) in
  match dev with
  | None => write ERROR "Can't alloc dev\n" ;;; ret (-1, NULL)
  | Some _ =>
      let device := match h_platform H with LINUX => makedev_10_2 H | _ => 0 end in
      store_int dev (Z.to_nat (sizeof_dev_t H)) device ;;;
      set_arg_size child (sizeof_dev_t H) ;;;
      ret (0, dev)
  end.

(** The header is built on the stack from zeroes and moved to the buffer; of
    its members the model keeps that all of its bytes are written (the
    pointers it holds have no integer value in the model, they are written
    as zeroes).  The buffer [data] is never freed. *)
(** The [struct msghdr] that is copied: zeroes, but for [msg_iov] (at 16), the
    address of a local variable that is gone when the function has returned,
    and [msg_iovlen] (at 24), which is 1. *)
Definition message_bytes : list (option Z) :=
  replicate 16 (Some 0) ++ replicate 8 None ++ Some 1 :: replicate (Z.to_nat (sizeof_msghdr H) - 25) (Some 0).

Definition generate_message (msg child : ptr) : M (Z * ptr) :=
  let! msg := mem_alloc (junk (sizeof_msghdr H)) in
  match msg with
  | None => write ERROR "Can't alloc message header\n" ;;; ret (-1, NULL)
  | Some _ =>
      let! data := mem_alloc (junk 64) in
      match data with
      | None => write ERROR "Can't allocate data\n" ;;; ret (-1, msg)
      | Some _ =>
          let! rtrn := rand_bytes data 63 in
          if rtrn <? 0 then write ERROR "Can't get random data\n" ;;; ret (-1, msg)
          else
            let! s := load_cstr data in
            store msg (OBytes message_bytes) ;;;
            set_arg_size child (sizeof_msghdr H) ;;;
            ret (0, msg)
      end
  end.

Definition generate_send_flags (flag child : ptr) : M (Z * ptr) :=
  let! flag := mem_alloc (junk 8) in
  match flag with
  | None => write ERROR "Can't allocate send flags\n" ;;; ret (-1, NULL)
  | Some _ =>
      let! number := rand_range 2 in
      match number with
      | None => write ERROR "Can't pick random number\n" ;;; ret (-1, flag)
      | Some number =>
          switch number
            [or_u64 flag (c MSG_OOB); or_u64 flag (c MSG_DONTROUTE);
             set_u64 flag (Z.lor (c MSG_OOB) (c MSG_DONTROUTE))]
            (write ERROR "Random number is too high\n" ;;; ret (-1, flag))
            (fun m => m ;;; set_arg_size child 8 ;;; ret (0, flag))
      end
  end.

(** [memmove(( *addr), &port, sizeof(struct sockaddr_in))]: sixteen bytes are
    read from the four of the local variable [port]; the address built in
    [in] is not used. *)
Definition generate_sockaddr (addr child : ptr) : M (Z * ptr) :=
  let port : list (option Z) := map Some (le_bytes 4 0) in
  let! addr := mem_alloc (junk 16) in
  match addr with
  | None => write ERROR "Can't allocate sockaddr\n" ;;; ret (-1, NULL)
  | Some _ =>
      let! raw := need (get_bytes port 16) in
      store_at addr 0 raw ;;;
      set_arg_size child 16 ;;;
      ret (0, addr)
  end.

Definition generate_socklen (len child : ptr) : M (Z * ptr) :=
  let! cur := get_current_arg child in
  let last_arg := if cur =? 0 then 0 else u32 (cur - 1) in
  let! len := mem_alloc (junk 4) in
  match len with
  | None => write ERROR "Can't alloc length\n" ;;; ret (-1, NULL)
  | Some _ =>
      let! console := get_console_writter in
      let! arg_size := get_arg_size child last_arg console in
      match arg_size with
      | None => write ERROR "Can't get argument size.\n" ;;; ret (-1, len)
      | Some arg_size =>
          store_int len 4 arg_size ;;;
          set_arg_size child 4 ;;;
          ret (0, len)
      end
  end.

Definition generate_amode (amode child : ptr) : M (Z * ptr) :=
  let! amode := mem_alloc (junk 4) in
  match amode with
  | None => write ERROR "Can't allocate amode\n" ;;; ret (-1, NULL)
  | Some _ =>
      let! number := rand_range 6 in
      match number with
      | None => write ERROR "Can't pick random number\n" ;;; ret (-1, amode)
      | Some number =>
          switch number
            [or_u64 amode (c R_OK); or_u64 amode (c W_OK); or_u64 amode (c X_OK);
             set_u64 amode (Z.lor (c R_OK) (c W_OK)); set_u64 amode (Z.lor (c R_OK) (c X_OK));
             set_u64 amode (Z.lor (c W_OK) (c X_OK)); set_u64 amode (Z.lor (c W_OK) (c R_OK))]
            (write ERROR "Random number is too high\n" ;;; ret (-1, amode))
            (fun m => m ;;; set_arg_size child 4 ;;; ret (0, amode))
      end
  end.

(** Not compiled on Linux. *)
Definition generate_chflags (flag child : ptr) : M (Z * ptr) :=
  let! flag := mem_alloc (junk 4) in
  match flag with
  | None => write ERROR "Can't allocate flag\n" ;;; ret (-1, NULL)
  | Some _ =>
      let! number := rand_range 7 in
      match number with
      | None => write ERROR "Can't pick random number\n" ;;; ret (-1, flag)
      | Some number =>
          switch number [UF_NODUMP; UF_IMMUTABLE; UF_APPEND; UF_OPAQUE; UF_HIDDEN; SF_ARCHIVED; SF_IMMUTABLE; SF_APPEND]
            (write ERROR "Random number is too high\n" ;;; ret (-1, flag))
            (fun k => or_u64 flag (c k) ;;; set_arg_size child 4 ;;; ret (0, flag))
      end
  end.

(** ** generate-macos.c *)

Definition mount_flags : list hconst :=
  [MNT_RDONLY; MNT_NOEXEC; MNT_NOSUID; MNT_NODEV; MNT_UNION; MNT_SYNCHRONOUS; MNT_CPROTECT].

Definition generate_mount_flags (flag child : ptr) : M (Z * ptr) :=
  let! flag := mem_alloc (junk 4) in
  match flag with
  | None => write ERROR "Can't alloc mount flags\n" ;;; ret (-1, NULL)
  | Some _ =>
      let! number := rand_range 7 in
      match number with
      | None => write ERROR "Can't generate random number\n" ;;; ret (-1, flag)
      | Some number =>
          let! k := need (nth_z mount_flags number) in
          store_int flag 4 (c k) ;;;
          set_arg_size child 4 ;;;
          ret (0, flag)
      end
  end.

Definition generate_unmount_flags (flag child : ptr) : M (Z * ptr) :=
  let! flag := mem_alloc (junk 8) in
  match flag with
  | None => write ERROR "Can't alloc mount flags\n" ;;; ret (-1, NULL)
  | Some _ =>
      let! number := rand_range 7 in
      match number with
      | None => write ERROR "Can't generate random number\n" ;;; ret (-1, flag)
      | Some number =>
          let! k := need (nth_z mount_flags number) in
          store_int flag 4 (c k) ;;;
          set_arg_size child 4 ;;;
          ret (0, flag)
      end
  end.

Definition request_values : list hconst :=
  [PT_TRACE_ME; PT_DENY_ATTACH; PT_CONTINUE; PT_STEP; PT_KILL; PT_ATTACH; PT_ATTACHEXC; PT_DETACH].

Definition generate_request (flag child : ptr) : M (Z * ptr) :=
  let! flag := mem_alloc (junk 4) in
  match flag with
  | None => write ERROR "Can't alloc mount flags\n" ;;; ret (-1, NULL)
  | Some _ =>
      let! number := rand_range 7 in
      match number with
      | None => write ERROR "Can't generate random number\n" ;;; ret (-1, flag)
      | Some number =>
          let! k := need (nth_z request_values number) in
          store_int flag 4 (c k) ;;;
          set_arg_size child 4 ;;;
          ret (0, flag)
      end
  end.

(** A call through a pointer to a generator. *)
Definition call_generator (g : generator) : ptr -> ptr -> M (Z * ptr) :=
  match g with
  | fn_generate_fd => generate_fd
  | fn_generate_socket => generate_socket
  | fn_generate_buf => generate_buf
  | fn_generate_length => generate_length
  | fn_generate_path => generate_path
  | fn_generate_open_flag => generate_open_flag
  | fn_generate_mode => generate_mode
  | fn_generate_fs_stat => generate_fs_stat
  | fn_generate_fs_stat_flag => generate_fs_stat_flag
  | fn_generate_pid => generate_pid
  | fn_generate_int => generate_int
  | fn_generate_rusage => generate_rusage
  | fn_generate_wait_option => generate_wait_option
  | fn_generate_whence => generate_whence
  | fn_generate_offset => generate_offset
  | fn_generate_mountpath => generate_mountpath
  | fn_generate_mount_type => generate_mount_type
  | fn_generate_dirpath => generate_dirpath
  | fn_generate_mount_flags => generate_mount_flags
  | fn_generate_unmount_flags => generate_unmount_flags
  | fn_generate_recv_flags => generate_recv_flags
  | fn_generate_request => generate_request
  | fn_generate_dev => generate_dev
  | fn_generate_message => generate_message
  | fn_generate_send_flags => generate_send_flags
  | fn_generate_sockaddr => generate_sockaddr
  | fn_generate_socklen => generate_socklen
  | fn_generate_amode => generate_amode
  | fn_generate_chflags => generate_chflags
  end.
End generate.

(** ** What the generators promise

    [grows w w']: nothing that was on the heap has changed, and the state of
    the modules is as before. *)
Record grows (w w' : world) : Prop := {
  grows_heap : forall l o, w_heap w !! l = Some o -> w_heap w' !! l = Some o;
  grows_crypto : w_crypto w' = w_crypto w;
  grows_sys : w_sys w' = w_sys w;
  grows_entries : w_entries w' = w_entries w;
  grows_pid : w_pid w' = w_pid w;
  grows_mods : w_mods w' = w_mods w;
  grows_wf : heap_wf w -> heap_wf w';
  grows_next : (w_next w <= w_next w')%positive
}.

#[export] Instance grows_preorder : PreOrder grows.
Proof.
  split; [intros w; by split; auto|]. intros w1 w2 w3 [] []. split; [auto|congruence..|auto|lia].
Qed.

Lemma grows_env w w' : env_step w w' -> grows w w'.
Proof. intros (o & x & ->). by split. Qed.

Lemma grows_granted w o : heap_wf w -> grows w (granted o w).
Proof.
  intros Hwf. split; try done.
  - intros l o' Hl. cbn. rewrite lookup_insert_ne; [done|]. intros <-.
    rewrite Hwf in Hl; [done|lia].
  - apply heap_wf_granted.
  - cbn. lia.
Qed.

(** The resource calls may change the objects of the resource module: its
    pools, their blocks and the resources themselves. *)
Definition stable (o : hobj) : Prop :=
  match o with OPool _ | OBlock _ | OResource _ => False | _ => True end.

(** [keeps_on P w w']: the objects that satisfy [P] have not changed, and the
    state of the modules is as before. *)
Record keeps_on (P : hobj -> Prop) (w w' : world) : Prop := {
  ks_heap : forall l o, P o -> w_heap w !! l = Some o -> w_heap w' !! l = Some o;
  ks_crypto : w_crypto w' = w_crypto w;
  ks_sys : w_sys w' = w_sys w;
  ks_entries : w_entries w' = w_entries w;
  ks_pid : w_pid w' = w_pid w;
  ks_mods : w_mods w' = w_mods w;
  ks_wf : heap_wf w -> heap_wf w';
  ks_next : (w_next w <= w_next w')%positive
}.
Arguments ks_heap {P}.
Arguments ks_crypto {P}.
Arguments ks_sys {P}.
Arguments ks_entries {P}.
Arguments ks_pid {P}.
Arguments ks_mods {P}.
Arguments ks_wf {P}.
Arguments ks_next {P}.

Abbreviation keeps_stable := (keeps_on stable).

Lemma grows_stable P w w' : grows w w' -> keeps_on P w w'.
Proof. intros []. by split; eauto. Qed.

Lemma keeps_on_weaken (P Q : hobj -> Prop) w w' : (forall o, Q o -> P o) -> keeps_on P w w' -> keeps_on Q w w'.
Proof. intros HPQ []. split; auto. Qed.

#[export] Instance keeps_on_preorder P : PreOrder (keeps_on P).
Proof. split; [intros w; by split; auto|]. intros w1 w2 w3 [] []. split; [auto|congruence..|auto|lia]. Qed.

(** A path the resource module hands out is a terminated string. *)
Definition is_path (w : world) (p : ptr) : Prop :=
  match p with
  | None => True
  | Some l => exists bs s, w_heap w !! l = Some (OBytes bs) /\ cstr bs = Some s
  end.

(** What the resource module promises its clients.  [available n X w]: in [w]
    it can serve [n] more requests of each kind, and the locations in [X] are
    the client's own.  The client may change its own objects and allocate new
    ones, which it then owns; a request uses up one resource and changes no
    stable object. *)
Class ResourceLaws (R : resources) := {
  available : nat -> gset loc -> world -> Prop;
  available_less : forall n X w, available (S n) X w -> available n X w;
  available_frame : forall n X w w', available n X w ->
    (forall l o, l ∉ X -> w_heap w !! l = Some o -> w_heap w' !! l = Some o) ->
    w_mods w' = w_mods w -> heap_wf w' -> available n X w';
  available_fresh : forall n X w l, available n X w -> w_heap w !! l = None -> available n ({[l]} ∪ X) w;
  available_weaken : forall n X Y w, available n X w -> Y ⊆ X -> available n Y w;
  get_desc_law : forall n X w, heap_wf w -> available (S n) X w ->
    wp (get_desc R) (fun _ w' => keeps_stable w w' /\ available n X w') w;
  get_socket_law : forall n X w, heap_wf w -> available (S n) X w ->
    wp (get_socket R) (fun _ w' => keeps_stable w w' /\ available n X w') w;
  get_filepath_law : forall n X w, heap_wf w -> available (S n) X w ->
    wp (get_filepath R) (fun p w' => keeps_stable w w' /\ available n X w' /\ is_path w' p) w;
  get_dirpath_law : forall n X w, heap_wf w -> available (S n) X w ->
    wp (get_dirpath R) (fun p w' => keeps_stable w w' /\ available n X w' /\ is_path w' p) w
}.

(** The state a generator runs in: random numbers are set up and the child's
    context has its seven argument sizes. *)
Record gen_world (w : world) (child : loc) : Prop := {
  gw_setup : crypto_setup (w_crypto w) = TRUE;
  gw_rand : is_Some (rand_range_pointer (w_crypto w));
  gw_wf : heap_wf w;
  gw_child : exists c sz sizes, w_heap w !! child = Some (OChild c) /\ arg_size_array c = Some sz /\
    w_heap w !! sz = Some (OWords sizes) /\ length sizes = 7%nat /\ 0 <= child_current_arg c <= 7
}.

Lemma gen_world_stable P w w' child :
  (forall c, P (OChild c)) -> (forall ws, P (OWords ws)) ->
  keeps_on P w w' -> gen_world w child -> gen_world w' child.
Proof.
  intros HP1 HP2 Hk [Hs Hr Hwf (c & sz & sizes & H1 & H2 & H3 & H4 & H5)]. split.
  - by rewrite (ks_crypto _ _ Hk).
  - by rewrite (ks_crypto _ _ Hk).
  - by apply (ks_wf _ _ Hk).
  - exists c, sz, sizes. split_and!; [by apply (ks_heap _ _ Hk)|done|by apply (ks_heap _ _ Hk)|done|lia..].
Qed.

(** A generator's result: failure, or a value that satisfies [V]; the objects
    in [P] are as before. *)
Definition gen_post (P : hobj -> Prop) (V : list (option Z) -> Prop) (w0 : world) (rp : Z * ptr) (w' : world) : Prop :=
  keeps_on P w0 w' /\
  (rp.1 = -1 \/ rp.1 = 0 /\ exists l bs, rp.2 = Some l /\ w_heap w' !! l = Some (OBytes bs) /\ V bs).

(** A buffer of [n] indeterminate bytes allocated since [w0]. *)
Definition buffer (P : hobj -> Prop) (w0 w : world) (l : loc) (n : Z) : Prop :=
  keeps_on P w0 w /\ w_heap w0 !! l = None /\ w_heap w !! l = Some (junk n).

(** A value of [n] bytes whose first [k] are the integer [z]. *)
Definition holds (k : nat) (z : Z) (n : Z) : list (option Z) :=
  map Some (le_bytes k z) ++ replicate (Z.to_nat n - k) None.

Lemma keeps_stable_fresh P w0 w l o :
  keeps_on P w0 w -> w_heap w0 !! l = None -> is_Some (w_heap w !! l) ->
  keeps_on P w0 (set_heap (<[l := o]> (w_heap w)) w).
Proof.
  intros [] Hn Hs. split; cbn; try done.
  - intros l' o' Ho Hl'. rewrite lookup_insert_ne by congruence. auto.
  - intros Hwf l' Hl'. cbn in *. rewrite lookup_insert_ne; [by apply ks_wf0|].
    intros <-. rewrite ks_wf0 in Hs; [by destruct Hs|done..].
Qed.


Section generator_lemmas.
Context (P : hobj -> Prop) (w0 : world) (child : loc) (V : list (option Z) -> Prop).
Context (Hok : gen_world w0 child).

(** The steps of a generator: failing, allocating, drawing a number, writing
    the value. *)
Lemma wp_fail w t e p : keeps_on P w0 w -> wp (write t e ;;; ret (-1, p)) (gen_post P V w0) w.
Proof.
  intros Hk. apply wp_bind. cbn. split; [|by left]. etrans; [exact Hk|].
  apply grows_stable, grows_env. exists (w_oracle w), ((t, e) :: w_out w). by destruct w.
Qed.

Lemma wp_mem_alloc w n (Q : ptr -> world -> Prop) :
  heap_wf w -> 0 < n ->
  (forall w', grows w w' -> Q NULL w') ->
  (forall w', grows w w' -> w_heap w' !! w_next w = Some (junk n) -> Q (Some (w_next w)) w') ->
  wp (mem_alloc (junk n)) Q w.
Proof.
  intros Hwf Hn Hfail Hgrant. unfold mem_alloc, malloc.
  assert (Hsz : sizeof (junk n) <> 0) by (cbn; rewrite length_replicate; lia).
  apply Z.eqb_neq in Hsz. rewrite Hsz. unfold wp, bind, ask. destruct (_ <? 0); cbn.
  - apply Hfail. apply grows_env. eexists _, _. by destruct w.
  - apply Hgrant; [exact (grows_granted _ _ Hwf)|]. apply lookup_insert_eq.
Qed.

Lemma wp_alloc w n (e : M (Z * ptr)) (K : ptr -> M (Z * ptr)) :
  keeps_on P w0 w -> 0 < n ->
  (forall w', grows w w' -> keeps_on P w0 w' -> wp e (gen_post P V w0) w') ->
  (forall w' l, grows w w' -> buffer P w0 w' l n -> wp (K (Some l)) (gen_post P V w0) w') ->
  wp (let! p := mem_alloc (junk n) in match p with None => e | Some _ => K p end) (gen_post P V w0) w.
Proof.
  intros Hk Hn He HK. destruct Hok as [_ _ Hwf _]. apply wp_bind, wp_mem_alloc; [by apply (ks_wf _ _ Hk)|done|..].
  - intros w' Hg. apply He; [done|]. etrans; [exact Hk|by apply grows_stable].
  - intros w' Hg Hl. apply HK; [done|]. split_and!; [etrans; [exact Hk|by apply grows_stable]| |done].
    apply Hwf. apply (ks_next _ _ Hk).
Qed.

Lemma wp_draw w r (e : M (Z * ptr)) (K : Z -> M (Z * ptr)) :
  keeps_on P w0 w -> 0 < r < 2 ^ 32 ->
  (forall w', grows w w' -> wp e (gen_post P V w0) w') ->
  (forall w' n, grows w w' -> 0 <= n <= r -> wp (K n) (gen_post P V w0) w') ->
  wp (let! n := rand_range r in match n with None => e | Some n => K n end) (gen_post P V w0) w.
Proof.
  intros Hk Hr He HK. destruct Hok as [Hs [f Hf] _ _].
  destruct (rand_range_spec f r w) as (o & w' & Hrun & Henv & Hd & _);
    [by rewrite (ks_crypto _ _ Hk)|by rewrite (ks_crypto _ _ Hk)|done|].
  apply wp_bind. eapply wp_eq; [exact Hrun|]. destruct o as [n|].
  - apply HK; [by apply grows_env|]. destruct (Hd n eq_refl) as [? _]. destruct f; cbn in *; lia.
  - apply He. by apply grows_env.
Qed.

Lemma wp_value w l n k z s :
  buffer P w0 w l n -> (k <= Z.to_nat n)%nat -> V (holds k z n) ->
  wp (store_int (Some l) k z ;;; set_arg_size (Some child) s ;;; ret (0, Some l)) (gen_post P V w0) w.
Proof.
  intros (Hk & Hfr & Hl) Hkn HV. apply wp_bind. eapply wp_eq.
  { eapply store_int_eq; [exact Hl|]. by rewrite length_replicate. }
  cbn. split; [by apply keeps_stable_fresh|]. right. split; [done|].
  do 2 eexists. split; [done|]. cbn. rewrite lookup_insert_eq. split; [done|].
  by rewrite drop_replicate.
Qed.

(** A value that is left indeterminate. *)
Lemma wp_leave w l n s :
  buffer P w0 w l n -> V (replicate (Z.to_nat n) None) ->
  wp (set_arg_size (Some child) s ;;; ret (0, Some l)) (gen_post P V w0) w.
Proof.
  intros (Hk & Hfr & Hl) HV. apply wp_bind. cbn. split; [done|]. right. split; [done|]. by do 2 eexists.
Qed.

Lemma wp_switch {A} w r n (cases : list A) d (K : A -> M (Z * ptr)) :
  0 <= n <= r -> r < Z.of_nat (length cases) ->
  (forall a, a ∈ cases -> wp (K a) (gen_post P V w0) w) ->
  wp (switch n cases d K) (gen_post P V w0) w.
Proof.
  intros Hn Hr HK. unfold switch. destruct (nth_z_lt cases n) as [a Ha]; [lia|]. rewrite Ha.
  apply HK. unfold nth_z in Ha. destruct (n <? 0); [done|]. by apply list_elem_of_lookup_2 in Ha.
Qed.

End generator_lemmas.

(** ** The values *)

Definition one_of (H : headers) (ks : list hconst) (n : Z) (bs : list (option Z)) : Prop :=
  exists k, k ∈ ks /\ bs = holds 8 (h_const H k) n.

(** What each generator puts in its buffer. *)
Definition gen_value (H : headers) (w0 : world) (g : generator) (bs : list (option Z)) : Prop :=
  match g with
  | fn_generate_fd | fn_generate_socket => exists fd, 0 <= fd /\ bs = holds 4 fd 4
  | fn_generate_buf => exists n, (1 <= n <= 1024)%nat /\ bs = replicate n (Some 0)
  | fn_generate_length => exists size, bs = holds 8 size 8
  | fn_generate_path | fn_generate_dirpath => is_Some (cstr bs)
  | fn_generate_mode => exists v, v ∈ mode_values /\ bs = holds 8 v 12
  | fn_generate_fs_stat => length bs = Z.to_nat (sizeof_statfs H)
  | fn_generate_fs_stat_flag => one_of H [MNT_NOWAIT; MNT_WAIT] 12 bs
  | fn_generate_pid => bs = holds 8 (w_pid w0) 8
  | fn_generate_int => exists n, 0 <= n <= INT_MAX /\ bs = holds 8 n 8
  | fn_generate_rusage => length bs = Z.to_nat (sizeof_rusage H)
  | fn_generate_wait_option => one_of H [WUNTRACED; WNOHANG] 8 bs
  | fn_generate_whence => one_of H (whence_cases H) 8 bs
  | fn_generate_offset => exists n, 0 <= n <= INT_MAX /\ bs = holds 4 n 8
  | fn_generate_request => exists k, k ∈ request_values /\ bs = holds 4 (h_const H k) 4
  | fn_generate_dev => length bs = Z.to_nat (sizeof_dev_t H)
  | fn_generate_message => bs = message_bytes H /\ Z.of_nat (length bs) = sizeof_msghdr H
  | fn_generate_socklen => exists size, bs = holds 4 size 4
  | _ => False
  end.

(** The generators whose every path stays within its buffer. *)
Definition sound_generator (g : generator) : bool :=
  match g with
  | fn_generate_open_flag | fn_generate_recv_flags | fn_generate_send_flags | fn_generate_sockaddr
  | fn_generate_amode | fn_generate_chflags | fn_generate_mount_flags | fn_generate_unmount_flags
  | fn_generate_mountpath | fn_generate_mount_type => false
  | _ => true
  end.

Section soundness.
Context (H : headers) (R : resources) (HH : headers_ok H).
Context (P : hobj -> Prop) (w0 : world) (child : loc) (Hok : gen_world w0 child).

Definition sound (g : generator) : Prop := forall slot,
  wp (call_generator H R g slot (Some child)) (gen_post P (gen_value H w0 g) w0) w0.

Lemma after_grows w w' : keeps_on P w0 w -> grows w w' -> keeps_on P w0 w'.
Proof. intros ? ?. etrans; [done|by apply grows_stable]. Qed.

Lemma buffer_grows w w' l n : grows w w' -> buffer P w0 w l n -> buffer P w0 w' l n.
Proof. intros Hg (H1 & H2 & H3). split_and!; [by eapply after_grows|done|]. by apply (grows_heap _ _ Hg). Qed.

Lemma wp_alloc_draw n r t1 s1 t2 s2 (K : ptr -> Z -> M (Z * ptr)) V :
  0 < n -> 0 < r < 2 ^ 32 ->
  (forall w l num, grows w0 w -> buffer P w0 w l n -> 0 <= num <= r -> wp (K (Some l) num) (gen_post P V w0) w) ->
  wp (let! p := mem_alloc (junk n) in
      match p with
      | None => write t1 s1 ;;; ret (-1, NULL)
      | Some _ => let! num := rand_range r in
          match num with None => write t2 s2 ;;; ret (-1, p) | Some num => K p num end
      end) (gen_post P V w0) w0.
Proof.
  intros Hn Hr HK. apply (wp_alloc _ _ _ _ Hok w0 n _ (fun p => let! num := rand_range r in
          match num with None => write t2 s2 ;;; ret (-1, p) | Some num => K p num end)).
  - reflexivity.
  - done.
  - intros. by apply wp_fail.
  - intros w l Hg Hb. apply (wp_draw _ _ _ _ Hok); [apply Hb|done| |].
    + intros w' Hg'. apply wp_fail. eapply after_grows; [apply Hb|done].
    + intros w' num Hg' Hnum. apply HK; [by etrans|by eapply buffer_grows|done].
Qed.

(** The same with the number drawn first. *)
Lemma wp_draw_alloc n r t1 s1 t2 s2 slot (K : ptr -> Z -> M (Z * ptr)) V :
  0 < n -> 0 < r < 2 ^ 32 ->
  (forall w l num, buffer P w0 w l n -> 0 <= num <= r -> wp (K (Some l) num) (gen_post P V w0) w) ->
  wp (let! num := rand_range r in
      match num with
      | None => write t1 s1 ;;; ret (-1, slot)
      | Some num => let! p := mem_alloc (junk n) in
          match p with None => write t2 s2 ;;; ret (-1, NULL) | Some _ => K p num end
      end) (gen_post P V w0) w0.
Proof.
  intros Hn Hr HK. apply (wp_draw _ _ _ _ Hok); [reflexivity|done| |].
  - intros w Hg. apply wp_fail. by apply grows_stable.
  - intros w num Hg Hnum. apply (wp_alloc _ _ _ _ Hok w n _ (fun p => K p num)); [by apply grows_stable|done|..].
    + intros. by apply wp_fail.
    + intros w' l Hg' Hb. by apply HK.
Qed.

Lemma sound_int : sound fn_generate_int.
Proof.
  intros slot. apply wp_alloc_draw; [lia|unfold INT_MAX; lia|].
  intros w l num Hg Hb Hnum. eapply (wp_value _ _ _ _ _ _ _ 8); [done|done|by exists num].
Qed.

Lemma sound_offset : sound fn_generate_offset.
Proof.
  intros slot. apply wp_alloc_draw; [lia|unfold INT_MAX; lia|].
  intros w l num Hg Hb Hnum. eapply (wp_value _ _ _ _ _ _ _ 4); [done|cbn; lia|by exists num].
Qed.

Lemma sound_flag n r (cases : list hconst) d s l w num :
  8 <= n -> buffer P w0 w l n -> 0 <= num <= r -> r < Z.of_nat (length cases) ->
  wp (switch num cases d (fun k => set_u64 (Some l) (h_const H k) ;;; set_arg_size (Some child) s ;;; ret (0, Some l)))
    (gen_post P (one_of H cases n) w0) w.
Proof.
  intros Hn Hb Hnum Hr. eapply wp_switch; [exact Hnum|done|]. intros k Hk.
  eapply (wp_value _ _ _ _ _ _ _ 8); [done|lia|by exists k].
Qed.

Lemma sound_fs_stat_flag : sound fn_generate_fs_stat_flag.
Proof. intros slot. apply wp_alloc_draw; [lia..|]. intros. eapply sound_flag; [|done..]. lia. Qed.

Lemma sound_wait_option : sound fn_generate_wait_option.
Proof. intros slot. apply wp_alloc_draw; [lia..|]. intros. eapply sound_flag; [|done..]. lia. Qed.

Lemma sound_whence : sound fn_generate_whence.
Proof.
  intros slot. apply wp_alloc_draw; [lia|by destruct (h_platform H)|]. intros.
  eapply sound_flag; [|done..|]; [lia|]. unfold whence_cases. by destruct (h_platform H).
Qed.

Lemma sound_mode : sound fn_generate_mode.
Proof.
  intros slot. apply wp_draw_alloc; [lia..|]. intros w l num Hb Hnum.
  eapply wp_switch; [exact Hnum|done|]. intros v Hv.
  eapply (wp_value _ _ _ _ _ _ _ 8); [done|cbn; lia|by exists v].
Qed.

Lemma sound_request : sound fn_generate_request.
Proof.
  intros slot. apply wp_alloc_draw; [lia..|]. intros w l num Hg Hb Hnum.
  destruct (nth_z_lt request_values num) as [k Hk]; [cbn; lia|]. rewrite Hk.
  apply wp_bind. cbn [need]. apply wp_ret. eapply (wp_value _ _ _ _ _ _ _ 4); [done|cbn; lia|].
  exists k. split; [|done]. unfold nth_z in Hk. destruct (num <? 0); [done|]. by apply list_elem_of_lookup_2 in Hk.
Qed.

Lemma sound_pid : sound fn_generate_pid.
Proof.
  intros slot. apply (wp_alloc _ _ _ _ Hok w0 8 _ (fun pid => let! p := gets w_pid in
    set_u64 pid p ;;; set_arg_size (Some child) 8 ;;; ret (0, pid))); [reflexivity|lia|intros; by apply wp_fail|].
  intros w l Hg Hb. apply wp_bind. cbn. eapply (wp_value _ _ _ _ _ _ _ 8); [done|cbn; lia|].
  cbn. by rewrite (grows_pid _ _ Hg).
Qed.

Lemma sound_fs_stat : sound fn_generate_fs_stat.
Proof.
  intros slot. apply (wp_alloc _ _ _ _ Hok w0 (sizeof_statfs H) _ (fun p =>
    set_arg_size (Some child) (sizeof_statfs H) ;;; ret (0, p))); [reflexivity|apply HH|intros; by apply wp_fail|].
  intros w l Hg Hb. eapply (wp_leave _ _ _ _ _ _ (sizeof_statfs H)); [done|]. cbn. apply length_replicate.
Qed.

Lemma sound_rusage : sound fn_generate_rusage.
Proof.
  intros slot. apply (wp_alloc _ _ _ _ Hok w0 (sizeof_rusage H) _ (fun p =>
    set_arg_size (Some child) (sizeof_rusage H) ;;; ret (0, p))); [reflexivity|apply HH|intros; by apply wp_fail|].
  intros w l Hg Hb. eapply (wp_leave _ _ _ _ _ _ (sizeof_rusage H)); [done|]. cbn. apply length_replicate.
Qed.

Lemma sound_dev : sound fn_generate_dev.
Proof.
  intros slot. set (dev := match h_platform H with LINUX => makedev_10_2 H | _ => 0 end).
  apply (wp_alloc _ _ _ _ Hok w0 (sizeof_dev_t H) _ (fun p =>
    store_int p (Z.to_nat (sizeof_dev_t H)) dev ;;; set_arg_size (Some child) (sizeof_dev_t H) ;;; ret (0, p)));
    [reflexivity|apply HH|intros; by apply wp_fail|].
  intros w l Hg Hb. eapply (wp_value _ _ _ _ _ _ _ (Z.to_nat (sizeof_dev_t H))); [done|done|].
  cbn. unfold holds. rewrite length_app, length_map, length_le_bytes, length_replicate. lia.
Qed.

(** The size of the argument before this one, in [k] bytes. *)
Lemma wp_length (k : nat) n e V :
  0 < n -> (k <= Z.to_nat n)%nat -> (forall size, V (holds k size n)) ->
  wp (let! cur := get_current_arg (Some child) in
      let! p := mem_alloc (junk n) in
      match p with
      | None => write ERROR e ;;; ret (-1, NULL)
      | Some _ =>
          let! console := get_console_writter in
          let! size := get_arg_size (Some child) (if cur =? 0 then 0 else u32 (cur - 1)) console in
          match size with
          | None => write ERROR "Can't get argument size.\n" ;;; ret (-1, p)
          | Some size => store_int p k size ;;; set_arg_size (Some child) n ;;; ret (0, p)
          end
      end) (gen_post P V w0) w0.
Proof.
  intros Hn Hk HV. destruct Hok as [_ _ _ (c & sz & sizes & H1 & H2 & H3 & H4 & H5)].
  apply wp_bind. eapply wp_eq; [unfold get_current_arg; by erewrite bind_eq by (by eapply load_child_eq)|].
  set (i := if child_current_arg c =? 0 then 0 else u32 (child_current_arg c - 1)).
  assert (Hi : 0 <= i < 7).
  { unfold i. destruct (Z.eqb_spec (child_current_arg c) 0); [lia|]. rewrite u32_small; lia. }
  destruct (nth_z_lt sizes i) as [size Hs]; [lia|].
  apply (wp_alloc _ _ _ _ Hok w0 n _ (fun p => let! console := get_console_writter in
    let! size := get_arg_size (Some child) i console in
    match size with
    | None => write ERROR "Can't get argument size.\n" ;;; ret (-1, p)
    | Some size => store_int p k size ;;; set_arg_size (Some child) n ;;; ret (0, p)
    end)); [reflexivity|done|intros; by apply wp_fail|].
  intros w l Hg Hb. apply wp_bind.
  assert (Hcon : wp get_console_writter (fun _ w' => grows w w') w).
  { unfold get_console_writter, malloc, wp, bind, ask. destruct (_ <? 0); cbn.
    - apply grows_env. eexists _, _. by destruct w.
    - exact (grows_granted _ _ (grows_wf _ _ Hg (gw_wf _ _ Hok))). }
  eapply wp_mono; [exact Hcon|]. intros console w' Hg'. cbn.
  assert (Hg2 : grows w0 w') by (by etrans). apply wp_bind. eapply wp_eq.
  { unfold get_arg_size. rewrite (proj2 (Z.ltb_ge ARG_LIMIT i)) by (unfold ARG_LIMIT; lia).
    erewrite bind_eq by (eapply load_child_eq, (grows_heap _ _ Hg2); exact H1). rewrite H2.
    erewrite bind_eq by (eapply load_words_eq, (grows_heap _ _ Hg2); exact H3). by rewrite Hs. }
  cbn. eapply wp_value; [eapply buffer_grows; [exact Hg'|exact Hb]|done|apply HV].
Qed.

Lemma sound_length : sound fn_generate_length.
Proof. intros slot. apply (wp_length 8); [lia|cbn; lia|]. intros size. by exists size. Qed.

Lemma sound_socklen : sound fn_generate_socklen.
Proof. intros slot. apply (wp_length 4); [lia|cbn; lia|]. intros size. by exists size. Qed.

Lemma sound_buf : sound fn_generate_buf.
Proof.
  intros slot. apply (wp_draw _ _ _ _ Hok); [reflexivity|lia|intros; apply wp_fail; by apply grows_stable|].
  intros w n Hg Hn. apply (wp_draw _ _ _ _ Hok); [by apply grows_stable|lia| |].
  { intros w' Hg'. apply wp_fail. eapply after_grows; [by apply grows_stable|done]. }
  intros w' num Hg' Hnum. eapply wp_switch; [exact Hnum|cbn; lia|]. intros _ _. rewrite u32_small by lia.
  assert (Hg2 : grows w0 w') by (by etrans). unfold mmap_anon, wp, bind, ask.
  assert (Hsz : sizeof (zeros (n + 1)) <> 0) by (apply zeros_size; lia).
  apply Z.eqb_neq in Hsz. rewrite Hsz, orb_false_r. destruct (_ <? 0); cbn.
  - split; [|by left]. eapply after_grows; [by apply grows_stable|]. apply grows_env. eexists _, _. by destruct w'.
  - pose proof (grows_granted _ (zeros (n + 1)) (grows_wf _ _ Hg2 (gw_wf _ _ Hok))) as Hg3.
    split; [eapply after_grows; [by apply grows_stable|exact Hg3]|]. right. split; [done|].
    exists (w_next w'), (replicate (Z.to_nat (n + 1)) (Some 0)). split; [done|].
    split; [apply lookup_insert_eq|]. exists (Z.to_nat (n + 1)). split; [lia|done].
Qed.

Lemma sound_message : sound fn_generate_message.
Proof.
  intros slot. cbn [call_generator]. unfold generate_message.
  match goal with |- wp (let! msg := _ in match msg with Some _ => @?K msg | None => _ end) _ _ =>
    apply (wp_alloc _ _ _ _ Hok w0 (sizeof_msghdr H) _ K) end; [reflexivity|unfold headers_ok in HH; lia|intros; by apply wp_fail|].
  intros w l Hg Hb. cbv beta.
  assert (Hwf : heap_wf w) by (apply (grows_wf _ _ Hg), (gw_wf _ _ Hok)).
  apply wp_bind, wp_mem_alloc; [done|lia|intros w' Hg'; apply wp_fail; eapply after_grows; [apply Hb|done]|].
  intros w' Hg' Hd. cbn. set (d := w_next w) in *.
  assert (Hne : d <> l).
  { intros Heq. destruct Hb as (_ & _ & Hl). rewrite Hwf in Hl; [done|]. rewrite <- Heq. unfold d. lia. }
  pose proof (buffer_grows _ _ _ _ Hg' Hb) as (Hk & Hfr & Hl). apply wp_bind.
  assert (Hdn : w_heap w0 !! d = None).
  { destruct (w_heap w0 !! d) as [o|] eqn:E; [|done]. apply (grows_heap _ _ Hg) in E.
    rewrite Hwf in E; [done|unfold d; lia]. }
  destruct (rand_bytes_spec w' d (replicate 64 None) 63 Hd) as
    [(_ & w1 & He & Hr)|(raw & Hraw & Hr)]; [lia|lia|done| |].
  { eapply wp_eq; [exact Hr|]. cbn. apply wp_fail. eapply after_grows; [exact Hk|by apply grows_env]. }
  eapply wp_eq; [exact Hr|]. cbn -[map]. apply wp_bind.
  destruct (cstr_terminated raw) as [s Hs]. eapply wp_eq.
  { unfold load_cstr. erewrite bind_eq by (apply load_bytes_eq; cbn; apply lookup_insert_eq). by rewrite Hs. }
  set (w2 := set_heap _ _). assert (He : env_step w' (asked (asked w'))) by (eapply env_step_trans; apply env_asked).
  assert (Hb2 : buffer P w0 w2 l (sizeof_msghdr H)).
  { pose proof (grows_env _ _ He) as Hg1. split_and!.
    - apply (keeps_stable_fresh P w0 (asked (asked w'))); [eapply after_grows; [exact Hk|done]|done|].
      exists (junk 64). by apply (grows_heap _ _ Hg1).
    - done.
    - cbn. rewrite lookup_insert_ne by done. by apply (grows_heap _ _ Hg1). }
  destruct Hb2 as (Hk2 & _ & Hl2). destruct HH as (_ & _ & _ & Hmsg & _). apply wp_bind. eapply wp_eq.
  { by eapply store_eq. }
  cbn -[w2]. split; [by apply keeps_stable_fresh|]. right. split; [done|]. do 2 eexists.
  split; [done|]. cbn -[w2]. rewrite lookup_insert_eq. split; [done|]. split; [done|].
  cbn [length]. rewrite length_replicate. lia.
Qed.

Lemma generator_sound g :
  sound_generator g = true -> match g with
  | fn_generate_fd | fn_generate_socket | fn_generate_path | fn_generate_dirpath => True
  | _ => sound g
  end.
Proof.
  destruct g; intros Hg; try done; eauto using sound_buf, sound_length,
    sound_mode, sound_fs_stat, sound_fs_stat_flag, sound_pid, sound_int, sound_rusage, sound_wait_option,
    sound_whence, sound_offset, sound_request, sound_dev, sound_message, sound_socklen.
Qed.
End soundness.

(** ** Generators that draw on the resource module *)

Section resource_generators.
Context (H : headers) (R : resources) `{!ResourceLaws R} (HH : headers_ok H).
Context (w0 : world) (child : loc) (Hok : gen_world w0 child).
Context (n : nat) (X : gset loc) (Hav : available (S n) X w0).

(** What a generator leaves, with one request less to be served. *)
Definition served (V : list (option Z) -> Prop) (rp : Z * ptr) (w' : world) : Prop :=
  gen_post stable V w0 rp w' /\ available n X w'.

Lemma served_failed V p w t e :
  keeps_stable w0 w -> available n X w -> wp (write t e ;;; ret (-1, p)) (served V) w.
Proof.
  intros Hk Ha. apply wp_bind, wp_write, wp_ret. pose proof (grows_env _ _ (env_write w t e)) as Hg. split; [split|].
  - etrans; [exact Hk|by apply grows_stable].
  - by left.
  - eapply available_frame; [exact Ha|intros; by apply (grows_heap _ _ Hg)|done|].
    apply (grows_wf _ _ Hg), (ks_wf _ _ Hk), (gw_wf _ _ Hok).
Qed.

(** A descriptor or a socket: a value of four bytes from the resource
    module. *)
Lemma wp_desc (m : M Z) t1 s1 t2 s2 V :
  (forall n X w, heap_wf w -> available (S n) X w -> wp m (fun _ w' => keeps_stable w w' /\ available n X w') w) ->
  (forall fd, 0 <= fd -> V (holds 4 fd 4)) ->
  wp (let! p := mem_alloc (junk 4) in
      match p with
      | None => write t1 s1 ;;; ret (-1, NULL)
      | Some _ =>
          let! fd := m in
          if fd <? 0 then write t2 s2 ;;; ret (-1, p)
          else store_int p 4 fd ;;; set_arg_size (Some child) 4 ;;; ret (0, p)
      end) (served V) w0.
Proof.
  intros Hm HV. pose proof (gw_wf _ _ Hok) as Hwf. apply wp_bind, wp_mem_alloc; [done|lia|..].
  { intros w Hg. apply served_failed; [by apply grows_stable|]. apply available_less.
    eapply available_frame; [exact Hav|intros; by apply (grows_heap _ _ Hg)|by apply grows_mods|by apply (grows_wf _ _ Hg)]. }
  intros w Hg Hl. set (l := w_next w0) in *. assert (Hl0 : w_heap w0 !! l = None) by (apply Hwf; lia).
  assert (Ha : available (S n) ({[l]} ∪ X) w).
  { eapply available_frame; [by apply available_fresh|intros; by apply (grows_heap _ _ Hg)|by apply grows_mods|].
    by apply (grows_wf _ _ Hg). }
  apply wp_bind. eapply wp_mono; [apply (Hm n ({[l]} ∪ X)); [by apply (grows_wf _ _ Hg)|done]|].
  intros fd w' [Hk Ha']. assert (Hk0 : keeps_stable w0 w') by (etrans; [by apply grows_stable|done]).
  assert (Hwf' : heap_wf w') by (by apply (ks_wf _ _ Hk0)).
  assert (Hl' : w_heap w' !! l = Some (junk 4)) by (by apply (ks_heap _ _ Hk)).
  destruct (Z.ltb_spec fd 0).
  - apply served_failed; [done|]. eapply available_weaken; [exact Ha'|set_solver].
  - apply wp_bind. eapply wp_eq; [eapply store_int_eq; [exact Hl'|done]|]. apply wp_bind, wp_ret, wp_ret.
    split; [split|].
    + apply keeps_stable_fresh; [done|done|]. by rewrite Hl'.
    + right. split; [done|]. do 2 eexists. split; [done|]. cbn. rewrite lookup_insert_eq. split; [done|]. by apply HV.
    + eapply available_weaken; [eapply (available_frame n ({[l]} ∪ X)); [exact Ha'|..|]|set_solver]; [|done|].
      * intros l' o Hn Ho. cbn. rewrite lookup_insert_ne by set_solver. done.
      * intros l' Hx. cbn in *. rewrite lookup_insert_ne; [by apply Hwf'|].
        pose proof (heap_wf_lt _ _ _ Hwf' Hl'). lia.
Qed.

(** A path: the resource module's own buffer. *)
Lemma wp_path (m : M ptr) t s V :
  (forall n X w, heap_wf w -> available (S n) X w ->
     wp m (fun p w' => keeps_stable w w' /\ available n X w' /\ is_path w' p) w) ->
  (forall bs, is_Some (cstr bs) -> V bs) ->
  wp (let! p := m in
      match p with
      | None => write t s ;;; ret (-1, NULL)
      | Some _ =>
          let! str := load_cstr p in
          set_arg_size (Some child) (Z.of_nat (length str)) ;;; ret (0, p)
      end) (served V) w0.
Proof.
  intros Hm HV. apply wp_bind. eapply wp_mono; [apply (Hm n X); [apply Hok|done]|].
  intros [l|] w' (Hk & Ha & Hp); [|by apply served_failed].
  destruct Hp as (bs & str & Hl & Hs). apply wp_bind. eapply wp_eq.
  { unfold load_cstr. erewrite bind_eq by (by apply load_bytes_eq). by rewrite Hs. }
  split; [|done]. split; [done|]. right. split; [done|]. exists l, bs. split_and!; [done..|]. apply HV. by eexists.
Qed.

Lemma generator_served g slot :
  sound_generator g = true -> wp (call_generator H R g slot (Some child)) (served (gen_value H w0 g)) w0.
Proof.
  intros Hg. pose proof (generator_sound H R HH (fun _ => True) w0 child Hok g Hg) as Hs.
  assert (Hother : sound H R (fun _ => True) w0 child g ->
    wp (call_generator H R g slot (Some child)) (served (gen_value H w0 g)) w0).
  { intros Hsound. eapply wp_mono; [apply Hsound|]. intros rp w' [Hk Hv]. split; [split; [|done]|].
    - by eapply (keeps_on_weaken (fun _ => True)).
    - apply available_less. eapply available_frame; [exact Hav|intros; by apply (ks_heap _ _ Hk)|by apply (ks_mods _ _ Hk)|].
      apply (ks_wf _ _ Hk), (gw_wf _ _ Hok). }
  destruct g; try (by apply Hother).
  - apply wp_desc; [apply get_desc_law|]. intros fd Hfd. by exists fd.
  - apply wp_desc; [apply get_socket_law|]. intros fd Hfd. by exists fd.
  - apply wp_path; [apply get_filepath_law|done].
  - apply wp_path; [apply get_dirpath_law|done].
Qed.
End resource_generators.

(** (C29) The sound generators keep their contract: run in a child whose
    random numbers and argument sizes are set up, with a resource module that
    keeps its laws and has a request left to serve, a generator returns,
    whatever else the environment answers, and the module has one request less
    left; it fails with -1, or it returns 0 and leaves a pointer to a value of
    the kind it generates (a listed flag, an integer in range, a terminated
    path, a buffer of 1 to 1024 zeroed bytes, a message header with one vector,
    ...).  Of what was there before only the objects of the resource module
    may have changed. *)
Theorem generators_keep_contract H R `{!ResourceLaws R} g w child slot n X :
  headers_ok H -> gen_world w child -> available (S n) X w -> sound_generator g = true ->
  exists r p w', call_generator H R g slot (Some child) w = Ret (r, p) w' /\
    keeps_stable w w' /\ available n X w' /\
    (r = -1 \/ r = 0 /\ exists l bs, p = Some l /\ w_heap w' !! l = Some (OBytes bs) /\ gen_value H w g bs).
Proof.
  intros HH Hok Hav Hg. pose proof (generator_served H R HH w child Hok n X Hav g slot Hg) as Hwp.
  apply wp_run in Hwp as ([r p] & w' & Hrun & [Hk Hres] & Ha). by exists r, p, w'.
Qed.

(** ** The generators that overrun their buffer *)

Lemma mem_alloc_granted w n :
  oracle_ok w -> 0 < n -> mem_alloc (junk n) w = Ret (Some (w_next w)) (granted (junk n) w).
Proof.
  intros Ho Hn. unfold mem_alloc. assert (Hsz : sizeof (junk n) <> 0) by (cbn; rewrite length_replicate; lia).
  apply Z.eqb_neq in Hsz. rewrite Hsz. by erewrite bind_eq by (by apply malloc_ok).
Qed.

Lemma rand_range_answers r w o w' : rand_range r w = Ret o w' -> oracle_ok w -> oracle_ok w'.
Proof.
  unfold oracle_ok. destruct w as [h nx o0 out ev fs fds pid c sy en].
  unfold rand_range, call_rand_fn, rand_range_no_crypto, rand_range_crypto, rand, BN_new, BN_set_word,
    BN_rand_range, BN_bn2dec, bind, ask, ret, printf, write, modify, gets, crash. cbn -[u32 Z.modulo].
  repeat (case_match; cbn -[u32 Z.modulo] in *; try done); intros [= <- <-]; cbn; eauto 6 using answers_tl.
Qed.

Lemma rand_range_granted w child r :
  gen_world w child -> oracle_ok w -> 0 < r < 2 ^ 32 ->
  exists n w', rand_range r w = Ret (Some n) w' /\ env_step w w' /\ oracle_ok w' /\ 0 <= n <= r.
Proof.
  intros [Hs [f Hf] _ _] Ho Hr. destruct (rand_range_spec f r w Hs Hf Hr) as (o & w' & Hrun & He & Hd & Hsome).
  pose proof (rand_range_answers _ _ _ _ Hrun Ho). destruct (Hsome Ho) as [n ->]. exists n, w'.
  split; [done|]. split; [done|]. split; [done|]. destruct (Hd n eq_refl) as [? _]. destruct f; cbn in *; lia.
Qed.

(** Allocating, drawing and then a statement that overruns the buffer. *)
Lemma alloc_draw_crash w child n r {A} (K : ptr -> Z -> M A) (e1 : M A) (e2 : ptr -> M A) :
  gen_world w child -> oracle_ok w -> 0 < n -> 0 < r < 2 ^ 32 ->
  (forall w' l num, w_heap w' !! l = Some (junk n) -> 0 <= num <= r -> K (Some l) num w' = Crash) ->
  (let! p := mem_alloc (junk n) in
   match p with
   | None => e1
   | Some _ => let! num := rand_range r in match num with None => e2 p | Some num => K p num end
   end) w = Crash.
Proof.
  intros Hok Ho Hn Hr HK. erewrite bind_eq by (by apply mem_alloc_granted).
  destruct (rand_range_granted (granted (junk n) w) child r) as (num & w' & Hrun & (o & x & ->) & _ & Hnum).
  - eapply (gen_world_stable (fun _ => True)); [done|done|apply grows_stable, grows_granted, Hok|done].
  - by apply oracle_ok_granted.
  - done.
  - cbv beta iota. erewrite bind_eq by exact Hrun. apply HK; [|done]. apply lookup_insert_eq.
Qed.

Lemma set_u64_overrun w l n v : w_heap w !! l = Some (junk n) -> n < 8 -> set_u64 (Some l) v w = Crash.
Proof. intros Hl Hn. eapply store_int_overflow; [exact Hl|]. rewrite length_replicate. lia. Qed.

Lemma or_u64_uninitialised w l n v : w_heap w !! l = Some (junk n) -> or_u64 (Some l) v w = Crash.
Proof.
  intros Hl. unfold or_u64, load_uint. apply bind_crash. erewrite bind_eq by (by apply load_bytes_eq).
  apply bind_crash. unfold get_bytes. case_decide as Hd; [|done]. rewrite length_replicate in Hd.
  by destruct (Z.to_nat n) as [|[|[|[|[|[|[|[|m]]]]]]]]; try lia.
Qed.

(** The generators that are undefined whenever they get their memory: a
    64-bit access to a buffer of four bytes, or an [|=] on memory that was
    never initialised, or reading sixteen bytes from a four-byte variable. *)
Definition broken_generator (g : generator) : bool :=
  match g with
  | fn_generate_recv_flags | fn_generate_amode | fn_generate_chflags | fn_generate_open_flag
  | fn_generate_sockaddr => true
  | _ => false
  end.

Lemma switch_crash {A} r n (cases : list A) d (K : A -> M (Z * ptr)) w :
  0 <= n <= r -> r < Z.of_nat (length cases) -> (forall a, a ∈ cases -> K a w = Crash) ->
  switch n cases d K w = Crash.
Proof.
  intros Hn Hr HK. unfold switch. destruct (nth_z_lt cases n) as [a Ha]; [lia|]. rewrite Ha.
  apply HK. unfold nth_z in Ha. destruct (n <? 0); [done|]. by apply list_elem_of_lookup_2 in Ha.
Qed.

Lemma broken_crashes H R g w child slot :
  gen_world w child -> oracle_ok w -> broken_generator g = true ->
  call_generator H R g slot (Some child) w = Crash.
Proof.
  intros Hok Ho Hg. destruct g; try done; cbn [call_generator].
  - unfold generate_open_flag.
    destruct (rand_range_granted w child 7 Hok Ho) as (num & w' & Hrun & (o & x & ->) & Ho' & Hnum); [lia|].
    erewrite bind_eq by exact Hrun. cbv beta iota. erewrite bind_eq by (by apply mem_alloc_granted).
    eapply switch_crash; [exact Hnum|done|]. intros k _. apply bind_crash.
    eapply or_u64_uninitialised, lookup_insert_eq.
  - apply (alloc_draw_crash _ _ _ _ _ _ _ Hok Ho); [lia..|]. intros w' l num Hl Hnum.
    eapply switch_crash; [exact Hnum|done|]. intros k _. apply bind_crash. by eapply set_u64_overrun.
  - unfold generate_sockaddr. by erewrite bind_eq by (by apply mem_alloc_granted).
  - apply (alloc_draw_crash _ _ _ _ _ _ _ Hok Ho); [lia..|]. intros w' l num Hl Hnum.
    eapply switch_crash; [exact Hnum|done|]. intros m Hm. apply bind_crash.
    repeat (apply elem_of_cons in Hm as [->|Hm];
      [first [by eapply or_u64_uninitialised | by eapply set_u64_overrun]|]). by apply not_elem_of_nil in Hm.
  - apply (alloc_draw_crash _ _ _ _ _ _ _ Hok Ho); [lia..|]. intros w' l num Hl Hnum.
    eapply switch_crash; [exact Hnum|done|]. intros k _. apply bind_crash. by eapply or_u64_uninitialised.
Qed.

(** Five generators are undefined in every environment that grants
    their allocation: [generate_recv_flags] writes eight bytes to a buffer of
    four, [generate_amode] and [generate_chflags] do so or first read the
    eight bytes, [generate_open_flag] ORs a flag into memory that was never
    initialised, and [generate_sockaddr] copies sixteen bytes from the
    four-byte variable [port]. *)
Theorem broken_generators_overrun H R g w child slot :
  gen_world w child -> oracle_ok w -> broken_generator g = true ->
  call_generator H R g slot (Some child) w = Crash.
Proof. apply broken_crashes. Qed.

(** The two mount-flag generators draw an index between 0 and 7 for an
    array of seven flags: drawing 7 reads past its end. *)
Theorem mount_flags_index_out_of_range H R g w slot child w' :
  g = fn_generate_mount_flags \/ g = fn_generate_unmount_flags ->
  0 <= hd 0 (w_oracle w) ->
  rand_range 7 (granted (junk (if bool_decide (g = fn_generate_mount_flags) then 4 else 8)) w) = Ret (Some 7) w' ->
  call_generator H R g slot child w = Crash.
Proof.
  intros Hg Ho Hrun.
  assert (Halloc : forall n, 0 < n -> mem_alloc (junk n) w = Ret (Some (w_next w)) (granted (junk n) w)).
  { intros n Hn. unfold mem_alloc. assert (Hsz : sizeof (junk n) <> 0) by (cbn; rewrite length_replicate; lia).
    apply Z.eqb_neq in Hsz. rewrite Hsz. unfold malloc, bind, ask.
    by rewrite (proj2 (Z.ltb_ge (hd 0 (w_oracle w)) 0)) by done. }
  destruct Hg as [-> | ->]; cbn [call_generator]; cbn in Hrun.
  - unfold generate_mount_flags. erewrite bind_eq by (apply Halloc; lia). cbv beta iota.
    by erewrite bind_eq by exact Hrun.
  - unfold generate_unmount_flags. erewrite bind_eq by (apply Halloc; lia). cbv beta iota.
    by erewrite bind_eq by exact Hrun.
Qed.

(** ** An instance of the interfaces *)

Definition some_headers : headers := MkHeaders MAC_OS (fun _ => 1) 2168 144 4 48 0.

Lemma some_headers_ok : headers_ok some_headers.
Proof. split_and!; try done. Qed.

(** A resource module that opens everything anew: fixed descriptors, and a
    new string for each path. *)
Definition new_path : M ptr := malloc (OBytes [Some 47; Some 97; Some 0]).
Definition new_resources : resources := MkResources (ret 5) (ret 6) new_path new_path.

Lemma new_path_spec w : heap_wf w -> wp new_path (fun p w' => keeps_stable w w' /\ heap_wf w' /\ is_path w' p) w.
Proof.
  intros Hwf. unfold new_path, malloc, wp, bind, ask. destruct (_ <? 0); cbn.
  - split_and!; [apply grows_stable, grows_env, env_asked|done|done].
  - split_and!; [exact (grows_stable _ _ _ (grows_granted _ _ Hwf))|exact (heap_wf_granted _ _ Hwf)|]. do 2 eexists.
    split; [apply lookup_insert_eq|done].
Qed.

(** It never runs out. *)
#[export, refine] Instance new_resources_laws : ResourceLaws new_resources := {| available := fun _ _ w => heap_wf w |}.
Proof.
  - done.
  - done.
  - done.
  - done.
  - intros n X w Hwf _. apply wp_ret. split; [reflexivity|done].
  - intros n X w Hwf _. apply wp_ret. split; [reflexivity|done].
  - intros n X w Hwf _. by apply new_path_spec.
  - intros n X w Hwf _. by apply new_path_spec.
Defined.

Definition gen_demo (oracle : list Z) : world :=
  set_crypto (MkCrypto (Some fn_rand_range_crypto) 0 TRUE) (set_next 3%positive (set_heap (list_to_map
    [ (1%positive, OChild (MkChild 100 0 None 1 2 None NULL NULL (Some 2%positive) 0 NX_YES 0 NX_YES NX_YES None None));
      (2%positive, OWords (replicate 7 0)) ]) (fresh_world oracle []))).

Lemma gen_demo_ok oracle : gen_world (gen_demo oracle) 1%positive.
Proof.
  split; [done|by eexists| |].
  - intros l Hl. cbn in *. rewrite !lookup_insert_ne by lia. apply lookup_empty.
  - do 3 eexists. split; [reflexivity|]. split; [reflexivity|]. split; [reflexivity|]. split; [done|cbn; lia].
Qed.

Lemma generators_keep_contract_witness :
  exists r p w', call_generator some_headers new_resources fn_generate_mode NULL (Some 1%positive)
    (gen_demo [0; 0; 0; 9; 0]) = Ret (r, p) w' /\ r = 0.
Proof.
  destruct (@generators_keep_contract some_headers new_resources new_resources_laws fn_generate_mode (gen_demo [0; 0; 0; 9; 0])
    1%positive NULL 0%nat ∅ some_headers_ok (gen_demo_ok _) (gw_wf _ _ (gen_demo_ok [0; 0; 0; 9; 0])) eq_refl) as (r & p & w' & Hrun & _).
  exists r, p, w'. split; [exact Hrun|]. vm_compute in Hrun. by injection Hrun as <- _ _.
Defined.

Lemma broken_generators_overrun_witness :
  call_generator some_headers new_resources fn_generate_recv_flags NULL (Some 1%positive) (gen_demo []) = Crash.
Proof.
  exact (broken_generators_overrun some_headers new_resources fn_generate_recv_flags (gen_demo []) 1%positive NULL
    (gen_demo_ok _) (Forall_nil_2 _) eq_refl).
Defined.

Lemma mount_flags_index_out_of_range_witness :
  call_generator some_headers new_resources fn_generate_mount_flags NULL (Some 1%positive)
    (gen_demo [0; 0; 0; 0; 7; 0]) = Crash.
Proof.
  eapply (mount_flags_index_out_of_range some_headers new_resources fn_generate_mount_flags
    (gen_demo [0; 0; 0; 0; 7; 0]) NULL (Some 1%positive)); [by left|cbn; lia|vm_compute; reflexivity].
Defined.
