(* ===== verification/Mutate.v ===== *)
(** * Mutate: the file mutators (mutate/mutate.c)

    The file is a buffer of [file_size] bytes: private memory, or a mapping of
    a file on disk, whose bytes are then the file's.  The random numbers come from
    a [random_generator], the knowledge of file formats from the plugin
    module, whose three functions are the parameter [plugins]. *)

From S2P Require Import Prelude Types CWorld Memory Crypto.

(** [random->range(n, &number)]: calling through a member that was never
    assigned is undefined. *)
Definition call_range (random : random_generator) (n : Z) : M (option Z) :=
  let! f := need (range random) in f n.

(** A mapping goes on to the end of its last page: what is read behind the end
    of the file is zero, what is written there is lost. *)
Definition in_last_page (len off : Z) : bool := (len <=? off) && (off <? page_count len * PAGE_SIZE).

(** [( *file)[offset]] and its assignment; a mapping must allow the access
    (PROT_READ is 1, PROT_WRITE is 2). *)
Definition load_byte (p : ptr) (off : Z) : M Z :=
  let! o := load p in
  match o with
  | OBytes bs => let! b := need (nth_z bs off) in need b
  | OMap path len prot =>
      if Z.land prot 1 =? 0 then crash
      else if in_last_page len off then ret 0
      else if len <=? off then crash
      else
        let! fs := gets w_fs in
        let! content := need (fs !! path) in
        need (nth_z content off)
  | _ => crash
  end.
Definition store_byte (p : ptr) (off v : Z) : M unit :=
  let! o := load p in
  match o with
  | OBytes _ => store_at p off [v]
  | OMap path len prot =>
      if Z.land prot 2 =? 0 then crash
      else if in_last_page len off then ret tt
      else if len <=? off then crash
      else
        let! fs := gets w_fs in
        let! content := need (fs !! path) in
        let! content := need (set_z content off v) in
        modify (fun w => set_fs (<[path := content]> (w_fs w)) w)
  | _ => crash
  end.

Definition flip_byte_mutator (file : ptr) (file_size : Z) (random : random_generator) : M Z :=
  let! offset := call_range random (u32 file_size) in
  match offset with
  | None => write ERROR "Can't pick random file offset\n" ;;; ret (-1)
  | Some offset =>
      let! b := load_byte file offset in
      store_byte file offset (u8 (Z.lnot b)) ;;;
      ret 0
  end.

Definition flip_bit_mutator (file : ptr) (file_size : Z) (random : random_generator) : M Z :=
  let! offset := call_range random (u32 file_size) in
  match offset with
  | None => write ERROR "Can't pick random file offset\n" ;;; ret (-1)
  | Some offset =>
      let! bit := call_range random 8 in
      match bit with
      | None => write ERROR "Can't pick random bit to flip\n" ;;; ret (-1)
      | Some bit =>
          let! b := load_byte file offset in
          store_byte file offset (u8 (Z.lxor b (Z.shiftl 1 bit))) ;;;
          ret 0
      end
  end.

Definition xor_mutator (file : ptr) (file_size : Z) (random : random_generator) : M Z := ret 0.

Definition number_of_mutators : Z := 3.

Definition mutator_array : list (ptr -> Z -> random_generator -> M Z) :=
  [flip_byte_mutator; flip_bit_mutator; xor_mutator].

Definition mutate_file_randomly (file : ptr) (file_size : Z) (random : random_generator) : M Z :=
  let! offset := call_range random (number_of_mutators - 1) in
  match offset with
  | None => write ERROR "Can't pick random offset\n" ;;; ret (-1)
  | Some offset =>
      let! f := need (nth_z mutator_array offset) in
      f file file_size random
  end.

(** plugins/plugin.h, as the mutator uses it: the offset of a plugin that
    knows the extension, the number of its features, and the lookup of a
    feature's constraints. *)
Record plugins := MkPlugins {
  supported_file : string -> M (option Z);
  features_supported : Z -> M Z;
  feature_constraints : Z -> M Z
}.

Definition mutate_file (P : plugins) (file : ptr) (file_extension : string) (file_size : Z)
    (random : random_generator) : M Z :=
  let! plugin_offset := supported_file P file_extension in
  match plugin_offset with
  | Some plugin_offset =>
      let! number_of_features := features_supported P plugin_offset in
      let! number := call_range random 10 in
      match number with
      | None => write ERROR "Can't randomly select number\n" ;;; ret (-1)
      | Some number =>
          if number =? 10 then
            let! rtrn := mutate_file_randomly file file_size random in
            if rtrn <? 0 then write ERROR "Can't mutate file randomly\n" ;;; ret (-1) else ret 0
          else
            let! feature := call_range random number_of_features in
            match feature with
            | None => write ERROR "Can't randomly select feature to test\n" ;;; ret (-1)
            | Some _ =>
                let! rtrn := feature_constraints P plugin_offset in
                if rtrn <? 0 then write ERROR "Can't get feature constraints\n" ;;; ret (-1) else ret 0
            end
      end
  | None =>
      let! rtrn := mutate_file_randomly file file_size random in
      if rtrn <? 0 then write ERROR "Can't mutate file randomly\n" ;;; ret (-1) else ret 0
  end.

Definition mutate_arguments (args size : ptr) (random : random_generator) : M Z := ret 0.

(** ** What the mutators rely on *)

(** A random generator answers numbers from 0 up to and including the bound
    it is given, or fails, and touches nothing but the environment. *)
Class RandomLaws (random : random_generator) : Prop := {
  call_range_law : forall bound w, 0 <= bound < 2 ^ 32 ->
    exists r w', call_range random bound w = Ret r w' /\ env_step w w' /\
      (forall n, r = Some n -> 0 <= n <= bound)
}.

Definition default_generator : random_generator :=
  MkRandom (Some default_rand_range) None (Some default_seed_prng).

Lemma default_rand_range_crypto n w : default_rand_range n w = rand_range_crypto n w.
Proof. reflexivity. Qed.

#[export] Instance default_generator_laws : RandomLaws default_generator.
Proof.
  split. intros bound w Hb. unfold call_range. cbn [range default_generator need].
  rewrite (bind_eq _ _ _ default_rand_range w) by reflexivity. rewrite default_rand_range_crypto.
  destruct (crypto_range_spec bound w Hb) as (r & w' & -> & He & Hd & _).
  exists r, w'. split_and!; [done..|]. intros n Hn. by apply Hd.
Qed.

Lemma env_step_heap w w' : env_step w w' -> w_heap w' = w_heap w.
Proof. by intros (o & x & ->). Qed.

(** ** One byte of a file *)

(** Where the bytes of the file are. *)
Inductive storage := Private | Mapped (path : string).

(** The buffer at [l] holds [content]; [file_set] replaces it. *)
Definition file_at (s : storage) (w : world) (l : loc) (content : list Z) : Prop :=
  match s with
  | Private => w_heap w !! l = Some (OBytes (map Some content))
  | Mapped path => w_heap w !! l = Some (OMap path (Z.of_nat (length content)) 3) /\ w_fs w !! path = Some content
  end.

Definition file_set (s : storage) (l : loc) (content : list Z) (w : world) : world :=
  match s with
  | Private => set_heap (<[l := OBytes (map Some content)]> (w_heap w)) w
  | Mapped path => set_fs (<[path := content]> (w_fs w)) w
  end.

Lemma file_at_env s w w' l content : env_step w w' -> file_at s w l content -> file_at s w' l content.
Proof. by intros (o & x & ->). Qed.

Lemma file_set_same s w l content : file_at s w l content -> file_set s l content w = w.
Proof. destruct s as [|path]; cbn; [intros H|intros [_ H]]; rewrite insert_id by done; by destruct w. Qed.

Lemma file_set_at s w l c c' : length c = length c' -> file_at s w l c -> file_at s (file_set s l c' w) l c'.
Proof.
  intros Hlen. destruct s as [|path]; cbn; [intros _; apply lookup_insert_eq|].
  intros [H1 H2]. split; [by rewrite <- Hlen|apply lookup_insert_eq].
Qed.

Lemma file_set_set s w l c c' : file_set s l c' (file_set s l c w) = file_set s l c' w.
Proof. destruct s; cbn; rewrite insert_insert_eq; by destruct w. Qed.

Section one_byte.
Context (s : storage) (l : loc) (content : list Z).

Lemma nth_z_map_some n :
  nth_z (map Some content) n = Some <$> nth_z content n.
Proof. unfold nth_z. destruct (n <? 0); [done|]. apply list_lookup_fmap. Qed.

Lemma nth_z_bound {A} (xs : list A) n x : nth_z xs n = Some x -> 0 <= n < Z.of_nat (length xs) /\ xs !! Z.to_nat n = Some x.
Proof.
  unfold nth_z. destruct (Z.ltb_spec n 0); [done|]. intros Hx. pose proof (lookup_lt_Some _ _ _ Hx). split; [lia|done].
Qed.

(** Behind the end, but within the last page of a mapping. *)
Definition slack (n : Z) : bool :=
  match s with Private => false | Mapped _ => in_last_page (Z.of_nat (length content)) n end.

Lemma slack_outside n b : nth_z content n = Some b -> slack n = false.
Proof.
  intros [Hn _]%nth_z_bound. unfold slack, in_last_page. destruct s; [done|]. by rewrite (proj2 (Z.leb_gt _ n)) by lia.
Qed.

Lemma load_byte_spec w n :
  file_at s w l content ->
  load_byte (Some l) n w =
    match nth_z content n with Some b => Ret b w | None => if slack n then Ret 0 w else Crash end.
Proof.
  intros Hl. unfold load_byte. destruct (nth_z content n) as [b|] eqn:E.
  - pose proof (slack_outside n b E) as Hsl. pose proof (nth_z_bound _ _ _ E) as [Hn _]. unfold slack in Hsl.
    destruct s as [|path].
    + erewrite bind_eq by (by apply load_eq). cbv beta iota. by rewrite nth_z_map_some, E.
    + destruct Hl as [Hl Hf]. erewrite bind_eq by (by apply load_eq). cbv beta iota. change (Z.land 3 1 =? 0) with false. cbv iota.
      rewrite Hsl, (proj2 (Z.leb_gt _ n)) by lia. cbv iota. erewrite bind_eq by reflexivity. rewrite Hf.
      erewrite bind_eq by reflexivity. by rewrite E.
  - unfold slack. destruct s as [|path].
    + erewrite bind_eq by (by apply load_eq). cbv beta iota. by rewrite nth_z_map_some, E.
    + destruct Hl as [Hl Hf]. erewrite bind_eq by (by apply load_eq). cbv beta iota. change (Z.land 3 1 =? 0) with false. cbv iota.
      destruct (in_last_page _ n); [done|]. destruct (_ <=? n); [done|].
      erewrite bind_eq by reflexivity. rewrite Hf. erewrite bind_eq by reflexivity. by rewrite E.
Qed.

Lemma store_byte_slack w n v : file_at s w l content -> slack n = true -> store_byte (Some l) n v w = Ret tt w.
Proof.
  intros Hl Hsl. unfold slack in Hsl. destruct s as [|path]; [done|]. destruct Hl as [Hl Hf]. unfold store_byte.
  erewrite bind_eq by (by apply load_eq). cbv beta iota. change (Z.land 3 2 =? 0) with false. cbv iota. by rewrite Hsl.
Qed.

Lemma store_byte_spec w n b v :
  file_at s w l content -> nth_z content n = Some b ->
  store_byte (Some l) n v w = Ret tt (file_set s l (<[Z.to_nat n := v]> content) w).
Proof.
  intros Hl E. pose proof (slack_outside n b E) as Hsl. apply nth_z_bound in E as [Hb Hn].
  unfold store_byte. unfold slack in Hsl. destruct s as [|path].
  - erewrite bind_eq by (by apply load_eq). eapply store_at_eq; [done|].
    unfold put_at. rewrite length_map. cbn [length].
    rewrite (proj2 (Z.leb_le 0 n)), (proj2 (Z.leb_le _ _)) by lia. cbn [andb].
    rewrite insert_take_drop by lia. change (@map Z (option Z) Some) with (fmap (M := list) (@Some Z)).
    rewrite fmap_app, !fmap_cons, fmap_take, fmap_drop. cbn [app fmap list_fmap]. by rewrite Nat.add_1_r.
  - destruct Hl as [Hl Hf]. erewrite bind_eq by (by apply load_eq). cbv beta iota. change (Z.land 3 2 =? 0) with false. cbv iota.
    rewrite Hsl, (proj2 (Z.leb_gt _ n)) by lia. cbv iota. erewrite bind_eq by reflexivity. rewrite Hf.
    erewrite bind_eq by reflexivity. rewrite set_z_lt by lia. by erewrite bind_eq by reflexivity.
Qed.

(** Reading a byte and writing it back changed. *)
Lemma change_byte_spec {A} w n (f : Z -> Z) (r : A) :
  file_at s w l content ->
  (let! b := load_byte (Some l) n in store_byte (Some l) n (f b) ;;; ret r) w =
  match nth_z content n with
  | Some b => Ret r (file_set s l (<[Z.to_nat n := f b]> content) w)
  | None => if slack n then Ret r w else Crash
  end.
Proof.
  intros Hl. unfold bind at 1. rewrite load_byte_spec by done.
  destruct (nth_z content n) as [b|] eqn:Hb; [by erewrite bind_eq by (by eapply store_byte_spec)|].
  destruct (slack n) eqn:Hs; [|done]. by erewrite bind_eq by (by apply store_byte_slack).
Qed.
End one_byte.

(** ** What a mutation does to the file *)

(** [content'] differs from [content] in at most one byte, which was
    complemented or had one bit flipped (or, for bit 8, nothing). *)
Definition mutated (content content' : list Z) : Prop :=
  content' = content \/
  exists n b, content !! n = Some b /\
    (content' = <[n := u8 (Z.lnot b)]> content \/
     exists bit, 0 <= bit <= 8 /\ content' = <[n := u8 (Z.lxor b (Z.shiftl 1 bit))]> content).

(** The byte behind the last one is not there: always so of private memory,
    and of a mapping that fills its pages. *)
Definition nothing_behind (s : storage) (size : Z) : Prop :=
  match s with Private => True | Mapped _ => size mod PAGE_SIZE = 0 end.

(** From [w] on, a mutator that flips a byte and one that flips a bit draw the
    size of the file as the offset and get to the access. *)
Definition byte_overdrawn (random : random_generator) (size : Z) (w : world) : Prop :=
  exists w', call_range random (u32 size) w = Ret (Some size) w'.
Definition bit_overdrawn (random : random_generator) (size : Z) (w : world) : Prop :=
  exists w' bit w'', call_range random (u32 size) w = Ret (Some size) w' /\ call_range random 8 w' = Ret (Some bit) w''.

(** The run from [w] draws one of these two mutators and then an offset one
    past the end of a file with nothing behind it. *)
Definition overdrawn (random : random_generator) (s : storage) (size : Z) (w : world) : Prop :=
  nothing_behind s size /\
  exists k w', call_range random (number_of_mutators - 1) w = Ret (Some k) w' /\
    (k = 0 /\ byte_overdrawn random size w' \/ k = 1 /\ bit_overdrawn random size w').

(** The outcome [o] of a mutation on the file at [l]: it succeeds and the file
    is [mutated], or it fails and the file is as it was; it is undefined when
    [bad] holds, and only then. *)
Definition mutator_outcome (s : storage) (l : loc) (content : list Z) (w : world) (bad : Prop) (o : outcome Z) : Prop :=
  match o with
  | Ret r w' => ~ bad /\
      exists content' w1, env_step w w1 /\ w' = file_set s l content' w1 /\
        (r = 0 /\ mutated content content' \/ r = -1 /\ content' = content)
  | Crash => bad
  | _ => False
  end.

Section mutators.
Context (random : random_generator) `{!RandomLaws random}.
Context (s : storage) (l : loc) (content : list Z) (Hsize : Z.of_nat (length content) < 2 ^ 32).
Let size := Z.of_nat (length content).

(** The call of [random->range(n, ...)] with what follows it. *)
Lemma draw_step {A} bound (k : option Z -> M A) (P : outcome A -> Prop) w :
  0 <= bound < 2 ^ 32 ->
  (forall r w', call_range random bound w = Ret r w' -> env_step w w' ->
     (forall n, r = Some n -> 0 <= n <= bound) -> P (k r w')) ->
  P (bind (call_range random bound) k w).
Proof.
  intros Hb HP. destruct (call_range_law bound w Hb) as (r & w' & Hr & He & Hn).
  erewrite bind_eq by exact Hr. eauto.
Qed.

Lemma outcome_unchanged w w' r (bad : Prop) :
  file_at s w l content -> env_step w w' -> r = 0 \/ r = -1 -> ~ bad -> mutator_outcome s l content w bad (Ret r w').
Proof.
  intros Hl He Hr Hb. split; [done|]. exists content, w'.
  split_and!; [done|by rewrite (file_set_same _ _ _ _ (file_at_env _ _ _ _ _ He Hl))|].
  destruct Hr; [left|right]; (split; [done|]); [by left|done].
Qed.

(** The condition may be stated in another way, and the run may have started
    earlier. *)
Lemma outcome_mono w w0 (bad bad' : Prop) o :
  env_step w w0 -> (bad <-> bad') -> mutator_outcome s l content w0 bad o -> mutator_outcome s l content w bad' o.
Proof.
  intros He Hb. destruct o as [r w'| | | |]; cbn; try done; [|tauto].
  intros (Hn & content' & w1 & H1 & H2 & H3). split; [tauto|]. exists content', w1. split_and!; [by eapply env_step_trans|done|done].
Qed.

(** An offset in the last page of a mapping, or none: the size of a file with
    nothing behind it is neither. *)
Lemma slack_size : slack s content size = true <-> ~ nothing_behind s size.
Proof.
  unfold slack, nothing_behind, in_last_page. destruct s as [|path]; [split; [done|tauto]|]. fold size.
  rewrite Z.leb_refl. cbn [andb]. rewrite Z.ltb_lt. unfold page_count, PAGE_SIZE.
  pose proof (Z.div_mod size 4096 ltac:(lia)) as Hd. pose proof (Z.mod_pos_bound size 4096 ltac:(lia)) as Hm.
  set (q := size / 4096) in *. set (r := size mod 4096) in *. split.
  - intros Hlt Hr. assert ((size + 4096 - 1) / 4096 = q) by (symmetry; apply (Z.div_unique_pos _ _ _ 4095); lia). lia.
  - intros Hr. assert ((size + 4096 - 1) / 4096 = q + 1) by (symmetry; apply (Z.div_unique_pos _ _ _ (r - 1)); lia). lia.
Qed.

(** The access at an offset the generator drew. *)
Lemma changed_outcome w n (f : Z -> Z) :
  file_at s w l content -> 0 <= n <= u32 size ->
  (forall b, f b = u8 (Z.lnot b) \/ exists bit, 0 <= bit <= 8 /\ f b = u8 (Z.lxor b (Z.shiftl 1 bit))) ->
  mutator_outcome s l content w (nothing_behind s size /\ n = size)
    ((let! b := load_byte (Some l) n in store_byte (Some l) n (f b) ;;; ret 0) w).
Proof.
  intros Hl Hn Hf. rewrite (change_byte_spec s l content) by done. rewrite u32_small in Hn by (subst size; lia).
  destruct (nth_z content n) as [b|] eqn:Hb.
  - apply nth_z_bound in Hb as [Hlt Hb]. split; [subst size; lia|]. eexists _, w. split_and!; [apply env_step_refl|done|].
    left. split; [done|]. right. exists (Z.to_nat n), b. split; [done|].
    destruct (Hf b) as [->|(bit & Hbit & ->)]; [by left|]. right. by exists bit.
  - assert (n = size) as ->.
    { destruct (decide (n < size)); [|lia]. destruct (nth_z_lt content n) as [? Hc]; [subst size; lia|]. congruence. }
    pose proof slack_size as Hs. destruct (slack s content size).
    + apply outcome_unchanged; [done|apply env_step_refl|by left|]. intros [Hb' _]. by apply Hs.
    + split; [|done]. unfold nothing_behind in *. destruct s; [done|]. destruct (decide (size mod PAGE_SIZE = 0)); [done|].
      exfalso. by assert (false = true) by (by apply Hs).
Qed.

Lemma flip_byte_outcome w :
  file_at s w l content ->
  mutator_outcome s l content w (nothing_behind s size /\ byte_overdrawn random size w)
    (flip_byte_mutator (Some l) size random w).
Proof.
  intros Hl. unfold flip_byte_mutator, byte_overdrawn. apply draw_step; [apply u32_range|]. intros [n|] w1 Hd He Hn.
  - eapply outcome_mono; [exact He| |apply (changed_outcome w1 n (fun b => u8 (Z.lnot b))); [by eapply file_at_env|by apply Hn|by left]].
    rewrite Hd. split; [intros [? ->]; eauto|]. intros [? (w' & [= -> _])]. done.
  - apply outcome_unchanged; eauto using env_step_trans, env_write. rewrite Hd. by intros (_ & w' & [=]).
Qed.

Lemma flip_bit_outcome w :
  file_at s w l content ->
  mutator_outcome s l content w (nothing_behind s size /\ bit_overdrawn random size w)
    (flip_bit_mutator (Some l) size random w).
Proof.
  intros Hl. unfold flip_bit_mutator, bit_overdrawn. apply draw_step; [apply u32_range|].
  intros [n|] w1 Hd He Hn; [|apply outcome_unchanged; eauto using env_step_trans, env_write; rewrite Hd;
    by intros (_ & w' & bit & w'' & [=] & _)].
  apply draw_step; [lia|]. intros [bit|] w2 Hd2 He2 Hbit.
  - eapply outcome_mono; [by eapply env_step_trans| |apply (changed_outcome w2 n (fun b => u8 (Z.lxor b (Z.shiftl 1 bit))))].
    + rewrite Hd. split; [intros [? ->]; split; [done|]; by exists w1, bit, w2|]. intros [? (w' & b & w'' & [= -> _] & _)]. done.
    + exact (file_at_env _ _ _ _ _ He2 (file_at_env _ _ _ _ _ He Hl)).
    + by apply Hn.
    + intros b. right. exists bit. by specialize (Hbit bit eq_refl).
  - apply outcome_unchanged; eauto using env_step_trans, env_write. rewrite Hd.
    intros (_ & w' & bit & w'' & [= _ ->] & Hd3). congruence.
Qed.

Lemma random_mutation_outcome w :
  file_at s w l content ->
  mutator_outcome s l content w (overdrawn random s size w) (mutate_file_randomly (Some l) size random w).
Proof.
  intros Hl. unfold mutate_file_randomly, overdrawn. apply draw_step; [done|].
  intros [n|] w1 Hd He Hn; [|apply outcome_unchanged; eauto using env_step_trans, env_write;
    rewrite Hd; by intros (_ & k & w' & [=] & _)].
  pose proof (file_at_env _ _ _ _ _ He Hl) as Hl1. rewrite Hd.
  assert (n = 0 \/ n = 1 \/ n = 2) as [->|[->| ->]]
    by (specialize (Hn _ eq_refl); unfold number_of_mutators in Hn; lia).
  - eapply outcome_mono; [exact He| |by apply flip_byte_outcome]. split.
    + intros [? ?]. split; [done|]. exists 0, w1. split; [done|by left].
    + intros [? (k & w' & [= <- <-] & [[_ ?]|[? _]])]; done.
  - eapply outcome_mono; [exact He| |by apply flip_bit_outcome]. split.
    + intros [? ?]. split; [done|]. exists 1, w1. split; [done|by right].
    + intros [? (k & w' & [= <- <-] & [[? _]|[_ ?]])]; done.
  - apply outcome_unchanged; eauto using env_step_trans, env_write.
    intros [? (k & w' & [= <- <-] & [[? _]|[? _]])]; done.
Qed.

(** What a caller that folds every failure into -1 makes of an outcome. *)
Lemma outcome_fold w bad msg :
  mutator_outcome s l content w bad (mutate_file_randomly (Some l) size random w) ->
  mutator_outcome s l content w bad
    ((let! rtrn := mutate_file_randomly (Some l) size random in
      if rtrn <? 0 then write ERROR msg ;;; ret (-1) else ret 0) w).
Proof.
  unfold bind at 1. destruct (mutate_file_randomly _ _ _ w) as [r w'| | | |]; [|done..].
  intros (Hb & content' & w1 & He & -> & [[-> Hm]|[-> Hm]]); (split; [done|]); cbn; [by exists content', w1; auto|].
  exists content', (set_out ((ERROR, msg) :: w_out w1) w1).
  split_and!; [by eapply env_step_trans, env_write|by destruct s|by right].
Qed.
End mutators.

Lemma mutate_file_spec random `{!RandomLaws random} P ext s l content w :
  Z.of_nat (length content) < 2 ^ 32 -> file_at s w l content ->
  supported_file P ext w = Ret None w ->
  mutator_outcome s l content w (overdrawn random s (Z.of_nat (length content)) w)
    (mutate_file P (Some l) ext (Z.of_nat (length content)) random w).
Proof.
  intros Hs Hl Hp. unfold mutate_file. erewrite bind_eq by exact Hp.
  by apply outcome_fold, random_mutation_outcome.
Qed.

(** (C33) A file mutation with a random generator that keeps its promise, on
    a file of less than 2^32 bytes no plugin knows, in memory or mapped from
    disk, either succeeds and leaves the file's bytes as they were except for
    at most one, which was complemented or had one bit flipped; or fails and
    leaves the file as it was.  It is undefined exactly when this very run
    draws one of the two flipping mutators and then the file's size as the
    offset, and the file is in private memory or its mapping fills its last
    page.  It never indexes outside the array of mutators. *)
Theorem mutate_file_outcomes random `{!RandomLaws random} P ext s l content w :
  Z.of_nat (length content) < 2 ^ 32 -> file_at s w l content ->
  supported_file P ext w = Ret None w ->
  mutator_outcome s l content w (overdrawn random s (Z.of_nat (length content)) w)
    (mutate_file P (Some l) ext (Z.of_nat (length content)) random w).
Proof. apply mutate_file_spec; exact _. Qed.

(** Flipping is its own inverse on bytes. *)
Lemma flip_byte_involutive b : 0 <= b < 256 -> u8 (Z.lnot (u8 (Z.lnot b))) = b.
Proof.
  intros Hb. assert (E : forall x, 0 <= x < 256 -> u8 (Z.lnot x) = 255 - x).
  { intros x Hx. unfold u8, Z.lnot. replace (Z.pred (- x)) with ((255 - x) + (-1) * 2 ^ 8) by lia.
    rewrite Z.mod_add by lia. apply Z.mod_small. lia. }
  rewrite !E by (rewrite ?E by lia; lia). lia.
Qed.

Lemma flip_bit_involutive b bit :
  0 <= b < 256 -> 0 <= bit -> u8 (Z.lxor (u8 (Z.lxor b (Z.shiftl 1 bit))) (Z.shiftl 1 bit)) = b.
Proof.
  intros Hb Hbit. apply Z.bits_inj'. intros k Hk. unfold u8. rewrite <- !Z.land_ones by lia.
  repeat rewrite ?Z.land_spec, ?Z.lxor_spec.
  destruct (decide (k < 8)) as [Hlt|Hge].
  - rewrite Z.ones_spec_low by lia. rewrite !andb_true_r.
    by destruct (Z.testbit b k), (Z.testbit (Z.shiftl 1 bit) k).
  - rewrite Z.ones_spec_high by lia. rewrite andb_false_r. symmetry.
    destruct (decide (b = 0)) as [->|]; [apply Z.bits_0|]. apply Z.bits_above_log2; [lia|].
    apply Z.log2_lt_pow2; [lia|]. apply Z.lt_le_trans with (2 ^ 8); [lia|]. apply Z.pow_le_mono_r; lia.
Qed.

Lemma bind_cong {A B} (m m' : M A) (k k' : A -> M B) w :
  (forall w, m w = m' w) -> (forall a w, k a w = k' a w) -> bind m k w = bind m' k' w.
Proof. intros Hm Hk. unfold bind. rewrite Hm. by destruct (m' w). Qed.

(** Both flipping mutators undo themselves: run twice with the same
    offset (and bit) inside the file, they leave the file as it was.  [repeat]
    is a generator that always draws the same numbers. *)
Theorem flips_are_involutions s l content w n b bit repeat :
  file_at s w l content -> nth_z content n = Some b -> 0 <= b < 256 ->
  0 <= bit <= 8 -> Z.of_nat (length content) < 2 ^ 32 ->
  (forall bound w', call_range repeat bound w' = Ret (Some (if bound =? 8 then bit else n)) w') ->
  Z.of_nat (length content) <> 8 ->
  (forall m, m = flip_byte_mutator \/ m = flip_bit_mutator ->
     (m (Some l) (Z.of_nat (length content)) repeat ;;; m (Some l) (Z.of_nat (length content)) repeat) w
       = Ret 0 w).
Proof.
  intros Hl Hn Hb Hbit Hs Hrep Hne.
  assert (Hi : exists i, n = Z.of_nat i /\ content !! i = Some b).
  { unfold nth_z in Hn. destruct (Z.ltb_spec n 0); [done|]. exists (Z.to_nat n). split; [lia|done]. }
  destruct Hi as (i & -> & Hi).
  assert (Htwice : forall f, u8 (f (u8 (f b))) = b ->
    ((let! x := load_byte (Some l) (Z.of_nat i) in store_byte (Some l) (Z.of_nat i) (u8 (f x)) ;;; ret 0) ;;;
     (let! x := load_byte (Some l) (Z.of_nat i) in store_byte (Some l) (Z.of_nat i) (u8 (f x)) ;;; ret 0)) w
    = Ret 0 w).
  { intros f Hf. unfold bind at 1. rewrite (change_byte_spec s l content), Hn by done. rewrite Nat2Z.id.
    rewrite (change_byte_spec s l (<[i := u8 (f b)]> content)); [|eapply (file_set_at _ _ _ content); [by rewrite length_insert|done]].
    rewrite nth_z_nat, list_lookup_insert_eq by (by eapply lookup_lt_Some). rewrite Hf, Nat2Z.id.
    rewrite list_insert_insert_eq, (list_insert_id content) by done. rewrite file_set_set. by rewrite file_set_same. }
  assert (Hdraw : forall (k : option Z -> M Z) w',
    bind (call_range repeat (u32 (Z.of_nat (length content)))) k w' = k (Some (Z.of_nat i)) w').
  { intros k w'. erewrite bind_eq by apply Hrep. rewrite u32_small by lia.
    by rewrite (proj2 (Z.eqb_neq _ _) Hne). }
  assert (Hbits : forall (k : option Z -> M Z) w', bind (call_range repeat 8) k w' = k (Some bit) w').
  { intros k w'. by erewrite bind_eq by apply Hrep. }
  intros m [-> | ->].
  - rewrite <- (Htwice Z.lnot) by (by apply flip_byte_involutive).
    apply bind_cong; intros; unfold flip_byte_mutator; apply Hdraw.
  - rewrite <- (Htwice (fun x => Z.lxor x (Z.shiftl 1 bit))) by (apply flip_bit_involutive; [done|lia]).
    apply bind_cong; intros; unfold flip_bit_mutator; rewrite Hdraw; apply Hbits.
Qed.

(** ** A file of three bytes *)

Definition file_world (oracle : list Z) : world :=
  set_heap {[1%positive := OBytes (map Some [1; 2; 255])]} (fresh_world oracle []).

Definition no_plugins : plugins := MkPlugins (fun _ => ret None) (fun _ => ret 0) (fun _ => ret 0).

(** The third byte is complemented; the offset 3 is past the end. *)
Example mutations_run :
  match mutate_file no_plugins (Some 1%positive) "png" 3 default_generator
      (file_world [0; 0; 0; 0; 0; 0; 0; 0; 2; 0]) with
  | Ret r w' => r = 0 /\ w_heap w' !! 1%positive = Some (OBytes (map Some [1; 2; 0]))
  | _ => False
  end /\
  mutate_file no_plugins (Some 1%positive) "png" 3 default_generator
    (file_world [0; 0; 0; 0; 0; 0; 0; 0; 3; 0]) = Crash.
Proof. vm_compute. auto. Qed.

Lemma mutate_file_outcomes_witness :
  mutator_outcome Private 1%positive [1; 2; 255] (file_world [0; 0; 0; 0; 0; 0; 0; 0; 2; 0])
    (overdrawn default_generator Private 3 (file_world [0; 0; 0; 0; 0; 0; 0; 0; 2; 0]))
    (mutate_file no_plugins (Some 1%positive) "png" 3 default_generator
      (file_world [0; 0; 0; 0; 0; 0; 0; 0; 2; 0])).
Proof.
  exact (mutate_file_outcomes default_generator no_plugins "png" Private 1%positive [1; 2; 255]
    (file_world [0; 0; 0; 0; 0; 0; 0; 0; 2; 0]) eq_refl eq_refl eq_refl).
Defined.

Definition constant_generator (n bit : Z) : random_generator :=
  MkRandom (Some (fun bound => ret (Some (if bound =? 8 then bit else n)))) None None.

Lemma flips_are_involutions_witness :
  (flip_bit_mutator (Some 1%positive) 3 (constant_generator 2 7) ;;;
   flip_bit_mutator (Some 1%positive) 3 (constant_generator 2 7)) (file_world []) = Ret 0 (file_world []).
Proof.
  apply (flips_are_involutions Private 1%positive [1; 2; 255] (file_world []) 2 255 7 (constant_generator 2 7));
    [done|done|lia|lia|done|done|done|by right].
Defined.
