(* ===== verification/Plugins.v ===== *)
(** * Plugins: knowledge of file formats (plugins/plugin.c)

    The module looks for shared objects in src/plugins and opens them.  The
    three functions the mutator calls are empty; [module_plugins] is what
    Mutate.v sees of them. *)

From Stdlib Require Import Ascii.
From S2P Require Import Prelude Types CWorld Io Memory Crypto Utils Dirs Mutate.

(** The return value and what is left in [*plugin_offset]. *)
Definition supported_file (file_extension : string) (plugin_offset : Z) : M (Z * Z) := ret (0, plugin_offset).
Definition features_supported (offset number_of_features : Z) : M (Z * Z) := ret (0, number_of_features).
Definition feature_constraints (offset : Z) (constraints : ptr) : M Z := ret 0.

(** The calls as the mutator makes them: its variables start with zero. *)
Definition module_plugins : plugins :=
  MkPlugins
    (fun ext => let! '(rtrn, offset) := supported_file ext 0 in ret (if rtrn =? TRUE then Some offset else None))
    (fun offset => let! '(_, number) := features_supported offset 0 in ret number)
    (fun offset => feature_constraints offset NULL).

(** [strncmp(s, pre, strlen(pre)) == 0]. *)
Fixpoint starts_with (pre s : string) : bool :=
  match pre, s with
  | EmptyString, _ => true
  | String a pre', String b s' => Ascii.eqb a b && starts_with pre' s'
  | String _ _, EmptyString => false
  end.

Definition dir_path : string := "src/plugins".

(** The loop of [count_plugins] over the names left. *)
Fixpoint count_objects (names : list string) (count : Z) : M Z :=
  match names with
  | [] => ret count
  | name :: names' =>
      if hidden name then count_objects names' count
      else
        let! file_extension := get_extension name in
        match file_extension with
        | None => count_objects names' count
        | Some ext => count_objects names' (if starts_with ".so" ext then u32 (count + 1) else count)
        end
  end.

(** The return value and what is left in [*count]. *)
Definition count_plugins (count : Z) : M (Z * Z) :=
  let! dir := opendir dir_path in
  match dir with
  | None => printf "Can't open dir: %s\n" ;;; ret (-1, count)
  | Some (fd, names) =>
      let! count := count_objects names count in
      let! _ := closedir fd in
      ret (0, count)
  end.

Definition load_plugin (p : ptr) : M plugin_ctx :=
  let! o := load p in match o with OPlugin c => ret c | _ => crash end.

(** [basename(3)]. *)
Definition basename (path : string) : string :=
  match strrchr path "/" with Some (String _ name) => name | _ => path end.

Section loading.
(** The directory [getcwd] answers. *)
Context (cwd : string).

(** The part of [load_all_plugins] for one shared object: [Some] is a return
    from the function. *)
Definition open_plugin (name : string) (i : Z) : M (option Z) :=
  let! current_dir := malloc (junk 1024) in
  match current_dir with
  | None => printf "Can't malloc current_dir buf: %s\n" ;;; ret (Some (-1))
  | Some _ =>
      let! got := ask_status in
      if got <? 0 then printf "Can't get current directory\n" ;;; ret (Some (-1))
      else
        let! plugin_path := asprintf (cwd +:+ "/src/plugins/" +:+ name) in
        match plugin_path with
        | None => printf "Can't create plugin path string: %s\n" ;;; cleanup_buf current_dir ;;; ret (Some (-1))
        | Some plugin_path =>
            let! plugins := get_mods m_plugins in
            let! ctx := load_elem plugins i in
            let! c := load_plugin ctx in
            let! copy := asprintf plugin_path in
            match copy with
            | None => printf "Can't set plugin path string: %s\n" ;;; cleanup_buf current_dir ;;; ret (Some (-1))
            | Some copy =>
                store ctx (OPlugin (MkPlugin (plugin_name c) (Some copy) (plugin_handle c))) ;;;
                let! base := asprintf (basename plugin_path) in
                match base with
                | None => printf "Can't set plugin name string: %s\n" ;;; cleanup_buf current_dir ;;; ret (Some (-1))
                | Some base =>
                    store ctx (OPlugin (MkPlugin (Some base) (Some copy) (plugin_handle c))) ;;;
                    let! handle := ask in
                    let handle := if handle <=? 0 then None else Some handle in
                    store ctx (OPlugin (MkPlugin (Some base) (Some copy) handle)) ;;;
                    match handle with
                    | None => printf "Can't load plugin: %s beacause: %s\n" ;;; cleanup_buf current_dir ;;; ret (Some (-1))
                    | Some _ => cleanup_buf current_dir ;;; ret None
                    end
                end
            end
        end
  end.

Fixpoint load_objects (names : list string) (i : Z) : M Z :=
  match names with
  | [] => ret 0
  | name :: names' =>
      if hidden name then load_objects names' i
      else
        let! file_extension := get_extension name in
        match file_extension with
        | None => load_objects names' i
        | Some ext =>
            if starts_with ".so" ext then
              let! failed := open_plugin name i in
              match failed with Some rtrn => ret rtrn | None => load_objects names' (u32 (i + 1)) end
            else load_objects names' i
        end
  end.

Definition load_all_plugins : M Z :=
  let! plugin_count := get_mods m_plugin_count in
  if plugin_count =? 0 then printf "No plugins to load\n" ;;; ret 0
  else
    printf "Loading all plugins\n" ;;;
    let! dir := opendir dir_path in
    match dir with
    | None => printf "Can't open dir: %s\n" ;;; ret (-1)
    | Some (fd, names) =>
        let! rtrn := load_objects names 0 in
        let! _ := closedir fd in
        ret rtrn
    end.

Definition setup_plugin_module : M Z :=
  let! count := get_mods m_plugin_count in
  let! '(rtrn, count) := count_plugins count in
  mod_mods (set_m_plugin_count count) ;;;
  if rtrn <? 0 then printf "Can't count plugins\n" ;;; ret (-1)
  else
    let! rtrn := load_all_plugins in
    if rtrn <? 0 then printf "Can't load plugins\n" ;;; ret (-1) else ret 0.
End loading.

(** ** No plugin is ever found *)

Lemma strrchr_tail s c a rest : strrchr s c = Some (String a rest) -> a = c /\ has_char c rest = false.
Proof.
  revert a rest. induction s as [|b s IH]; intros a rest; [done|]. cbn.
  destruct (strrchr s c) as [r|] eqn:E; [intros [= ->]; by apply IH|].
  destruct (Ascii.eqb_spec b c) as [->|]; [|done]. intros [= <- <-]. split; [done|]. clear IH.
  induction s as [|b s IH]; [done|]. cbn in *. destruct (strrchr s c); [done|]. destruct (Ascii.eqb b c); [done|]. by apply IH.
Qed.

(** [get_extension] leaves the dot out, and ends in a newline. *)
Lemma extension_no_object w name :
  wp (get_extension name) (fun r w' => env_step w w' /\ (oracle_ok w -> oracle_ok w') /\
    forall ext, r = Some ext -> starts_with ".so" ext = false) w.
Proof.
  unfold get_extension. destruct (strrchr name ".") as [[|a rest]|] eqn:E.
  - exfalso. revert E. induction name as [|b s IH]; [done|]. cbn. destruct (strrchr s "."); [done|]. by case_match.
  - apply strrchr_tail in E as [-> Hno]. unfold asprintf. apply wp_bind, wp_bind, wp_ask. intros x. apply wp_ret.
    destruct (x <? 0).
    + apply wp_bind, wp_write, wp_ret. split_and!; [eapply env_step_trans; [apply env_asked|apply env_write]|apply oracle_ok_tl|done].
    + apply wp_ret. split_and!; [apply env_asked|apply oracle_ok_tl|]. intros ext [= <-].
      destruct rest as [|b rest]; [done|]. rewrite string_app_cons. cbn -[Ascii.eqb].
      destruct (Ascii.eqb_spec "." b) as [<-|]; [done|]. done.
  - apply wp_bind, wp_write, wp_ret. split_and!; [apply env_write|done|done].
Qed.

Lemma count_objects_none names : forall w count,
  wp (count_objects names count) (fun c w' => env_step w w' /\ (oracle_ok w -> oracle_ok w') /\ c = count) w.
Proof.
  induction names as [|name names IH]; intros w count; cbn [count_objects].
  { apply wp_ret. split_and!; [apply env_step_refl|done|done]. }
  destruct (hidden name); [apply IH|]. apply wp_bind. eapply wp_mono; [apply extension_no_object|].
  intros r w1 (H1 & Ho1 & Hr). destruct r as [ext|]; [rewrite (Hr ext eq_refl)|].
  all: eapply wp_mono; [apply IH|]; intros c w2 (H2 & Ho2 & ->); split_and!; [by eapply env_step_trans|auto|done].
Qed.

(** Setting the plugin module up finds and opens nothing, whatever lies in
    src/plugins: an extension has no dot in front of it, so it never starts
    with [.so].  The call returns 0, or -1 if the directory cannot be opened;
    [plugin_count] stays 0 and the mutator is told that no file is
    supported. *)
Theorem no_plugin_is_ever_loaded cwd w :
  m_plugin_count (w_mods w) = 0 ->
  exists r w', setup_plugin_module cwd w = Ret r w' /\ env_step w w' /\ (r = 0 \/ r = -1) /\
    (oracle_ok w -> dir_exists w dir_path = true -> r = 0) /\
    forall ext w, Mutate.supported_file module_plugins ext w = Ret None w.
Proof.
  intros Hc.
  assert (Hwp : wp (setup_plugin_module cwd) (fun r w' => env_step w w' /\ (r = 0 \/ r = -1) /\
    (oracle_ok w -> dir_exists w dir_path = true -> r = 0)) w).
  { unfold setup_plugin_module, count_plugins. apply wp_bind, wp_gets. rewrite Hc. do 2 apply wp_bind.
    assert (Hsame : forall w', env_step w w' -> set_mods (set_m_plugin_count 0 (w_mods w')) w' = w').
    { intros w' (o & x & ->). destruct w as [? ? ? ? ? ? ? ? ? ? ? ? m]. destruct m. cbn in *. by subst. }
    eapply wp_mono; [apply opendir_spec|]. intros d w1 [(-> & -> & Hno)|(-> & Hd & _ & ->)].
    { apply wp_bind, wp_write, wp_ret, wp_bind, wp_modify, wp_bind, wp_write, wp_ret.
      rewrite Hsame by (eapply env_step_trans; [apply env_asked|apply env_write]).
      split_and!; [|by right|intros Ho Hd; by rewrite Hno in Hd].
      eapply env_step_trans; [apply env_asked|]. eapply env_step_trans; apply env_write. }
    apply wp_bind. eapply wp_mono; [apply count_objects_none|]. intros c w2 (H1 & Ho1 & ->).
    apply wp_bind. eapply wp_mono; [apply closedir_spec|]. intros x w3 (-> & _ & _). apply wp_ret, wp_bind, wp_modify.
    set (w3 := set_fds _ (asked w2)).
    assert (H2 : env_step w w3).
    { eapply env_step_trans; [apply env_asked|]. eapply env_step_trans; [apply (env_step_fds _ w2 (fresh_fd (w_fds w)) dir_path)|].
      - exact H1.
      - apply fresh_fd_fresh.
      - apply env_asked. }
    rewrite Hsame by done. cbn [Z.ltb Z.compare]. unfold load_all_plugins. apply wp_bind, wp_bind, wp_gets.
    replace (m_plugin_count (w_mods w3)) with 0 by (by destruct H2 as (o & y & ->)). cbn [Z.eqb].
    apply wp_bind, wp_write, wp_ret. cbn [Z.ltb Z.compare]. apply wp_ret.
    split_and!; [eapply env_step_trans; [exact H2|apply env_write]|by left|done]. }
  apply wp_run in Hwp as (r & w' & Hrun & H1 & H2 & H3). exists r, w'. by split_and!.
Qed.

Definition plugin_dir : world :=
  set_fs (list_to_map [("src/plugins/png.so"%string, [127])])
    (set_modes (list_to_map [("src/plugins"%string, 16893)]) (fresh_world [] [])).

Lemma no_plugin_is_ever_loaded_witness :
  exists w', setup_plugin_module "/root" plugin_dir = Ret 0 w' /\ env_step plugin_dir w'.
Proof.
  destruct (no_plugin_is_ever_loaded "/root" plugin_dir eq_refl) as (r & w' & Hrun & He & _ & H0 & _).
  assert (Hr : r = 0) by (apply H0; [constructor|vm_compute; reflexivity]). subst r. exists w'.
  split; [exact Hrun|exact He].
Defined.
