(* ===== verification/Signals.v ===== *)
(** * Signals: the signal handlers (syscall/signals.c)

    The handlers of the parent (a child has terminated) and of the children
    (the system call under test raised a signal), and the functions that
    install them. *)

From S2P Require Import Prelude Types CWorld Child.

(** ** Signal numbers *)

Definition SIGINT : Z := 2.
Definition SIGSEGV : Z := 11.
Definition SIGALRM : Z := 14.

(** <signal.h>: these two differ between the platforms. *)
Definition SIGBUS (plat : platform) : Z := match plat with LINUX => 7 | _ => 10 end.
Definition SIGCHLD (plat : platform) : Z := match plat with LINUX => 17 | _ => 20 end.

(** [WIFEXITED]: the low seven bits of the status are zero. *)
Definition WIFEXITED (status : Z) : bool := Z.land status 127 =? 0.

(** [waitpid(-1, &status, WNOHANG)]: a process id and its status, or 0 (none
    has changed state), or -1. *)
Definition waitpid : M (Z * Z) :=
  let! pid := ask in
  if pid <=? 0 then ret (pid, 0)
  else let! status := ask in ret (pid, status).

(** [sigaction(2)]; the handler is only installed when it succeeds. *)
Definition sigaction (sig : Z) (h : handler) : M Z :=
  let! r := ask_status in
  if r <? 0 then ret r else emit (EvSigaction sig h) ;;; ret r.

(** ** The parent *)

(** [fuel] bounds the number of children reaped. *)
Fixpoint child_exit_handler (fuel : nat) : M unit :=
  match fuel with
  | O => spin
  | S n =>
      let! '(pid, status) := waitpid in
      if pid <=? 0 then ret tt
      else if WIFEXITED status then
        let! child := get_child_ctx_from_pid pid in
        match child with
        | None => ret tt
        | Some _ => set_child_pid child EMPTY ;;; child_exit_handler n
        end
      else child_exit_handler n
  end.

Definition ctrlc_handler (sig : Z) : M unit := ret tt.

Definition setup_ctrlc_handler : M Z :=
  let! rtrn := sigaction SIGINT fn_ctrlc_handler in
  if rtrn <? 0 then write ERROR "Can't setup SIGINT handler: %s\n" ;;; ret (-1) else ret 0.

Definition setup_signal_handler (plat : platform) : M Z :=
  let! rtrn := setup_ctrlc_handler in
  if rtrn <? 0 then write ERROR "Can't handle SIGINT\n" ;;; ret (-1)
  else
    let! rtrn := sigaction (SIGCHLD plat) fn_child_exit_handler in
    if rtrn <? 0 then write ERROR "Can't setup SIGCHLD handler: %s\n" ;;; ret (-1) else ret 0.

(** ** The children *)

(** [info->si_pid] is the process that sent the signal. *)
Definition child_signal_handler {A} (sig si_pid : Z) : M A :=
  let! child := get_child_ctx_from_pid si_pid in
  (if sig =? SIGALRM then
     set_had_error child NX_NO ;;;
     set_ret_value child 0 ;;;
     set_did_jump child NX_YES ;;;
     set_sig_num child sig
   else
     set_had_error child NX_YES ;;;
     set_ret_value child (-1) ;;;
     set_did_jump child NX_YES ;;;
     set_sig_num child sig) ;;;
  jump child.

Definition setup_child_signal_handler (plat : platform) : M Z :=
  let! rtrn := setup_ctrlc_handler in
  if rtrn <? 0 then write ERROR "Can't handle SIGINT\n" ;;; ret (-1)
  else
    let! rtrn := sigaction (SIGBUS plat) fn_child_signal_handler in
    if rtrn <? 0 then write ERROR "Can't setup SIGBUS handler: %s\n" ;;; ret (-1)
    else
      let! rtrn := sigaction SIGSEGV fn_child_signal_handler in
      if rtrn <? 0 then write ERROR "Can't setup SIGSEGV handler: %s\n" ;;; ret (-1)
      else
        let! rtrn := sigaction SIGALRM fn_child_signal_handler in
        if rtrn <? 0 then write ERROR "Can't setup SIGALRM handler: %s\n" ;;; ret (-1)
        else ret 0.

(** ** Finding a child *)

(** Each slot of the table has a context of its own. *)
Definition children_distinct (w : world) (arr : loc) (ps : list ptr) (cs : list child_ctx) : Prop :=
  children_ok w arr ps cs /\ NoDup ps.

Lemma get_child_ctx_from_pid_spec w arr ps cs pid :
  children_ok w arr ps cs ->
  get_child_ctx_from_pid pid w = Ret (match first_pid cs pid with
                                      | Some k => default NULL (ps !! k) | None => NULL end) w.
Proof.
  intros Hok. pose proof Hok as (Hch & Harr & Htot & Hall). unfold get_child_ctx_from_pid.
  erewrite bind_eq by reflexivity. rewrite Htot, Nat2Z.id, Hch.
  erewrite bind_eq by (apply (find_pid_spec _ _ _ _ _ Hok _ 0%nat); done).
  rewrite drop_0. destruct (first_pid cs pid) as [k|] eqn:Hk; cbn -[Z.of_nat]; [|done].
  destruct (first_pid_spec _ _ _ Hk) as (c & Hc & _).
  destruct (Forall2_lookup_r _ _ _ _ _ Hall Hc) as (p & Hp & l & -> & Hl).
  erewrite load_elem_eq; [|exact Harr|by rewrite nth_z_nat]. unfold ptr in *. by rewrite Hp.
Qed.

(** Changing one context changes one element of the list. *)
Lemma children_ok_update w arr ps cs k l c' :
  children_distinct w arr ps cs -> ps !! k = Some (Some l) ->
  children_distinct (set_heap (<[l := OChild c']> (w_heap w)) w) arr ps (<[k := c']> cs).
Proof.
  intros [(Hch & Harr & Htot & Hall) Hnd] Hk. split; [|done]. split_and!; [done| |done|].
  - cbn. rewrite lookup_insert_ne; [done|]. intros <-.
    destruct (Forall2_lookup_l _ _ _ _ _ Hall Hk) as (c & _ & ? & [= <-] & Hl). congruence.
  - apply Forall2_same_length_lookup_2; [rewrite length_insert; by eapply Forall2_length|].
    intros i p c Hp Hc. destruct (decide (i = k)) as [->|Hne].
    + rewrite list_lookup_insert_eq in Hc
        by (apply Forall2_length in Hall; apply lookup_lt_Some in Hk; unfold ptr in *; lia).
      assert (p = Some l) as -> by (unfold ptr in *; congruence). injection Hc as <-.
      exists l. split; [done|]. apply lookup_insert_eq.
    + rewrite list_lookup_insert_ne in Hc by done.
      destruct (Forall2_lookup_lr _ _ _ _ _ _ Hall Hp Hc) as (l' & -> & Hl'). exists l'. split; [done|].
      cbn. rewrite lookup_insert_ne; [done|]. intros <-. apply Hne. by eapply NoDup_lookup.
Qed.

Lemma children_ok_env w w' arr ps cs :
  w_heap w' = w_heap w -> w_sys w' = w_sys w -> children_distinct w arr ps cs -> children_distinct w' arr ps cs.
Proof. intros Hh Hs [(Hch & Harr & Htot & Hall) Hnd]. split; [|done]. unfold children_ok. by rewrite Hh, Hs. Qed.

(** ** Reaping *)

(** What the parent is told, in order: each terminated child's process id
    and status. *)
Definition answers (reports : list (Z * Z)) : list Z := concat (map (fun r => [r.1; r.2]) reports).

(** What the handler does to the table report by report: an exited child's
    slot becomes empty, a killed child's does not, and a process that is no
    child ends the handler. *)
Fixpoint reap (reports : list (Z * Z)) (cs : list child_ctx) : list child_ctx :=
  match reports with
  | [] => cs
  | (pid, status) :: rest =>
      if WIFEXITED status then
        match first_pid cs pid with
        | None => cs
        | Some k => reap rest (alter (with_pid EMPTY) k cs)
        end
      else reap rest cs
  end.

Lemma alter_insert_eq {A} (f : A -> A) (l : list A) k x : l !! k = Some x -> alter f k l = <[k := f x]> l.
Proof.
  revert k; induction l as [|y l IH]; intros [|k] Hk; cbn in *; simplify_eq; [done|].
  f_equal. by apply IH.
Qed.

(** The reports that are left when it returns. *)
Fixpoint unread (reports : list (Z * Z)) (cs : list child_ctx) : option (list (Z * Z)) :=
  match reports with
  | [] => None
  | (pid, status) :: rest =>
      if WIFEXITED status then
        match first_pid cs pid with
        | None => Some rest
        | Some k => unread rest (alter (with_pid EMPTY) k cs)
        end
      else unread rest cs
  end.

(** The answers that are still to come: an end that was read is gone. *)
Definition pending (reports : option (list (Z * Z))) (rest : list Z) : list Z :=
  match reports with None => rest | Some reports => answers reports ++ 0 :: rest end.

Lemma exit_handler_run reports : forall fuel w arr ps cs rest,
  (length reports < fuel)%nat -> Forall (fun r => 0 < r.1) reports ->
  w_oracle w = answers reports ++ 0 :: rest -> children_distinct w arr ps cs ->
  exists w', child_exit_handler fuel w = Ret tt w' /\ children_distinct w' arr ps (reap reports cs) /\
    w_sys w' = w_sys w /\ w_oracle w' = pending (unread reports cs) rest.
Proof.
  induction reports as [|[pid status] reports IH]; intros fuel w arr ps cs rest Hfuel Hpos Hor Hok;
    (destruct fuel as [|fuel]; [lia|]); cbn [child_exit_handler]; unfold waitpid, ask;
    rewrite bind_assoc; (erewrite bind_eq by reflexivity); rewrite Hor; cbn -[Z.leb WIFEXITED].
  - eexists. split; [reflexivity|]. split; [by apply (children_ok_env w)|done].
  - inversion Hpos as [|? ? Hp Hpos']; subst. cbn in Hp. rewrite (proj2 (Z.leb_gt pid 0)) by done.
    rewrite bind_assoc. erewrite bind_eq by reflexivity. erewrite bind_eq by reflexivity. cbn -[Z.leb WIFEXITED].
    rewrite (proj2 (Z.leb_gt pid 0)) by done.
    set (w1 := set_oracle _ _). assert (Hok1 : children_distinct w1 arr ps cs) by (by apply (children_ok_env w)).
    destruct (WIFEXITED status); [|by apply (IH fuel w1 arr ps cs rest); [cbn in *; lia|..]].
    erewrite bind_eq by (by apply (get_child_ctx_from_pid_spec w1 arr ps cs), Hok1).
    destruct (first_pid cs pid) as [k|] eqn:Hk; [|by exists w1].
    destruct (first_pid_spec _ _ _ Hk) as (c & Hc & _). pose proof Hok1 as [(_ & _ & _ & Hall) _].
    destruct (Forall2_lookup_r _ _ _ _ _ Hall Hc) as (p & Hpk & l & -> & Hl).
    unfold ptr in *. rewrite Hpk. cbn [default id]. cbv beta iota.
    erewrite bind_eq by (by apply update_child_eq).
    replace (alter (with_pid EMPTY) k cs) with (<[k := with_pid EMPTY c]> cs)
      by (symmetry; by apply alter_insert_eq).
    apply (IH fuel (set_heap (<[l := OChild (with_pid EMPTY c)]> (w_heap w1)) w1) arr ps _ rest);
      [cbn in *; lia|done|done|]. by apply children_ok_update.
Qed.

(** The child was told of as exited. *)
Definition exited_in (reports : list (Z * Z)) (c : child_ctx) : bool :=
  existsb (fun r => (r.1 =? child_pid c) && WIFEXITED r.2) reports.

(** Its slot becomes empty. *)
Definition emptied (reports : list (Z * Z)) (c : child_ctx) : child_ctx :=
  if exited_in reports c then with_pid EMPTY c else c.

Definition in_table (cs : list child_ctx) (pid : Z) : Prop := exists c, c ∈ cs /\ child_pid c = pid.

(** No two slots carry the same process id. *)
Definition pids_distinct (cs : list child_ctx) : Prop :=
  forall i j c d, cs !! i = Some c -> cs !! j = Some d -> child_pid c = child_pid d -> 0 < child_pid c -> i = j.

Lemma in_table_first cs pid : in_table cs pid -> exists k, first_pid cs pid = Some k.
Proof.
  intros (c & Hc & Hp). destruct (first_pid cs pid) as [k|] eqn:E; [by eexists|].
  exfalso. by apply (first_pid_none _ _ c E Hc).
Qed.

Lemma emptied_none reports c : exited_in reports c = false -> emptied reports c = c.
Proof. intros H. unfold emptied. by rewrite H. Qed.

Lemma exited_in_elem reports c : exited_in reports c = true -> child_pid c ∈ map fst reports.
Proof.
  unfold exited_in. rewrite existsb_exists. intros ([pid st] & Hin & [Hp _]%andb_prop). apply Z.eqb_eq in Hp. cbn in Hp.
  rewrite <- Hp. apply list_elem_of_In, in_map_iff. by exists (pid, st).
Qed.

Lemma child_pid_with_pid pid c : child_pid (with_pid pid c) = pid.
Proof. by destruct c. Qed.

(** Emptying the slots one after the other empties each slot of an exited
    child and no other. *)
Lemma emptied_step reports pid status cs k :
  WIFEXITED status = true -> 0 < pid -> pid ∉ map fst reports -> Forall (fun r => 0 < r.1) reports ->
  pids_distinct cs -> first_pid cs pid = Some k ->
  map (emptied reports) (alter (with_pid EMPTY) k cs) = map (emptied ((pid, status) :: reports)) cs.
Proof.
  intros Hex Hpos Hnew Hall Hd Hk. destruct (first_pid_spec _ _ _ Hk) as (c & Hc & Hcp & _).
  apply list_eq. intros i.
  change (map ?f ?l) with (f <$> l). rewrite !list_lookup_fmap. destruct (decide (i = k)) as [->|Hi].
  - rewrite list_lookup_alter_eq, Hc. cbn [fmap option_fmap option_map]. f_equal. rewrite emptied_none.
    + unfold emptied, exited_in. cbn [existsb fst snd]. by rewrite Hcp, Z.eqb_refl, Hex.
    + destruct (exited_in reports (with_pid EMPTY c)) eqn:E; [|done]. apply exited_in_elem in E.
      rewrite child_pid_with_pid in E. apply list_elem_of_fmap in E as (r & Hr & Hin).
      rewrite Forall_forall in Hall. specialize (Hall r Hin). unfold EMPTY in Hr. lia.
  - rewrite list_lookup_alter_ne by done. destruct (cs !! i) as [d|] eqn:Hdi; [|done].
    cbn [fmap option_fmap option_map]. f_equal. unfold emptied, exited_in. cbn [existsb fst snd].
    destruct (Z.eqb_spec pid (child_pid d)) as [He|He]; [|done].
    exfalso. apply Hi. apply (Hd i k d c); [done|done|congruence|lia].
Qed.

Lemma in_table_alter cs k c pid q :
  cs !! k = Some c -> child_pid c = pid -> q <> pid -> in_table cs q -> in_table (alter (with_pid EMPTY) k cs) q.
Proof.
  intros Hk Hc Hq (d & Hd & Hp). apply list_elem_of_lookup in Hd as (i & Hi). exists d. split; [|done].
  apply list_elem_of_lookup. exists i. rewrite list_lookup_alter_ne; [done|]. intros ->. congruence.
Qed.

Lemma not_in_table_alter cs k q : 0 < q -> ~ in_table cs q -> ~ in_table (alter (with_pid EMPTY) k cs) q.
Proof.
  intros Hq Hn (d & Hd & Hp). apply list_elem_of_lookup in Hd as (i & Hi). destruct (decide (i = k)) as [->|Hi'].
  - rewrite list_lookup_alter_eq in Hi. destruct (cs !! k) as [c|]; [|done]. injection Hi as <-.
    rewrite child_pid_with_pid in Hp. unfold EMPTY in Hp. lia.
  - rewrite list_lookup_alter_ne in Hi by done. apply Hn. exists d. split; [|done]. by eapply list_elem_of_lookup_2.
Qed.

Lemma pids_distinct_alter cs k : pids_distinct cs -> pids_distinct (alter (with_pid EMPTY) k cs).
Proof.
  intros Hd. assert (Hold : forall i c, alter (with_pid EMPTY) k cs !! i = Some c -> 0 < child_pid c -> cs !! i = Some c).
  { intros i c Hi Hp. destruct (decide (i = k)) as [->|]; [|by rewrite list_lookup_alter_ne in Hi].
    rewrite list_lookup_alter_eq in Hi. destruct (cs !! k) as [x|]; [|done]. injection Hi as <-.
    rewrite child_pid_with_pid in Hp. unfold EMPTY in Hp. lia. }
  intros i j c d Hi Hj He Hp. apply (Hd i j c d); [by apply Hold|apply Hold; [done|lia]|done|done].
Qed.

(** Where the handler stops: at the end of the reports, or at an exited
    process that is not in the table. *)
Definition stops_at (cs : list child_ctx) (after : list (Z * Z)) : option (list (Z * Z)) -> Prop :=
  fun left => match after with
              | [] => left = None
              | (pid, status) :: later => WIFEXITED status = true /\ ~ in_table cs pid /\ left = Some later
              end.

Lemma reap_emptied before after left : forall cs,
  Forall (fun r => 0 < r.1) (before ++ after) -> NoDup (map fst before) -> pids_distinct cs ->
  Forall (fun r => WIFEXITED r.2 = true -> in_table cs r.1) before -> stops_at cs after left ->
  reap (before ++ after) cs = map (emptied before) cs /\ unread (before ++ after) cs = left.
Proof.
  induction before as [|[pid status] before IH]; intros cs Hpos Hnd Hd Hin Hstop; cbn [app reap unread].
  - assert (Hid : map (emptied []) cs = cs) by (apply map_id). rewrite Hid.
    destruct after as [|[pid status] later]; [by split|]. destruct Hstop as (Hex & Hno & ->). cbn. rewrite Hex.
    destruct (first_pid cs pid) as [k|] eqn:E; [|done]. exfalso. apply Hno.
    destruct (first_pid_spec _ _ _ E) as (c & Hc & Hp & _). exists c. split; [by eapply list_elem_of_lookup_2|done].
  - inversion Hpos as [|? ? Hp Hpos']; subst. inversion Hnd as [|? ? Hnew Hnd']; subst.
    inversion Hin as [|? ? Hin1 Hin']; subst. cbn in Hp, Hin1, Hnew. destruct (WIFEXITED status) eqn:Hex.
    + destruct (in_table_first cs pid (Hin1 eq_refl)) as [k Hk]. rewrite Hk.
      destruct (first_pid_spec _ _ _ Hk) as (c & Hc & Hcp & _).
      rewrite <- (emptied_step before pid status cs k); try done.
      * apply IH; [done|done|by apply pids_distinct_alter| |].
        -- apply Forall_forall. intros r Hr Hx. eapply in_table_alter; [done|done| |by eapply Forall_forall in Hin'; eauto].
           intros He. apply Hnew, list_elem_of_fmap. by exists r.
        -- destruct after as [|[q st] later]; [done|]. destruct Hstop as (H1 & H2 & H3). split_and!; [done| |done].
           apply not_in_table_alter; [|done]. rewrite Forall_app in Hpos'. destruct Hpos' as [_ Hpos'].
           by inversion Hpos'.
      * rewrite Forall_app in Hpos'. apply Hpos'.
    + replace (map (emptied ((pid, status) :: before)) cs) with (map (emptied before) cs); [by apply IH|].
      apply map_ext. intros d. unfold emptied, exited_in. cbn [existsb fst snd]. by rewrite Hex, andb_false_r.
Qed.

(** (C31) The SIGCHLD handler, told of terminated children one after the other,
    works through the reports up to the first process that exited and is not
    in the table, where it returns.  The slots of the children reported before
    it as exited become empty (for the parent to refill), a child that was
    killed by a signal keeps its process id in its slot, and no other slot
    changes.  What is reported behind such a process is neither acted on nor
    waited for. *)
Theorem child_exit_handler_correct before after left fuel w arr ps cs rest :
  (length (before ++ after) < fuel)%nat -> Forall (fun r => 0 < r.1) (before ++ after) ->
  NoDup (map fst before) -> pids_distinct cs ->
  Forall (fun r => WIFEXITED r.2 = true -> in_table cs r.1) before -> stops_at cs after left ->
  w_oracle w = answers (before ++ after) ++ 0 :: rest -> children_distinct w arr ps cs ->
  exists w', child_exit_handler fuel w = Ret tt w' /\ children_distinct w' arr ps (map (emptied before) cs) /\
    w_sys w' = w_sys w /\ w_oracle w' = pending left rest.
Proof.
  intros Hf Hpos Hnd Hd Hin Hstop Hor Hok.
  destruct (reap_emptied before after left cs Hpos Hnd Hd Hin Hstop) as [<- <-]. by apply exit_handler_run.
Qed.

(** ** The child's handler *)

(** What the handler records in the context it finds. *)
Definition marked (sig : Z) (c : child_ctx) : child_ctx :=
  with_sig_num sig (with_did_jump NX_YES (with_ret_value (if sig =? SIGALRM then 0 else -1)
    (with_had_error (if sig =? SIGALRM then NX_NO else NX_YES) c))).

Lemma mark_run {A} w l c e r sig (k : M A) :
  w_heap w !! l = Some (OChild c) ->
  ((set_had_error (Some l) e ;;; set_ret_value (Some l) r ;;; set_did_jump (Some l) NX_YES ;;;
    set_sig_num (Some l) sig) ;;; k) w =
  k (set_heap (<[l := OChild (with_sig_num sig (with_did_jump NX_YES (with_ret_value r (with_had_error e c))))]>
    (w_heap w)) w).
Proof.
  intros Hl. rewrite bind_assoc. erewrite bind_eq by (by apply update_child_eq).
  rewrite bind_assoc. erewrite bind_eq by (apply update_child_eq; apply lookup_insert_eq).
  rewrite bind_assoc. erewrite bind_eq by (apply update_child_eq; apply lookup_insert_eq).
  erewrite bind_eq by (apply update_child_eq; apply lookup_insert_eq).
  cbn [w_heap set_heap]. by rewrite !insert_insert_eq.
Qed.

(** (C32) A signal to a child process is recorded in the context of the child
    that sent it, an expired alarm as a success, anything else as an error;
    the process continues at its [setjmp] when that context's jump buffer was
    filled by the process itself, as it is when the process signals itself.
    A buffer filled by another process or by none, that of an empty slot for
    the process id 0 of a kernel signal included, makes the handler undefined,
    and so does a sender that no slot carries. *)
Theorem child_signal_handler_correct sig si_pid w arr ps cs :
  children_distinct w arr ps cs ->
  match first_pid cs si_pid with
  | Some k => exists l c, ps !! k = Some (Some l) /\ cs !! k = Some c /\ child_pid c = si_pid /\
      if decide (return_jump c = Some (w_pid w))
      then exists w', child_signal_handler (A := unit) sig si_pid w = Jump w' /\
        children_distinct w' arr ps (<[k := marked sig c]> cs) /\ w_sys w' = w_sys w
      else child_signal_handler (A := unit) sig si_pid w = Crash
  | None => child_signal_handler (A := unit) sig si_pid w = Crash
  end.
Proof.
  intros Hok. unfold child_signal_handler.
  pose proof (get_child_ctx_from_pid_spec _ _ _ _ si_pid (proj1 Hok)) as Hg.
  destruct (first_pid cs si_pid) as [k|] eqn:Hk.
  - destruct (first_pid_spec _ _ _ Hk) as (c & Hc & Hcp & _). pose proof Hok as [(_ & _ & _ & Hall) _].
    destruct (Forall2_lookup_r _ _ _ _ _ Hall Hc) as (p & Hpk & l & -> & Hl).
    unfold ptr in *. rewrite Hpk in Hg. cbn [default id] in Hg. exists l, c. split_and!; [done..|].
    erewrite bind_eq by exact Hg.
    assert (Hjump : forall w1 : world, w_heap w1 !! l = Some (OChild (marked sig c)) -> w_pid w1 = w_pid w ->
      jump (A := unit) (Some l) w1 = if decide (return_jump c = Some (w_pid w)) then Jump w1 else Crash).
    { intros w1 Hl1 Hpid. unfold jump. erewrite bind_eq by (by apply load_child_eq). erewrite bind_eq by reflexivity.
      cbv beta. rewrite Hpid. replace (return_jump (marked sig c)) with (return_jump c) by (by destruct c). by case_decide. }
    case_decide as Hj; [eexists; split_and!; [|by apply (children_ok_update w arr ps cs k l)|done]|];
      unfold marked in *; (destruct (sig =? SIGALRM); rewrite (mark_run _ _ c) by done;
        rewrite Hjump by first [apply lookup_insert_eq | done]; done).
  - erewrite bind_eq by exact Hg. by destruct (sig =? SIGALRM).
Qed.

(** Installing the handlers: [setup_child_signal_handler] returns 0 only
    when the child's handler is installed for SIGBUS, SIGSEGV and SIGALRM and
    the ctrl-c handler for SIGINT, and reports -1 otherwise; it always
    returns. *)
Theorem child_handlers_installed plat w :
  exists r w', setup_child_signal_handler plat w = Ret r w' /\
    (r = 0 /\ w_events w' = EvSigaction SIGALRM fn_child_signal_handler ::
        EvSigaction SIGSEGV fn_child_signal_handler :: EvSigaction (SIGBUS plat) fn_child_signal_handler ::
        EvSigaction SIGINT fn_ctrlc_handler :: w_events w \/
     r = -1 /\ exists msg, head (w_out w') = Some (ERROR, msg)).
Proof.
  unfold setup_child_signal_handler, setup_ctrlc_handler, sigaction, ask_status, emit, write, bind, ask, ret, modify.
  destruct w. cbn -[SIGBUS]. repeat (case_match; simplify_eq; cbn -[SIGBUS] in *);
    (do 2 eexists; split; [reflexivity|]); first [by left | right; split; [done|]; by eexists].
Qed.

(** ** Two children: one exits, one is killed, and a stranger exits *)

(** The running process has called [setjmp]. *)
Definition own_child : child_ctx := with_return_jump (Some 100) (blank_child 100).

Definition reap_world : world :=
  set_oracle [100; 0; 200; 9; 300; 0; 200; 0; 0] (set_sys (MkSys NULL 2 (Some 1%positive) NULL NULL 0 0 NULL) (set_heap (list_to_map
    [ (1%positive, OPtrs [Some 2%positive; Some 3%positive]); (2%positive, OChild (blank_child 200));
      (3%positive, OChild own_child) ]) (fresh_world [] []))).

Lemma reap_world_ok :
  children_distinct reap_world 1%positive [Some 2%positive; Some 3%positive] [blank_child 200; own_child].
Proof.
  split; [split_and!; try done; repeat constructor; by eexists|].
  apply (bool_decide_unpack _). vm_compute. constructor.
Qed.

Lemma child_exit_handler_correct_witness :
  exists w', child_exit_handler 5 reap_world = Ret tt w' /\
    children_distinct w' 1%positive [Some 2%positive; Some 3%positive] [blank_child 200; with_pid 0 own_child] /\
    w_oracle w' = [200; 0; 0].
Proof.
  destruct (child_exit_handler_correct [(100, 0); (200, 9)] [(300, 0); (200, 0)] (Some [(200, 0)]) 5 reap_world 1%positive
    [Some 2%positive; Some 3%positive] [blank_child 200; own_child] []) as (w' & H1 & H2 & _ & H3).
  - cbn. lia.
  - repeat constructor.
  - apply (bool_decide_unpack _). vm_compute. constructor.
  - intros [|[|i]] [|[|j]] c d; cbn; try done; intros [= <-] [= <-]; done.
  - repeat constructor; [intros _; exists own_child; split; [set_solver|done]|done].
  - split; [done|]. split; [|done]. intros (c & Hc & Hp). repeat apply elem_of_cons in Hc as [->|Hc]; try done.
    by apply elem_of_nil in Hc.
  - reflexivity.
  - exact reap_world_ok.
  - exists w'. split_and!; [exact H1|exact H2|exact H3].
Defined.

Lemma child_signal_handler_correct_witness :
  child_signal_handler (A := unit) SIGSEGV 0 reap_world = Crash /\
  child_signal_handler (A := unit) SIGALRM 200 reap_world = Crash /\
  exists w', child_signal_handler (A := unit) SIGALRM 100 reap_world = Jump w' /\
    children_distinct w' 1%positive [Some 2%positive; Some 3%positive]
      [blank_child 200; marked SIGALRM own_child].
Proof.
  split_and!.
  - exact (child_signal_handler_correct SIGSEGV 0 reap_world 1%positive _ _ reap_world_ok).
  - by destruct (child_signal_handler_correct SIGALRM 200 reap_world 1%positive _ _ reap_world_ok)
      as (l & c & _ & [= <-] & _ & H1).
  - destruct (child_signal_handler_correct SIGALRM 100 reap_world 1%positive _ _ reap_world_ok)
      as (l & c & _ & [= <-] & _ & w' & H1 & H2 & _). by exists w'.
Defined.
