(* ===== verification/Log.v ===== *)
(** * Log: the log module (log/log.c, log-mac.c, log-freebsd.c)

    Texts are Rocq strings; a buffer that [sprintf] or [strncat] fills is
    checked to hold the text and its terminating NUL.  The database library
    answers through the environment. *)

From Stdlib Require Import Ascii String.
From stdpp Require Import pretty.
From S2P Require Import Prelude Types CWorld Io Memory Crypto Utils.

(** ** Text *)

Definition ESC : string := String "027"%char EmptyString.
Definition RESET : string := ESC +:+ "[0m".
Definition BOLD_RED : string := ESC +:+ "[1m" +:+ ESC +:+ "[31m".
Definition BOLD_GREEN : string := ESC +:+ "[1m" +:+ ESC +:+ "[32m".

(** [sprintf] and [strncat] into a buffer of [size] bytes leave [s] there;
    writing past its end is undefined. *)
Definition fits (size : Z) (s : string) : M unit :=
  if Z.of_nat (String.length s) <? size then ret tt else crash.

(** The hexadecimal digits of [n] in front of [s]; [fuel] of them are enough. *)
Fixpoint show_hex (fuel : nat) (n : Z) (s : string) : string :=
  match fuel with
  | O => s
  | S fuel' =>
      let s := String (ascii_of_N (Z.to_N (hexdigit (n mod 16)))) s in
      if n <? 16 then s else show_hex fuel' (n / 16) s
  end.

(** [%p]; the number of a location stands for the address. *)
Definition show_ptr (p : ptr) : string :=
  "0x" +:+ match p with None => "0" | Some l => show_hex (Pos.size_nat l) (Zpos l) EmptyString end.

(** ** log.c *)

(** The static variables [set] and [total_syscalls], and whether [db] is an
    open database. *)
Record log_statics := MkLog {
  log_set : yes_no;
  log_total_syscalls : Z;
  log_db : bool
}.

Definition log_unset : log_statics := MkLog NX_NO 0 false.

Definition log_file (file_path file_extension : option string) : M Z := ret 0.

(** [sqlite3_open], [sqlite3_exec] and [mkdir]: whether they succeed. *)
Definition sqlite3_open (path : string) : M bool := let! a := ask in ret (0 <=? a).
Definition sqlite3_exec (st : log_statics) (sql : string) : M bool := let! a := ask in ret (log_db st && (0 <=? a)).
Definition mkdir (path : string) : M Z := ask_status.

Definition create_log_file (path : option string) (st : log_statics) : M (Z * log_statics) :=
  match path with
  | None => ret (-1, st)
  | Some path =>
      let! ok := sqlite3_open path in
      if ok then ret (0, MkLog (log_set st) (log_total_syscalls st) true)
      else printf "Can't create database: %s" ;;; ret (-1, st)
  end.

Definition write_arguments_to_log (total_args : Z) (arg_value_array : ptr) (syscall_number : Z)
    (st : log_statics) : M Z :=
  if ARG_LIMIT <? total_args then
    printf "Total args is greater than the arg limit for this system\n" ;;; ret (-1)
  else
    match arg_value_array with
    | None => printf "Argument value array is NULL\n" ;;; ret (-1)
    | Some _ =>
        if log_total_syscalls st <? syscall_number then printf "Total arguments \n" ;;; ret (-1)
        else
          let! sql := asprintf "INSERT INTO syscallEntry(" in
          match sql with
          | None => printf "Can't create sql statement: %s\n" ;;; ret (-1)
          | Some sql =>
              let! ok := sqlite3_exec st sql in
              if ok then ret 0 else printf "Can't insert syscall values into db: %s\n" ;;; ret (-1)
          end
    end.

(** Whether [errno] is EEXIST only decides what is printed. *)
Definition create_out_directory (path : string) : M Z :=
  let! rtrn := mkdir path in
  if rtrn <? 0 then
    printf "Can't create out directory\n" ;;;
    let! eexist := ask in
    if eexist =? 0 then printf "Out directory already exist\n" ;;; ret (-1) else ret (-1)
  else
    let! crash_dir := asprintf (path +:+ "/crash_dir") in
    match crash_dir with
    | None => printf "Can't create crash directory path\n" ;;; ret (-1)
    | Some crash_dir =>
        let! rtrn := mkdir crash_dir in
        if rtrn <? 0 then printf "Can't create crash directory\n" ;;; ret (-1) else ret 0
    end.

Definition log_results (had_error : yes_no) (ret_value : Z) (err_value : option string) : M Z :=
  match err_value with
  | None => printf "Err value is NULL\n" ;;; ret (-1)
  | Some err_value =>
      let! out_buf := asprintf
        (if decide (had_error = NX_YES)
         then " " +:+ BOLD_RED +:+ "= " +:+ pretty ret_value +:+ " (" +:+ err_value +:+ ") " +:+ RESET +:+ newline
         else BOLD_GREEN +:+ "= " +:+ pretty ret_value +:+ " " +:+ RESET +:+ newline) in
      match out_buf with
      | None => printf "Can't create out message\n" ;;; ret (-1)
      | Some out_buf => printf (out_buf +:+ newline) ;;; ret 0
      end
  end.

Definition create_arg_entry_table (st : log_statics) : M Z :=
  let! sql := asprintf "CREATE TABLE IF NOT EXISTS arg_entry(id INT NOT NULL, val BLOB NOT NULL);" in
  match sql with
  | None => printf "Can't create SQL statement: %s\n" ;;; ret (-1)
  | Some sql =>
      let! ok := sqlite3_exec st sql in
      if ok then ret 0 else printf "Can't create argument entry table: %s\n" ;;; ret (-1)
  end.

Definition create_syscall_entry_table (st : log_statics) : M Z :=
  let! sql := asprintf "CREATE TABLE IF NOT EXISTS syscall_entry(id INT NOT NULL, num INT NOT NULL, name );" in
  match sql with
  | None => printf "Can't create SQL statement: %s\n" ;;; ret (-1)
  | Some sql =>
      let! ok := sqlite3_exec st sql in
      if ok then ret 0 else printf "Can't create argument entry table: %s\n" ;;; ret (-1)
  end.

Definition setup_tables (st : log_statics) : M Z :=
  let! rtrn := create_arg_entry_table st in
  if rtrn <? 0 then printf "Can't create argument entry table\n" ;;; ret (-1)
  else
    let! rtrn := create_syscall_entry_table st in
    if rtrn <? 0 then printf "Can't create syscall entry table\n" ;;; ret (-1) else ret 0.

Definition setup_log_module (path : string) (syscall_max : Z) (st : log_statics) : M (Z * log_statics) :=
  if negb (bool_decide (log_set st = NX_NO)) then
    printf "We have already been setup\n" ;;; ret (-1, st)
  else
    let! rtrn := create_out_directory path in
    if rtrn <? 0 then printf "Can't create output directory\n" ;;; ret (-1, st)
    else
      let! log_path := asprintf (path +:+ "/log.nx") in
      match log_path with
      | None => printf "Can't create log path\n" ;;; ret (-1, st)
      | Some log_path =>
          let! '(rtrn, st) := create_log_file (Some log_path) st in
          if rtrn <? 0 then printf "Can't create log file\n" ;;; ret (-1, st)
          else
            let! rtrn := setup_tables st in
            if rtrn <? 0 then printf "Can't create tables\n" ;;; ret (-1, st)
            else ret (0, MkLog (log_set st) syscall_max (log_db st))
      end.

(** ** log-mac.c *)

(** The text of argument [i]. *)
Definition arg_text (arg_value_array : ptr) (i : Z) (ctx : arg_context) : M string :=
  let! p := load_elem arg_value_array i in
  let! v := (match log_type ctx with
             | PATH => let! s := load_cstr p in ret (string_of_codes s)
             | POINTER => ret (show_ptr p)
             | NUMBER => let! n := load_uint p 8 in ret (pretty n)
             end) in
  ret (" " +:+ ctx_name ctx +:+ "=" +:+ v).

(** The loop over the arguments [i], [i + 1], ..., of which [n] are left;
    [text] is what [syscall_log_buf] holds. *)
Fixpoint log_loop (n : nat) (i : Z) (arg_value_array : ptr) (ctxs : list (option arg_context)) (text : string)
    : M string :=
  match n with
  | O => ret text
  | S n' =>
      let! slot := need (nth_z ctxs i) in
      let! ctx := need slot in
      let! s := arg_text arg_value_array i ctx in
      fits 1024 s ;;;
      fits 4096 (text +:+ s) ;;;
      log_loop n' (i + 1) arg_value_array ctxs (text +:+ s)
  end.

(** Both buffers are freed on every way out. *)
Definition log_arguments (total_args : Z) (syscall_name : option string) (arg_value_array : ptr)
    (arg_context_array : list (option arg_context)) (allocator : memory_allocator) : M Z :=
  let! arg_value := alloc allocator (junk 1024) in
  match arg_value with
  | None => printf "Can't create arg_value buffer\n" ;;; ret (-1)
  | Some _ =>
      let! syscall_log_buf := alloc allocator (junk 4096) in
      match syscall_log_buf with
      | None =>
          printf "Can't create syscall_log_buf buffer\n" ;;;
          cleanup_buf arg_value ;;; ret (-1)
      | Some _ =>
          let! name := need syscall_name in
          fits 4096 (name +:+ ":") ;;;
          let! text := log_loop (Z.to_nat total_args) 0 arg_value_array arg_context_array (name +:+ ":") in
          printf text ;;;
          cleanup_buf syscall_log_buf ;;;
          cleanup_buf arg_value ;;;
          ret 0
      end
  end.

(** ** log-freebsd.c *)

(** The same with the deprecated allocator and writer ([%lu] and [%llu] are
    the same width).  The file does not include the header of [auto_free]; it
    is read as in log-mac.c. *)
Definition log_arguments_freebsd (total_args : Z) (syscall_name : option string) (arg_value_array : ptr)
    (arg_context_array : list (option arg_context)) : M Z :=
  let! arg_value := mem_alloc (junk 1024) in
  match arg_value with
  | None => output ERROR "Can't create arg_value buffer\n" ;;; ret (-1)
  | Some _ =>
      let! syscall_log_buf := mem_alloc (junk 4096) in
      match syscall_log_buf with
      | None =>
          output ERROR "Can't create syscall_log_buf buffer\n" ;;;
          cleanup_buf arg_value ;;; ret (-1)
      | Some _ =>
          let! name := need syscall_name in
          fits 4096 (name +:+ ":") ;;;
          let! text := log_loop (Z.to_nat total_args) 0 arg_value_array arg_context_array (name +:+ ":") in
          output STD text ;;;
          cleanup_buf syscall_log_buf ;;;
          cleanup_buf arg_value ;;;
          ret 0
      end
  end.

(** ** What is logged *)

(** [v] is what is shown of an argument: the address a pointer holds, the
    string a path points to, the 64-bit number the eight bytes behind a number
    hold. *)
Definition shown (h : gmap loc hobj) (arg : ptr * arg_context) (v : string) : Prop :=
  match log_type arg.2 with
  | POINTER => v = show_ptr arg.1
  | PATH => string_at h arg.1 = Some v
  | NUMBER => exists l bs digits, arg.1 = Some l /\ h !! l = Some (OBytes bs) /\ get_bytes bs 8 = Some digits /\
      v = pretty (le_value digits)
  end.

(** The piece of the line for one argument, and the line of a call. *)
Definition piece (ctx : arg_context) (v : string) : string := " " +:+ ctx_name ctx +:+ "=" +:+ v.

Fixpoint pieces (args : list (ptr * arg_context)) (vs : list string) : string :=
  match args, vs with
  | (_, ctx) :: args', v :: vs' => piece ctx v +:+ pieces args' vs'
  | _, _ => ""
  end.

(** The arguments can be shown as [vs], each piece fits the buffer for one and
    the line the buffer for all of them. *)
Definition loggable (h : gmap loc hobj) (name : string) (args : list (ptr * arg_context)) (vs : list string) : Prop :=
  Forall2 (fun arg v => shown h arg v /\ (String.length (piece arg.2 v) < 1024)%nat) args vs /\
  (String.length (name +:+ ":" +:+ pieces args vs) < 4096)%nat.

(** The text of an argument read off the heap, [None] where it cannot be. *)
Definition arg_string (h : gmap loc hobj) (p : ptr) (ctx : arg_context) : option string :=
  v ← (match log_type ctx with
       | POINTER => Some (show_ptr p)
       | PATH => string_at h p
       | NUMBER => l ← p; o ← h !! l; match o with OBytes bs => pretty ∘ le_value <$> get_bytes bs 8 | _ => None end
       end);
  Some (piece ctx v).

Lemma arg_string_shown h p ctx s : arg_string h p ctx = Some s <-> exists v, shown h (p, ctx) v /\ s = piece ctx v.
Proof.
  unfold arg_string, shown. cbn [fst snd]. destruct (log_type ctx); cbn [mbind option_bind].
  - split; [intros [= <-]; eauto|]. by intros (v & -> & ->).
  - destruct (string_at h p) as [t|]; cbn; [|split; [done|by intros (v & ? & _)]].
    split; [intros [= <-]; eauto|]. by intros (v & [= <-] & ->).
  - split.
    + destruct p as [l|]; [cbn|done]. destruct (h !! l) as [[]|] eqn:E; cbn; try done.
      destruct (get_bytes bs 8) as [d|] eqn:Ed; cbn; [|done]. intros [= <-]. eexists. split; [by exists l, bs, d|done].
    + intros (v & (l & bs & d & -> & Hl & Hd & ->) & ->). cbn. rewrite Hl. cbn. by rewrite Hd.
Qed.

(** The line the loop makes behind [text]. *)
Fixpoint log_line (h : gmap loc hobj) (args : list (ptr * arg_context)) (text : string) : option string :=
  match args with
  | [] => Some text
  | (p, ctx) :: args' =>
      s ← arg_string h p ctx;
      if decide (String.length s < 1024 /\ String.length (text +:+ s) < 4096)%nat
      then log_line h args' (text +:+ s) else None
  end.

Lemma arg_text_spec w arr ps i p ctx :
  w_heap w !! arr = Some (OPtrs ps) -> nth_z ps i = Some p ->
  arg_text (Some arr) i ctx w = match arg_string (w_heap w) p ctx with Some s => Ret s w | None => Crash end.
Proof.
  intros Harr Hi. unfold arg_text, arg_string, string_at. erewrite bind_eq by (by eapply load_elem_eq).
  destruct (log_type ctx); cbn [mbind option_bind]; [done|..].
  all: destruct p as [l|]; [|done]; cbn [mbind option_bind];
    unfold load_cstr, load_uint, load_bytes; rewrite !bind_assoc; unfold bind at 1, load;
    (destruct (w_heap w !! l) as [[]|]; try done); cbn.
  - unfold bind. cbn. by destruct (cstr bs).
  - unfold bind. cbn. by destruct (get_bytes bs 8).
Qed.

Lemma fits_spec size s w :
  fits (Z.of_nat size) s w = if decide (String.length s < size)%nat then Ret tt w else Crash.
Proof.
  unfold fits. case_decide; destruct (Z.ltb_spec (Z.of_nat (String.length s)) (Z.of_nat size)); try done; lia.
Qed.

Lemma log_loop_spec w arr ps args : forall i ctxs text,
  w_heap w !! arr = Some (OPtrs ps) ->
  (forall k p ctx, args !! k = Some (p, ctx) -> ps !! (i + k)%nat = Some p /\ ctxs !! (i + k)%nat = Some (Some ctx)) ->
  log_loop (length args) (Z.of_nat i) (Some arr) ctxs text w =
    match log_line (w_heap w) args text with Some s => Ret s w | None => Crash end.
Proof.
  induction args as [|[p ctx] args IH]; intros i ctxs text Harr Hargs; cbn [length log_loop log_line]; [done|].
  destruct (Hargs 0%nat p ctx eq_refl) as [Hp Hc]. rewrite Nat.add_0_r in *.
  rewrite nth_z_nat, Hc. cbn [need]. erewrite bind_eq by reflexivity. erewrite bind_eq by reflexivity.
  unfold bind at 1. rewrite (arg_text_spec w arr ps (Z.of_nat i) p ctx) by (try done; by rewrite nth_z_nat).
  destruct (arg_string (w_heap w) p ctx) as [s|]; [|done]. cbn [mbind option_bind].
  unfold bind at 1. rewrite (fits_spec 1024). destruct (decide (String.length s < 1024)%nat); [|by rewrite decide_False by tauto].
  unfold bind at 1. rewrite (fits_spec 4096).
  destruct (decide (String.length (text +:+ s) < 4096)%nat); [|by rewrite decide_False by tauto].
  rewrite decide_True by tauto. replace (Z.of_nat i + 1) with (Z.of_nat (S i)) by lia.
  apply IH; [done|]. intros k q c Hk. replace (S i + k)%nat with (i + S k)%nat by lia. by apply Hargs.
Qed.

Lemma log_line_loggable h args : forall text s, (String.length text < 4096)%nat ->
  log_line h args text = Some s <->
  exists vs, Forall2 (fun arg v => shown h arg v /\ (String.length (piece arg.2 v) < 1024)%nat) args vs /\
    s = text +:+ pieces args vs /\ (String.length s < 4096)%nat.
Proof.
  induction args as [|[p ctx] args IH]; intros text s Hlen; cbn [log_line].
  { split.
    - intros [= <-]. exists []. split_and!; [constructor|cbn; by rewrite string_app_nil_r|done].
    - intros (vs & Hvs & -> & _). inversion Hvs; subst. cbn. by rewrite string_app_nil_r. }
  destruct (arg_string h p ctx) as [t|] eqn:E; cbn [mbind option_bind].
  - apply arg_string_shown in E as (v & Hv & ->). case_decide as Hd.
    + rewrite IH by tauto. split.
      * intros (vs & Hvs & -> & Hs). exists (v :: vs). split_and!; [constructor; [split; [done|tauto]|done]| |done].
        cbn [pieces]. by rewrite string_app_assoc.
      * intros (vs & Hvs & -> & Hs). inversion Hvs as [|? v' ? vs' [Hv' Hp'] Hrest]; subst.
        assert (piece ctx v' = piece ctx v) as Hpv.
        { assert (arg_string h p ctx = Some (piece ctx v')) as E1 by (apply arg_string_shown; eauto).
          assert (arg_string h p ctx = Some (piece ctx v)) as E2 by (apply arg_string_shown; eauto). congruence. }
        exists vs'. cbn [pieces] in *. rewrite Hpv in *. rewrite string_app_assoc. by split_and!.
    + split; [done|]. intros (vs & Hvs & -> & Hs). exfalso. apply Hd.
      inversion Hvs as [|? v' ? vs' [Hv' Hp'] Hrest]; subst.
      assert (piece ctx v' = piece ctx v) as Hpv.
      { assert (arg_string h p ctx = Some (piece ctx v')) as E1 by (apply arg_string_shown; eauto).
        assert (arg_string h p ctx = Some (piece ctx v)) as E2 by (apply arg_string_shown; eauto). congruence. }
      cbn [pieces snd] in *. rewrite Hpv in *. rewrite !length_string_app in *. lia.
  - split; [done|]. intros (vs & Hvs & _). inversion Hvs as [|? v' ? vs' [Hv' _] Hrest]; subst.
    assert (arg_string h p ctx = Some (piece ctx v')) by (apply arg_string_shown; eauto). congruence.
Qed.

(** The heap with the two buffers of [log_arguments]. *)
Definition with_buffers (w : world) : world := granted (junk 4096) (granted (junk 1024) w).

Lemma with_buffers_sub w : heap_wf w -> w_heap w ⊆ w_heap (with_buffers w).
Proof.
  intros Hwf. cbn. etrans; [|apply insert_subseteq]; [apply insert_subseteq|].
  - apply Hwf. lia.
  - rewrite lookup_insert_ne by lia. apply Hwf. lia.
Qed.

(** Nothing can be read from the new buffers. *)
Lemma with_buffers_lookup w l : heap_wf w ->
  w_heap (with_buffers w) !! l = w_heap w !! l \/
  w_heap w !! l = None /\ exists n, (8 <= n)%nat /\ w_heap (with_buffers w) !! l = Some (OBytes (replicate n None)).
Proof.
  intros Hwf. cbn. destruct (decide (l = Pos.succ (w_next w))) as [->|H1].
  { right. split; [apply Hwf; lia|]. exists 4096%nat. rewrite lookup_insert_eq. split; [lia|done]. }
  rewrite lookup_insert_ne by done. destruct (decide (l = w_next w)) as [->|H2].
  { right. split; [apply Hwf; lia|]. exists 1024%nat. rewrite lookup_insert_eq. split; [lia|done]. }
  rewrite lookup_insert_ne by done. by left.
Qed.

Lemma arg_string_buffers w p ctx : heap_wf w -> arg_string (w_heap (with_buffers w)) p ctx = arg_string (w_heap w) p ctx.
Proof.
  intros Hwf. unfold arg_string, string_at. destruct (log_type ctx); [done|..]; (destruct p as [l|]; [|done]);
    cbn [mbind option_bind]; (destruct (with_buffers_lookup w l Hwf) as [->|(-> & n & Hn & ->)]; [done|]); cbn [mbind option_bind];
    (destruct n as [|[|[|[|[|[|[|[|n]]]]]]]]; [lia..|]); done.
Qed.

Lemma log_line_buffers w args : forall text, heap_wf w ->
  log_line (w_heap (with_buffers w)) args text = log_line (w_heap w) args text.
Proof.
  induction args as [|[p ctx] args IH]; intros text Hwf; cbn [log_line]; [done|].
  rewrite arg_string_buffers by done. destruct (arg_string (w_heap w) p ctx); [|done]. cbn. case_decide; [|done]. by apply IH.
Qed.

Lemma sizeof_junk n : 0 <= n -> sizeof (junk n) = n.
Proof. intros Hn. cbn. rewrite length_replicate. lia. Qed.

Lemma default_alloc_junk n w :
  oracle_ok w -> 0 < n -> default_mem_alloc (junk n) w = Ret (Some (w_next w)) (granted (junk n) w).
Proof.
  intros Ho Hn. unfold default_mem_alloc. rewrite sizeof_junk, (proj2 (Z.eqb_neq n 0)) by lia.
  by erewrite bind_eq by (by apply malloc_ok).
Qed.

(** [log_arguments] once both buffers are there. *)
Lemma log_arguments_run w n name arr ctxs :
  oracle_ok w ->
  log_arguments n (Some name) arr ctxs default_allocator w =
  (fits 4096 (name +:+ ":") ;;;
   let! text := log_loop (Z.to_nat n) 0 arr ctxs (name +:+ ":") in
   printf text ;;; cleanup_buf (Some (Pos.succ (w_next w))) ;;; cleanup_buf (Some (w_next w)) ;;; ret 0)
    (with_buffers w).
Proof.
  intros Ho. unfold log_arguments. cbn [alloc default_allocator].
  erewrite bind_eq by (by apply default_alloc_junk). cbv beta iota.
  erewrite bind_eq by (by apply default_alloc_junk; [apply oracle_ok_granted|]). cbv beta iota.
  by erewrite bind_eq by reflexivity.
Qed.

Lemma log_arguments_outcome w name arr ps ctxs args :
  oracle_ok w -> heap_wf w -> w_heap w !! arr = Some (OPtrs ps) ->
  (forall k p ctx, args !! k = Some (p, ctx) -> ps !! k = Some p /\ ctxs !! k = Some (Some ctx)) ->
  match (if decide (String.length (name +:+ ":") < 4096)%nat then log_line (w_heap w) args (name +:+ ":") else None) with
  | Some text => exists w', log_arguments (Z.of_nat (length args)) (Some name) (Some arr) ctxs default_allocator w = Ret 0 w' /\
      w_out w' = (STD, text) :: w_out w /\ w_heap w' = w_heap w
  | None => log_arguments (Z.of_nat (length args)) (Some name) (Some arr) ctxs default_allocator w = Crash
  end.
Proof.
  intros Ho Hwf Harr Hargs.
  assert (Harr' : w_heap (with_buffers w) !! arr = Some (OPtrs ps))
    by (eapply lookup_weaken; [done|by apply with_buffers_sub]).
  pose proof (log_loop_spec (with_buffers w) arr ps args 0%nat ctxs (name +:+ ":") Harr' Hargs) as Hloop.
  change (Z.of_nat 0) with 0 in Hloop. rewrite log_line_buffers in Hloop by done.
  pose proof (log_arguments_run w (Z.of_nat (length args)) name (Some arr) ctxs Ho) as Hrun.
  rewrite Nat2Z.id in Hrun. unfold bind at 1 2 in Hrun. rewrite (fits_spec 4096) in Hrun.
  case_decide as Hname; [|done]. rewrite Hloop in Hrun.
  destruct (log_line (w_heap w) args (name +:+ ":")) as [text|]; [|done]. rewrite Hrun.
  erewrite bind_eq by reflexivity. unfold cleanup_buf.
  erewrite bind_eq by (eapply free_loc_eq; apply lookup_insert_eq).
  erewrite bind_eq by (eapply free_loc_eq; cbn; rewrite lookup_delete_ne, lookup_insert_ne by lia; apply lookup_insert_eq).
  eexists. split; [reflexivity|]. cbn. split; [done|].
  rewrite delete_insert_id by (rewrite lookup_insert_ne by lia; apply Hwf; lia).
  apply delete_insert_id. apply Hwf. lia.
Qed.

(** (C37) What [log_arguments] does once its two buffers are granted, for a call
    whose arguments are all described: it prints the name of the call and each
    argument as its context says (a path as text, a pointer as its address, a
    number as the 64-bit integer behind it), returns 0 and leaves the heap as
    it was, both of its buffers freed, exactly when every argument can be read
    as that (a string that ends, eight bytes for a number), the text of each
    has less than 1024 characters and the whole line less than 4096; in every
    other case it is undefined. *)
Theorem log_arguments_exact w name arr ps ctxs args :
  oracle_ok w -> heap_wf w -> w_heap w !! arr = Some (OPtrs ps) ->
  (forall k p ctx, args !! k = Some (p, ctx) -> ps !! k = Some p /\ ctxs !! k = Some (Some ctx)) ->
  (exists vs w', loggable (w_heap w) name args vs /\
     log_arguments (Z.of_nat (length args)) (Some name) (Some arr) ctxs default_allocator w = Ret 0 w' /\
     w_out w' = (STD, name +:+ ":" +:+ pieces args vs) :: w_out w /\ w_heap w' = w_heap w) \/
  ((forall vs, ~ loggable (w_heap w) name args vs) /\
     log_arguments (Z.of_nat (length args)) (Some name) (Some arr) ctxs default_allocator w = Crash).
Proof.
  intros Ho Hwf Harr Hargs. pose proof (log_arguments_outcome w name arr ps ctxs args Ho Hwf Harr Hargs) as Hrun.
  case_decide as Hname.
  - pose proof (log_line_loggable (w_heap w) args (name +:+ ":")) as Hiff.
    destruct (log_line (w_heap w) args (name +:+ ":")) as [text|].
    + left. destruct (proj1 (Hiff text Hname) eq_refl) as (vs & Hvs & -> & Hlen). destruct Hrun as (w' & H1 & H2 & H3).
      exists vs, w'. rewrite string_app_assoc in *. by split_and!.
    + right. split; [|done]. intros vs [Hvs Hlen].
      assert (@None string = Some ((name +:+ ":") +:+ pieces args vs)) by
        (apply (Hiff _ Hname); exists vs; rewrite string_app_assoc; by split_and!). done.
  - right. split; [|done]. intros vs [Hvs Hlen]. rewrite !length_string_app in *. lia.
Qed.

(** ** The two variants *)

(** The same outcome, but for what the console shows. *)
Definition same_but_console {A} (r1 r2 : outcome A) : Prop :=
  match r1, r2 with
  | Ret a1 w1, Ret a2 w2 => a1 = a2 /\ set_out (w_out w2) w1 = w2
  | Ret _ _, _ | _, Ret _ _ => False
  | _, _ => r1 = r2
  end.

Lemma same_but_console_refl {A} (r : outcome A) : same_but_console r r.
Proof. destruct r as [a w| | | |]; try done. split; [done|]. by destruct w. Qed.

(** Under both allocators a buffer is granted, or refused, with a message from
    the deprecated one. *)
Lemma allocators_agree n w : 0 < n ->
  (default_mem_alloc (junk n) w = Ret NULL (asked w) /\
     exists msg, mem_alloc (junk n) w = Ret NULL (set_out ((STD, msg) :: w_out w) (asked w))) \/
  exists p w', default_mem_alloc (junk n) w = Ret (Some p) w' /\ mem_alloc (junk n) w = Ret (Some p) w'.
Proof.
  intros Hn. unfold default_mem_alloc, mem_alloc. rewrite sizeof_junk, (proj2 (Z.eqb_neq n 0)) by lia.
  destruct (Z.ltb_spec (hd 0 (w_oracle w)) 0) as [H|H].
  - left. unfold bind. rewrite malloc_refused by done. split; [done|by eexists].
  - right. unfold bind, malloc, ask, bind. rewrite (proj2 (Z.ltb_ge _ _) H). by do 2 eexists.
Qed.

(** log-freebsd.c, which Linux is built with too, does what log-mac.c does
    with the default allocator, whatever the environment answers: the same
    return value, heap and undefined behaviour; the messages of a failed
    allocation alone differ. *)
Theorem log_arguments_platforms total_args name arr ctxs w :
  same_but_console (log_arguments_freebsd total_args name arr ctxs w)
    (log_arguments total_args name arr ctxs default_allocator w).
Proof.
  unfold log_arguments_freebsd, log_arguments. cbn [alloc default_allocator].
  destruct (allocators_agree 1024 w) as [[E1 [msg E2]]|(p & w1 & E1 & E2)]; [done|..];
    erewrite bind_eq, (bind_eq (default_mem_alloc _)) by eassumption; cbv beta iota; [by split|].
  destruct (allocators_agree 4096 w1) as [[F1 [msg F2]]|(q & w2 & F1 & F2)]; [done|..];
    erewrite bind_eq, (bind_eq (default_mem_alloc _)) by eassumption; cbv beta iota; [|apply same_but_console_refl].
  unfold cleanup_buf, free_loc, output, printf, write, modify, bind. cbn. by destruct (w_heap w1 !! p).
Qed.

(** A number is read as 64 bits wide: when the first argument is logged
    as a number and its buffer is shorter than eight bytes (as are those of
    [generate_fd] and [generate_socket], of four), [log_arguments] reads past
    its end. *)
Theorem log_small_number_crashes w name arr ps ctxs ctx n p bs :
  oracle_ok w -> heap_wf w -> w_heap w !! arr = Some (OPtrs (Some p :: ps)) ->
  w_heap w !! p = Some (OBytes bs) -> (length bs < 8)%nat -> log_type ctx = NUMBER -> 0 < n ->
  log_arguments n (Some name) (Some arr) (Some ctx :: ctxs) default_allocator w = Crash.
Proof.
  intros Ho Hwf Harr Hp Hlen Hctx Hn. rewrite log_arguments_run by done.
  pose proof (with_buffers_sub w Hwf) as Hsub. unfold bind at 1. rewrite (fits_spec 4096). case_decide; [|done].
  apply bind_crash. replace (Z.to_nat n) with (S (Z.to_nat (n - 1))) by lia. cbn [log_loop].
  erewrite bind_eq by reflexivity. erewrite bind_eq by reflexivity. apply bind_crash.
  rewrite (arg_text_spec _ arr (Some p :: ps) 0 (Some p)); [|by eapply lookup_weaken|done].
  unfold arg_string. rewrite Hctx. cbn [mbind option_bind]. rewrite (lookup_weaken _ _ _ _ Hp Hsub). cbn.
  unfold get_bytes. by rewrite decide_False by lia.
Qed.

(** [log_results] prints one line and returns 0, unless the signal has
    no name or the line cannot be allocated; then it reports that and returns
    -1.  It changes nothing but the console. *)
Theorem log_results_exact had_error ret_value err w :
  exists r w', log_results had_error ret_value err w = Ret r w' /\ env_step w w' /\
    (r = 0 <-> is_Some err /\ 0 <= hd 0 (w_oracle w)) /\ (r = 0 \/ r = -1).
Proof.
  unfold log_results, asprintf, printf, write, modify, bind, ask, ret. destruct err as [e|]; cbn.
  - destruct (Z.ltb_spec (hd 0 (w_oracle w)) 0).
    + do 2 eexists. split; [reflexivity|]. split; [by eexists _, _|]. split; [|by right].
      split; [done|]. intros [_ ?]. lia.
    + do 2 eexists. split; [reflexivity|]. split; [by eexists _, _|]. split; [|by left]. split; [done|]. eauto.
  - do 2 eexists. split; [reflexivity|]. split; [exists (w_oracle w); eexists; by destruct w|].
    split; [|by right]. split; [done|]. by intros [[? ?] _].
Qed.

(** Setting up the module leaves [set] as it was, so a second set-up is
    not refused (it reaches [mkdir] again): the guard never fires. *)
Theorem setup_log_guard_never_fires path max w r st w' :
  setup_log_module path max log_unset w = Ret (r, st) w' -> log_set st = NX_NO.
Proof.
  unfold setup_log_module, create_log_file. cbn [log_set log_unset].
  rewrite bool_decide_eq_true_2 by done. cbn [negb]. unfold bind.
  repeat (case_match; simplify_eq; try done); unfold ret, printf, write, modify in *; intros; simplify_eq; done.
Qed.

(** ** A call with a path and a number *)

Definition log_world : world :=
  set_next 4%positive (set_heap (list_to_map
    [ (1%positive, OPtrs [Some 2%positive; Some 3%positive]); (2%positive, OBytes (map Some [47; 116; 0]));
      (3%positive, OBytes (map Some [44; 1; 0; 0; 0; 0; 0; 0])) ]) (fresh_world [] [])).

Definition path_ctx : arg_context := MkArgCtx "FILE_PATH" FILE_PATH NX_NO PATH.
Definition number_ctx : arg_context := MkArgCtx "MODE" MODE NX_YES NUMBER.

Lemma log_world_ok : oracle_ok log_world /\ heap_wf log_world.
Proof. split; [constructor|]. intros l Hl. cbn in *. rewrite !lookup_insert_ne by lia. apply lookup_empty. Qed.

Lemma log_arguments_exact_witness :
  exists w', log_arguments 2 (Some "open") (Some 1%positive) [Some path_ctx; Some number_ctx] default_allocator
      log_world = Ret 0 w' /\ w_out w' = [(STD, "open: FILE_PATH=/t MODE=300")].
Proof.
  destruct (log_arguments_exact log_world "open" 1%positive [Some 2%positive; Some 3%positive]
    [Some path_ctx; Some number_ctx] [(Some 2%positive, path_ctx); (Some 3%positive, number_ctx)])
    as [(vs & w' & [Hvs _] & H1 & H2 & _)|[H _]].
  - apply log_world_ok.
  - apply log_world_ok.
  - reflexivity.
  - intros [|[|k]] p ctx; cbn; intros [= <- <-]; done.
  - exists w'. split; [exact H1|]. rewrite H2. inversion Hvs as [|? v1 ? ? [S1 _] Hvs']; subst.
    inversion Hvs' as [|? v2 ? ? [S2 _] Hvs'']; subst. inversion Hvs''; subst. vm_compute in S1. injection S1 as <-.
    destruct S2 as (l & bs & d & [= <-] & [= <-] & [= <-] & ->). vm_compute. reflexivity.
  - exfalso. apply (H ["/t"; "300"]%string). split; [|apply Nat.ltb_lt; reflexivity].
    repeat constructor; try (apply Nat.ltb_lt; reflexivity). by do 3 eexists.
Defined.

Lemma log_small_number_crashes_witness :
  log_arguments 1 (Some "chmod") (Some 1%positive) [Some number_ctx] default_allocator log_world = Crash.
Proof.
  apply (log_small_number_crashes log_world "chmod" 1%positive [Some 3%positive] [] number_ctx 1 2%positive
    (map Some [47; 116; 0])); try done; [apply log_world_ok|apply log_world_ok|cbn; lia].
Defined.

Lemma setup_log_guard_never_fires_witness :
  exists st w', setup_log_module "/tmp/out" 40 log_unset (fresh_world [] []) = Ret (0, st) w' /\ log_set st = NX_NO.
Proof.
  destruct (setup_log_module "/tmp/out" 40 log_unset (fresh_world [] [])) as [[r st] w'| | | |] eqn:E; try done.
  pose proof (setup_log_guard_never_fires _ _ _ _ _ _ E) as H. exists st, w'. split; [|exact H].
  vm_compute in E. by injection E as <- <- <-.
Defined.
