(* ===== verification/SyscallTable.v ===== *)
(** * SyscallTable: building and using the system call table (syscall/syscall.c)

    The platform's table is copied into shared memory; its entries are static
    objects ([w_entries]), which are completed in place with their wrapper and
    the contexts of their arguments.  A child picks the entry it will test. *)

From S2P Require Import Prelude Types CWorld Memory Crypto ArgTypes EntriesFreebsd EntriesMac EntriesLinux.
From S2P Require Import SetTest Child Mutate.

(** ** syscall-freebsd.c, syscall-mac.c, syscall-linux.c *)

Definition get_table (plat : platform) : M (option syscall_table) :=
  ret (Some (match plat with
             | FREEBSD => freebsd_syscall_table
             | MAC_OS => mac_osx_syscall_table
             | LINUX => linux_syscall_table
             end)).

(** The static entries the program starts with. *)
Definition static_entries (plat : platform) : list syscall_entry :=
  match plat with
  | FREEBSD => freebsd_syscall_table_entries
  | MAC_OS => mac_osx_syscall_table_entries
  | LINUX => linux_syscall_table_entries
  end.

(** ** Assignments through an entry pointer *)

Definition put_entry (k : option nat) (e : syscall_entry) : M unit :=
  let! _ := deref_entry k in
  modify (fun w => set_entries (<[default 0%nat k := e]> (w_entries w)) w).

Definition with_status (s : syscall_status) (e : syscall_entry) : syscall_entry :=
  MkEntry (syscall_name e) (syscall_symbol e) s (need_alarm e) (requires_root e) (arg_type_array e)
    (total_args e) (entry_number e) (arg_context_array e) (get_arg_array e) (test_syscall_ptr e) (entry_id e).

Definition with_contexts (cs : list (option arg_context)) (e : syscall_entry) : syscall_entry :=
  MkEntry (syscall_name e) (syscall_symbol e) (status e) (need_alarm e) (requires_root e) (arg_type_array e)
    (total_args e) (entry_number e) cs (get_arg_array e) (test_syscall_ptr e) (entry_id e).

(** ** syscall.c *)

(** The inner loop of [build_syscall_table] from argument [counter] on; [n]
    arguments are left. *)
Fixpoint fill_contexts (n : nat) (counter : Z) (entry : option nat) : M bool :=
  match n with
  | O => ret true
  | S n' =>
      let! e := deref_entry entry in
      let! type := need (nth_z (arg_type_array e) counter) in
      let! ctx := get_arg_context type in
      let! cs := need (set_z (arg_context_array e) counter ctx) in
      put_entry entry (with_contexts cs e) ;;;
      match ctx with
      | None => write ERROR "Can't get argument context\n" ;;; ret false
      | Some _ => fill_contexts n' (counter + 1) entry
      end
  end.

(** The outer loop from entry [i] on. *)
Fixpoint build_entries (n : nat) (i : Z) (table : ptr) : M bool :=
  match n with
  | O => ret true
  | S n' =>
      let! t := load_table table in
      let! entry := load_sys_entry t i in
      let! e := deref_entry entry in
      put_entry entry (set_test_syscall e (entry_id e)) ;;;
      let! e' := deref_entry entry in
      put_entry entry (with_status ON e') ;;;
      let! ok := fill_contexts (Z.to_nat (total_args e)) 0 entry in
      if ok then build_entries n' (i + 1) table else ret false
  end.

Definition build_syscall_table (plat : platform) (allocator : memory_allocator) : M ptr :=
  let! table_on_disk := get_table plat in
  match table_on_disk with
  | None => write ERROR "Can't grab syscall table\n" ;;; ret NULL
  | Some t =>
      let! table := shared allocator (OTable (MkTable 0 (replicate 56 None))) in
      match table with
      | None => write ERROR "Can't create shadow table\n" ;;; ret NULL
      | Some _ =>
          store table (OTable t) ;;;
          let! t := load_table table in
          let! ok := build_entries (Z.to_nat (total_syscalls t)) 0 table in
          ret (if ok then table else NULL)
      end
  end.

Definition get_syscall_table (plat : platform) (allocator : memory_allocator) : M ptr :=
  let! s := gets w_sys in
  if table_set s =? TRUE then ret (sys_table s)
  else build_syscall_table plat allocator.

(** [( *table)->sys_entry] is an array inside the table: the call hands its
    first slot to [free_shared], which calls [munmap] on what the slot points
    to, an entry (of 200 bytes) in the program's static data, and clears the
    slot.  The call is recorded; what it does to the page is left out: an
    address that is not aligned is refused by Linux and macOS, FreeBSD unmaps
    the pages the entry lies in. *)
Definition cleanup_syscall_table (table : ptr) (allocator : memory_allocator) : M ptr :=
  let! t := load_table table in
  let! first := need (nth_z (sys_entry t) 0) in
  (match first with
   | None => ret tt
   | Some k =>
       emit (EvMunmapEntry k 200) ;;;
       store table (OTable (MkTable (total_syscalls t) (<[0%nat := None]> (sys_entry t))))
   end) ;;;
  free_shared allocator table (sizeof (OTable t)).

(** The child's context takes over what the entry says. *)
Definition pick_syscall (child : ptr) (random : random_generator) : M Z :=
  let! s := gets w_sys in
  let! t := load_table (sys_table s) in
  let! num := call_range random (u32 (total_syscalls t - 1)) in
  match num with
  | None => write ERROR "Can't generate random number\n" ;;; ret (-1)
  | Some num =>
      let! entry := load_sys_entry t num in
      let! e := deref_entry entry in
      update_child child (with_syscall num (Some (syscall_symbol e)) (total_args e)
        (Some (syscall_name e)) (need_alarm e)) ;;;
      update_child child (with_had_error NX_NO) ;;;
      ret 0
  end.

(** ** The table that is built *)

(** The context of an argument type, as [get_arg_context] answers it. *)
Definition context_of (t : arg_type) : option arg_context :=
  match get_arg_context t (fresh_world [] []) with Ret c _ => c | _ => None end.

Lemma context_of_spec t w :
  t <> PTRACE_REQUEST -> get_arg_context t w = Ret (context_of t) w /\ is_Some (context_of t).
Proof. intros Ht. destruct t; try done; (split; [reflexivity|by eexists]). Qed.

(** What an entry becomes: its wrapper is the one its id names, it is
    switched on, and each argument has the context of its type. *)
Definition prepared (e : syscall_entry) : syscall_entry :=
  let n := Z.to_nat (total_args e) in
  with_contexts (map context_of (take n (arg_type_array e)) ++ drop n (arg_context_array e))
    (with_status ON (set_test_syscall e (entry_id e))).

(** An entry the table can be built from. *)
Definition buildable (e : syscall_entry) : bool :=
  well_formed_entry e && bool_decide (length (arg_context_array e) = 7%nat) &&
  forallb (fun t => negb (bool_decide (t = PTRACE_REQUEST))) (arg_type_array e).

Lemma put_entry_eq w k e e0 :
  w_entries w !! k = Some e0 -> put_entry (Some k) e w = Ret tt (set_entries (<[k := e]> (w_entries w)) w).
Proof.
  intros Hk. unfold put_entry, deref_entry. rewrite bind_assoc. erewrite bind_eq by reflexivity.
  rewrite Hk. by erewrite bind_eq by reflexivity.
Qed.

Lemma deref_entry_eq w k e : w_entries w !! k = Some e -> deref_entry (Some k) w = Ret e w.
Proof. intros Hk. unfold deref_entry. erewrite bind_eq by reflexivity. by rewrite Hk. Qed.

Lemma set_entries_twice w es es' : set_entries es (set_entries es' w) = set_entries es w.
Proof. done. Qed.

Lemma with_contexts_twice cs cs' e : with_contexts cs (with_contexts cs' e) = with_contexts cs e.
Proof. done. Qed.

Lemma fill_contexts_spec n : forall w k e (i : nat),
  w_entries w !! k = Some e -> (i + n <= length (arg_type_array e))%nat ->
  length (arg_context_array e) = length (arg_type_array e) ->
  Forall (fun t => t <> PTRACE_REQUEST) (arg_type_array e) ->
  fill_contexts n (Z.of_nat i) (Some k) w =
    Ret true (set_entries (<[k := with_contexts (take i (arg_context_array e) ++
      map context_of (take n (drop i (arg_type_array e))) ++ drop (i + n) (arg_context_array e)) e]> (w_entries w)) w).
Proof.
  induction n as [|n IH]; intros w k e i Hk Hlen Heq Hall; cbn [fill_contexts].
  - rewrite Nat.add_0_r, take_0. cbn [map app]. rewrite take_drop.
    rewrite list_insert_id by (rewrite Hk; f_equal; by destruct e). by destruct w.
  - destruct (lookup_lt_is_Some_2 (arg_type_array e) i) as [t Ht]; [lia|].
    erewrite bind_eq by (by apply deref_entry_eq). rewrite nth_z_nat, Ht. cbn [need].
    erewrite bind_eq by reflexivity.
    assert (Hpt : t <> PTRACE_REQUEST) by (eapply Forall_lookup_1 in Ht; [|exact Hall]; done).
    destruct (context_of_spec t w Hpt) as [Hctx [c Hc]]. erewrite bind_eq by exact Hctx. rewrite Hc.
    rewrite set_z_lt by lia. cbn [need]. erewrite bind_eq by reflexivity.
    erewrite bind_eq by (by eapply put_entry_eq). rewrite Nat2Z.id.
    set (e' := with_contexts _ e). set (w' := set_entries _ w).
    replace (Z.of_nat i + 1) with (Z.of_nat (S i)) by lia.
    rewrite (IH w' k e' (S i)).
    + subst w'. rewrite set_entries_twice. cbn [w_entries set_entries]. rewrite list_insert_insert_eq.
      subst e'. rewrite with_contexts_twice. cbn [arg_context_array with_contexts arg_type_array].
      do 4 f_equal. rewrite (drop_S _ _ _ Ht). cbn [take map]. rewrite Hc.
      assert (Hi : (i < length (arg_context_array e))%nat) by lia.
      rewrite (take_S_r _ _ (Some c)) by (by apply list_lookup_insert_eq).
      rewrite take_insert_ge by lia. rewrite drop_insert_lt by lia.
      rewrite <- app_assoc. cbn. by rewrite Nat.add_succ_r.
    + cbn. apply list_lookup_insert_eq. by eapply lookup_lt_Some.
    + cbn. lia.
    + cbn. by rewrite length_insert.
    + done.
Qed.

Lemma buildable_spec e :
  buildable e = true ->
  well_formed_entry e = true /\ length (arg_context_array e) = 7%nat /\ length (arg_type_array e) = 7%nat /\
  0 <= total_args e <= 7 /\ Forall (fun t => t <> PTRACE_REQUEST) (arg_type_array e).
Proof.
  unfold buildable. rewrite !andb_true_iff, bool_decide_eq_true.
  intros [[Hwf Hc] Hp]. pose proof Hwf as Hwf'. unfold well_formed_entry in Hwf'.
  rewrite !andb_true_iff, !bool_decide_eq_true in Hwf'. destruct Hwf' as ((((H1 & H2) & H3) & H4) & _).
  apply Z.ltb_lt in H1. apply Z.leb_le in H2. unfold ARG_LIMIT in H2. split_and!; [done..|lia|lia|].
  apply Forall_forall. intros t Ht. rewrite forallb_forall in Hp.
  specialize (Hp t (proj1 (list_elem_of_In _ _) Ht)). rewrite negb_true_iff, bool_decide_eq_false in Hp. done.
Qed.

(** One entry of the table. *)
Lemma build_entry_spec w k e :
  w_entries w !! k = Some e -> buildable e = true ->
  (put_entry (Some k) (set_test_syscall e (entry_id e)) ;;;
   let! e' := deref_entry (Some k) in
   put_entry (Some k) (with_status ON e') ;;;
   fill_contexts (Z.to_nat (total_args e)) 0 (Some k)) w =
  Ret true (set_entries (<[k := prepared e]> (w_entries w)) w).
Proof.
  intros Hk Hb. destruct (buildable_spec e Hb) as (_ & Hc & Ht & Hn & Hall).
  pose proof (lookup_lt_Some _ _ _ Hk) as Hlt.
  erewrite bind_eq by (by eapply put_entry_eq).
  erewrite bind_eq by (apply deref_entry_eq; by apply list_lookup_insert_eq).
  erewrite bind_eq by (eapply put_entry_eq; by apply list_lookup_insert_eq).
  rewrite (fill_contexts_spec _ _ _ (with_status ON (set_test_syscall e (entry_id e))) 0%nat).
  - rewrite !set_entries_twice. cbn [w_entries set_entries]. rewrite !list_insert_insert_eq. done.
  - cbn. rewrite list_insert_insert_eq. by apply list_lookup_insert_eq.
  - cbn. lia.
  - cbn. congruence.
  - done.
Qed.

Lemma build_entries_spec l t n : forall w (i : nat),
  w_heap w !! l = Some (OTable t) ->
  (forall j, (i <= j < i + n)%nat -> sys_entry t !! j = Some (Some j) /\
     exists e, w_entries w !! j = Some e /\ buildable e = true) ->
  build_entries n (Z.of_nat i) (Some l) w =
    Ret true (set_entries (take i (w_entries w) ++ map prepared (take n (drop i (w_entries w))) ++
      drop (i + n) (w_entries w)) w).
Proof.
  induction n as [|n IH]; intros w i Hl Hok; cbn [build_entries].
  - rewrite Nat.add_0_r, take_0. cbn [map app]. rewrite take_drop. by destruct w.
  - destruct (Hok i) as (Hs & e & He & Hb); [lia|]. pose proof (lookup_lt_Some _ _ _ He) as Hlt.
    erewrite bind_eq by (by apply load_table_eq). unfold load_sys_entry. rewrite nth_z_nat, Hs. cbn [need].
    erewrite bind_eq by reflexivity. erewrite bind_eq by (by apply deref_entry_eq).
    pose proof (build_entry_spec w i e He Hb) as Hbuild.
    match type of Hbuild with _ = Ret _ ?w1 => set (w' := w1) in * end.
    transitivity (build_entries n (Z.of_nat (S i)) (Some l) w').
    { revert Hbuild. unfold bind. destruct (put_entry _ (set_test_syscall _ _) w) as [? w2| | | |]; [|done..].
      destruct (deref_entry _ w2) as [e2 w3| | | |]; [|done..].
      destruct (put_entry _ _ w3) as [? w4| | | |]; [|done..]. intros ->.
      by replace (Z.of_nat i + 1) with (Z.of_nat (S i)) by lia. }
    rewrite IH.
    + subst w'. rewrite set_entries_twice. cbn [w_entries set_entries]. do 2 f_equal.
      rewrite (drop_S _ _ _ He). cbn [take map].
      rewrite (take_S_r _ _ (prepared e)) by (by apply list_lookup_insert_eq).
      rewrite take_insert_ge, !drop_insert_lt by lia. rewrite <- app_assoc. cbn. by rewrite Nat.add_succ_r.
    + done.
    + intros j Hj. destruct (Hok j) as (Hsj & ej & Hej & Hbj); [lia|]. split; [done|]. exists ej.
      split; [|done]. cbn. by rewrite list_lookup_insert_ne by lia.
Qed.

(** The table [get_table] answers. *)
Definition platform_table (plat : platform) : syscall_table :=
  match plat with
  | FREEBSD => freebsd_syscall_table
  | MAC_OS => mac_osx_syscall_table
  | LINUX => linux_syscall_table
  end.

(** The entries the platform's table lists can be built from [es]. *)
Definition entries_ok (plat : platform) (es : list syscall_entry) : Prop :=
  forall j, (j < Z.to_nat (total_syscalls (platform_table plat)))%nat ->
    sys_entry (platform_table plat) !! j = Some (Some j) /\ exists e, es !! j = Some e /\ buildable e = true.

(** [entries_ok] of the entries the program starts with, by evaluation. *)
Definition table_buildable (plat : platform) : bool :=
  forallb (fun j => bool_decide (sys_entry (platform_table plat) !! j = Some (Some j)) &&
                    match static_entries plat !! j with Some e => buildable e | None => false end)
    (seq 0 (Z.to_nat (total_syscalls (platform_table plat)))).

Lemma static_entries_ok plat : entries_ok plat (static_entries plat).
Proof.
  assert (Htb : table_buildable plat = true) by (by destruct plat; vm_compute).
  unfold table_buildable in Htb. rewrite forallb_forall in Htb. intros j Hj. specialize (Htb j).
  rewrite in_seq, andb_true_iff, bool_decide_eq_true in Htb. destruct Htb as [H1 H2]; [lia|]. split; [done|].
  destruct (static_entries plat !! j) as [e|]; [|done]. eauto.
Qed.

(** The static entries after a table was built. *)
Definition built_entries (plat : platform) (es : list syscall_entry) : list syscall_entry :=
  let n := Z.to_nat (total_syscalls (platform_table plat)) in map prepared (take n es) ++ drop n es.

Lemma built_entries_lookup plat es i : entries_ok plat es ->
  built_entries plat es !! i =
    if decide (i < Z.to_nat (total_syscalls (platform_table plat)))%nat then prepared <$> es !! i else es !! i.
Proof.
  intros Hok. unfold built_entries, entries_ok in *. set (n := Z.to_nat _) in *.
  assert (Hn : (n <= length es)%nat).
  { destruct (decide (n <= length es)%nat) as [|Hgt]; [done|].
    destruct (Hok (length es)) as (_ & e0 & He0 & _); [lia|]. apply lookup_lt_Some in He0. lia. }
  case_decide as Hi.
  - rewrite lookup_app_l by (rewrite length_map, length_take; lia).
    etrans; [apply list_lookup_fmap|]. by rewrite lookup_take_lt.
  - rewrite lookup_app_r, length_map, length_take, Nat.min_l, lookup_drop by (rewrite ?length_map, ?length_take; lia).
    by replace (n + (i - n))%nat with i by lia.
Qed.

(** Building a table a second time is possible. *)
Lemma built_entries_ok plat es : entries_ok plat es -> entries_ok plat (built_entries plat es).
Proof.
  intros Hok j Hj. destruct (Hok j Hj) as (Hs & e & He & Hb). split; [done|]. exists (prepared e).
  rewrite built_entries_lookup, decide_True, He by done. split; [done|].
  destruct (buildable_spec e Hb) as (Hwf & Hc & Ht & Hn & _). unfold buildable in *. rewrite !andb_true_iff in Hb |- *.
  destruct Hb as [_ Hp]. split_and!; [exact Hwf| |exact Hp]. apply bool_decide_eq_true. cbn.
  rewrite length_app, length_map, length_take, length_drop. lia.
Qed.

Lemma build_syscall_table_eq plat w :
  (hd 0 (w_oracle w) <? 0) = false -> entries_ok plat (w_entries w) ->
  build_syscall_table plat default_allocator w =
    Ret (Some (w_next w))
      (set_entries (built_entries plat (w_entries w)) (granted (OTable (platform_table plat)) w)).
Proof.
  intros Ha Hok. unfold build_syscall_table. erewrite bind_eq by reflexivity. cbv beta iota.
  change (match plat with FREEBSD => _ | MAC_OS => _ | LINUX => _ end) with (platform_table plat).
  cbn [shared default_allocator]. unfold default_mem_alloc_shared.
  assert (Hm : mmap_anon (OTable (MkTable 0 (replicate 56 None))) w =
    Ret (Some (w_next w)) (granted (OTable (MkTable 0 (replicate 56 None))) w)).
  { unfold mmap_anon, bind, ask. by rewrite Ha. }
  erewrite bind_eq by (by erewrite bind_eq by exact Hm). cbv beta iota.
  erewrite bind_eq by (eapply store_eq; apply lookup_insert_eq). set (w1 := set_heap _ _).
  assert (Hl : w_heap w1 !! w_next w = Some (OTable (platform_table plat))) by apply lookup_insert_eq.
  erewrite bind_eq by (by apply load_table_eq).
  erewrite bind_eq by (apply (build_entries_spec (w_next w) (platform_table plat) _ w1 0%nat Hl);
    intros j Hj; apply Hok; lia).
  unfold ret. f_equal. cbn [take app drop Nat.add]. unfold built_entries. f_equal.
  unfold w1, granted, set_heap, set_next. cbn. by rewrite insert_insert_eq.
Qed.

(** An entry that is ready to be tested: switched on, its wrapper the one its
    id names, each of its arguments with a context of the argument's type. *)
Definition ready (e : syscall_entry) : Prop :=
  well_formed_entry e = true /\ status e = ON /\ test_syscall_ptr e = Some (test_of_id (entry_id e)) /\
  length (arg_context_array e) = 7%nat /\
  forall j, (j < Z.to_nat (total_args e))%nat ->
    exists c, arg_context_array e !! j = Some (Some c) /\ arg_type_array e !! j = Some (ctx_type c).

Lemma context_of_type t c : context_of t = Some c -> ctx_type c = t.
Proof. destruct t; vm_compute; by intros [= <-]. Qed.

Lemma prepared_ready e : buildable e = true -> ready (prepared e).
Proof.
  intros Hb. destruct (buildable_spec e Hb) as (Hwf & Hc & Ht & Hn & Hall). split_and!; [done..| |].
  - cbn. rewrite length_app, length_map, length_take, length_drop. lia.
  - cbn. intros j Hj. destruct (lookup_lt_is_Some_2 (arg_type_array e) j) as [t Htj]; [lia|].
    destruct (context_of_spec t (fresh_world [] [])) as [_ [c Hctx]].
    { by eapply Forall_lookup_1 in Htj; [|exact Hall]. }
    exists c. split; [|by rewrite (context_of_type _ _ Hctx)].
    rewrite lookup_app_l by (rewrite length_map, length_take; lia).
    change (map context_of) with (fmap (M := list) context_of).
    rewrite list_lookup_fmap, lookup_take_lt by done. rewrite Htj. cbn. by rewrite Hctx.
Qed.

(** (C14) On each platform [build_syscall_table] succeeds (shared memory being
    granted): the table is a copy of the platform's in shared memory, every
    entry it lists is ready to be tested, and entries it does not list are
    untouched. *)
Theorem build_syscall_table_correct plat w :
  oracle_ok w -> w_entries w = static_entries plat ->
  exists t w', build_syscall_table plat default_allocator w = Ret (Some (w_next w)) w' /\
    get_table plat w = Ret (Some t) w /\ w_heap w' = <[w_next w := OTable t]> (w_heap w) /\
    (forall i e, w_entries w' !! i = Some e ->
       if decide (i < Z.to_nat (total_syscalls t))%nat then sys_entry t !! i = Some (Some i) /\ ready e
       else static_entries plat !! i = Some e).
Proof.
  intros Ho Hes. pose proof (static_entries_ok plat) as Hok. rewrite <- Hes in Hok.
  exists (platform_table plat). eexists. split; [apply build_syscall_table_eq; [by apply oracle_ok_hd|done]|].
  split; [done|]. split; [done|]. cbn [w_entries set_entries]. intros i e.
  rewrite built_entries_lookup by done. rewrite <- Hes. case_decide as Hi; [|done].
  destruct (Hok i Hi) as (Hs & e0 & -> & Hb). intros [= <-]. split; [done|]. by apply prepared_ready.
Qed.

(** ** Picking a system call *)

(** The module's table is at [tl] and each of its calls is ready. *)
Definition table_ready (w : world) (tl : loc) (t : syscall_table) : Prop :=
  sys_table (w_sys w) = Some tl /\ w_heap w !! tl = Some (OTable t) /\ 0 < total_syscalls t <= 56 /\
  forall j, (j < Z.to_nat (total_syscalls t))%nat ->
    exists k e, sys_entry t !! j = Some (Some k) /\ w_entries w !! k = Some e /\ ready e.

(** The context of a child that has picked entry [e], number [num]. *)
Definition picked (num : Z) (e : syscall_entry) (c : child_ctx) : child_ctx :=
  with_had_error NX_NO (with_syscall num (Some (syscall_symbol e)) (total_args e)
    (Some (syscall_name e)) (need_alarm e) c).

(** (C28) [pick_syscall] never leaves the table: it fails, changing nothing on
    the heap, or the child's context afterwards names an entry of the table
    (number, symbol, name, number of arguments, alarm) and carries no error,
    and nothing else has changed.  It always returns. *)
Theorem pick_syscall_correct random `{!RandomLaws random} w tl t child c :
  table_ready w tl t -> w_heap w !! child = Some (OChild c) ->
  exists r w', pick_syscall (Some child) random w = Ret r w' /\
    w_sys w' = w_sys w /\ w_entries w' = w_entries w /\
    (r = -1 /\ w_heap w' = w_heap w \/
     r = 0 /\ exists num k e, 0 <= num < total_syscalls t /\ nth_z (sys_entry t) num = Some (Some k) /\
       w_entries w !! k = Some e /\ ready e /\ w_heap w' = <[child := OChild (picked num e c)]> (w_heap w)).
Proof.
  intros (Hst & Htl & Htot & Hent) Hc. unfold pick_syscall. erewrite bind_eq by reflexivity. rewrite Hst.
  erewrite bind_eq by (by apply load_table_eq).
  destruct (call_range_law (u32 (total_syscalls t - 1)) w (u32_range _)) as (r & w1 & Hr & He & Hn).
  erewrite bind_eq by exact Hr. destruct He as (o & x & ->). destruct r as [num|].
  - specialize (Hn num eq_refl). rewrite u32_small in Hn by lia.
    destruct (Hent (Z.to_nat num)) as (k & e & Hs & He & Hready); [lia|].
    assert (Hnth : nth_z (sys_entry t) num = Some (Some k)) by (rewrite <- (Z2Nat.id num) by lia; by rewrite nth_z_nat).
    unfold load_sys_entry. rewrite Hnth. cbn [need]. erewrite bind_eq by reflexivity.
    erewrite bind_eq by (by apply deref_entry_eq).
    erewrite bind_eq by (by apply update_child_eq).
    erewrite bind_eq by (apply update_child_eq; apply lookup_insert_eq).
    do 2 eexists. split; [reflexivity|]. split_and!; [done..|]. right. split; [done|]. exists num, k, e.
    split_and!; [lia|lia|done..|]. cbn. by rewrite insert_insert_eq.
  - do 2 eexists. split; [reflexivity|]. split_and!; [done..|]. by left.
Qed.

(** ** The mac table, built and used *)

Lemma build_syscall_table_correct_witness :
  exists t w', build_syscall_table MAC_OS default_allocator (fresh_world [] (static_entries MAC_OS)) =
      Ret (Some 1%positive) w' /\ w_heap w' !! 1%positive = Some (OTable t) /\ total_syscalls t = 21.
Proof.
  destruct (build_syscall_table_correct MAC_OS (fresh_world [] (static_entries MAC_OS)) (Forall_nil_2 _) eq_refl)
    as (t & w' & H1 & [= <-] & H3 & _).
  exists mac_osx_syscall_table, w'. split; [exact H1|]. rewrite H3. split; [apply lookup_insert_eq|reflexivity].
Defined.

(** One entry, ready. *)
Definition pick_world (oracle : list Z) : world :=
  set_sys (MkSys NULL 0 NULL (Some 1%positive) NULL 0 TRUE NULL)
    (set_heap (list_to_map [ (1%positive, OTable linux_syscall_table); (2%positive, OChild (blank_child 100)) ])
       (fresh_world oracle [prepared EntriesLinux.entry_read])).

Lemma pick_world_ready oracle : table_ready (pick_world oracle) 1%positive linux_syscall_table.
Proof.
  split_and!; [done..|]. intros j Hj. change (Z.to_nat (total_syscalls linux_syscall_table)) with 1%nat in Hj.
  assert (j = 0%nat) as -> by lia. do 2 eexists. split; [reflexivity|]. split; [reflexivity|].
  by apply prepared_ready.
Qed.

Lemma pick_syscall_correct_witness :
  exists w', pick_syscall (Some 2%positive) default_generator (pick_world []) = Ret 0 w' /\
    w_heap w' !! 2%positive = Some (OChild (picked 0 (prepared EntriesLinux.entry_read) (blank_child 100))).
Proof.
  destruct (pick_syscall_correct default_generator (pick_world []) 1%positive linux_syscall_table 2%positive
    (blank_child 100) (pick_world_ready []) eq_refl) as (r & w' & H & _ & _ & [[-> _]|(-> & num & k & e & _ & _ & He & _ & Hh)]).
  - exfalso. vm_compute in H. discriminate H.
  - exists w'. split; [exact H|]. vm_compute in H. injection H as <-. reflexivity.
Defined.
