(* ===== verification/Syscall.v ===== *)
(** * Syscall: the system call fuzzer (syscall/syscall.c)

    The life of a child process (its fuzzing loops, its arguments, its exit)
    and the parent that keeps the children running.

    [stop] and the children's contexts are shared between the processes, so
    another process may set [stop] whenever it is read.  A signal arrives,
    if one does, while the system call under test runs; the child's handler
    then jumps back to the [setjmp], modelled by running the code after it
    again.  The fuel of a loop bounds the number of its iterations; it is
    [Spin] when used up, since the loops end only when [stop] is set. *)

From S2P Require Import Prelude Types CWorld Memory Realloc Epoch Crypto Utils ArgTypes EntriesFreebsd EntriesMac.
From S2P Require Import EntriesLinux SetTest Child Generate Mutate Signals Log SyscallTable.

(** ** The interfaces it is given *)

(** struct resource_generator, as the cleanup of arguments uses it. *)
Record resource_generator := MkRsrcGen {
  free_desc : ptr -> M Z;
  free_socket : ptr -> M Z;
  free_filepath : ptr -> M (Z * ptr);
  free_dirpath : ptr -> M (Z * ptr)
}.

(** ** probe/probe.c *)

Definition inject_kernel_probes : M Z := ret 0.
Definition cleanup_kernel_probes : M Z := ret 0.

(** ** Shared state *)

(** The context of a child fresh from [mmap]: every member is zero, which is
    [NX_YES] for the flags. *)
Definition zero_child : child_ctx :=
  MkChild EMPTY 0 None 0 0 None NULL NULL NULL 0 NX_YES 0 NX_YES NX_YES None None.

Definition update_state (f : global_state -> global_state) : M unit :=
  let! s := gets w_sys in
  let! g := load_global (sys_state s) in
  store (sys_state s) (OGlobal (f g)).

Definition add_running (n : Z) (g : global_state) : global_state :=
  MkGlobal (u32 (running_children g + n)) (test_counter g).

Definition atomic_load_stop : M Z :=
  let! s := gets w_sys in
  let! a := ask in
  (if a =? TRUE then store (sys_stop s) (OInt TRUE) else ret tt) ;;;
  load_int (sys_stop s).

(** [setjmp] answers 0, and 1 after each [longjmp]; [body] is the rest of the
    function.  The process is recorded in the buffer before. *)
Fixpoint setjmp {A} (fuel : nat) (rtrn : Z) (body : Z -> M A) : M A :=
  match fuel with
  | O => spin
  | S n => fun w => match body rtrn w with Jump w' => setjmp n 1 body w' | o => o end
  end.

(** [memcpy(dst, src, n)]. *)
Definition memcpy (dst src : ptr) (n : Z) : M unit :=
  if n =? 0 then ret tt
  else
    let! s := load_bytes src in
    let! d := load_bytes dst in
    if (n <=? Z.of_nat (length s)) && (n <=? Z.of_nat (length d))
    then store dst (OBytes (take (Z.to_nat n) s ++ drop (Z.to_nat n) d)) else crash.

Section syscall.
Context (H : headers) (R : resources) (rsrc_gen : resource_generator) (strsignal : Z -> option string).
Context (allocator : memory_allocator) (random : random_generator).
Let plat := h_platform H.

(** ** Leaving a child *)

Definition exit_child {A} (thread : ptr) : M A :=
  let! _ := epoch_start thread allocator in
  let! child := get_child in
  let! ret_val :=
    (match child with
     | None => write ERROR "Can't get child context\n" ;;; ret (-1)
     | Some _ =>
         let! rtrn := cleanup_kernel_probes in
         if rtrn <? 0 then write ERROR "Can't clean up kernel probes" ;;; ret (-1) else ret 0
     end) in
  stop_all_sections thread allocator ;;;
  let! _ := clean_thread thread allocator in
  set_child_pid child EMPTY ;;;
  update_state (add_running (-1)) ;;;
  write STD "Exiting\n" ;;;
  exit ret_val.

(** ** Arguments *)

(** The loop of [free_old_arguments] from argument [i] on. *)
Fixpoint free_args_from (n : nat) (i : Z) (ctx : ptr) (entry : option nat) : M unit :=
  match n with
  | O => ret tt
  | S n' =>
      let! e := deref_entry entry in
      let! slot := need (nth_z (arg_context_array e) i) in
      let! actx := need slot in
      let! c := load_child ctx in
      (match ctx_type actx with
       | FILE_DESC =>
           let! p := load_elem (arg_copy_array c) i in
           let! rtrn := free_desc rsrc_gen p in
           if rtrn <? 0 then write ERROR "Can't free descriptor\n" else ret tt
       | FILE_PATH =>
           let! p := load_elem (arg_copy_array c) i in
           let! '(rtrn, p) := free_filepath rsrc_gen p in
           store_elem (arg_copy_array c) i p ;;;
           if rtrn <? 0 then write ERROR "Can't free filepath\n" else ret tt
       | DIR_PATH =>
           let! p := load_elem (arg_copy_array c) i in
           let! '(rtrn, p) := free_dirpath rsrc_gen p in
           store_elem (arg_copy_array c) i p ;;;
           if rtrn <? 0 then write ERROR "Can't free dirpath\n" else ret tt
       | SOCKET =>
           let! p := load_elem (arg_copy_array c) i in
           let! rtrn := free_socket rsrc_gen p in
           if rtrn <? 0 then write ERROR "Can't free socket\n" else ret tt
       | VOID_BUF =>
           let! p := load_elem (arg_value_array c) i in
           let! sizes := load_words (arg_size_array c) in
           let! size := need (nth_z sizes i) in
           let! p := free_shared allocator p size in
           store_elem (arg_value_array c) i p
       | _ => ret tt
       end) ;;;
      free_args_from n' (i + 1) ctx entry
  end.

Definition free_old_arguments (ctx : ptr) : M Z :=
  let! c := load_child ctx in
  let! entry := get_entry (child_syscall_number c) in
  match entry with
  | None => write ERROR "Can't get entry\n" ;;; ret (-1)
  | Some _ =>
      free_args_from (Z.to_nat (child_total_args c)) 0 ctx entry ;;;
      ret 0
  end.

(** The loop of [generate_arguments] from argument [i] on. *)
Fixpoint generate_from (n : nat) (i : Z) (ctx : ptr) : M Z :=
  match n with
  | O => ret 0
  | S n' =>
      update_child ctx (with_current_arg i) ;;;
      let! c := load_child ctx in
      let! entry := get_entry (child_syscall_number c) in
      match entry with
      | None => write ERROR "Can't get entry\n" ;;; ret (-1)
      | Some _ =>
          let! e := deref_entry entry in
          let! g := need (nth_z (get_arg_array e) i) in
          let! g := need g in
          let! slot := load_elem (arg_value_array c) i in
          let! '(rtrn, value) := call_generator H R g slot ctx in
          store_elem (arg_value_array c) i value ;;;
          if rtrn <? 0 then write ERROR "Can't generate arguments for: %s\n" ;;; ret (-1)
          else
            let! copy := load_elem (arg_copy_array c) i in
            let! sizes := load_words (arg_size_array c) in
            let! size := need (nth_z sizes i) in
            memcpy copy value size ;;;
            generate_from n' (i + 1) ctx
      end
  end.

Definition generate_arguments (ctx : ptr) : M Z :=
  let! c := load_child ctx in
  generate_from (Z.to_nat (child_total_args c)) 0 ctx.

(** ** One test *)

Definition generate_test_case (child thread : ptr) : M Z :=
  let! rtrn := pick_syscall child random in
  (if rtrn <? 0 then write ERROR "Can't pick syscall to test\n" ;;; exit_child thread else ret tt) ;;;
  let! rtrn := generate_arguments child in
  (if rtrn <? 0 then write ERROR "Can't generate arguments\n" ;;; exit_child thread else ret tt) ;;;
  let! c := load_child child in
  let! rtrn := mutate_arguments (arg_value_array c) (arg_size_array c) random in
  (if rtrn <? 0 then write ERROR "Can't mutate arguments\n" ;;; exit_child thread else ret tt) ;;;
  let! c := load_child child in
  let! entry := get_entry (child_syscall_number c) in
  (match entry with
   | None => write ERROR "Can't get syscall entry\n" ;;; exit_child thread
   | Some _ => ret tt
   end) ;;;
  let! e := deref_entry entry in
  let! rtrn := log_arguments (child_total_args c) (child_syscall_name c) (arg_value_array c)
    (arg_context_array e) allocator in
  (if rtrn <? 0 then write ERROR "Can't log arguments\n" ;;; exit_child thread else ret tt) ;;;
  ret 0.

Definition check_for_failure (ret_value : Z) : Z := if ret_value <? 0 then -1 else 0.

(** A signal that arrives while the call runs: its number and sender, or
    none. *)
Definition deliver_signal : M unit :=
  let! sig := ask in
  if sig =? 0 then ret tt
  else let! si_pid := ask in child_signal_handler sig si_pid.

Definition test_syscall (ctx : ptr) : M Z :=
  let! c := load_child ctx in
  (if decide (child_need_alarm c = NX_YES) then emit (EvAlarm 1) else ret tt) ;;;
  let! entry := get_entry (child_syscall_number c) in
  match entry with
  | None => write ERROR "Can't get syscall entry\n" ;;; ret (-1)
  | Some _ =>
      let! s := gets w_sys in
      let! g := load_global (sys_state s) in
      let! n := load_int (test_counter g) in
      store (test_counter g) (OInt (u32 (n + 1))) ;;;
      let! e := deref_entry entry in
      update_child ctx (with_test_syscall (test_syscall_ptr e)) ;;;
      let! c := load_child ctx in
      let! f := need (child_test_syscall c) in
      let! ret_value := call_test f (child_syscall_symbol c) (arg_value_array c) in
      deliver_signal ;;;
      update_child ctx (with_ret_value ret_value) ;;;
      (if check_for_failure ret_value <? 0 then update_child ctx (with_had_error NX_YES) else ret tt) ;;;
      ret 0
  end.

(** ** The loops of a child *)

(** Busy waiting for [stop]. *)
Fixpoint wait_for_stop (fuel : nat) : M unit :=
  match fuel with
  | O => spin
  | S n => let! v := atomic_load_stop in if v =? TRUE then ret tt else wait_for_stop n
  end.

Definition start_smart_syscall_child {A} (fuel : nat) (thread : ptr) : M A :=
  let! _ := epoch_start thread allocator in
  let! child := get_child in
  (match child with
   | None => write ERROR "Can't get child context\n" ;;; exit_child thread
   | Some _ => ret tt
   end) ;;;
  let! pid := gets w_pid in
  update_child child (with_return_jump (Some pid)) ;;;
  setjmp fuel 0 (fun rtrn =>
    (if rtrn <? 0 then write ERROR "Can't set return jump\n" ;;; exit_child thread else ret tt) ;;;
    epoch_stop thread allocator ;;;
    wait_for_stop fuel ;;;
    exit_child thread).

(** The body of the loop of [start_syscall_child]. *)
Definition fuzz_once (child thread : ptr) : M unit :=
  let! _ := epoch_start thread allocator in
  let! rtrn := generate_test_case child thread in
  (if rtrn <? 0 then write ERROR "Syscall call failed\n" ;;; exit_child thread else ret tt) ;;;
  epoch_stop thread allocator ;;;
  let! rtrn := test_syscall child in
  (if rtrn <? 0 then write ERROR "Syscall call failed\n" ;;; exit_child thread else ret tt) ;;;
  let! c := load_child child in
  let! rtrn := log_results (child_had_error c) (child_ret_value c) (strsignal (child_sig_num c)) in
  (if rtrn <? 0 then write ERROR "Can't log test results\n" ;;; exit_child thread else ret tt) ;;;
  let! _ := free_old_arguments child in
  ret tt.

Fixpoint fuzz_loop (fuel : nat) (child thread : ptr) : M unit :=
  match fuel with
  | O => spin
  | S n =>
      let! v := atomic_load_stop in
      if v =? TRUE then ret tt
      else fuzz_once child thread ;;; fuzz_loop n child thread
  end.

(** The part of [start_syscall_child] between the [setjmp] and the loop. *)
Definition after_setjmp (child thread : ptr) (rtrn : Z) : M unit :=
  (if rtrn <? 0 then write ERROR "Can't set return jump\n" ;;; exit_child thread else ret tt) ;;;
  let! c := load_child child in
  (if decide (child_did_jump c = NX_YES) then
     let! _ := epoch_start thread allocator in
     let! c := load_child child in
     let! rtrn := log_results (child_had_error c) (child_ret_value c) (strsignal (child_sig_num c)) in
     (if rtrn <? 0 then write ERROR "Can't log test results\n" ;;; exit_child thread else ret tt) ;;;
     let! rtrn := free_old_arguments child in
     (if rtrn <? 0 then write ERROR "Can't cleanup old arguments\n" ;;; exit_child thread else ret tt) ;;;
     epoch_stop thread allocator
   else ret tt) ;;;
  epoch_stop thread allocator.

Definition start_syscall_child {A} (fuel : nat) (thread : ptr) : M A :=
  let! _ := epoch_start thread allocator in
  let! child := get_child in
  (match child with
   | None => write ERROR "Can't get child context\n" ;;; exit_child thread
   | Some _ => ret tt
   end) ;;;
  let! pid := gets w_pid in
  update_child child (with_return_jump (Some pid)) ;;;
  setjmp fuel 0 (fun rtrn =>
    after_setjmp child thread rtrn ;;;
    fuzz_loop fuel child thread ;;;
    exit_child thread).

Definition start_child_loop {A} (fuel : nat) (thread : ptr) : M A :=
  let! s := gets w_sys in
  (if negb (sys_mode s =? TRUE) then start_syscall_child fuel thread else ret tt) ;;;
  start_smart_syscall_child fuel thread.

(** ** Starting a child *)

Definition init_syscall_child (i : Z) (thread : ptr) : M unit :=
  let! _ := setup_child_signal_handler plat in
  let! r := epoch_start thread allocator in
  (if r =? -1 then write ERROR "Can't start epoch protected section\n" ;;; exit_child thread else ret tt) ;;;
  let! s := gets w_sys in
  (if sys_mode s =? TRUE then
     let! p := load_elem (children s) i in
     let! _ := load_child p in
     let! rtrn := inject_kernel_probes in
     if rtrn <? 0 then write ERROR "Can't init child probes\n" ;;; exit_child thread else ret tt
   else ret tt) ;;;
  epoch_stop thread allocator.

Definition start_child {A} (fuel : nat) (i : Z) : M A :=
  let! s := gets w_sys in
  let! thread := init_thread (sys_epoch s) allocator in
  (match thread with
   | None => write ERROR "Thread initialization failed\n" ;;; exit_child thread
   | Some _ => ret tt
   end) ;;;
  init_syscall_child i thread ;;;
  start_child_loop fuel thread.

(** What the new process does first, and its parent sees once the byte has
    come through the pipe. *)
Definition register_child (i pid : Z) : M unit :=
  let! s := gets w_sys in
  let! p := load_elem (children s) i in
  set_child_pid p pid ;;;
  update_state (add_running 1).

(** [pipe(2)]: two new descriptors. *)
Definition pipe : M (option (Z * Z)) :=
  let! a := ask in
  if a <? 0 then ret None
  else
    let! fds := gets w_fds in
    let rd := fresh_fd fds in
    let fds := <[rd := "pipe"]> fds in
    let wr := fresh_fd fds in
    modify (set_fds (<[wr := "pipe"]> fds)) ;;;
    ret (Some (rd, wr)).

(** [fork(2)]: negative on failure, 0 in the child, the child's process id in
    the parent. *)
Definition fork : M Z :=
  emit EvFork ;;; ask.

(** The part of [create_child] that follows the choice of slot [i].  When the
    parent's [read] fails the child may or may not have registered. *)
Definition fork_child (fuel : nat) (thread : ptr) (i : Z) : M Z :=
  let! fd := pipe in
  match fd with
  | None => write ERROR "Message pipe creation failed\n" ;;; ret (-1)
  | Some (rd, wr) =>
    let! pid := fork in
    if pid =? 0 then
      let! own := ask in
      modify (set_pid own) ;;;
      register_child i own ;;;
      let! ret_ := ask in
      (if ret_ <? 1 then write ERROR "Write: %s\n" ;;; exit_child thread else ret tt) ;;;
      start_child fuel i
    else if 0 <? pid then
      let! ret_ := ask in
      if ret_ <? 1 then
        let! seen := ask in
        (if seen =? 0 then ret tt else register_child i pid) ;;;
        write ERROR "Read: %s\n" ;;; ret (-1)
      else
        register_child i pid ;;;
        sys_close rd ;;;
        sys_close wr ;;;
        ret 0
    else write ERROR "Can't create child proc: %s\n" ;;; ret (-1)
  end.

(** The loop of [create_child] from slot [i] on; [n] slots are left. *)
Fixpoint create_child_from (fuel n : nat) (i : Z) (thread : ptr) : M Z :=
  match n with
  | O => ret 0
  | S n' =>
      let! r := epoch_start thread allocator in
      if r =? -1 then write ERROR "Can't start protected section\n" ;;; ret (-1)
      else
        let! s := gets w_sys in
        let! p := load_elem (children s) i in
        let! c := load_child p in
        epoch_stop thread allocator ;;;
        if negb (child_pid c =? EMPTY) then create_child_from fuel n' (i + 1) thread
        else fork_child fuel thread i
  end.

Definition create_child (fuel : nat) (thread : ptr) : M Z :=
  let! s := gets w_sys in
  create_child_from fuel (Z.to_nat (total_children s)) 0 thread.

(** ** The parent *)

Fixpoint kill_from (n : nat) (i : Z) : M unit :=
  match n with
  | O => ret tt
  | S n' =>
      let! s := gets w_sys in
      let! p := load_elem (children s) i in
      let! c := load_child p in
      emit (EvKill (child_pid c)) ;;;
      let! rtrn := ask_status in
      if rtrn <? 0 then write ERROR "Can't kill child: %s\n" else kill_from n' (i + 1)
  end.

Definition kill_all_children : M unit :=
  let! s := gets w_sys in
  kill_from (Z.to_nat (total_children s)) 0.

Fixpoint main_loop (fuel : nat) (thread : ptr) : M unit :=
  match fuel with
  | O => spin
  | S n =>
      let! v := atomic_load_stop in
      if negb (v =? FALSE) then write STD "Exiting main loop\n"
      else
        let! s := gets w_sys in
        let! g := load_global (sys_state s) in
        if running_children g <? total_children s then
          let! rtrn := create_child fuel thread in
          if rtrn <? 0 then write ERROR "Can't create child\n" else main_loop n thread
        else main_loop n thread
  end.

Definition start_main_syscall_loop (fuel : nat) (thread : ptr) : M unit :=
  write STD "Starting fuzzer\n" ;;;
  let! rtrn := setup_signal_handler plat in
  if rtrn <? 0 then write ERROR "Signal handler setup failed\n"
  else main_loop fuel thread.

(** ** Setting up *)

(** [allocator->free_shared] on a member of the child's context, and on the
    context itself. *)
Definition free_copy_array (child : ptr) : M unit :=
  let! c := load_child child in
  let! p := free_shared allocator (arg_copy_array c) (ARG_LIMIT * 8) in
  update_child child (with_arrays (arg_value_array c) p (arg_size_array c)).
Definition free_size_array (child : ptr) : M unit :=
  let! c := load_child child in
  let! p := free_shared allocator (arg_size_array c) (ARG_LIMIT * 8) in
  update_child child (with_arrays (arg_value_array c) (arg_copy_array c) p).
Definition free_value_array (child : ptr) : M unit :=
  let! c := load_child child in
  let! p := free_shared allocator (arg_value_array c) (ARG_LIMIT * 8) in
  update_child child (with_arrays p (arg_copy_array c) (arg_size_array c)).
Definition free_child_ctx (child : ptr) : M unit :=
  let! _ := free_shared allocator child (sizeof (OChild zero_child)) in ret tt.

(** The loop of [init_child_context] from argument [i] on. *)
Fixpoint init_args_from (n : nat) (i : Z) (child : ptr) : M ptr :=
  match n with
  | O => ret child
  | S n' =>
      let! c := load_child child in
      let! value := shared allocator (zeros ARG_BUF_LEN) in
      store_elem (arg_value_array c) i value ;;;
      match value with
      | None =>
          write ERROR "Can't create arg value\n" ;;;
          free_copy_array child ;;; free_size_array child ;;; free_value_array child ;;; free_child_ctx child ;;;
          ret NULL
      | Some _ =>
          let! copy := shared allocator (zeros ARG_BUF_LEN) in
          store_elem (arg_copy_array c) i copy ;;;
          match copy with
          | None =>
              write ERROR "Can't create arg copy value\n" ;;;
              free_copy_array child ;;; free_size_array child ;;; free_value_array child ;;; free_child_ctx child ;;;
              ret NULL
          | Some _ => init_args_from n' (i + 1) child
          end
      end
  end.

Definition init_child_context : M ptr :=
  let! child := shared allocator (OChild zero_child) in
  match child with
  | None => write ERROR "Can't create child context\n" ;;; ret NULL
  | Some _ =>
      update_child child (with_current_arg 0) ;;;
      let! values := shared allocator (OPtrs (replicate (Z.to_nat ARG_LIMIT) NULL)) in
      update_child child (with_arrays values NULL NULL) ;;;
      match values with
      | None =>
          write ERROR "Can't create arg value index: %s\n" ;;;
          free_child_ctx child ;;; ret NULL
      | Some _ =>
          let! sizes := shared allocator (OWords (replicate (Z.to_nat ARG_LIMIT) 0)) in
          update_child child (with_arrays values NULL sizes) ;;;
          match sizes with
          | None =>
              write ERROR "Can't create arg size index: %s\n" ;;;
              free_value_array child ;;; free_child_ctx child ;;; ret NULL
          | Some _ =>
              let! copies := shared allocator (OPtrs (replicate (Z.to_nat ARG_LIMIT) NULL)) in
              update_child child (with_arrays values copies sizes) ;;;
              match copies with
              | None =>
                  write ERROR "Can't create arg copy index: %s\n" ;;;
                  free_size_array child ;;; free_value_array child ;;; free_child_ctx child ;;; ret NULL
              | Some _ => init_args_from (Z.to_nat ARG_LIMIT) 0 child
              end
          end
      end
  end.

(** The loop of [setup_syscall_module] from child [i] on. *)
Fixpoint init_children_from (n : nat) (i : Z) : M bool :=
  match n with
  | O => ret true
  | S n' =>
      let! child := init_child_context in
      match child with
      | None => write ERROR "Can't init child context\n" ;;; ret false
      | Some _ =>
          let! s := gets w_sys in
          store_elem (children s) i child ;;;
          init_children_from n' (i + 1)
      end
  end.

Definition setup_syscall_module (stop_ptr counter : ptr) (run_mode : Z) (e : ptr) : M Z :=
  let! cores := get_core_count plat in
  match cores with
  | None => write ERROR "Can't get core count\n" ;;; ret (-1)
  | Some cores =>
      sys_set_total cores ;;;
      let! table := get_syscall_table plat allocator in
      sys_set_table table ;;;
      match table with
      | None => write ERROR "Can't get syscall table\n" ;;; ret (-1)
      | Some _ =>
          let! st := shared allocator (OGlobal (MkGlobal 0 NULL)) in
          sys_set_state st ;;;
          match st with
          | None => write ERROR "Global state allocation failed\n" ;;; ret (-1)
          | Some _ =>
              update_state (fun g => MkGlobal 0 (test_counter g)) ;;;
              let! index := shared allocator (OPtrs (replicate (Z.to_nat cores) NULL)) in
              sys_set_children index ;;;
              match index with
              | None => write ERROR "Can't create children index.\n" ;;; ret (-1)
              | Some _ =>
                  let! ok := init_children_from (Z.to_nat cores) 0 in
                  if negb ok then ret (-1)
                  else
                    let! s := gets w_sys in
                    sys_set_run stop_ptr run_mode e (table_set s) ;;;
                    update_state (fun g => MkGlobal (running_children g) counter) ;;;
                    sys_set_run stop_ptr run_mode e TRUE ;;;
                    ret 0
              end
          end
      end
  end.
End syscall.
