(* ===== verification/SyscallLife.v ===== *)
(** * SyscallLife: how children are started, jump back and exit

    The theorems about the process life cycle of syscall/syscall.c: the epoch
    sections a child has open along its way, the slots of the table of
    children and the counter of running children. *)

From S2P Require Import Prelude Types CWorld Memory Realloc Epoch Crypto Utils ArgTypes EntriesFreebsd EntriesMac.
From S2P Require Import EntriesLinux SetTest Child Generate Mutate Signals Log SyscallTable Syscall.

(** ** What the section operations leave alone *)

(** Objects that are not part of the epoch module. *)
Definition outer (o : hobj) : Prop :=
  match o with OThread _ | ORecord _ | OSection _ | OEpoch _ => False | _ => True end.

(** Everything outside the epoch module is as before; [arr] is the thread's
    array of sections. *)
Record undisturbed (arr : loc) (w w' : world) : Prop := {
  ud_heap : forall x o, outer o -> x <> arr -> w_heap w !! x = Some o -> w_heap w' !! x = Some o;
  ud_sys : w_sys w' = w_sys w;
  ud_entries : w_entries w' = w_entries w;
  ud_pid : w_pid w' = w_pid w
}.

#[export] Instance undisturbed_preorder arr : PreOrder (undisturbed arr).
Proof. split; [intros w; by split|]. intros w1 w2 w3 [] []. split; [auto|congruence..]. Qed.

Lemma undisturbed_env arr w w' : env_step w w' -> undisturbed arr w w'.
Proof. intros (o & x & ->). by split. Qed.

Section sections.
Context (th rl arr ep : loc).

Lemma thread_outer h ps ss x o :
  thread_ok h th rl arr ep ps ss -> outer o -> h !! x = Some o ->
  x <> th /\ x <> rl /\ (x ∉ ss.*1) /\ x <> ep.
Proof.
  intros [Ht _ (r & Hr & _) (g & Hg) (_ & Hs) _] Ho Hx. split_and!; [by intros ->; simplify_eq..| |by intros ->; simplify_eq].
  intros Hin. apply list_elem_of_lookup in Hin as (k & Hk). rewrite list_lookup_fmap in Hk.
  destruct (ss !! k) as [[y b]|] eqn:E; [|done]. injection Hk as ->.
  destruct (Hs _ _ _ E) as (_ & Hl & _). by simplify_eq.
Qed.

Lemma section_start w n :
  open_sections w th rl arr ep n -> (n < 8)%nat ->
  exists w', epoch_start (Some th) default_allocator w = Ret 0 w' /\ open_sections w' th rl arr ep (S n) /\
    undisturbed arr w w' /\ w_oracle w' = tl (w_oracle w) /\ w_fds w' = w_fds w /\ w_events w' = w_events w.
Proof.
  intros (ps & ss & Hok & Hps & <- & Ho & Hwf) Hn.
  destruct (epoch_start_spec _ _ _ _ _ _ _ Ho Hwf Hok ltac:(lia)) as (w' & b & Hrun & Hok' & Ho' & Hwf' & Hf & h' & ->).
  eexists. split; [exact Hrun|]. split_and!; [| |done..].
  - do 2 eexists. split; [exact Hok'|]. rewrite length_insert, length_app. cbn. split_and!; [done|lia|done..].
  - split; try done. intros x o Hout Hx Hl. destruct (thread_outer _ _ _ _ _ Hok Hout Hl) as (? & ? & _).
    pose proof (heap_wf_lt _ _ _ Hwf Hl). rewrite Hf by (done || lia). done.
Qed.

Lemma section_stop w n :
  open_sections w th rl arr ep (S n) ->
  exists w', epoch_stop (Some th) default_allocator w = Ret tt w' /\ open_sections w' th rl arr ep n /\
    undisturbed arr w w' /\ w_oracle w' = w_oracle w /\ w_fds w' = w_fds w /\ w_events w' = w_events w.
Proof.
  intros (ps & ss & Hok & Hps & Hss & Ho & Hwf).
  destruct ss as [|[l b] ss _] using rev_ind; [done|]. rewrite length_app, Nat.add_comm in Hss. injection Hss as <-.
  destruct (epoch_stop_spec _ _ _ _ _ _ _ _ _ Hok) as (h' & Hrun & Hok' & _ & Hf).
  eexists. split; [exact Hrun|]. split_and!; [| |done..].
  - do 2 eexists. split; [exact Hok'|]. rewrite length_insert. split_and!; [done..|].
    by apply (heap_wf_shrinks _ _ _ _ (epoch_stop_shrinks th) Hrun).
  - split; try done. intros x o Hout Hx Hl. destruct (thread_outer _ _ _ _ _ Hok Hout Hl) as (? & ? & Hin & _).
    cbn. rewrite Hf; [done..|]. intros ->. apply Hin. rewrite fmap_app, elem_of_app. right. by left.
Qed.

(** Stopping with no section open takes the count below zero: it wraps, and
    the slot is far outside the array. *)
Lemma section_stop_none w :
  open_sections w th rl arr ep 0 -> epoch_stop (Some th) default_allocator w = Crash.
Proof.
  intros (ps & ss & [Ht Harr _ _ _ Hsm] & Hps & Hss & _). destruct ss; [|done]. cbn in Ht.
  unfold epoch_stop. erewrite bind_eq by (by apply load_thread_eq).
  erewrite bind_eq by (by eapply store_eq). erewrite bind_eq by (apply load_thread_eq; apply lookup_insert_eq).
  cbn [section_count th_section th_record]. unfold end_section. apply bind_crash. cbn [th_section].
  eapply load_elem_oob; [cbn; rewrite lookup_insert_ne by congruence; exact Harr|].
  apply nth_z_ge. rewrite Hps. vm_compute. discriminate.
Qed.

(** The thread, its record, its array of sections and the sections it had open
    in [w], [n] of them, are not allocated in [w'], nor is a section started
    in [w]. *)
Definition thread_released (w w' : world) (n : nat) : Prop :=
  w_heap w' !! th = None /\ w_heap w' !! rl = None /\ w_heap w' !! arr = None /\ w_heap w' !! w_next w = None /\
  forall aps i l, w_heap w !! arr = Some (OPtrs aps) -> (i < n)%nat -> aps !! i = Some (Some l) -> w_heap w' !! l = None.

(** Leaving: one section more is started, then all are stopped and the thread
    is cleaned up. *)
Lemma leave_run w n :
  open_sections w th rl arr ep n -> (n < 8)%nat ->
  exists w1, epoch_start (Some th) default_allocator w = Ret 0 w1 /\ open_sections w1 th rl arr ep (S n) /\
    undisturbed arr w w1 /\
    forall w2 (A : Type) (k : M A), env_step w1 w2 -> oracle_ok w2 ->
      exists w4, (stop_all_sections (Some th) default_allocator ;;;
         let! _ := clean_thread (Some th) default_allocator in k) w2 = k w4 /\
        undisturbed arr w1 w4 /\ thread_released w w4 n.
Proof.
  intros (ps & ss & Hok & Hps & <- & Ho & Hwf) Hn.
  destruct (epoch_start_spec _ _ _ _ _ _ _ Ho Hwf Hok ltac:(lia)) as (w1 & b & Hrun & Hok1 & Ho1 & Hwf1 & Hf1 & h1 & ->).
  exists (set_heap h1 (set_next (Pos.succ (w_next w)) (asked w))). split; [exact Hrun|]. split_and!.
  { do 2 eexists. split; [exact Hok1|]. rewrite length_insert, length_app. cbn. split_and!; [done|lia|done..]. }
  { split; try done. intros x o Hout Hx Hl. destruct (thread_outer _ _ _ _ _ Hok Hout Hl) as (? & ? & _).
    pose proof (heap_wf_lt _ _ _ Hwf Hl). rewrite Hf1 by (done || lia). done. }
  intros w2 A k (o & x & ->) Ho2. cbn in Hok1. set (w2 := set_out x _) in *.
  destruct (stop_all_spec _ _ _ _ w2 _ _ Hok1) as (h3 & ps3 & R3 & Hok3 & _ & Hgone & Hf3).
  erewrite bind_eq by exact R3. pose proof Hok3 as [_ _ _ (g & Hg) _ _].
  destruct (clean_thread_spec (set_heap h3 w2) _ _ _ _ _ _ Hok3 Hg) as (h4 & R4 & G1 & G2 & G3 & G4 & Hf4).
  erewrite bind_eq by exact R4. eexists. split; [reflexivity|]. split.
  - split; try done. intros y oy Hout Hy Hl. destruct (thread_outer _ _ _ _ _ Hok1 Hout Hl) as (? & ? & ? & ?).
    cbn. rewrite Hf4 by done. cbn. by rewrite Hf3.
  - assert (Hdrop : forall l, h3 !! l = None -> l <> ep -> h4 !! l = None).
    { intros l H3 Hep. destruct (decide (l = th)) as [->|]; [done|]. destruct (decide (l = arr)) as [->|]; [done|].
      destruct (decide (l = rl)) as [->|]; [done|]. by rewrite Hf4. }
    cbn. split_and!; [done..| |].
    + apply Hdrop; [apply Hgone; rewrite fmap_app; set_solver|]. intros He. destruct Hok as [_ _ _ (g0 & Hg0) _ _].
      rewrite <- He, Hwf in Hg0; [done|lia].
    + intros aps i l Haps Hi Hl. destruct Hok as [_ Ha _ (g0 & Hg0) (_ & Hsec) _].
      assert (aps = ps) as -> by congruence. destruct (lookup_lt_is_Some_2 ss i Hi) as [[l' b'] Hs].
      destruct (Hsec _ _ _ Hs) as (E1 & E2 & _). cbn in E1. assert (l' = l) as -> by (unfold ptr in *; congruence).
      apply Hdrop; [|congruence]. apply Hgone. rewrite fmap_app, elem_of_app. left. apply list_elem_of_fmap.
      exists (l, b'). split; [done|]. by eapply list_elem_of_lookup_2.
Qed.

Lemma open_sections_env w w' n :
  env_step w w' -> oracle_ok w' -> open_sections w th rl arr ep n -> open_sections w' th rl arr ep n.
Proof.
  intros (o & x & ->) Ho (ps & ss & Hok & Hps & Hss & _ & Hwf). exists ps, ss. by split_and!.
Qed.
End sections.

(** ** Jumping back *)

(** Argument types [free_old_arguments] has nothing to do for. *)
Definition plain_type (t : arg_type) : bool :=
  match t with FILE_DESC | FILE_PATH | DIR_PATH | SOCKET | VOID_BUF => false | _ => true end.

(** The child's context is at [cl], and the call it has picked takes plain
    arguments only. *)
Definition plain_call (w : world) (tl : loc) (t : syscall_table) (cl : loc) (c : child_ctx) : Prop :=
  table_ready w tl t /\ w_heap w !! cl = Some (OChild c) /\ 0 <= child_syscall_number c < total_syscalls t /\
  exists k e, nth_z (sys_entry t) (child_syscall_number c) = Some (Some k) /\ w_entries w !! k = Some e /\
    ready e /\ 0 <= child_total_args c <= total_args e /\ forallb plain_type (take (Z.to_nat (total_args e)) (arg_type_array e)) = true.

Lemma table_undisturbed arr w w' tl t :
  undisturbed arr w w' -> tl <> arr -> table_ready w tl t -> table_ready w' tl t.
Proof.
  intros Hu Hne (Hst & Htl & Htot & Hent). unfold table_ready. rewrite (ud_sys _ _ _ Hu), (ud_entries _ _ _ Hu).
  split_and!; try done; try lia. by apply (ud_heap _ _ _ Hu).
Qed.

Lemma plain_call_undisturbed arr w w' tl t cl c :
  undisturbed arr w w' -> tl <> arr -> cl <> arr -> plain_call w tl t cl c -> plain_call w' tl t cl c.
Proof.
  intros Hu H1 H2 (Htab & Hcl & Hnum & Hent). unfold plain_call. rewrite (ud_entries _ _ _ Hu).
  split_and!; try done; try lia; [by eapply table_undisturbed|]. by apply (ud_heap _ _ _ Hu).
Qed.

Lemma get_entry_eq w tl t num k :
  table_ready w tl t -> num < total_syscalls t -> nth_z (sys_entry t) num = Some (Some k) ->
  get_entry num w = Ret (Some k) w.
Proof.
  intros (Hst & Htl & Htot & _) Hnum Hk. unfold get_entry. erewrite bind_eq by reflexivity. rewrite Hst.
  erewrite bind_eq by (by apply load_table_eq). rewrite (proj2 (Z.ltb_ge _ _)) by lia.
  unfold load_sys_entry. by rewrite Hk.
Qed.

Section jumping.
Context (rsrc_gen : resource_generator).

Lemma free_args_plain w cl c k e n : forall i : nat,
  w_heap w !! cl = Some (OChild c) -> w_entries w !! k = Some e -> ready e ->
  (i + n <= Z.to_nat (total_args e))%nat -> forallb plain_type (take (Z.to_nat (total_args e)) (arg_type_array e)) = true ->
  free_args_from rsrc_gen default_allocator n (Z.of_nat i) (Some cl) (Some k) w = Ret tt w.
Proof.
  induction n as [|n IH]; intros i Hc He Hr Hn Hplain; cbn [free_args_from]; [done|].
  pose proof Hr as (_ & _ & _ & _ & Hctx). destruct (Hctx i) as (ctx & Hci & Hti); [lia|].
  erewrite bind_eq by (by apply deref_entry_eq). rewrite nth_z_nat, Hci. cbn [need].
  erewrite bind_eq by reflexivity. erewrite bind_eq by reflexivity. erewrite bind_eq by (by apply load_child_eq).
  assert (Hp : plain_type (ctx_type ctx) = true).
  { rewrite forallb_forall in Hplain. apply Hplain, list_elem_of_In.
    apply (list_elem_of_lookup_2 _ i). rewrite lookup_take_lt by lia. done. }
  rewrite (bind_eq _ _ _ tt w) by (by destruct (ctx_type ctx)).
  replace (Z.of_nat i + 1) with (Z.of_nat (S i)) by lia. apply IH; try done; lia.
Qed.

Lemma free_old_plain w tl t cl c :
  plain_call w tl t cl c -> free_old_arguments rsrc_gen default_allocator (Some cl) w = Ret 0 w.
Proof.
  intros (Htab & Hc & Hnum & k & e & Hk & He & Hr & Htot & Hplain). unfold free_old_arguments.
  erewrite bind_eq by (by apply load_child_eq). erewrite bind_eq by (eapply get_entry_eq; [done|lia|done]).
  cbv beta iota. erewrite bind_eq by (eapply (free_args_plain _ _ _ _ _ _ 0%nat); try done; lia). done.
Qed.

Lemma log_results_ok had_error r s w :
  oracle_ok w -> exists w', log_results had_error r (Some s) w = Ret 0 w' /\ env_step w w' /\ oracle_ok w'.
Proof.
  intros Ho. unfold log_results, asprintf. rewrite bind_assoc. erewrite bind_eq by reflexivity. cbv beta.
  rewrite oracle_ok_hd by done. erewrite bind_eq by reflexivity. eexists. split; [reflexivity|].
  split; [by eexists _, _|]. exact (oracle_ok_tl _ Ho).
Qed.

(** The cleanup after a jump, up to the last [epoch_stop]. *)
Lemma after_jump_run strsignal w th rl arr ep n tl t cl c rtrn :
  0 <= rtrn ->
  open_sections w th rl arr ep n -> (n < 8)%nat -> plain_call w tl t cl c -> tl <> arr -> cl <> arr ->
  child_did_jump c = NX_YES -> is_Some (strsignal (child_sig_num c)) ->
  exists w', after_setjmp rsrc_gen strsignal default_allocator (Some cl) (Some th) rtrn w =
      epoch_stop (Some th) default_allocator w' /\
    open_sections w' th rl arr ep n /\ undisturbed arr w w'.
Proof.
  intros Hrt Hop Hn Hcall N1 N2 Hj [s Hs]. unfold after_setjmp. rewrite (proj2 (Z.ltb_ge rtrn 0) Hrt).
  erewrite bind_eq by reflexivity.
  erewrite bind_eq by (apply load_child_eq; apply Hcall). rewrite decide_True by done.
  destruct (section_start _ _ _ _ _ _ Hop Hn) as (w1 & R1 & O1 & U1 & _).
  pose proof (plain_call_undisturbed _ _ _ _ _ _ _ U1 N1 N2 Hcall) as C1.
  rewrite bind_assoc. erewrite bind_eq by exact R1. rewrite bind_assoc.
  erewrite bind_eq by (apply load_child_eq; apply C1). rewrite Hs.
  destruct (log_results_ok (child_had_error c) (child_ret_value c) s w1) as (w2 & R2 & E2 & Ho2).
  { by destruct O1 as (? & ? & _ & _ & _ & ? & _). }
  rewrite bind_assoc. erewrite bind_eq by exact R2. rewrite bind_assoc. erewrite bind_eq by reflexivity.
  pose proof (undisturbed_env arr _ _ E2) as U2.
  pose proof (open_sections_env _ _ _ _ _ _ _ E2 Ho2 O1) as O2.
  rewrite bind_assoc.
  erewrite bind_eq by (eapply free_old_plain, (plain_call_undisturbed _ _ _ _ _ _ _ U2 N1 N2), C1).
  rewrite bind_assoc. erewrite bind_eq by reflexivity.
  destruct (section_stop _ _ _ _ _ _ O2) as (w3 & R3 & O3 & U3 & _).
  erewrite bind_eq by exact R3. exists w3. split_and!; [done..|]. etrans; [done|]. by etrans.
Qed.
End jumping.

(** The code after [setjmp] stops one section more than it starts.  On
    the first way through one section is open and none is left; after a
    signal, which arrives while no section is open, the last [epoch_stop]
    takes the count of sections below zero and reads outside the array.
    (Stated for calls whose arguments need no cleanup; [n] is the number of
    sections open at the [setjmp].) *)
Theorem jump_back_underflows rsrc_gen strsignal w th rl arr ep n tl t cl c rtrn :
  0 <= rtrn ->
  open_sections w th rl arr ep n -> (n < 8)%nat -> plain_call w tl t cl c -> tl <> arr -> cl <> arr ->
  child_did_jump c = NX_YES -> is_Some (strsignal (child_sig_num c)) ->
  match n with
  | O => after_setjmp rsrc_gen strsignal default_allocator (Some cl) (Some th) rtrn w = Crash
  | S m => exists w', after_setjmp rsrc_gen strsignal default_allocator (Some cl) (Some th) rtrn w = Ret tt w' /\
      open_sections w' th rl arr ep m /\ undisturbed arr w w'
  end.
Proof.
  intros Hrt Hop Hn Hcall N1 N2 Hj Hs.
  destruct (after_jump_run rsrc_gen strsignal _ _ _ _ _ _ _ _ _ _ _ Hrt Hop Hn Hcall N1 N2 Hj Hs) as (w' & -> & Hop' & Hu).
  destruct n as [|m]; [by eapply section_stop_none|].
  destruct (section_stop _ _ _ _ _ _ Hop') as (w'' & Hrun & Hop'' & Hu' & _).
  exists w''. split_and!; [done..|]. by etrans.
Qed.

(** ** Counting the children *)

(** The counter is the number of slots that carry a process id. *)
Definition counted (g : global_state) (cs : list child_ctx) : Prop :=
  Z.of_nat (length cs) < 2 ^ 32 /\
  running_children g = Z.of_nat (length (filter (fun c => child_pid c <> EMPTY) cs)).

Lemma filter_alter_length cs k c pid :
  cs !! k = Some c ->
  Z.of_nat (length (filter (fun c => child_pid c <> EMPTY) (alter (with_pid pid) k cs))) =
  Z.of_nat (length (filter (fun c => child_pid c <> EMPTY) cs))
    + (if pid =? EMPTY then 0 else 1) - (if child_pid c =? EMPTY then 0 else 1).
Proof.
  revert k; induction cs as [|c0 cs IH]; intros [|k] Hk; try done.
  - cbn in Hk. injection Hk as ->. change (alter (with_pid pid) 0%nat (c :: cs)) with (with_pid pid c :: cs).
    assert (Hp : child_pid (with_pid pid c) = pid) by (by destruct c).
    rewrite !filter_cons, Hp. destruct (Z.eqb_spec pid EMPTY), (Z.eqb_spec (child_pid c) EMPTY);
      repeat case_decide; try tauto; cbn [length]; lia.
  - cbn in Hk. change (alter (with_pid pid) (S k) (c0 :: cs)) with (c0 :: alter (with_pid pid) k cs).
    rewrite !filter_cons. case_decide; cbn [length]; rewrite ?Nat2Z.inj_succ, (IH _ Hk); lia.
Qed.

Lemma filter_taken_le cs :
  (length (filter (fun c => child_pid c <> EMPTY) cs) <= length cs)%nat.
Proof. apply length_filter. Qed.

Lemma counted_taken g cs k c pid :
  counted g cs -> cs !! k = Some c -> child_pid c = EMPTY -> pid <> EMPTY ->
  counted (add_running 1 g) (alter (with_pid pid) k cs).
Proof.
  intros [Hl Hr] Hc He Hp. split; [by rewrite length_alter|]. rewrite (filter_alter_length _ _ _ _ Hc), He.
  rewrite Z.eqb_refl, (proj2 (Z.eqb_neq _ _) Hp). cbn [running_children add_running]. rewrite Hr.
  pose proof (filter_taken_le (alter (with_pid pid) k cs)) as Hle.
  pose proof (filter_alter_length cs k c pid Hc) as Hf. rewrite He, Z.eqb_refl, (proj2 (Z.eqb_neq _ _) Hp) in Hf.
  rewrite length_alter in Hle. rewrite u32_small by lia. lia.
Qed.

Lemma counted_empty g cs k c :
  counted g cs -> cs !! k = Some c -> child_pid c <> EMPTY ->
  counted (add_running (-1) g) (alter (with_pid EMPTY) k cs).
Proof.
  intros [Hl Hr] Hc He. split; [by rewrite length_alter|].
  pose proof (filter_alter_length cs k c EMPTY Hc) as Hf. rewrite Z.eqb_refl, (proj2 (Z.eqb_neq _ _) He) in Hf.
  rewrite Hf. cbn [running_children add_running]. rewrite Hr. pose proof (filter_taken_le cs) as Hle.
  rewrite u32_small by lia. lia.
Qed.

(** ** Exiting *)

(** The table of children, the state and the thread of a process. *)
Record process (w : world) (th rl arr ep carr sl : loc) (ps : list ptr) (cs : list child_ctx)
    (g : global_state) (n : nat) : Prop := {
  pr_sections : open_sections w th rl arr ep n;
  pr_children : children_distinct w carr ps cs;
  pr_apart : carr <> arr;
  pr_state : sys_state (w_sys w) = Some sl;
  pr_global : w_heap w !! sl = Some (OGlobal g)
}.

Lemma children_undisturbed arr w w' carr ps cs :
  undisturbed arr w w' -> children_distinct w carr ps cs -> carr <> arr ->
  (exists ps', w_heap w !! arr = Some (OPtrs ps')) -> children_distinct w' carr ps cs.
Proof.
  intros Hu [(Hch & Harr & Htot & Hall) Hnd] Hne [ps' Hps']. split; [|done]. unfold children_ok.
  rewrite (ud_sys _ _ _ Hu). split_and!; [done|by apply (ud_heap _ _ _ Hu)|done|].
  eapply Forall2_impl; [exact Hall|]. intros p c (l & -> & Hl). exists l. split; [done|].
  apply (ud_heap _ _ _ Hu); [done| |done]. congruence.
Qed.

Lemma open_sections_array w th rl arr ep n :
  open_sections w th rl arr ep n -> exists ps, w_heap w !! arr = Some (OPtrs ps).
Proof. intros (ps & ss & [_ Ha _ _ _ _] & _). by exists ps. Qed.

Lemma process_undisturbed w w' th rl arr ep carr sl ps cs g n m :
  process w th rl arr ep carr sl ps cs g n -> undisturbed arr w w' -> open_sections w' th rl arr ep m ->
  process w' th rl arr ep carr sl ps cs g m.
Proof.
  intros [Hs Hc Ha Hst Hg] Hu Hop. pose proof (open_sections_array _ _ _ _ _ _ Hs) as [aps Haps]. split; [done|..].
  - eapply children_undisturbed; eauto.
  - done.
  - by rewrite (ud_sys _ _ _ Hu).
  - apply (ud_heap _ _ _ Hu); [done| |done]. congruence.
Qed.

(** [get_child], in terms of the list of contexts. *)
Lemma get_child_run w arr ps cs :
  children_ok w arr ps cs ->
  get_child w = match first_pid cs (w_pid w) with
    | Some k => Ret (default NULL (ps !! k)) w
    | None => Ret NULL (set_out ((ERROR, "Can't grab child number\n") :: w_out w) w)
    end.
Proof.
  intros Hok. pose proof Hok as (Hch & Harr & Htot & Hall).
  unfold get_child, get_child_index_number. rewrite !bind_assoc.
  erewrite bind_eq by reflexivity. rewrite bind_assoc. erewrite bind_eq by reflexivity.
  rewrite Htot, Nat2Z.id. erewrite bind_eq by (apply (find_pid_spec _ _ _ _ _ Hok _ 0%nat); done).
  rewrite drop_0. destruct (first_pid cs (w_pid w)) as [k|] eqn:Hk; cbn -[Z.of_nat]; [|done].
  destruct (first_pid_spec _ _ _ Hk) as (c & Hc & _). erewrite bind_eq by reflexivity. rewrite Hch.
  destruct (Forall2_lookup_r _ _ _ _ _ Hall Hc) as (p & Hp & l & -> & Hl).
  erewrite load_elem_eq; [|exact Harr|by rewrite nth_z_nat]. unfold ptr in *. by rewrite Hp.
Qed.

Lemma update_state_eq w sl g f :
  sys_state (w_sys w) = Some sl -> w_heap w !! sl = Some (OGlobal g) ->
  update_state f w = Ret tt (set_heap (<[sl := OGlobal (f g)]> (w_heap w)) w).
Proof.
  intros Hs Hg. unfold update_state. erewrite bind_eq by reflexivity. rewrite Hs.
  erewrite bind_eq by (by apply load_global_eq). by eapply store_eq.
Qed.

Lemma children_store_other w sl o arr ps cs :
  children_distinct w arr ps cs -> (exists g, w_heap w !! sl = Some (OGlobal g)) ->
  children_distinct (set_heap (<[sl := o]> (w_heap w)) w) arr ps cs.
Proof.
  intros [(Hch & Harr & Htot & Hall) Hnd] [g Hg]. split; [|done]. split_and!; [done| |done|].
  - cbn. rewrite lookup_insert_ne; [done|congruence].
  - eapply Forall2_impl; [exact Hall|]. intros p c (l & -> & Hl). exists l. split; [done|].
    cbn. rewrite lookup_insert_ne; [done|congruence].
Qed.

(** Giving a slot a process id and counting the change. *)
Lemma slot_update w sl g carr ps cs k l pid d :
  children_distinct w carr ps cs -> ps !! k = Some (Some l) ->
  sys_state (w_sys w) = Some sl -> w_heap w !! sl = Some (OGlobal g) ->
  exists w', (set_child_pid (Some l) pid ;;; update_state (add_running d)) w = Ret tt w' /\
    children_distinct w' carr ps (alter (with_pid pid) k cs) /\ w_heap w' !! sl = Some (OGlobal (add_running d g)) /\
    (exists h, w' = set_heap h w /\ forall x, w_heap w !! x = None -> h !! x = None).
Proof.
  intros Hch Hk Hst Hg. pose proof Hch as [(_ & _ & _ & Hall) _].
  destruct (Forall2_lookup_l _ _ _ _ _ Hall Hk) as (c & Hc & l' & Heq & Hl). injection Heq as <-.
  assert (sl <> l) by congruence.
  unfold set_child_pid. erewrite bind_eq by (by apply update_child_eq).
  erewrite update_state_eq; [|done|cbn; by rewrite lookup_insert_ne by done].
  eexists. split; [reflexivity|]. rewrite (alter_insert_eq _ _ _ _ Hc). split_and!.
  - apply children_store_other; [by apply children_ok_update|]. exists g. cbn. by rewrite lookup_insert_ne by done.
  - cbn. apply lookup_insert_eq.
  - eexists. split; [done|]. intros x Hx. cbn. rewrite !lookup_insert_ne; [done|congruence..].
Qed.

(** (C9) A child that exits gives its slot back: the sections it has open and the
    one it starts are stopped and freed, its thread, the thread's record and
    the array of sections are freed, the first slot that carries its process id
    becomes empty, the counter of running children goes down by one (so it
    still counts the taken slots), and the process exits with status 0.  (It
    has fewer than eight sections open, and its allocations are granted.)  When
    no slot carries the process's id, the cleanup dereferences the [NULL] it
    got for its context. *)
Theorem exit_child_correct w th rl arr ep carr sl ps cs g n :
  process w th rl arr ep carr sl ps cs g n -> (n < 8)%nat ->
  match first_pid cs (w_pid w) with
  | Some k => exists w', exit_child (A := unit) default_allocator (Some th) w = Exit 0 w' /\
      children_distinct w' carr ps (alter (with_pid EMPTY) k cs) /\
      w_heap w' !! sl = Some (OGlobal (add_running (-1) g)) /\ thread_released th rl arr w w' n /\
      (w_pid w <> EMPTY -> counted g cs -> counted (add_running (-1) g) (alter (with_pid EMPTY) k cs))
  | None => exit_child (A := unit) default_allocator (Some th) w = Crash
  end.
Proof.
  intros Hp Hn. unfold exit_child.
  destruct (leave_run _ _ _ _ _ _ (pr_sections _ _ _ _ _ _ _ _ _ _ _ Hp) Hn) as (w1 & R1 & O1 & U1 & Hclean).
  pose proof (process_undisturbed _ _ _ _ _ _ _ _ _ _ _ _ _ Hp U1 O1) as P1.
  erewrite bind_eq by exact R1. rewrite <- !(ud_pid _ _ _ U1).
  assert (G := get_child_run _ _ _ _ (proj1 (pr_children _ _ _ _ _ _ _ _ _ _ _ P1))).
  assert (Ho1 : oracle_ok w1) by (by destruct O1 as (? & ? & _ & _ & _ & ? & _)).
  destruct (first_pid cs (w_pid w1)) as [k|] eqn:Hk.
  - destruct (first_pid_spec _ _ _ Hk) as (c & Hc & _). pose proof (pr_children _ _ _ _ _ _ _ _ _ _ _ P1) as Hd.
    pose proof Hd as [(_ & _ & _ & Hall) _].
    destruct (Forall2_lookup_r _ _ _ _ _ Hall Hc) as (p & Hpk & l & -> & Hl).
    unfold ptr in *. rewrite Hpk in G. cbn [default id] in G. erewrite bind_eq by exact G. cbv beta iota.
    erewrite bind_eq by reflexivity.
    match goal with |- context [clean_thread _ _ ;;; ?K] =>
      destruct (Hclean w1 unit K (env_step_refl _) Ho1) as (w4 & -> & U4 & D4) end.
    destruct P1 as [_ _ Hap Hst1 Hg1]. pose proof (open_sections_array _ _ _ _ _ _ O1) as [aps Haps].
    destruct (slot_update w4 sl g carr ps cs k l EMPTY (-1)) as (w5 & R5 & D5 & G5 & h5 & E5 & N5).
    { eapply children_undisturbed; eauto. }
    { done. }
    { by rewrite (ud_sys _ _ _ U4). }
    { apply (ud_heap _ _ _ U4); [done|congruence|done]. }
    rewrite <- bind_assoc. erewrite bind_eq by exact R5. erewrite bind_eq by reflexivity.
    eexists. split; [reflexivity|]. split_and!; [by apply (children_ok_env w5)|done| |].
    { subst w5. destruct D4 as (Z1 & Z2 & Z3 & Z4 & Z5). split_and!; [by apply N5..|]. intros aps' i x H1 H2 H3. eapply N5, Z5; eauto. }
    intros Hne Hcnt. apply (counted_empty _ _ _ c); [done..|].
    destruct (first_pid_spec _ _ _ Hk) as (c' & Hc' & Hpid & _). congruence.
  - erewrite bind_eq by exact G. cbv beta iota. unfold NULL. erewrite bind_eq by reflexivity.
    match goal with |- (stop_all_sections _ _ ;;; clean_thread _ _ ;;; ?K) ?w2 = _ =>
      destruct (Hclean w2 unit K) as (w4 & -> & _) end; [|exact Ho1|done].
    eexists (w_oracle w1), _. by destruct w1.
Qed.

(** ** Starting children *)

Lemma open_sections_store w th rl arr ep n l o o' :
  open_sections w th rl arr ep n -> w_heap w !! l = Some o -> outer o -> l <> arr ->
  open_sections (set_heap (<[l := o']> (w_heap w)) w) th rl arr ep n.
Proof.
  intros (ps & ss & Hok & Hps & Hss & Ho & Hwf) Hl Hout Hne.
  destruct (thread_outer _ _ _ _ _ _ _ _ _ Hok Hout Hl) as (N1 & N2 & N3 & N4).
  destruct Hok as [Ht Ha (r & Hr & Hrok) (g & Hg) (Hnd & Hs) Hsm].
  exists ps, ss. split_and!; [|done..|].
  - split; cbn; try (rewrite lookup_insert_ne by done); try done.
    + by exists r.
    + by exists g.
    + split; [done|]. intros k x b Hk. destruct (Hs _ _ _ Hk) as (G1 & G2 & G3). split_and!; [done| |done].
      rewrite lookup_insert_ne; [done|]. intros <-. apply N3. rewrite list_elem_of_fmap.
      exists (l, b). split; [done|]. by eapply list_elem_of_lookup_2.
  - apply heap_wf_set_heap; [done|]. rewrite dom_insert_lookup_L; [done|]. by eexists.
Qed.

(** The pid of slot [k] is set and the counter changed: the process is as
    before otherwise. *)
Lemma register_run w th rl arr ep carr sl ps cs g n k l pid :
  process w th rl arr ep carr sl ps cs g n -> ps !! k = Some (Some l) ->
  exists w', register_child (Z.of_nat k) pid w = Ret tt w' /\
    process w' th rl arr ep carr sl ps (alter (with_pid pid) k cs) (add_running 1 g) n /\
    w_fds w' = w_fds w /\ w_oracle w' = w_oracle w /\ w_events w' = w_events w.
Proof.
  intros [Hop Hch Hap Hst Hg] Hk. unfold register_child. erewrite bind_eq by reflexivity.
  pose proof Hch as [(Hc & Harr & _ & Hall) _]. rewrite Hc.
  erewrite bind_eq by (eapply load_elem_eq; [exact Harr|by rewrite nth_z_nat]).
  pose proof (open_sections_array _ _ _ _ _ _ Hop) as [aps Haps].
  destruct (Forall2_lookup_l _ _ _ _ _ Hall Hk) as (c & Hck & l' & Heq & Hl). injection Heq as <-.
  destruct (slot_update w sl g carr ps cs k l pid 1 Hch Hk Hst Hg) as (w' & Hrun & Hd & Hg' & h & -> & _).
  eexists. split; [exact Hrun|]. split; [|done]. split; [|done..].
  unfold set_child_pid in Hrun. erewrite bind_eq in Hrun by (by apply update_child_eq).
  assert (sl <> l) by congruence.
  erewrite update_state_eq in Hrun; [|done|cbn; by rewrite lookup_insert_ne by done].
  injection Hrun as <-.
  pose proof (open_sections_store (set_heap (<[l := OChild (with_pid pid c)]> (w_heap w)) w) th rl arr ep n sl
    (OGlobal g) (OGlobal (add_running 1 g))) as Hkeep.
  apply Hkeep; clear Hkeep.
  - eapply open_sections_store; [done|exact Hl|done|congruence].
  - cbn. rewrite lookup_insert_ne by done. exact Hg.
  - done.
  - congruence.
Qed.

Section creating.
Context (H : headers) (R : resources) (rsrc_gen : resource_generator) (strsignal : Z -> option string).
Context (random : random_generator).
Context (th rl arr ep carr sl : loc) (ps : list ptr).
#[local] Abbreviation create_from := (create_child_from H R rsrc_gen strsignal default_allocator random).

(** Looking at one slot. *)
Lemma scan_slot w cs g n k c fuel q :
  process w th rl arr ep carr sl ps cs g n -> (n < 8)%nat -> cs !! k = Some c ->
  exists w', create_from fuel (S q) (Z.of_nat k) (Some th) w =
      (if negb (child_pid c =? EMPTY) then create_from fuel q (Z.of_nat (S k)) (Some th)
       else fork_child H R rsrc_gen strsignal default_allocator random fuel (Some th) (Z.of_nat k)) w' /\
    process w' th rl arr ep carr sl ps cs g n /\ w_oracle w' = List.tl (w_oracle w) /\ w_fds w' = w_fds w /\
    w_events w' = w_events w.
Proof.
  intros Hp Hn Hc. cbn [create_child_from].
  destruct (section_start _ _ _ _ _ _ (pr_sections _ _ _ _ _ _ _ _ _ _ _ Hp) Hn) as (w1 & R1 & O1 & U1 & T1 & F1 & E1).
  pose proof (process_undisturbed _ _ _ _ _ _ _ _ _ _ _ _ _ Hp U1 O1) as P1.
  erewrite bind_eq by exact R1. cbn [Z.eqb]. cbv beta iota. erewrite bind_eq by reflexivity.
  pose proof (pr_children _ _ _ _ _ _ _ _ _ _ _ P1) as [(Hch & Harr & _ & Hall) _]. rewrite Hch.
  destruct (Forall2_lookup_r _ _ _ _ _ Hall Hc) as (p & Hpk & l & -> & Hl).
  erewrite bind_eq by (eapply load_elem_eq; [exact Harr|by rewrite nth_z_nat]).
  erewrite bind_eq by (by apply load_child_eq).
  destruct (section_stop _ _ _ _ _ _ O1) as (w2 & R2 & O2 & U2 & T2 & F2 & E2).
  erewrite bind_eq by exact R2. exists w2. split_and!.
  - by replace (Z.of_nat k + 1) with (Z.of_nat (S k)) by lia.
  - by eapply process_undisturbed.
  - congruence.
  - congruence.
  - congruence.
Qed.

(** Slots that are taken are passed over. *)
Lemma scan_taken m : forall w cs g n k pre rest fuel q,
  process w th rl arr ep carr sl ps cs g n -> (n < 8)%nat ->
  (forall j, (j < m)%nat -> exists c, cs !! (k + j)%nat = Some c /\ child_pid c <> EMPTY) ->
  w_oracle w = pre ++ rest -> length pre = m ->
  exists w', create_from fuel (m + q) (Z.of_nat k) (Some th) w =
      create_from fuel q (Z.of_nat (k + m)) (Some th) w' /\
    process w' th rl arr ep carr sl ps cs g n /\ w_oracle w' = rest /\ w_fds w' = w_fds w /\ w_events w' = w_events w.
Proof.
  induction m as [|m IH]; intros w cs g n k pre rest fuel q Hp Hn Htaken Hor Hlen.
  - destruct pre; [|done]. exists w. rewrite Nat.add_0_r. by split_and!.
  - destruct pre as [|a pre]; [done|]. injection Hlen as Hlen.
    destruct (Htaken 0%nat) as (c & Hc & Hpid); [lia|]. rewrite Nat.add_0_r in Hc.
    destruct (scan_slot w cs g n k c fuel (m + q) Hp Hn Hc) as (w1 & Hrun & P1 & T1 & F1 & E1).
    rewrite (proj2 (Z.eqb_neq _ _) Hpid) in Hrun. cbn [negb] in Hrun.
    destruct (IH w1 cs g n (S k) pre rest fuel q P1 Hn) as (w2 & Hrun2 & P2 & T2 & F2 & E2).
    { intros j Hj. replace (S k + j)%nat with (k + S j)%nat by lia. apply Htaken. lia. }
    { by rewrite T1, Hor. }
    { done. }
    exists w2. cbn [Nat.add]. rewrite Hrun, Hrun2. split_and!; [|done..|congruence|congruence]. do 2 f_equal. lia.
Qed.

Lemma pipe_run w a rest :
  w_oracle w = a :: rest -> 0 <= a ->
  exists rd wr w', pipe w = Ret (Some (rd, wr)) w' /\ w_fds w' = <[wr := "pipe"]> (<[rd := "pipe"]> (w_fds w)) /\
    w_fds w !! rd = None /\ w_fds w !! wr = None /\ rd <> wr /\
    w' = set_fds (w_fds w') (set_oracle rest w).
Proof.
  intros Ho Ha. unfold pipe. erewrite bind_eq by reflexivity. rewrite Ho. cbn [hd List.tl].
  rewrite (proj2 (Z.ltb_ge a 0)) by done. erewrite bind_eq by reflexivity. cbn [w_fds set_oracle].
  set (rd := fresh_fd (w_fds w)). set (wr := fresh_fd (<[rd := "pipe"]> (w_fds w))).
  pose proof (fresh_fd_fresh (w_fds w)) as Hrd. fold rd in Hrd.
  pose proof (fresh_fd_fresh (<[rd := "pipe"]> (w_fds w))) as Hwr. fold wr in Hwr.
  assert (Hne : rd <> wr) by (intros <-; rewrite lookup_insert_eq in Hwr; done).
  rewrite lookup_insert_ne in Hwr by done. erewrite bind_eq by reflexivity.
  do 3 eexists. split; [reflexivity|]. by split_and!.
Qed.

Lemma process_env w w' cs g n :
  process w th rl arr ep carr sl ps cs g n -> w_heap w' = w_heap w -> w_sys w' = w_sys w ->
  w_next w' = w_next w -> oracle_ok w' -> process w' th rl arr ep carr sl ps cs g n.
Proof.
  intros [(aps & ss & Hok & Hps & Hss & _ & Hwf) Hch Hap Hst Hg] Hh Hs Hnx Ho. split.
  - exists aps, ss. rewrite Hh. split_and!; try done. unfold heap_wf. by rewrite Hh, Hnx.
  - by eapply children_ok_env.
  - done.
  - by rewrite Hs.
  - by rewrite Hh.
Qed.

(** The parent's side of [fork]. *)
Lemma fork_parent w cs g n k l pid a r rest fuel :
  process w th rl arr ep carr sl ps cs g n -> ps !! k = Some (Some l) ->
  w_oracle w = a :: pid :: r :: rest -> 0 < pid -> 1 <= r ->
  exists w', fork_child H R rsrc_gen strsignal default_allocator random fuel (Some th) (Z.of_nat k) w = Ret 0 w' /\
    process w' th rl arr ep carr sl ps (alter (with_pid pid) k cs) (add_running 1 g) n /\ w_fds w' = w_fds w /\
    exists rd wr, w_events w' = [EvClose wr; EvClose rd; EvFork] ++ w_events w.
Proof.
  intros Hp Hk Hor Hpid Hr. unfold fork_child.
  assert (Hok : oracle_ok w) by (by destruct Hp as [(? & ? & _ & _ & _ & ? & _) _ _ _ _]).
  unfold oracle_ok in Hok. rewrite Hor in Hok. inversion Hok as [|? ? Ha Hok1]; subst.
  inversion Hok1 as [|? ? _ Hok2]; subst. inversion Hok2 as [|? ? _ Hok3]; subst.
  destruct (pipe_run w a (pid :: r :: rest) Hor Ha) as (rd & wr & w1 & R1 & F1 & N1 & N2 & N3 & E1).
  erewrite bind_eq by exact R1. cbv beta iota. unfold fork. rewrite bind_assoc. erewrite bind_eq by reflexivity.
  erewrite bind_eq by reflexivity. rewrite E1. cbn [w_oracle set_fds set_oracle set_events emit modify hd List.tl].
  rewrite (proj2 (Z.eqb_neq pid 0)) by lia. rewrite (proj2 (Z.ltb_lt 0 pid)) by done.
  erewrite bind_eq by reflexivity. cbn [w_oracle set_oracle set_fds set_events hd List.tl].
  rewrite (proj2 (Z.ltb_ge r 1)) by done.
  match goal with |- context [bind (register_child _ _) _ ?W] => set (w2 := W) end.
  destruct (register_run w2 th rl arr ep carr sl ps cs g n k l pid) as (w3 & R3 & P3 & F3 & _ & E3); [|done|].
  { by apply (process_env w). }
  erewrite bind_eq by exact R3. unfold sys_close. rewrite bind_assoc. erewrite bind_eq by reflexivity.
  erewrite bind_eq by reflexivity. rewrite bind_assoc. erewrite bind_eq by reflexivity. erewrite bind_eq by reflexivity.
  eexists. split; [reflexivity|]. split_and!.
  - apply (process_env w3); try done. by destruct P3 as [(? & ? & _ & _ & _ & ? & _) _ _ _ _].
  - cbn. rewrite F3. cbn. rewrite F1. rewrite delete_insert_ne by done.
    rewrite (delete_insert_id (w_fds w) rd) by done. by apply delete_insert_id.
  - exists rd, wr. cbn. rewrite E3. by subst w2.
Qed.
End creating.

(** (C8) The parent's [create_child], with the answers of the environment that
    grant it a section for each slot looked at, a pipe, a [fork] that gives the
    process id of a child and a byte of that child through the pipe, takes the
    first empty slot: it passes over the slots that are taken, forks exactly
    once, and that slot carries the child's process id, the counter of running
    children is one higher (so it still counts the taken slots), all other
    slots, the thread's sections and the open descriptors are as before.  With
    no empty slot it returns 0 without a [fork] or any other event. *)
Theorem create_child_correct H R rsrc_gen strsignal random w th rl arr ep carr sl ps cs g n fuel
    pre a pid r rest :
  process w th rl arr ep carr sl ps cs g n -> (n < 8)%nat ->
  w_oracle w = pre ++ a :: pid :: r :: rest -> 0 < pid -> 1 <= r ->
  match first_pid cs EMPTY with
  | Some k => length pre = S k ->
      exists w', create_child H R rsrc_gen strsignal default_allocator random fuel (Some th) w = Ret 0 w' /\
        process w' th rl arr ep carr sl ps (alter (with_pid pid) k cs) (add_running 1 g) n /\ w_fds w' = w_fds w /\
        (exists rd wr, w_events w' = [EvClose wr; EvClose rd; EvFork] ++ w_events w) /\
        (counted g cs -> counted (add_running 1 g) (alter (with_pid pid) k cs))
  | None => length pre = length cs ->
      exists w', create_child H R rsrc_gen strsignal default_allocator random fuel (Some th) w = Ret 0 w' /\
        process w' th rl arr ep carr sl ps cs g n /\ w_fds w' = w_fds w /\ w_events w' = w_events w
  end.
Proof.
  intros Hp Hn Hor Hpid Hr. unfold create_child.
  pose proof (pr_children _ _ _ _ _ _ _ _ _ _ _ Hp) as [(_ & _ & Htot & Hall) _].
  pose proof (Forall2_length _ _ _ Hall) as Hlen.
  assert (Hstart : forall A (K : syscall_statics -> M A), bind (gets w_sys) K w = K (w_sys w) w) by done.
  rewrite Hstart, Htot, Nat2Z.id. clear Hstart.
  destruct (first_pid cs EMPTY) as [k|] eqn:Hk; intros Hpre.
  - destruct (first_pid_spec _ _ _ Hk) as (c & Hc & Hce & Hbefore). pose proof (lookup_lt_Some _ _ _ Hc) as Hlt.
    destruct (Forall2_lookup_r _ _ _ _ _ Hall Hc) as (p & Hpk & l & -> & _).
    destruct pre as [|b pre] using rev_ind; [done|]. clear IHpre. rewrite length_app, Nat.add_comm in Hpre. injection Hpre as Hpre.
    rewrite <- app_assoc in Hor. cbn in Hor.
    replace (length ps) with (k + S (length ps - k - 1))%nat by (unfold ptr in *; lia).
    destruct (scan_taken H R rsrc_gen strsignal random th rl arr ep carr sl ps k w cs g n 0 pre (b :: a :: pid :: r :: rest) fuel
      (S (length ps - k - 1)) Hp Hn) as (w1 & R1 & P1 & T1 & F1 & E1); [|exact Hor|done|].
    { intros j Hj. destruct (lookup_lt_is_Some_2 cs j) as [cj Hcj]; [lia|]. exists cj. eauto. }
    change (Z.of_nat 0) with 0 in R1. cbn [Nat.add] in R1. rewrite R1.
    destruct (scan_slot H R rsrc_gen strsignal random th rl arr ep carr sl ps w1 cs g n k c fuel
      (length ps - k - 1) P1 Hn Hc) as (w2 & R2 & P2 & T2 & F2 & E2).
    rewrite R2, Hce. cbn [Z.eqb EMPTY negb].
    destruct (fork_parent H R rsrc_gen strsignal random th rl arr ep carr sl ps w2 cs g n k l pid a r rest fuel
      P2 Hpk) as (w3 & R3 & P3 & F3 & rd & wr & E3); [by rewrite T2, T1|done..|].
    exists w3. split_and!; [done..|congruence|exists rd, wr; congruence|]. intros Hcnt. apply (counted_taken _ _ _ c); [done..|].
    unfold EMPTY. lia.
  - replace (length ps) with (length cs + 0)%nat by (unfold ptr in *; lia).
    destruct (scan_taken H R rsrc_gen strsignal random th rl arr ep carr sl ps (length cs) w cs g n 0 pre (a :: pid :: r :: rest) fuel
      0 Hp Hn) as (w1 & R1 & P1 & T1 & F1 & E1); [|exact Hor|done|].
    { intros j Hj. destruct (lookup_lt_is_Some_2 cs j) as [cj Hcj]; [lia|]. exists cj. split; [done|].
      eapply first_pid_none; [done|]. by eapply list_elem_of_lookup_2. }
    change (Z.of_nat 0) with 0 in R1. rewrite R1. by exists w1.
Qed.

(** ** Stopping the children *)

(** The signals sent, the last one first. *)
Definition killed (cs : list child_ctx) : list event := rev (map (fun c => EvKill (child_pid c)) cs).

Lemma kill_from_run arr ps cs n : forall w (i : nat),
  children_ok w arr ps cs -> oracle_ok w -> (i + n = length cs)%nat ->
  exists w', kill_from n (Z.of_nat i) w = Ret tt w' /\
    w_events w' = rev (map (fun c => EvKill (child_pid c)) (drop i cs)) ++ w_events w.
Proof.
  induction n as [|n IH]; intros w i Hok Ho Hi; cbn [kill_from].
  - exists w. split; [done|]. by rewrite drop_ge by lia.
  - pose proof Hok as (Hch & Harr & _ & Hall). destruct (lookup_lt_is_Some_2 cs i) as [c Hc]; [lia|].
    destruct (Forall2_lookup_r _ _ _ _ _ Hall Hc) as (p & Hp & l & -> & Hl).
    erewrite bind_eq by reflexivity. rewrite Hch.
    erewrite bind_eq by (eapply load_elem_eq; [exact Harr|by rewrite nth_z_nat]).
    erewrite bind_eq by (by apply load_child_eq). erewrite bind_eq by reflexivity.
    unfold ask_status. rewrite bind_assoc. erewrite bind_eq by reflexivity. erewrite bind_eq by reflexivity.
    cbn [w_oracle set_events set_oracle]. rewrite oracle_ok_hd by done. cbn [Z.ltb Z.compare].
    replace (Z.of_nat i + 1) with (Z.of_nat (S i)) by lia.
    match goal with |- context [kill_from n _ ?W] => destruct (IH W (S i)) as (w' & Hrun & Hev) end.
    + done.
    + exact (oracle_ok_tl _ Ho).
    + lia.
    + exists w'. split; [exact Hrun|]. rewrite Hev, (drop_S _ _ _ Hc). cbn. by rewrite <- app_assoc.
Qed.

(** [kill_all_children] sends SIGKILL to the process id in every slot, in
    order, when no call fails, and returns.  A slot that is empty is not
    skipped: its process id 0 names the caller's own process group. *)
Theorem kill_all_children_order w arr ps cs :
  children_ok w arr ps cs -> oracle_ok w ->
  exists w', kill_all_children w = Ret tt w' /\
    w_events w' = killed cs ++ w_events w.
Proof.
  intros Hok Ho. unfold killed, kill_all_children. erewrite bind_eq by reflexivity.
  pose proof Hok as (_ & _ & Htot & Hall). rewrite Htot, Nat2Z.id.
  apply (kill_from_run arr ps cs _ w 0%nat Hok Ho). symmetry. by apply Forall2_length in Hall.
Qed.

(** ** A parent with two slots, one of them taken *)

Definition life_world (oracle : list Z) : world :=
  set_next 10%positive (set_sys (MkSys (Some 8%positive) 2 (Some 5%positive) (Some 9%positive) NULL 0 TRUE
      (Some 1%positive))
    (set_heap (list_to_map
      [ (1%positive, OEpoch (MkEpoch 1 [Some 3%positive] 0));
        (2%positive, OThread (MkThread (Some 3%positive) (Some 4%positive) 0 8));
        (3%positive, ORecord (cleared (Some 1%positive) 0)); (4%positive, OPtrs (replicate 8 NULL));
        (5%positive, OPtrs [Some 6%positive; Some 7%positive]);
        (6%positive, OChild (blank_child 100)); (7%positive, OChild (blank_child 0));
        (8%positive, OGlobal (MkGlobal 1 NULL)); (9%positive, OTable linux_syscall_table) ])
      (fresh_world oracle [prepared EntriesFreebsd.entry_setuid]))).

Lemma life_world_ok oracle :
  Forall (fun a => 0 <= a) oracle ->
  process (life_world oracle) 2%positive 3%positive 4%positive 1%positive 5%positive 8%positive
    [Some 6%positive; Some 7%positive] [blank_child 100; blank_child 0] (MkGlobal 1 NULL) 0.
Proof.
  intros Ho. split; try done.
  - exists (replicate 8 NULL), []. split_and!; try done.
    + split; try done.
      * eexists. split; [reflexivity|]. split_and!; [done..|]. by intros b [-> | ->].
      * by eexists.
      * split; [constructor|done].
    + intros l Hl. cbn -[replicate] in *. rewrite !lookup_insert_ne by lia. apply lookup_empty.
  - split; [split_and!; try done; repeat constructor; by eexists|].
    apply (bool_decide_unpack _). vm_compute. constructor.
Qed.

Lemma life_call_ok oracle :
  plain_call (life_world oracle) 9%positive linux_syscall_table 6%positive (blank_child 100).
Proof.
  assert (Hr : ready (prepared EntriesFreebsd.entry_setuid)) by (by apply prepared_ready).
  split_and!; [|done|done|done|].
  - split_and!; [done..|]. intros j Hj.
    change (Z.to_nat (total_syscalls linux_syscall_table)) with 1%nat in Hj.
    assert (j = 0%nat) as -> by lia. do 2 eexists. split; [reflexivity|]. by split.
  - exists 0%nat, (prepared EntriesFreebsd.entry_setuid). split; [done|]. split; [done|]. split; [done|].
    split; [cbn; lia|done].
Qed.

Definition no_rsrc : resource_generator :=
  MkRsrcGen (fun _ => ret 0) (fun _ => ret 0) (fun p => ret (0, p)) (fun p => ret (0, p)).

Definition signal_name (n : Z) : option string := Some "signal".

Lemma jump_back_underflows_witness :
  after_setjmp no_rsrc signal_name default_allocator (Some 6%positive) (Some 2%positive) 1 (life_world []) = Crash.
Proof.
  apply (jump_back_underflows no_rsrc signal_name (life_world []) 2%positive 3%positive 4%positive 1%positive 0
    9%positive linux_syscall_table 6%positive (blank_child 100) 1); try done.
  - apply (life_world_ok [] (Forall_nil_2 _)).
  - lia.
  - apply life_call_ok.
Defined.

Lemma exit_child_correct_witness :
  exists w', exit_child (A := unit) default_allocator (Some 2%positive) (life_world []) = Exit 0 w' /\
    w_heap w' !! 8%positive = Some (OGlobal (MkGlobal 0 NULL)).
Proof.
  destruct (exit_child_correct (life_world []) 2%positive 3%positive 4%positive 1%positive 5%positive 8%positive _ _ _ 0
    (life_world_ok [] (Forall_nil_2 _)) ltac:(lia)) as (w' & H1 & _ & H2 & _).
  exists w'. split; [exact H1|exact H2].
Defined.

Lemma life_oracle : Forall (fun a => 0 <= a) [0; 0; 0; 321; 1].
Proof. repeat (apply Forall_cons; split; [lia|]). constructor. Qed.

Lemma create_child_correct_witness :
  exists w', create_child some_headers new_resources no_rsrc signal_name default_allocator default_generator 5
      (Some 2%positive) (life_world [0; 0; 0; 321; 1]) = Ret 0 w' /\
    children_distinct w' 5%positive [Some 6%positive; Some 7%positive] [blank_child 100; blank_child 321] /\
    w_heap w' !! 8%positive = Some (OGlobal (MkGlobal 2 NULL)).
Proof.
  destruct (create_child_correct some_headers new_resources no_rsrc signal_name default_generator
    (life_world [0; 0; 0; 321; 1]) 2%positive 3%positive 4%positive 1%positive 5%positive 8%positive _ _ _ 0 5
    [0; 0] 0 321 1 [] (life_world_ok _ life_oracle) ltac:(lia) eq_refl ltac:(lia) ltac:(lia) eq_refl)
    as (w' & H1 & [_ H2 _ _ H3] & _).
  exists w'. split; [exact H1|]. split; [exact H2|exact H3].
Defined.

Lemma kill_all_children_order_witness :
  exists w', kill_all_children (life_world []) = Ret tt w' /\ w_events w' = [EvKill 0; EvKill 100].
Proof.
  destruct (kill_all_children_order (life_world []) 5%positive [Some 6%positive; Some 7%positive]
    [blank_child 100; blank_child 0]) as (w' & H1 & H2).
  - apply (life_world_ok [] (Forall_nil_2 _)).
  - constructor.
  - exists w'. split; [exact H1|exact H2].
Defined.
