(* ===== verification/SyscallArgs.v ===== *)
(** * SyscallArgs: generating the arguments of a call and making it

    The theorems about the two halves of a fuzzing step of syscall/syscall.c:
    [generate_arguments] composes the generators of the entry the child has
    picked, [test_syscall] makes the call, and [init_child_context] sets up
    the buffers both work on. *)

From S2P Require Import Prelude Types CWorld Memory Realloc Epoch Crypto Utils ArgTypes EntriesFreebsd EntriesMac.
From S2P Require Import EntriesLinux SetTest Child Generate Mutate Signals Log SyscallTable Syscall SyscallLife.

(** ** Making the call *)

(** Reading arguments only looks at byte buffers. *)
Lemma read_args_mono h h' ps ks : forall i args,
  (forall l bs, h !! l = Some (OBytes bs) -> h' !! l = Some (OBytes bs)) ->
  read_args h ps i ks = Some args -> read_args h' ps i ks = Some args.
Proof.
  induction ks as [|k ks IH]; intros i args Hb; cbn; [done|].
  destruct (read_arg h ps i k) as [a|] eqn:Ea; [|done]. cbn.
  assert (Ea' : read_arg h' ps i k = Some a).
  { revert Ea. unfold read_arg. destruct (ps !! i) as [p|]; [|done]. cbn. destruct k; [|done].
    destruct p as [l|]; [|done]. cbn. destruct (h !! l) as [o|] eqn:El; [|done]. cbn.
    destruct o; try done. by rewrite (Hb _ _ El). }
  rewrite Ea'. cbn. destruct (read_args h ps (S i) ks) as [rest|] eqn:Er; [|done]. cbn. intros [= <-].
  by rewrite (IH _ _ Hb Er).
Qed.

Definition after_test (e : syscall_entry) (ret_value : Z) (c : child_ctx) : child_ctx :=
  let c := with_ret_value ret_value (with_test_syscall (test_syscall_ptr e) c) in
  if ret_value <? 0 then with_had_error NX_YES c else c.

(** What a child needs to test the call it has picked: the entry [e], the
    arguments in the array [va], the counter of tests at [ctr]. *)
Record test_ready (w : world) (cl va tl sl ctr : loc) (c : child_ctx) (t : syscall_table) (k : nat)
    (e : syscall_entry) (ps : list ptr) (g : global_state) (m : Z) : Prop := {
  tr_table : table_ready w tl t;
  tr_child : w_heap w !! cl = Some (OChild c);
  tr_number : child_syscall_number c < total_syscalls t;
  tr_entry : nth_z (sys_entry t) (child_syscall_number c) = Some (Some k);
  tr_static : w_entries w !! k = Some e;
  tr_ready : ready e;
  tr_values : arg_value_array c = Some va /\ w_heap w !! va = Some (OPtrs ps);
  tr_state : sys_state (w_sys w) = Some sl /\ w_heap w !! sl = Some (OGlobal g);
  tr_counter : test_counter g = Some ctr /\ w_heap w !! ctr = Some (OInt m)
}.

(** (C12) [test_syscall] makes exactly one system call, with the symbol of the
    child's context and its arguments as the entry's wrapper passes them
    (after setting an alarm when the call may block), counts the test before
    it makes it, and records in the context the call's answer and whether it
    failed; it returns 0 when no signal arrives. *)
Theorem test_syscall_correct w cl va tl sl ctr c t k e ps g m args a rest :
  test_ready w cl va tl sl ctr c t k e ps g m ->
  read_args (w_heap w) ps 0 (passes (test_of_id (entry_id e))) = Some args ->
  w_oracle w = a :: 0 :: rest ->
  exists w', test_syscall (Some cl) w = Ret 0 w' /\
    w_events w' = EvSyscall (child_syscall_symbol c) args ::
      (if decide (child_need_alarm c = NX_YES) then [EvAlarm 1] else []) ++ w_events w /\
    w_heap w' = <[cl := OChild (after_test e (i32 a) c)]> (<[ctr := OInt (u32 (m + 1))]> (w_heap w)).
Proof.
  intros [Htab Hc Hnum Hk Hst Hr [Hva Hps] [Hs Hg] [Hctr Hm]] Hargs Hor.
  unfold test_syscall. erewrite bind_eq by (by apply load_child_eq).
  set (w1 := if decide (child_need_alarm c = NX_YES) then set_events (EvAlarm 1 :: w_events w) w else w).
  erewrite (bind_eq _ _ _ tt w1) by (unfold w1; by case_decide).
  assert (E1 : w_heap w1 = w_heap w /\ w_sys w1 = w_sys w /\ w_entries w1 = w_entries w /\ w_oracle w1 = w_oracle w)
    by (unfold w1; by case_decide).
  destruct E1 as (Eh & Es & Ee & Eo).
  assert (Ev : w_events w1 = (if decide (child_need_alarm c = NX_YES) then [EvAlarm 1] else []) ++ w_events w)
    by (unfold w1; by case_decide).
  clearbody w1.
  erewrite bind_eq by (eapply (get_entry_eq _ tl t); [|done|done]; unfold table_ready; by rewrite Es, Eh, Ee).
  cbv beta iota. erewrite bind_eq by reflexivity. rewrite Es, Hs.
  erewrite bind_eq by (apply load_global_eq; by rewrite Eh). rewrite Hctr.
  erewrite bind_eq by (apply load_int_eq; by rewrite Eh).
  erewrite bind_eq by (eapply store_eq; by rewrite Eh). rewrite Eh.
  erewrite bind_eq by (apply deref_entry_eq; cbn; by rewrite Ee).
  assert (cl <> ctr /\ va <> ctr /\ va <> cl) as (N1 & N2 & N3) by (split_and!; congruence).
  erewrite bind_eq by (apply update_child_eq; cbn; by rewrite lookup_insert_ne by done).
  erewrite bind_eq by (apply load_child_eq; apply lookup_insert_eq).
  pose proof Hr as (_ & _ & Hf & _). destruct c as [pid num sym cur tot nm v cp sz r he sg dj al f].
  cbn [with_test_syscall child_test_syscall]. rewrite Hf. cbn [need]. erewrite bind_eq by reflexivity.
  cbn in Hva. subst v. cbn [arg_value_array child_syscall_symbol].
  erewrite bind_eq.
  2: { rewrite (call_test_spec _ _ _ va ps).
       2: { cbn. rewrite !lookup_insert_ne by done. done. }
       erewrite read_args_mono; [reflexivity| |exact Hargs]. intros l bs Hl. cbn.
       rewrite !lookup_insert_ne by congruence. done. }
  cbn [w_oracle set_heap]. rewrite Eo, Hor. unfold deliver_signal.
  erewrite bind_eq by (by erewrite bind_eq by reflexivity).
  erewrite bind_eq by (apply update_child_eq; cbn; apply lookup_insert_eq).
  unfold after_test, check_for_failure. cbn [hd]. destruct (i32 a <? 0).
  - erewrite bind_eq by (apply update_child_eq; cbn; apply lookup_insert_eq).
    eexists. split; [reflexivity|]. cbn -[i32]. rewrite !insert_insert_eq, Hf.
    by rewrite Ev.
  - erewrite bind_eq by reflexivity. eexists. split; [reflexivity|]. cbn -[i32]. rewrite !insert_insert_eq, Hf.
    by rewrite Ev.
Qed.

(** ** Generating the arguments *)

(** The state [generate_arguments] runs in: the child's context is [c] but
    for its current argument, its value array is [va] holding [ps], its copy
    array [ca], its sizes [sz] are all zero, and it has picked entry [e]. *)
Record args_ready (w : world) (cl va ca sz tl : loc) (c : child_ctx) (t : syscall_table) (k : nat)
    (e : syscall_entry) (ps cps : list ptr) : Prop := {
  ar_gen : gen_world w cl;
  ar_table : table_ready w tl t;
  ar_child : exists cur, w_heap w !! cl = Some (OChild (with_current_arg cur c));
  ar_number : child_syscall_number c < total_syscalls t;
  ar_entry : nth_z (sys_entry t) (child_syscall_number c) = Some (Some k);
  ar_static : w_entries w !! k = Some e;
  ar_ready : ready e;
  ar_arrays : arg_value_array c = Some va /\ arg_copy_array c = Some ca /\ arg_size_array c = Some sz;
  ar_values : w_heap w !! va = Some (OPtrs ps) /\ length ps = 7%nat;
  ar_copies : w_heap w !! ca = Some (OPtrs cps) /\ length cps = 7%nat;
  ar_sizes : w_heap w !! sz = Some (OWords (replicate 7 0));
  ar_apart : va <> ca
}.

(** The value a generator left is still there. *)
Definition value_at (H : headers) (w0 w : world) (g : generator) (p : ptr) : Prop :=
  exists l bs, p = Some l /\ w_heap w !! l = Some (OBytes bs) /\ gen_value H w0 g bs.

Lemma gen_value_pid H w w' g bs : w_pid w' = w_pid w -> gen_value H w g bs -> gen_value H w' g bs.
Proof. intros Hp. by destruct g; cbn; rewrite ?Hp. Qed.

Lemma child_current_fields cur c :
  child_syscall_number (with_current_arg cur c) = child_syscall_number c /\
  arg_value_array (with_current_arg cur c) = arg_value_array c /\
  arg_copy_array (with_current_arg cur c) = arg_copy_array c /\
  arg_size_array (with_current_arg cur c) = arg_size_array c /\
  child_total_args (with_current_arg cur c) = child_total_args c /\
  child_current_arg (with_current_arg cur c) = cur /\
  forall cur', with_current_arg cur' (with_current_arg cur c) = with_current_arg cur' c.
Proof. by destruct c. Qed.

(** Storing an object of the child's own: its context or its value array. *)
Lemma args_ready_keep w w' cl va ca sz tl c t k e ps cps :
  args_ready w cl va ca sz tl c t k e ps cps -> keeps_stable w w' -> args_ready w' cl va ca sz tl c t k e ps cps.
Proof.
  intros [Hg (T1 & T2 & T3 & T4) (cur & Hc) Hn He Hs Hr Ha [V1 V2] [C1 C2] Hz Hap] Hk.
  assert (Hh : forall l o, stable o -> w_heap w !! l = Some o -> w_heap w' !! l = Some o) by apply (ks_heap _ _ Hk).
  split; try done.
  - by eapply (gen_world_stable stable).
  - unfold table_ready. rewrite (ks_sys _ _ Hk), (ks_entries _ _ Hk). split_and!; try done; try lia. by apply Hh.
  - exists cur. by apply Hh.
  - by rewrite (ks_entries _ _ Hk).
  - split; [by apply Hh|done].
  - split; [by apply Hh|done].
  - by apply Hh.
Qed.

Lemma args_ready_current w cl va ca sz tl c t k e ps cps cur :
  args_ready w cl va ca sz tl c t k e ps cps -> 0 <= cur <= 7 ->
  args_ready (set_heap (<[cl := OChild (with_current_arg cur c)]> (w_heap w)) w) cl va ca sz tl c t k e ps cps.
Proof.
  intros [[G1 G2 G3 _] (T1 & T2 & T3 & T4) (cur0 & Hc) Hn He Hs Hr (A1 & A2 & A3) [V1 V2] [C1 C2] Hz Hap] Hcur.
  assert (Hne : forall l o, w_heap w !! l = Some o -> (forall x, o <> OChild x) -> l <> cl) by congruence.
  destruct (child_current_fields cur c) as (_ & _ & _ & F3 & _ & F4 & _).
  split; try done; cbn.
  - split; try done; cbn.
    + apply heap_wf_set_heap; [done|]. rewrite dom_insert_lookup_L; [done|]. by eexists.
    + exists (with_current_arg cur c), sz, (replicate 7 0). rewrite lookup_insert_eq, F3, F4.
      split_and!; try done; try lia. rewrite lookup_insert_ne; [done|]. by apply not_eq_sym, (Hne _ _ Hz).
  - split_and!; try done; try lia. cbn. rewrite lookup_insert_ne; [done|]. by apply not_eq_sym, (Hne _ _ T2).
  - exists cur. apply lookup_insert_eq.
  - rewrite lookup_insert_ne; [done|]. by apply not_eq_sym, (Hne _ _ V1).
  - rewrite lookup_insert_ne; [done|]. by apply not_eq_sym, (Hne _ _ C1).
  - rewrite lookup_insert_ne; [done|]. by apply not_eq_sym, (Hne _ _ Hz).
Qed.

Lemma args_ready_value w cl va ca sz tl c t k e ps cps ps' :
  args_ready w cl va ca sz tl c t k e ps cps -> length ps' = 7%nat ->
  args_ready (set_heap (<[va := OPtrs ps']> (w_heap w)) w) cl va ca sz tl c t k e ps' cps.
Proof.
  intros [[G1 G2 G3 (c0 & z0 & s0 & B1 & B2 & B3 & B4 & B5)] (T1 & T2 & T3 & T4) (cur & Hc) Hn He Hs Hr (A1 & A2 & A3)
    [V1 V2] [C1 C2] Hz Hap] Hlen.
  assert (Hne : forall l o, w_heap w !! l = Some o -> (forall x, o <> OPtrs x) -> va <> l) by congruence.
  split; try done; cbn.
  - split; try done; cbn.
    + apply heap_wf_set_heap; [done|]. rewrite dom_insert_lookup_L; [done|]. by eexists.
    + exists c0, z0, s0. split_and!; try done; try lia.
      * rewrite lookup_insert_ne; [done|]. by apply (Hne _ _ B1).
      * rewrite lookup_insert_ne; [done|]. by apply (Hne _ _ B3).
  - split_and!; try done; try lia. cbn. rewrite lookup_insert_ne; [done|]. by apply (Hne _ _ T2).
  - exists cur. rewrite lookup_insert_ne; [done|]. by apply (Hne _ _ Hc).
  - split; [apply lookup_insert_eq|done].
  - rewrite lookup_insert_ne by done. done.
  - rewrite lookup_insert_ne; [done|]. by apply (Hne _ _ Hz).
Qed.

Section generating.
Context (H : headers) (R : resources) `{!ResourceLaws R} (HH : headers_ok H).
Context (X : gset loc) (cl va ca sz tl : loc) (c : child_ctx) (t : syscall_table) (k : nat) (e : syscall_entry) (cps : list ptr).
Context (Hcl : cl ∈ X) (Hva : va ∈ X).
#[local] Abbreviation prepared_args w ps := (args_ready w cl va ca sz tl c t k e ps cps).

(** Byte buffers are never touched. *)
Definition bytes_kept (w w' : world) : Prop :=
  w_pid w' = w_pid w /\ forall l bs, w_heap w !! l = Some (OBytes bs) -> w_heap w' !! l = Some (OBytes bs).

Lemma bytes_kept_trans w1 w2 w3 : bytes_kept w1 w2 -> bytes_kept w2 w3 -> bytes_kept w1 w3.
Proof. intros [P1 B1] [P2 B2]. split; [congruence|auto]. Qed.

Lemma bytes_kept_store w l o o' :
  w_heap w !! l = Some o -> (forall bs, o <> OBytes bs) -> bytes_kept w (set_heap (<[l := o']> (w_heap w)) w).
Proof. intros Hl Ho. split; [done|]. intros x bs Hx. cbn. rewrite lookup_insert_ne; [done|congruence]. Qed.

Lemma value_at_kept w0 w w' g p : bytes_kept w w' -> value_at H w0 w g p -> value_at H w0 w' g p.
Proof. intros [_ Hb] (l & bs & -> & Hl & Hv). exists l, bs. auto. Qed.

(** The child's own objects may change between two requests. *)
Lemma available_own m w l o :
  available m X w -> heap_wf w -> l ∈ X -> is_Some (w_heap w !! l) ->
  available m X (set_heap (<[l := o]> (w_heap w)) w).
Proof.
  intros Ha Hwf Hl Hs. eapply available_frame; [exact Ha| |done|].
  - intros l' o' Hn Hl'. cbn. rewrite lookup_insert_ne by set_solver. done.
  - apply heap_wf_set_heap; [done|]. by rewrite dom_insert_lookup_L.
Qed.

(** One turn of the loop. *)
Lemma generate_turn w ps n (i : nat) g m :
  prepared_args w ps -> available (S m) X w -> (i < 7)%nat -> get_arg_array e !! i = Some (Some g) -> sound_generator g = true ->
  exists w' p, prepared_args w' (<[i := p]> ps) /\ available m X w' /\ bytes_kept w w' /\
    (generate_from H R (S n) (Z.of_nat i) (Some cl) w = Ret (-1) w' \/
     generate_from H R (S n) (Z.of_nat i) (Some cl) w = generate_from H R n (Z.of_nat (S i)) (Some cl) w' /\
       value_at H w w' g p).
Proof.
  intros Hw Hav Hi Hg Hs. cbn [generate_from]. pose proof Hw as [_ _ (cur & Hc) _ _ _ _ _ _ _ _ _].
  destruct (child_current_fields cur c) as (_ & _ & _ & _ & _ & _ & Hcur).
  erewrite bind_eq by (by apply update_child_eq). rewrite Hcur.
  pose proof (args_ready_current _ _ _ _ _ _ _ _ _ _ _ _ (Z.of_nat i) Hw ltac:(lia)) as H1.
  pose proof (bytes_kept_store w cl _ (OChild (with_current_arg (Z.of_nat i) c)) Hc ltac:(done)) as B1.
  assert (Ha1 : available (S m) X (set_heap (<[cl := OChild (with_current_arg (Z.of_nat i) c)]> (w_heap w)) w))
    by (apply available_own; [done|apply Hw|done|by eexists]).
  set (w1 := set_heap _ w) in *.
  erewrite bind_eq by (apply load_child_eq; apply lookup_insert_eq).
  destruct (child_current_fields (Z.of_nat i) c) as (F0 & F1 & F2 & F3 & _). rewrite F0, F1, F2, F3.
  pose proof H1 as [Hgen Htab _ Hnum Hent Hst Hr (-> & -> & ->) [V1 V2] [C1 C2] Hz Hap].
  erewrite bind_eq by (by eapply get_entry_eq). cbv beta iota.
  erewrite bind_eq by (by apply deref_entry_eq). rewrite nth_z_nat, Hg. cbn [need].
  erewrite bind_eq by reflexivity. erewrite bind_eq by reflexivity.
  destruct (lookup_lt_is_Some_2 ps i) as [slot Hslot]; [lia|].
  erewrite bind_eq by (eapply load_elem_eq; [exact V1|by rewrite nth_z_nat]).
  pose proof (generator_served H R HH w1 cl Hgen m X Ha1 g slot Hs) as Hwp.
  apply wp_run in Hwp as ([r p] & w2 & Hrun & [Hks Hres] & Ha2). erewrite bind_eq by exact Hrun. cbv beta iota.
  pose proof (args_ready_keep _ _ _ _ _ _ _ _ _ _ _ _ _ H1 Hks) as H2.
  assert (B2 : bytes_kept w1 w2).
  { split; [by apply (ks_pid _ _ Hks)|]. intros l bs Hl. by apply (ks_heap _ _ Hks). }
  pose proof H2 as [_ _ _ _ _ _ _ _ [V1' _] _ _ _].
  erewrite bind_eq by (eapply store_elem_eq; [exact V1'|by rewrite set_z_lt by lia]). rewrite Nat2Z.id.
  pose proof (args_ready_value _ _ _ _ _ _ _ _ _ _ _ _ (<[i := p]> ps) H2 ltac:(by rewrite length_insert)) as H3.
  pose proof (bytes_kept_store w2 va _ (OPtrs (<[i := p]> ps)) V1' ltac:(done)) as B3.
  assert (Ha3 : available m X (set_heap (<[va := OPtrs (<[i := p]> ps)]> (w_heap w2)) w2))
    by (apply available_own; [done|apply H2|done|by eexists]).
  set (w3 := set_heap _ w2) in *.
  assert (B : bytes_kept w w3) by (eapply bytes_kept_trans; [exact B1|by eapply bytes_kept_trans]).
  destruct Hres as [Hf|(Hok & l & bs & Hp & Hl & Hv)].
  - cbn in Hf. subst r. eexists _, p. split; [|split; [|split; [|left; reflexivity]]].
    + by apply (args_ready_keep _ _ _ _ _ _ _ _ _ _ _ _ _ H3), grows_stable, grows_env, env_write.
    + eapply available_frame; [exact Ha3|done|done|apply H3].
    + exact B.
  - cbn in Hok, Hp. subst r p. cbn [Z.ltb Z.compare]. exists w3, (Some l). do 3 (split; [done|]). right.
    pose proof H3 as [_ _ _ _ _ _ _ _ _ [C1' _] Hz' _].
    destruct (lookup_lt_is_Some_2 cps i) as [cp Hcp]; [lia|].
    erewrite bind_eq by (eapply load_elem_eq; [exact C1'|by rewrite nth_z_nat]).
    erewrite bind_eq by (by apply load_words_eq). rewrite nth_z_nat, lookup_replicate_2 by lia. cbn [need].
    erewrite bind_eq by reflexivity. erewrite bind_eq by reflexivity.
    replace (Z.of_nat i + 1) with (Z.of_nat (S i)) by lia. split; [done|].
    apply (value_at_kept w w2); [exact B3|]. exists l, bs. split_and!; try done.
Qed.

Lemma available_some_less d m w : available (d + m) X w -> available m X w.
Proof. induction d as [|d IH]; [done|]. intros Ha. by apply IH, available_less. Qed.

Lemma generate_from_spec n : forall w ps (i : nat) m,
  prepared_args w ps -> available (n + m) X w -> (i + n <= 7)%nat ->
  (forall j, (i <= j < i + n)%nat -> exists g, get_arg_array e !! j = Some (Some g) /\ sound_generator g = true) ->
  exists r w' ps', generate_from H R n (Z.of_nat i) (Some cl) w = Ret r w' /\ prepared_args w' ps' /\
    available m X w' /\ bytes_kept w w' /\ (forall j, (j < i)%nat -> ps' !! j = ps !! j) /\
    (r = -1 \/ r = 0 /\ forall j g, (i <= j < i + n)%nat -> get_arg_array e !! j = Some (Some g) ->
       exists p, ps' !! j = Some p /\ value_at H w w' g p).
Proof.
  induction n as [|n IH]; intros w ps i m Hw Hav Hi Hg.
  - exists 0, w, ps. split_and!; [done..|]. right. split; [done|]. intros. lia.
  - destruct (Hg i) as (g & Hgi & Hgs); [lia|].
    destruct (generate_turn w ps n i g (n + m) Hw Hav ltac:(lia) Hgi Hgs) as (w1 & p & H1 & Ha1 & B1 & [Hrun|[Hrun Hval]]).
    + exists (-1), w1, (<[i := p]> ps). split_and!; [done|done|by apply (available_some_less n)|done| |by left].
      intros j Hj. by rewrite list_lookup_insert_ne by lia.
    + destruct (IH w1 (<[i := p]> ps) (S i) m H1 Ha1) as (r & w2 & ps2 & Hrun2 & H2 & Ha2 & B2 & Hbefore & Hres);
        [lia|intros j Hj; apply Hg; lia|].
      exists r, w2, ps2. rewrite Hrun. split_and!; [done..|by eapply bytes_kept_trans| |].
      { intros j Hj. rewrite Hbefore by lia. by rewrite list_lookup_insert_ne by lia. }
      destruct Hres as [->|[-> Hall]]; [by left|]. right. split; [done|]. intros j g' Hj Hgj.
      destruct (decide (j = i)) as [->|Hne].
      * exists p. rewrite Hbefore by lia. assert (g' = g) as -> by congruence.
        pose proof H1 as [_ _ _ _ _ _ _ _ [_ Hlen] _ _ _]. rewrite length_insert in Hlen.
        split; [by apply list_lookup_insert_eq; unfold ptr in *; lia|]. by eapply value_at_kept.
      * destruct (Hall j g') as (q & Hq & l & bs & -> & Hl & Hv); [lia|done|]. exists (Some l). split; [done|].
        exists l, bs. split_and!; try done. eapply gen_value_pid; [|exact Hv]. symmetry. apply B1.
Qed.
End generating.

Lemma generate_arguments_spec H R `{!ResourceLaws R} w cl va ca sz tl c t k e ps cps X m :
  headers_ok H -> available (Z.to_nat (total_args e) + m) X w -> cl ∈ X -> va ∈ X ->
  args_ready w cl va ca sz tl c t k e ps cps -> child_total_args c = total_args e ->
  forallb (fun g => match g with Some g => sound_generator g | None => false end)
    (take (Z.to_nat (total_args e)) (get_arg_array e)) = true ->
  exists r w' ps', generate_arguments H R (Some cl) w = Ret r w' /\
    args_ready w' cl va ca sz tl c t k e ps' cps /\ available m X w' /\
    (r = -1 \/ r = 0 /\ forall j g, (j < Z.to_nat (total_args e))%nat -> get_arg_array e !! j = Some (Some g) ->
       exists p, ps' !! j = Some p /\ value_at H w w' g p).
Proof.
  intros HH Hav HX1 HX2 Hw Htot Hsound. pose proof Hw as [_ _ (cur & Hc) _ _ _ Hr _ _ _ _ _].
  unfold generate_arguments. erewrite bind_eq by (by apply load_child_eq).
  destruct (child_current_fields cur c) as (_ & _ & _ & _ & -> & _). rewrite Htot.
  pose proof Hr as (Hwf & _). unfold well_formed_entry in Hwf.
  rewrite !andb_true_iff, !bool_decide_eq_true in Hwf. destruct Hwf as ((((_ & H2) & _) & H4) & _).
  apply Z.leb_le in H2. unfold ARG_LIMIT in H2.
  destruct (generate_from_spec H R HH X cl va ca sz tl c t k e cps HX1 HX2 (Z.to_nat (total_args e)) w ps 0 m Hw Hav)
    as (r & w' & ps' & Hrun & H' & Ha' & _ & _ & Hres).
  - lia.
  - intros j Hj. destruct (lookup_lt_is_Some_2 (get_arg_array e) j) as [og Hog]; [lia|].
    rewrite forallb_forall in Hsound. specialize (Hsound og).
    assert (Hin : og ∈ take (Z.to_nat (total_args e)) (get_arg_array e)).
    { apply (list_elem_of_lookup_2 _ j). rewrite lookup_take_lt by lia. done. }
    apply list_elem_of_In, Hsound in Hin. destruct og as [g|]; [|done]. eauto.
  - exists r, w', ps'. split_and!; [done..|]. destruct Hres as [->|[-> Hall]]; [by left|]. right. split; [done|].
    intros j g Hj. apply Hall. lia.
Qed.

(** (C7) For an entry all of whose generators are sound, [generate_arguments]
    never goes wrong while the resource module can serve one request for each
    argument: it returns 0 or -1 whatever the environment answers, and after
    0 every argument's slot points to a value of the kind the
    argument's generator makes.  The sizes of the arguments are never
    recorded ([set_arg_size] does nothing), so the copy of the arguments is
    never made: the copy array is as before. *)
Theorem generate_arguments_sound H R `{!ResourceLaws R} w cl va ca sz tl c t k e ps cps X m :
  headers_ok H -> available (Z.to_nat (total_args e) + m) X w -> cl ∈ X -> va ∈ X ->
  args_ready w cl va ca sz tl c t k e ps cps -> child_total_args c = total_args e ->
  forallb (fun g => match g with Some g => sound_generator g | None => false end)
    (take (Z.to_nat (total_args e)) (get_arg_array e)) = true ->
  exists r w' ps', generate_arguments H R (Some cl) w = Ret r w' /\
    args_ready w' cl va ca sz tl c t k e ps' cps /\ available m X w' /\
    (r = -1 \/ r = 0 /\ forall j g, (j < Z.to_nat (total_args e))%nat -> get_arg_array e !! j = Some (Some g) ->
       exists p, ps' !! j = Some p /\ value_at H w w' g p).
Proof. apply generate_arguments_spec. Qed.

(** ** The buffers of a child *)

(** A buffer of [ARG_BUF_LEN] zeroed bytes. *)
Definition arg_buffer (w : world) (p : ptr) : Prop :=
  exists l, p = Some l /\ w_heap w !! l = Some (zeros ARG_BUF_LEN).

(** The child at [cl] with its arrays [va] and [ca], filled with the buffers
    [vs] and [ds] so far; [n] slots are left. *)
Record half_built (w0 w : world) (cl va ca : loc) (c : child_ctx) (vs ds : list ptr) (n : nat) : Prop := {
  hb_oracle : oracle_ok w;
  hb_wf : heap_wf w;
  hb_child : w_heap w !! cl = Some (OChild c);
  hb_arrays : arg_value_array c = Some va /\ arg_copy_array c = Some ca;
  hb_values : w_heap w !! va = Some (OPtrs (vs ++ replicate n NULL));
  hb_copies : w_heap w !! ca = Some (OPtrs (ds ++ replicate n NULL));
  hb_length : length vs = length ds;
  hb_buffers : Forall (arg_buffer w) (vs ++ ds);
  hb_distinct : NoDup (vs ++ ds);
  hb_apart : va <> ca;
  hb_old : forall l o, l <> va -> l <> ca -> w_heap w0 !! l = Some o -> w_heap w !! l = Some o;
  hb_new : Forall (fun p => exists l, p = Some l /\ (w_next w0 <= l)%positive) (vs ++ ds);
  hb_next : (w_next w0 <= w_next w)%positive;
  hb_sys : w_sys w = w_sys w0;
  hb_entries : w_entries w = w_entries w0
}.

Lemma buffer_not_new w cl va ca c vs ds n w0 p :
  half_built w0 w cl va ca c vs ds n -> p ∈ vs ++ ds -> p <> Some (w_next w) /\ p <> Some (Pos.succ (w_next w)).
Proof.
  intros Hb Hin. pose proof (hb_buffers _ _ _ _ _ _ _ _ _ Hb) as Hall. rewrite Forall_forall in Hall.
  destruct (Hall p Hin) as (l & -> & Hl). apply (heap_wf_lt _ _ _ (hb_wf _ _ _ _ _ _ _ _ _ Hb)) in Hl.
  split; intros [= ->]; lia.
Qed.

Lemma shared_zeros w :
  oracle_ok w -> shared default_allocator (zeros ARG_BUF_LEN) w =
    Ret (Some (w_next w)) (granted (zeros ARG_BUF_LEN) w).
Proof. intros Ho. cbn [shared default_allocator]. unfold default_mem_alloc_shared. by erewrite bind_eq by (by apply mmap_anon_ok). Qed.

Lemma init_args_step w0 w cl va ca c vs ds n :
  half_built w0 w cl va ca c vs ds (S n) ->
  exists w', init_args_from default_allocator (S n) (Z.of_nat (length vs)) (Some cl) w =
      init_args_from default_allocator n (Z.of_nat (S (length vs))) (Some cl) w' /\
    half_built w0 w' cl va ca c (vs ++ [Some (w_next w)]) (ds ++ [Some (Pos.succ (w_next w))]) n.
Proof.
  intros Hb. pose proof Hb as [Ho Hwf Hc [Hva Hca] Hv Hd Hlen Hbuf Hnd Hap Hold Hnew Hnx Hsys Hent].
  pose proof (heap_wf_lt _ _ _ Hwf Hc) as Lc. pose proof (heap_wf_lt _ _ _ Hwf Hv) as Lv.
  pose proof (heap_wf_lt _ _ _ Hwf Hd) as Ld.
  cbn [init_args_from]. erewrite bind_eq by (by apply load_child_eq). rewrite Hva, Hca.
  erewrite bind_eq by (by apply shared_zeros).
  erewrite bind_eq.
  2: { eapply store_elem_eq; [cbn; rewrite lookup_insert_ne by lia; exact Hv|].
       rewrite set_z_lt by (rewrite length_app, length_replicate; lia). rewrite Nat2Z.id. cbn [replicate].
       rewrite insert_next. reflexivity. }
  cbv beta iota.
  set (w1 := set_heap _ _). assert (Ho1 : oracle_ok w1) by exact (oracle_ok_tl _ Ho).
  erewrite bind_eq by (by apply shared_zeros). change (w_next w1) with (Pos.succ (w_next w)).
  assert (cl <> va /\ cl <> ca) as [N1 N2] by (split; congruence).
  erewrite bind_eq.
  2: { eapply store_elem_eq; [cbn; rewrite lookup_insert_ne by lia; rewrite lookup_insert_ne by done;
         rewrite lookup_insert_ne by lia; exact Hd|].
       rewrite set_z_lt by (rewrite length_app, length_replicate; lia). rewrite Nat2Z.id, Hlen. cbn [replicate].
       rewrite insert_next. reflexivity. }
  cbv beta iota. eexists. split; [by replace (Z.of_nat (length vs) + 1) with (Z.of_nat (S (length vs))) by lia|].
  set (w2 := set_heap _ _).
  assert (Hkeep : forall l o, w_heap w !! l = Some o -> l <> va -> l <> ca -> w_heap w2 !! l = Some o).
  { intros l o Hl ? ?. pose proof (heap_wf_lt _ _ _ Hwf Hl). cbn. by rewrite lookup_insert_ne, lookup_insert_ne,
      lookup_insert_ne, lookup_insert_ne by (done || lia). }
  assert (Hnew1 : w_heap w2 !! w_next w = Some (zeros ARG_BUF_LEN)).
  { cbn. rewrite lookup_insert_ne, lookup_insert_ne, lookup_insert_ne by lia. apply lookup_insert_eq. }
  assert (Hnew2 : w_heap w2 !! Pos.succ (w_next w) = Some (zeros ARG_BUF_LEN)).
  { cbn. rewrite lookup_insert_ne by lia. apply lookup_insert_eq. }
  assert (Hnot : forall p, p ∈ vs ++ ds -> p <> Some (w_next w) /\ p <> Some (Pos.succ (w_next w)))
    by (intros p; by apply (buffer_not_new _ _ _ _ _ _ _ _ _ _ Hb)).
  assert (Hperm : (vs ++ [Some (w_next w)]) ++ ds ++ [Some (Pos.succ (w_next w))] ≡ₚ
    Some (Pos.succ (w_next w)) :: Some (w_next w) :: vs ++ ds) by solve_Permutation.
  split; try done.
  - exact (oracle_ok_tl _ Ho1).
  - intros l Hl. cbn in *. rewrite !lookup_insert_ne by lia. apply Hwf. lia.
  - by apply Hkeep.
  - cbn. rewrite lookup_insert_ne, lookup_insert_ne by (done || lia). rewrite lookup_insert_eq.
    by rewrite <- app_assoc.
  - cbn. rewrite lookup_insert_eq. by rewrite <- app_assoc.
  - rewrite !length_app. cbn. lia.
  - rewrite Hperm. repeat (apply Forall_cons; split; [by eexists|]).
    eapply Forall_impl; [exact Hbuf|]. intros p (l & -> & Hl). exists l. split; [done|].
    apply Hkeep; [done|intros ->; rewrite Hv in Hl; discriminate|intros ->; rewrite Hd in Hl; discriminate].
  - rewrite Hperm. apply NoDup_cons. split; [|apply NoDup_cons; split; [|done]].
    + intros [Heq|Hin]%elem_of_cons; [injection Heq; lia|]. by apply Hnot in Hin as [_ ?].
    + intros Hin. by apply Hnot in Hin as [? _].
  - intros l o Hl1 Hl2 Hl. apply Hkeep; [|done..]. by apply Hold.
  - rewrite Hperm. repeat (apply Forall_cons; split; [eexists; split; [reflexivity|lia]|]). done.
  - cbn. lia.
Qed.

Lemma init_args_run n : forall w0 w cl va ca c vs ds,
  half_built w0 w cl va ca c vs ds n ->
  exists w' vs' ds', init_args_from default_allocator n (Z.of_nat (length vs)) (Some cl) w = Ret (Some cl) w' /\
    half_built w0 w' cl va ca c vs' ds' 0 /\ length vs' = (length vs + n)%nat.
Proof.
  induction n as [|n IH]; intros w0 w cl va ca c vs ds Hb.
  - exists w, vs, ds. split_and!; [done..|lia].
  - destruct (init_args_step _ _ _ _ _ _ _ _ _ Hb) as (w1 & Hrun & Hb1).
    destruct (IH _ _ _ _ _ _ _ _ Hb1) as (w2 & vs2 & ds2 & Hrun2 & Hb2 & Hlen2).
    rewrite length_app in Hrun2, Hlen2. cbn [length] in Hrun2, Hlen2. rewrite Nat.add_1_r in Hrun2.
    exists w2, vs2, ds2. rewrite Hrun. split_and!; [done..|lia].
Qed.

(** A new object of the child's, and its pointer in the context. *)
Lemma shared_granted w o :
  oracle_ok w -> sizeof o <> 0 -> shared default_allocator o w = Ret (Some (w_next w)) (granted o w).
Proof.
  intros Ho Hs. cbn [shared default_allocator]. unfold default_mem_alloc_shared.
  by erewrite bind_eq by (by apply mmap_anon_ok).
Qed.

(** A child's context with its seven argument slots and seven copy slots,
    which hold the buffers [bufs] of 4096 zeroed bytes, and seven sizes that
    are zero. *)
Definition context_built (w : world) (c : child_ctx) (bufs : list ptr) : Prop :=
  exists va sz ca vs ds, c = with_arrays (Some va) (Some ca) (Some sz) zero_child /\
    w_heap w !! va = Some (OPtrs vs) /\ w_heap w !! ca = Some (OPtrs ds) /\
    w_heap w !! sz = Some (OWords (replicate 7 0)) /\ length vs = 7%nat /\ length ds = 7%nat /\
    bufs = vs ++ ds /\ Forall (arg_buffer w) bufs.

(** [init_child_context] (shared memory being granted) answers a new context
    with new, distinct buffers; everything that was on the heap is as
    before. *)
Lemma init_child_context_run w :
  oracle_ok w -> heap_wf w ->
  exists w' c bufs, init_child_context default_allocator w = Ret (Some (w_next w)) w' /\
    w_heap w' !! w_next w = Some (OChild c) /\ context_built w' c bufs /\ child_pid c = EMPTY /\ NoDup bufs /\
    Forall (fun p => exists l, p = Some l /\ (w_next w <= l)%positive) bufs /\
    (forall l, arg_value_array c = Some l \/ arg_copy_array c = Some l -> (w_next w < l)%positive) /\
    (forall l o, w_heap w !! l = Some o -> w_heap w' !! l = Some o) /\
    oracle_ok w' /\ heap_wf w' /\ w_sys w' = w_sys w /\ w_entries w' = w_entries w /\ (w_next w < w_next w')%positive.
Proof.
  intros Ho Hwf. unfold init_child_context. change (Z.to_nat ARG_LIMIT) with 7%nat.
  set (cl := w_next w). set (va := Pos.succ cl). set (sz := Pos.succ va). set (ca := Pos.succ sz).
  erewrite bind_eq by (by apply shared_granted). cbv beta iota. fold cl.
  erewrite bind_eq by (apply update_child_eq; apply lookup_insert_eq).
  erewrite bind_eq by (apply shared_granted; [exact (oracle_ok_tl _ Ho)|done]).
  cbn [w_next granted set_next set_heap]. fold cl va.
  erewrite bind_eq by (apply update_child_eq; cbn; rewrite lookup_insert_ne by (unfold va; lia); apply lookup_insert_eq).
  cbv beta iota.
  erewrite bind_eq by (apply shared_granted; [exact (oracle_ok_tl _ (oracle_ok_tl _ Ho))|done]).
  cbn [w_next granted set_next set_heap]. fold cl va sz.
  erewrite bind_eq by (apply update_child_eq; cbn; rewrite lookup_insert_ne by (unfold sz, va; lia); apply lookup_insert_eq).
  cbv beta iota.
  erewrite bind_eq by (apply shared_granted; [exact (oracle_ok_tl _ (oracle_ok_tl _ (oracle_ok_tl _ Ho)))|done]).
  cbn [w_next granted set_next set_heap]. fold cl va sz ca.
  erewrite bind_eq by (apply update_child_eq; cbn; rewrite lookup_insert_ne by (unfold ca, sz, va; lia); apply lookup_insert_eq).
  cbv beta iota.
  match goal with |- context [init_args_from _ _ _ _ ?W] => set (w1 := W) end.
  assert (Hb : half_built w1 w1 cl va ca (with_arrays (Some va) (Some ca) (Some sz) zero_child) [] [] 7).
  { split; try done; cbn.
    - exact (oracle_ok_tl _ (oracle_ok_tl _ (oracle_ok_tl _ (oracle_ok_tl _ Ho)))).
    - intros l Hl. cbn in *. rewrite !lookup_insert_ne by (unfold ca, sz, va in *; fold cl in Hl; lia). apply Hwf.
      fold cl. fold cl va sz ca in Hl. unfold ca, sz, va in Hl. lia.
    - apply lookup_insert_eq.
    - rewrite !lookup_insert_ne by (unfold ca, sz, va; lia). apply lookup_insert_eq.
    - rewrite lookup_insert_ne by (unfold ca, sz, va; lia). apply lookup_insert_eq.
    - constructor.
    - unfold ca, sz. lia. }
  destruct (init_args_run 7 _ _ _ _ _ _ _ _ Hb) as (w' & vs & ds & Hrun & Hb' & Hlen).
  destruct Hb' as [Ho' Hwf' Hc _ Hv Hd Heq Hbuf Hnd _ Hold Hnew Hnx Hsys Hent]. rewrite app_nil_r in Hv, Hd.
  exists w', (with_arrays (Some va) (Some ca) (Some sz) zero_child), (vs ++ ds).
  assert (Hlen' : length ds = 7%nat) by (unfold ptr in *; rewrite <- Heq; exact Hlen).
  cbn in Hnx. split_and!; try done.
  - exists va, sz, ca, vs, ds. split_and!; try done.
    apply Hold; [unfold ca, sz; lia..|]. cbn. rewrite !lookup_insert_ne by (unfold ca, sz, va; lia). apply lookup_insert_eq.
  - eapply Forall_impl; [exact Hnew|]. intros p (l & -> & Hl). exists l. split; [done|]. cbn in Hl. fold cl. lia.
  - intros l [[= <-]|[= <-]]; fold cl; unfold ca, sz, va; lia.
  - intros l o Hl. pose proof (heap_wf_lt _ _ _ Hwf Hl) as Hlt. fold cl in Hlt. apply Hold; [unfold ca, sz, va; lia..|].
    cbn. rewrite !lookup_insert_ne by (unfold ca, sz, va; lia). done.
  - fold cl. lia.
Qed.

(** ** A child that tests one call *)

(** The child at 1 with arrays at 2 and 3, sizes at 4, the table at 5, the
    state at 6 with its counter at 7. *)
Definition one_child : child_ctx :=
  MkChild 100 0 (Some SYS_read) 0 3 (Some "read") (Some 2%positive) (Some 3%positive) (Some 4%positive) 0 NX_NO 0
    NX_NO NX_YES None None.

Definition test_world (values : list ptr) (e : syscall_entry) (oracle : list Z) : world :=
  set_crypto (MkCrypto (Some fn_rand_range_crypto) 0 TRUE) (set_next 9%positive
    (set_sys (MkSys (Some 6%positive) 0 NULL (Some 5%positive) NULL 0 TRUE NULL) (set_heap (list_to_map
      [ (1%positive, OChild one_child); (2%positive, OPtrs values); (3%positive, OPtrs (replicate 7 NULL));
        (4%positive, OWords (replicate 7 0)); (5%positive, OTable linux_syscall_table);
        (6%positive, OGlobal (MkGlobal 1 (Some 7%positive))); (7%positive, OInt 41);
        (8%positive, OBytes (map Some (le_bytes 8 3))) ]) (fresh_world oracle [prepared e])))).

Lemma test_table_ready values e oracle :
  buildable e = true -> table_ready (test_world values e oracle) 5%positive linux_syscall_table.
Proof.
  intros Hb. split_and!; [done..|]. intros j Hj.
  change (Z.to_nat (total_syscalls linux_syscall_table)) with 1%nat in Hj.
  assert (j = 0%nat) as -> by lia. do 2 eexists. split; [reflexivity|]. split; [reflexivity|].
  by apply prepared_ready.
Qed.

Lemma test_syscall_correct_witness :
  exists w', test_syscall (Some 1%positive)
      (test_world (Some 8%positive :: replicate 6 NULL) EntriesLinux.entry_read [-1; 0]) = Ret 0 w' /\
    w_events w' = [EvSyscall (Some SYS_read) [ByVal 3]; EvAlarm 1] /\
    w_heap w' !! 7%positive = Some (OInt 42).
Proof.
  destruct (test_syscall_correct (test_world (Some 8%positive :: replicate 6 NULL) EntriesLinux.entry_read [-1; 0])
    1%positive 2%positive 5%positive 6%positive 7%positive one_child linux_syscall_table 0
    (prepared EntriesLinux.entry_read) (Some 8%positive :: replicate 6 NULL) (MkGlobal 1 (Some 7%positive)) 41
    [ByVal 3] (-1) []) as (w' & H1 & H2 & H3).
  - split; try done; [by apply test_table_ready|by apply prepared_ready].
  - reflexivity.
  - reflexivity.
  - exists w'. split; [exact H1|]. split; [exact H2|]. rewrite H3. reflexivity.
Defined.

Lemma args_world_ready oracle :
  args_ready (test_world (replicate 7 NULL) EntriesLinux.entry_read oracle) 1%positive 2%positive 3%positive 4%positive
    5%positive one_child linux_syscall_table 0 (prepared EntriesLinux.entry_read) (replicate 7 NULL) (replicate 7 NULL).
Proof.
  split; try done.
  - split; [done|by eexists| |].
    + intros l Hl. cbn -[replicate map] in *. rewrite !lookup_insert_ne by lia. apply lookup_empty.
    + exists one_child, 4%positive, (replicate 7 0). split_and!; done.
  - by apply test_table_ready.
  - by exists 0.
  - by apply prepared_ready.
Qed.

Lemma generate_arguments_sound_witness :
  exists r w', generate_arguments some_headers new_resources (Some 1%positive)
      (test_world (replicate 7 NULL) EntriesLinux.entry_read []) = Ret r w' /\ (r = -1 \/ r = 0).
Proof.
  destruct (@generate_arguments_sound some_headers new_resources new_resources_laws
    (test_world (replicate 7 NULL) EntriesLinux.entry_read []) 1%positive 2%positive 3%positive 4%positive 5%positive
    one_child linux_syscall_table 0 (prepared EntriesLinux.entry_read) (replicate 7 NULL) (replicate 7 NULL)
    {[1%positive; 2%positive]} 0%nat some_headers_ok (gw_wf _ _ (ar_gen _ _ _ _ _ _ _ _ _ _ _ _ (args_world_ready [])))
    (elem_of_union_l _ _ _ (proj2 (elem_of_singleton _ _) eq_refl))
    (elem_of_union_r _ _ _ (proj2 (elem_of_singleton _ _) eq_refl))
    (args_world_ready []) eq_refl eq_refl) as (r & w' & ps' & H1 & _ & _ & H2).
  exists r, w'. split; [exact H1|]. destruct H2 as [->|[-> _]]; [by left|by right].
Defined.
