(* ===== verification/Population.v ===== *)
(** * Population: the parent and its children at work together (syscall/syscall.c, syscall/signals.c)

    The parent's loop ([start_main_syscall_loop], [create_child]), its SIGCHLD
    handler ([child_exit_handler]) and the children ([create_child] behind the
    fork, [exit_child]) share the children's contexts and the counter of
    running children.  Here they run interleaved, at the granularity of their
    accesses to the shared memory; a child may be killed by a signal at any
    point and a process id may be used again once its process was reaped.
    What a process does with its own memory (epochs, its arguments) takes no
    part in this. *)

From stdpp Require Import fin_maps.
From S2P Require Import Prelude Types CWorld Crypto Child Signals Syscall SyscallLife.

(** ** Processes *)

(** Where the parent stands. *)
Inductive parent_pc :=
| PCheck            (* start_main_syscall_loop: is a child missing? *)
| PScan (i : Z)     (* create_child: is slot i empty? *)
| PFork (i : Z)     (* before fork *)
| PWait (pid : Z)   (* reading the pipe *)
| PDone.            (* the loop was left *)

(** Where a child stands. *)
Inductive child_pc :=
| CRegister (i : Z)  (* before its process id is stored in slot i *)
| CCount             (* before the counter is incremented *)
| CNotify            (* before the byte is written to the pipe *)
| CRun               (* fuzzing *)
| CLeave             (* exit_child: before the context is looked up *)
| CEmpty (p : ptr)   (* before the process id is taken out of context p *)
| CUncount.          (* before the counter is decremented *)

#[export] Instance parent_pc_eq : EqDecision parent_pc.
Proof. solve_decision. Defined.

#[export] Instance child_pc_eq : EqDecision child_pc.
Proof. solve_decision. Defined.

Inductive child_state := Live (c : child_pc) | Exited | Killed.

(** The parent's accesses to the shared memory: its loop reads the counter, ... *)
Definition check_act : M parent_pc :=
  let! s := gets w_sys in
  let! g := load_global (sys_state s) in
  ret (if running_children g <? total_children s then PScan 0 else PCheck).

(** ... [create_child] the process id in slot [i]. *)
Definition scan_act (i : Z) : M parent_pc :=
  let! s := gets w_sys in
  if i <? total_children s then
    let! p := load_elem (children s) i in
    let! c := load_child p in
    ret (if negb (child_pid c =? EMPTY) then PScan (i + 1) else PFork i)
  else ret PCheck.

Definition parent_act (c : parent_pc) : M parent_pc :=
  match c with
  | PCheck => check_act
  | PScan i => scan_act i
  | _ => ret c
  end.

(** The accesses of [exit_child], in the process [pid]. *)
Definition exit_act (pid : Z) (c : child_pc) : M child_state :=
  match c with
  | CLeave => modify (set_pid pid) ;;; let! child := get_child in ret (Live (CEmpty child))
  | CEmpty child => set_child_pid child EMPTY ;;; ret (Live CUncount)
  | CUncount => update_state (add_running (-1)) ;;; ret Exited
  | _ => ret (Live c)
  end.

(** The next access of the child with process id [pid]. *)
Definition child_act (pid : Z) (c : child_pc) : M child_state :=
  match c with
  | CRegister i =>
      let! s := gets w_sys in
      let! p := load_elem (children s) i in
      set_child_pid p pid ;;; ret (Live CCount)
  | CCount => update_state (add_running 1) ;;; ret (Live CNotify)
  | CNotify => ret (Live CRun)
  | CRun => ret (Live CLeave)
  | _ => exit_act pid c
  end.

(** The handler told of a terminated child; whether it then asks for the
    next one. *)
Definition reap_act (pid : Z) (exited : bool) : M bool :=
  if exited then
    let! child := get_child_ctx_from_pid pid in
    match child with
    | None => ret false
    | Some _ => set_child_pid child EMPTY ;;; ret true
    end
  else ret true.

(** ** Runs *)

(** [written]: the children whose byte is in the pipe; [lost]: how many
    children were killed after they had been counted. *)
Record system := MkSystem {
  mem : world;
  parent : parent_pc;
  kids : gmap Z child_state;
  written : gset Z;
  lost : Z
}.

Inductive config := Conf (s : system) | Wrong.

(** A child in this place has been counted, and not yet discounted. *)
Definition counted_pc (c : child_pc) : bool :=
  match c with CRegister _ | CCount => false | _ => true end.

Definition counted_state (s : child_state) : bool := match s with Live c => counted_pc c | _ => false end.

Inductive step : config -> config -> Prop :=
| step_parent w c ks wr n c' w' :
    parent_act c w = Ret c' w' -> step (Conf (MkSystem w c ks wr n)) (Conf (MkSystem w' c' ks wr n))
| step_parent_wrong w c ks wr n : parent_act c w = Crash -> step (Conf (MkSystem w c ks wr n)) Wrong
| step_stop w c ks wr n : step (Conf (MkSystem w c ks wr n)) (Conf (MkSystem w PDone ks wr n))
| step_fork w i ks wr n pid :
    0 < pid -> ks !! pid = None ->
    step (Conf (MkSystem w (PFork i) ks wr n))
      (Conf (MkSystem w (PWait pid) (<[pid := Live (CRegister i)]> ks) (wr ∖ {[pid]}) n))
| step_wake w pid ks wr n :
    pid ∈ wr -> step (Conf (MkSystem w (PWait pid) ks wr n)) (Conf (MkSystem w PCheck ks wr n))
| step_child w p ks wr n pid c s w' :
    ks !! pid = Some (Live c) -> child_act pid c w = Ret s w' ->
    step (Conf (MkSystem w p ks wr n))
      (Conf (MkSystem w' p (<[pid := s]> ks) (if decide (c = CNotify) then {[pid]} ∪ wr else wr) n))
| step_child_wrong w p ks wr n pid c :
    ks !! pid = Some (Live c) -> child_act pid c w = Crash -> step (Conf (MkSystem w p ks wr n)) Wrong
| step_write_fails w p ks wr n pid :
    ks !! pid = Some (Live CNotify) ->
    step (Conf (MkSystem w p ks wr n)) (Conf (MkSystem w p (<[pid := Live CLeave]> ks) wr n))
| step_kill w p ks wr n pid c :
    ks !! pid = Some (Live c) ->
    step (Conf (MkSystem w p ks wr n))
      (Conf (MkSystem w p (<[pid := Killed]> ks) wr (if counted_pc c then n + 1 else n)))
| step_reap w p ks wr n pid exited more w' :
    ks !! pid = Some (if exited : bool then Exited else Killed) -> reap_act pid exited w = Ret more w' ->
    step (Conf (MkSystem w p ks wr n)) (Conf (MkSystem w' p (delete pid ks) wr n))
| step_reap_wrong w p ks wr n pid exited :
    ks !! pid = Some (if exited : bool then Exited else Killed) -> reap_act pid exited w = Crash ->
    step (Conf (MkSystem w p ks wr n)) Wrong.

Inductive steps : config -> config -> Prop :=
| steps_refl c : steps c c
| steps_step c1 c2 c3 : steps c1 c2 -> step c2 c3 -> steps c1 c3.

(** ** Counting *)

Definition one (b : bool) : Z := if b then 1 else 0.

(** How many children are in a state with [P]. *)
Definition tally (P : child_state -> bool) (ks : gmap Z child_state) : Z :=
  Z.of_nat (size (filter (fun x : Z * child_state => P x.2 = true) ks)).

Definition tally_at (P : child_state -> bool) (ks : gmap Z child_state) (pid : Z) : Z :=
  match ks !! pid with Some s => one (P s) | None => 0 end.

Lemma tally_delete P ks pid : tally P (delete pid ks) = tally P ks - tally_at P ks pid.
Proof.
  unfold tally, tally_at. rewrite map_filter_delete. destruct (ks !! pid) as [s|] eqn:E.
  - destruct (P s) eqn:Es; cbn [one].
    + assert (Hl : filter (fun x : Z * child_state => P x.2 = true) ks !! pid = Some s).
      { by apply map_lookup_filter_Some. }
      rewrite map_size_delete_Some by (by eexists).
      assert (size (filter (fun x : Z * child_state => P x.2 = true) ks) <> 0%nat); [|lia].
      eapply (map_size_ne_0_lookup_2 _ pid). by exists s.
    + rewrite map_size_delete_None; [lia|]. apply map_lookup_filter_None. right. intros x Hx. cbn. congruence.
  - rewrite map_size_delete_None; [lia|]. apply map_lookup_filter_None. by left.
Qed.

Lemma tally_insert P ks pid s : tally P (<[pid := s]> ks) = tally P ks - tally_at P ks pid + one (P s).
Proof.
  rewrite <- tally_delete, <- (insert_delete_eq ks pid s). unfold tally.
  destruct (P s) eqn:Es; cbn [one].
  - rewrite map_filter_insert_True by done. rewrite map_size_insert_None; [lia|].
    rewrite map_filter_delete. apply lookup_delete_eq.
  - rewrite map_filter_insert_False by (cbn; congruence). rewrite delete_delete_eq. lia.
Qed.

Lemma tally_nonneg P ks : 0 <= tally P ks.
Proof. unfold tally. lia. Qed.

Lemma tally_at_eq P ks pid st : ks !! pid = Some st -> tally_at P ks pid = one (P st).
Proof. intros H. unfold tally_at. by rewrite H. Qed.

(** A child in a state with [P] counts. *)
Lemma tally_positive P ks pid st : ks !! pid = Some st -> P st = true -> 1 <= tally P ks.
Proof.
  intros Hs HP. pose proof (tally_delete P ks pid) as Hd. rewrite (tally_at_eq _ _ _ _ Hs), HP in Hd.
  cbn [one] in Hd. pose proof (tally_nonneg P (delete pid ks)). lia.
Qed.

Definition headcount : gmap Z child_state -> Z := tally counted_state.

(** ** The shared memory *)

(** The slot with number [i] is empty. *)
Definition free_slot (cs : list child_ctx) (i : Z) : Prop :=
  exists k x, i = Z.of_nat k /\ cs !! k = Some x /\ child_pid x = EMPTY.

(** Where a child's process id is to be found, by its place. *)
Definition in_place (ps : list ptr) (cs : list child_ctx) (pid : Z) (c : child_pc) : Prop :=
  match c with
  | CRegister i => free_slot cs i
  | CEmpty p => exists k x, ps !! k = Some p /\ cs !! k = Some x /\ child_pid x = pid
  | CUncount => True
  | _ => exists k x, cs !! k = Some x /\ child_pid x = pid
  end.

Lemma with_pid_pid pid x : child_pid (with_pid pid x) = pid.
Proof. by destruct x. Qed.

Lemma free_slot_emptied cs k i : free_slot cs i -> free_slot (alter (with_pid EMPTY) k cs) i.
Proof.
  intros (j & x & -> & Hx & He). destruct (decide (j = k)) as [->|Hne].
  - exists k, (with_pid EMPTY x). by rewrite list_lookup_alter_eq, Hx, with_pid_pid.
  - exists j, x. by rewrite list_lookup_alter_ne.
Qed.

Lemma in_place_alter ps cs k x new pid c :
  cs !! k = Some x -> child_pid x <> pid -> (forall i, c = CRegister i -> i <> Z.of_nat k \/ new = EMPTY) ->
  in_place ps cs pid c -> in_place ps (alter (with_pid new) k cs) pid c.
Proof.
  intros Hx Hne Hreg. destruct c; cbn; try done.
  1: { intros Hfree. destruct (Hreg _ eq_refl) as [Hr| ->]; [|by apply free_slot_emptied].
       destruct Hfree as (j & y & -> & Hy & He). exists j, y. rewrite list_lookup_alter_ne by lia. done. }
  all: intros (j & y & Hj).
  all: exists j, y; rewrite list_lookup_alter_ne; [done|]; intros <-; destruct_and!; congruence.
Qed.

Section memory.
Context (carr sl : loc) (ps : list ptr).

Definition shared_mem (w : world) (cs : list child_ctx) (g : global_state) : Prop :=
  children_distinct w carr ps cs /\ sys_state (w_sys w) = Some sl /\ w_heap w !! sl = Some (OGlobal g).

Lemma shared_length w cs g : shared_mem w cs g -> total_children (w_sys w) = Z.of_nat (length cs).
Proof. intros ([(_ & _ & Ht & Hall) _] & _). rewrite Ht. apply Forall2_length in Hall. unfold ptr in *. lia. Qed.

Lemma shared_slot w cs g k x :
  shared_mem w cs g -> cs !! k = Some x ->
  exists l, ps !! k = Some (Some l) /\ w_heap w !! l = Some (OChild x) /\
    load_elem (children (w_sys w)) (Z.of_nat k) w = Ret (Some l) w.
Proof.
  intros ([(Hch & Harr & _ & Hall) _] & _) Hx.
  destruct (Forall2_lookup_r _ _ _ _ _ Hall Hx) as (p & Hp & l & -> & Hl). exists l. split_and!; [done..|].
  rewrite Hch. eapply load_elem_eq; [exact Harr|by rewrite nth_z_nat].
Qed.

(** Storing a process id in a slot. *)
Lemma shared_set_pid w cs g k x l new :
  shared_mem w cs g -> cs !! k = Some x -> ps !! k = Some (Some l) ->
  exists w', set_child_pid (Some l) new w = Ret tt w' /\ shared_mem w' (alter (with_pid new) k cs) g.
Proof.
  intros Hsh Hx Hl. pose proof Hsh as (Hd & Hst & Hg).
  destruct (shared_slot _ _ _ _ _ Hsh Hx) as (l' & Hl' & Ho & _).
  assert (l' = l) as -> by (unfold ptr in *; congruence).
  unfold set_child_pid. rewrite (update_child_eq _ _ _ _ Ho). eexists. split; [reflexivity|].
  rewrite (alter_insert_eq _ _ _ _ Hx). split_and!; [by apply children_ok_update|done|].
  cbn. rewrite lookup_insert_ne; [done|congruence].
Qed.

Lemma shared_add_running w cs g d :
  shared_mem w cs g -> exists w', update_state (add_running d) w = Ret tt w' /\ shared_mem w' cs (add_running d g).
Proof.
  intros (Hd & Hst & Hg). rewrite (update_state_eq _ _ _ _ Hst Hg). eexists. split; [reflexivity|].
  split_and!; [by apply children_store_other; [|eexists]|done|apply lookup_insert_eq].
Qed.

(** *** What each access does *)

(** The parent's next place, from the contexts and the counter. *)
Definition parent_next (cs : list child_ctx) (g : global_state) (c : parent_pc) : parent_pc :=
  match c with
  | PCheck => if running_children g <? Z.of_nat (length cs) then PScan 0 else PCheck
  | PScan i =>
      match cs !! Z.to_nat i with
      | Some x => if child_pid x =? EMPTY then PFork i else PScan (i + 1)
      | None => PCheck
      end
  | _ => c
  end.

Lemma parent_act_eq w cs g c :
  shared_mem w cs g -> (forall i, c = PScan i -> 0 <= i) -> parent_act c w = Ret (parent_next cs g c) w.
Proof.
  intros Hsh Hi. destruct c as [|i| | |]; try done; cbn [parent_act]; unfold check_act, scan_act;
    erewrite bind_eq by reflexivity.
  - pose proof Hsh as (Hd & Hst & Hg). rewrite Hst. erewrite bind_eq by (by apply load_global_eq).
    by rewrite (shared_length _ _ _ Hsh).
  - specialize (Hi _ eq_refl). rewrite (shared_length _ _ _ Hsh). cbn [parent_next].
    destruct (cs !! Z.to_nat i) as [x|] eqn:Hx.
    + pose proof (lookup_lt_Some _ _ _ Hx). rewrite (proj2 (Z.ltb_lt _ _)) by lia.
      destruct (shared_slot _ _ _ _ _ Hsh Hx) as (l & _ & Ho & Hload). rewrite Z2Nat.id in Hload by done.
      erewrite bind_eq by exact Hload. erewrite bind_eq by (by apply load_child_eq).
      by destruct (child_pid x =? EMPTY).
    + apply lookup_ge_None in Hx. by rewrite (proj2 (Z.ltb_ge _ _)) by lia.
Qed.

(** What an access of the child with process id [pid] does to the contexts
    and the counter. *)
Inductive child_effect (pid : Z) (cs : list child_ctx) (g : global_state) :
    child_pc -> child_state -> list child_ctx -> global_state -> Prop :=
| ef_register k x : cs !! k = Some x -> child_pid x = EMPTY ->
    child_effect pid cs g (CRegister (Z.of_nat k)) (Live CCount) (alter (with_pid pid) k cs) g
| ef_count : child_effect pid cs g CCount (Live CNotify) cs (add_running 1 g)
| ef_notify : child_effect pid cs g CNotify (Live CRun) cs g
| ef_run : child_effect pid cs g CRun (Live CLeave) cs g
| ef_leave k p x : ps !! k = Some p -> cs !! k = Some x -> child_pid x = pid ->
    child_effect pid cs g CLeave (Live (CEmpty p)) cs g
| ef_empty k p x : ps !! k = Some p -> cs !! k = Some x -> child_pid x = pid ->
    child_effect pid cs g (CEmpty p) (Live CUncount) (alter (with_pid EMPTY) k cs) g
| ef_uncount : child_effect pid cs g CUncount Exited cs (add_running (-1) g).

Lemma first_pid_found cs k x pid : cs !! k = Some x -> child_pid x = pid -> is_Some (first_pid cs pid).
Proof.
  intros Hx Hp. destruct (first_pid cs pid) eqn:E; [done|]. exfalso.
  by eapply (first_pid_none _ _ _ E); [eapply list_elem_of_lookup_2|].
Qed.

Lemma get_child_shared w cs g pid k x :
  shared_mem w cs g -> cs !! k = Some x -> child_pid x = pid ->
  exists p, (modify (set_pid pid) ;;; get_child) w = Ret p (set_pid pid w) /\
    (exists j y, ps !! j = Some p /\ cs !! j = Some y /\ child_pid y = pid) /\ shared_mem (set_pid pid w) cs g.
Proof.
  intros Hsh Hx Hp. erewrite bind_eq by reflexivity.
  assert (Hsh' : shared_mem (set_pid pid w) cs g).
  { destruct Hsh as (Hd & Hst & Hg). split_and!; [by apply (children_ok_env w)|done..]. }
  pose proof Hsh' as ([Hok _] & _). rewrite (get_child_run _ _ _ _ Hok). cbn [w_pid set_pid].
  destruct (first_pid_found _ _ _ _ Hx Hp) as [j Hj]. rewrite Hj.
  destruct (first_pid_spec _ _ _ Hj) as (y & Hy & Hpy & _).
  destruct (shared_slot _ _ _ _ _ Hsh Hy) as (l & Hl & _). exists (Some l). unfold ptr in *. rewrite Hl.
  split_and!; try done. by exists j, y.
Qed.

Lemma child_act_run w cs g pid c :
  shared_mem w cs g -> in_place ps cs pid c ->
  exists s' w' cs' g', child_act pid c w = Ret s' w' /\ shared_mem w' cs' g' /\ child_effect pid cs g c s' cs' g'.
Proof.
  intros Hsh Hin. destruct c as [i| | | | |p|]; cbn [child_act exit_act]; cbn in Hin.
  - destruct Hin as (k & x & -> & Hx & He). destruct (shared_slot _ _ _ _ _ Hsh Hx) as (l & Hl & _ & Hload).
    erewrite bind_eq by reflexivity. erewrite bind_eq by exact Hload.
    destruct (shared_set_pid _ _ _ _ _ _ pid Hsh Hx Hl) as (w' & Hrun & Hsh').
    erewrite bind_eq by exact Hrun. do 4 eexists. split_and!; [reflexivity|done|by econstructor].
  - destruct (shared_add_running _ _ _ 1 Hsh) as (w' & Hrun & Hsh').
    erewrite bind_eq by exact Hrun. do 4 eexists. split_and!; [reflexivity|done|constructor].
  - do 4 eexists. split_and!; [reflexivity|done|constructor].
  - do 4 eexists. split_and!; [reflexivity|done|constructor].
  - destruct Hin as (k & x & Hx & Hp).
    destruct (get_child_shared _ _ _ _ _ _ Hsh Hx Hp) as (p & Hrun & (j & y & Hj & Hy & Hpy) & Hsh').
    rewrite <- bind_assoc. erewrite bind_eq by exact Hrun.
    do 4 eexists. split_and!; [reflexivity|done|by econstructor].
  - destruct Hin as (k & x & Hk & Hx & Hp). destruct (shared_slot _ _ _ _ _ Hsh Hx) as (l & Hl & _).
    assert (p = Some l) as -> by (unfold ptr in *; congruence).
    destruct (shared_set_pid _ _ _ _ _ _ EMPTY Hsh Hx Hl) as (w' & Hrun & Hsh').
    erewrite bind_eq by exact Hrun. do 4 eexists. split_and!; [reflexivity|done|by econstructor].
  - destruct (shared_add_running _ _ _ (-1) Hsh) as (w' & Hrun & Hsh').
    erewrite bind_eq by exact Hrun. do 4 eexists. split_and!; [reflexivity|done|constructor].
Qed.

(** Reaping takes the process id out of the first slot that carries it. *)
Definition reaped (pid : Z) (exited : bool) (cs : list child_ctx) : list child_ctx :=
  match first_pid cs pid with
  | Some k => if exited then alter (with_pid EMPTY) k cs else cs
  | None => cs
  end.

Lemma reap_act_run w cs g pid exited :
  shared_mem w cs g -> exists more w', reap_act pid exited w = Ret more w' /\ shared_mem w' (reaped pid exited cs) g.
Proof.
  intros Hsh. unfold reaped, reap_act. destruct exited; [|exists true, w; by destruct (first_pid cs pid)].
  pose proof Hsh as ([Hok _] & _). erewrite bind_eq by (by eapply get_child_ctx_from_pid_spec).
  destruct (first_pid cs pid) as [k|] eqn:Hk; [|by exists false, w].
  destruct (first_pid_spec _ _ _ Hk) as (x & Hx & _).
  destruct (shared_slot _ _ _ _ _ Hsh Hx) as (l & Hl & _). unfold ptr in *. rewrite Hl. cbn [default id].
  destruct (shared_set_pid _ _ _ _ _ _ EMPTY Hsh Hx Hl) as (w' & Hrun & Hsh').
  exists true, w'. split; [by erewrite bind_eq by exact Hrun|done].
Qed.
End memory.

(** ** The invariant *)

Section invariant.
Context (carr sl : loc) (ps : list ptr).

(** The parent is looking for a slot. *)
Definition searching (c : parent_pc) : bool := match c with PScan _ | PFork _ => true | _ => false end.

(** A child that is not counted yet. *)
Definition unborn (ks : gmap Z child_state) (pid : Z) : Prop :=
  exists c, ks !! pid = Some (Live c) /\ counted_pc c = false.

Record sound (s : system) (cs : list child_ctx) (g : global_state) : Prop := {
  so_mem : shared_mem carr sl ps (mem s) cs g;
  so_width : Z.of_nat (length cs) < 2 ^ 32;
  so_pids : forall pid st, kids s !! pid = Some st -> 0 < pid;
  so_slots : forall pid c, kids s !! pid = Some (Live c) -> in_place ps cs pid c;
  so_scan : forall i, parent s = PScan i -> 0 <= i;
  so_fork : forall i, parent s = PFork i -> free_slot cs i;
  so_unborn : forall pid, unborn (kids s) pid -> (parent s = PWait pid \/ parent s = PDone) /\ pid ∉ written s;
  so_single : forall pid pid', unborn (kids s) pid -> unborn (kids s) pid' -> pid = pid';
  so_lost : 0 <= lost s;
  so_count : running_children g = headcount (kids s) + lost s;
  so_bound : running_children g <= Z.of_nat (length cs);
  so_room : searching (parent s) = true \/ (exists pid, unborn (kids s) pid) ->
    running_children g < Z.of_nat (length cs)
}.

(** A part of the invariant that is as before. *)
Ltac as_before Hs :=
  first [ exact (so_mem _ _ _ Hs) | exact (so_width _ _ _ Hs) | exact (so_pids _ _ _ Hs) | exact (so_slots _ _ _ Hs)
        | exact (so_scan _ _ _ Hs) | exact (so_fork _ _ _ Hs) | exact (so_single _ _ _ Hs) | exact (so_lost _ _ _ Hs)
        | exact (so_count _ _ _ Hs) | exact (so_bound _ _ _ Hs) ].

Lemma unborn_insert ks pid st pid' :
  (forall c, st = Live c -> counted_pc c = false -> unborn ks pid) -> unborn (<[pid := st]> ks) pid' -> unborn ks pid'.
Proof.
  intros Hst (c & Hc & Hb). destruct (decide (pid' = pid)) as [->|Hne].
  - rewrite lookup_insert_eq in Hc. injection Hc as ->. by eapply Hst.
  - rewrite lookup_insert_ne in Hc by done. by exists c.
Qed.

(** A step of the child [pid] that keeps what the others rely on. *)
Lemma sound_move s cs g pid st0 st w' wr' n' cs' g' :
  sound s cs g -> kids s !! pid = Some st0 ->
  shared_mem carr sl ps w' cs' g' -> length cs' = length cs ->
  (forall c, st = Live c -> in_place ps cs' pid c /\ (counted_pc c = false -> unborn (kids s) pid)) ->
  (forall pid' c, pid' <> pid -> kids s !! pid' = Some (Live c) -> in_place ps cs' pid' c) ->
  (forall i, parent s = PFork i -> free_slot cs' i) ->
  (forall pid', unborn (kids s) pid' -> pid' ∉ wr') ->
  0 <= n' -> running_children g' = headcount (<[pid := st]> (kids s)) + n' ->
  running_children g' <= running_children g \/
    running_children g' = running_children g + 1 /\ unborn (kids s) pid /\ counted_state st = true ->
  sound (MkSystem w' (parent s) (<[pid := st]> (kids s)) wr' n') cs' g'.
Proof.
  intros Hs Hpid Hsh Hlen Hst Hoth Hfork Hwr Hn Hcount Hup.
  pose proof (fun pid' => unborn_insert (kids s) pid st pid' (fun c E => proj2 (Hst c E))) as Hunb.
  split; cbn; rewrite ?Hlen; auto.
  - apply (so_width _ _ _ Hs).
  - intros pid' st' Hl. destruct (decide (pid' = pid)) as [->|Hne]; [by apply (so_pids _ _ _ Hs _ _ Hpid)|].
    rewrite lookup_insert_ne in Hl by done. by apply (so_pids _ _ _ Hs _ _ Hl).
  - intros pid' c Hl. destruct (decide (pid' = pid)) as [->|Hne].
    + rewrite lookup_insert_eq in Hl. injection Hl as ->. by apply Hst.
    + rewrite lookup_insert_ne in Hl by done. by apply Hoth.
  - apply (so_scan _ _ _ Hs).
  - intros pid' Hu. split; [by apply (so_unborn _ _ _ Hs), Hunb|by apply Hwr, Hunb].
  - intros p1 p2 H1 H2. by apply (so_single _ _ _ Hs); apply Hunb.
  - pose proof (so_bound _ _ _ Hs). destruct Hup as [?|(-> & Hu & _)]; [lia|].
    pose proof (so_room _ _ _ Hs (or_intror (ex_intro _ _ Hu))). lia.
  - intros Hroom. destruct Hup as [Hle|(-> & Hu & Hc)].
    + assert (running_children g < Z.of_nat (length cs)); [|lia]. apply (so_room _ _ _ Hs).
      destruct Hroom as [?|[p Hp]]; [by left|right; eauto].
    + exfalso. destruct (so_unborn _ _ _ Hs _ Hu) as [Hpar _]. destruct Hroom as [Hse|[p Hp]].
      * destruct Hpar as [E|E]; by rewrite E in Hse.
      * pose proof (so_single _ _ _ Hs _ _ (Hunb _ Hp) Hu) as ->. destruct Hp as (c & Hc' & Hb).
        rewrite lookup_insert_eq in Hc'. injection Hc' as ->. cbn in Hc. congruence.
Qed.

(** A slot that carries no other child's process id may change. *)
Lemma others_in_place s cs g k x new pid pid' c :
  sound s cs g -> cs !! k = Some x -> child_pid x = pid \/ child_pid x = EMPTY ->
  new = EMPTY \/ unborn (kids s) pid -> pid' <> pid -> kids s !! pid' = Some (Live c) ->
  in_place ps (alter (with_pid new) k cs) pid' c.
Proof.
  intros Hs Hx Hp Hnew Hne Hc. pose proof (so_pids _ _ _ Hs _ _ Hc) as Hpos.
  apply (in_place_alter _ _ _ x); [done| | |by apply (so_slots _ _ _ Hs)].
  - unfold EMPTY in *. destruct Hp; lia.
  - intros i ->. destruct Hnew as [|Hu]; [by right|]. exfalso. apply Hne, (so_single _ _ _ Hs); [|done].
    by eexists.
Qed.

Lemma add_running_eq g d :
  0 <= running_children g + d < 2 ^ 32 -> running_children (add_running d g) = running_children g + d.
Proof. intros H. cbn. by apply u32_small. Qed.

(** A counted child is part of the counter. *)
Lemma counted_positive s cs g pid c :
  sound s cs g -> kids s !! pid = Some (Live c) -> counted_pc c = true -> 1 <= running_children g.
Proof.
  intros Hs Hc Hb. rewrite (so_count _ _ _ Hs). pose proof (so_lost _ _ _ Hs).
  pose proof (tally_positive counted_state _ _ _ Hc Hb). unfold headcount. lia.
Qed.

Lemma effect_length pid cs g c st cs' g' : child_effect ps pid cs g c st cs' g' -> length cs' = length cs.
Proof. intros Hef. destruct Hef; try done; by rewrite length_alter. Qed.

(** The child finds its process id where it expects it, before and after. *)
Lemma effect_in_place pid cs g c st cs' g' c' :
  in_place ps cs pid c -> child_effect ps pid cs g c st cs' g' -> st = Live c' -> in_place ps cs' pid c'.
Proof.
  intros Hin Hef. destruct Hef as [k x Hx He| | | |k p x Hp Hx Hpx| |]; intros [= <-]; cbn in *; eauto.
  exists k, (with_pid pid x). by rewrite list_lookup_alter_eq, Hx, with_pid_pid.
Qed.

(** The counter follows the child, and does not wrap. *)
Lemma effect_counter s cs g pid c st cs' g' :
  sound s cs g -> kids s !! pid = Some (Live c) -> child_effect ps pid cs g c st cs' g' ->
  running_children g' = running_children g - one (counted_pc c) + one (counted_state st).
Proof.
  intros Hs Hc Hef. pose proof (so_width _ _ _ Hs). pose proof (so_bound _ _ _ Hs). pose proof (so_lost _ _ _ Hs).
  pose proof (so_count _ _ _ Hs). pose proof (tally_nonneg counted_state (kids s)) as Hnn. fold headcount in Hnn.
  destruct Hef; cbn [counted_state counted_pc one]; rewrite ?add_running_eq; try lia.
  - assert (Hu : unborn (kids s) pid) by (by eexists).
    pose proof (so_room _ _ _ Hs (or_intror (ex_intro _ _ Hu))). lia.
  - pose proof (counted_positive _ _ _ _ _ Hs Hc eq_refl). lia.
Qed.

Lemma sound_child s cs g pid c st w' cs' g' :
  sound s cs g -> kids s !! pid = Some (Live c) -> child_effect ps pid cs g c st cs' g' ->
  shared_mem carr sl ps w' cs' g' ->
  sound (MkSystem w' (parent s) (<[pid := st]> (kids s))
    (if decide (c = CNotify) then {[pid]} ∪ written s else written s) (lost s)) cs' g'.
Proof.
  intros Hs Hc Hef Hsh. pose proof (so_lost _ _ _ Hs). pose proof (so_count _ _ _ Hs) as Hn.
  pose proof (tally_at_eq counted_state _ _ _ Hc) as Hat. cbn [counted_state] in Hat.
  pose proof (tally_nonneg counted_state (kids s)) as Hnn. fold headcount in Hnn.
  pose proof (so_slots _ _ _ Hs _ _ Hc) as Hin. pose proof (so_width _ _ _ Hs). pose proof (so_bound _ _ _ Hs).
  pose proof (so_unborn _ _ _ Hs) as Hun.
  assert (Hme : counted_pc c = false -> unborn (kids s) pid) by (intros; by exists c).
  pose proof (effect_counter _ _ _ _ _ _ _ _ Hs Hc Hef) as Hg.
  eapply (sound_move _ cs g _ (Live c)); try done.
  - by eapply effect_length.
  - intros c' Hst. split; [by eapply effect_in_place|]. destruct Hef; try done; injection Hst as <-; auto; discriminate.
  - intros pid' c' Hne Hc'. pose proof (so_slots _ _ _ Hs _ _ Hc'). destruct Hef; try done.
    + apply (others_in_place s _ g _ x _ pid); auto.
    + apply (others_in_place s _ g _ x _ pid); auto.
  - intros i Hi. pose proof (so_fork _ _ _ Hs _ Hi). destruct Hef; try done; [|by apply free_slot_emptied].
    destruct (Hun pid) as [[E|E] _]; [by apply Hme|congruence..].
  - intros pid' Hu. destruct (Hun _ Hu) as [_ Hw]. case_decide; [|done]. subst c.
    rewrite elem_of_union, elem_of_singleton. intros [->|?]; [|done]. destruct Hu as (c' & Hc' & Hb).
    rewrite Hc in Hc'. injection Hc' as <-. done.
  - unfold headcount in *. rewrite tally_insert, Hat. lia.
  - rewrite Hg. destruct Hef; cbn [counted_state counted_pc one]; try (left; lia). right. auto with lia.
Qed.

Lemma sound_child_wrong s cs g pid c :
  sound s cs g -> kids s !! pid = Some (Live c) -> child_act pid c (mem s) <> Crash.
Proof.
  intros Hs Hc. destruct (child_act_run carr sl ps _ _ _ pid c (so_mem _ _ _ Hs) (so_slots _ _ _ Hs _ _ Hc))
    as (? & ? & ? & ? & -> & _). done.
Qed.

Lemma sound_write_fails s cs g pid :
  sound s cs g -> kids s !! pid = Some (Live CNotify) ->
  sound (MkSystem (mem s) (parent s) (<[pid := Live CLeave]> (kids s)) (written s) (lost s)) cs g.
Proof.
  intros Hs Hc. pose proof (so_slots _ _ _ Hs) as Hin.
  eapply (sound_move _ cs g _ (Live CNotify)); try done; try as_before Hs; auto.
  - intros c [= <-]. split; [|done]. apply (Hin _ _ Hc).
  - intros pid' Hu. by apply (so_unborn _ _ _ Hs).
  - unfold headcount. rewrite tally_insert, (tally_at_eq _ _ _ _ Hc), (so_count _ _ _ Hs). unfold headcount. cbn. lia.
  - left. lia.
Qed.

Lemma sound_kill s cs g pid c :
  sound s cs g -> kids s !! pid = Some (Live c) ->
  sound (MkSystem (mem s) (parent s) (<[pid := Killed]> (kids s)) (written s)
    (if counted_pc c then lost s + 1 else lost s)) cs g.
Proof.
  intros Hs Hc. pose proof (so_slots _ _ _ Hs) as Hin. pose proof (so_lost _ _ _ Hs).
  eapply (sound_move _ cs g _ (Live c)); try done; try as_before Hs; auto.
  - intros pid' Hu. by apply (so_unborn _ _ _ Hs).
  - destruct (counted_pc c); lia.
  - unfold headcount. rewrite tally_insert, (tally_at_eq _ _ _ _ Hc), (so_count _ _ _ Hs). unfold headcount.
    cbn [counted_state]; destruct (counted_pc c); cbn [one]; lia.
  - left. lia.
Qed.

(** *** The parent's steps *)

Lemma unborn_ext ks ks' :
  (forall pid c, ks' !! pid = Some (Live c) -> ks !! pid = Some (Live c)) -> forall pid, unborn ks' pid -> unborn ks pid.
Proof. intros H pid (c & Hc & Hb). exists c. auto. Qed.

Lemma sound_parent s cs g c' :
  sound s cs g ->
  (forall i, c' = PScan i -> 0 <= i) -> (forall i, c' = PFork i -> free_slot cs i) ->
  (forall pid, parent s = PWait pid -> c' = PWait pid \/ c' = PDone \/ pid ∈ written s) ->
  (parent s = PDone -> c' = PDone) ->
  (searching c' = true -> running_children g < Z.of_nat (length cs)) ->
  sound (MkSystem (mem s) c' (kids s) (written s) (lost s)) cs g.
Proof.
  intros Hs Hsc Hfk Hwait Hdone Hse. split; cbn; try as_before Hs; auto.
  - intros pid Hu. destruct (so_unborn _ _ _ Hs _ Hu) as [[E|E] Hw]; split; auto.
    destruct (Hwait _ E) as [?|[?|?]]; [by left|by right|done].
  - intros [?|Hu]; [by apply Hse|apply (so_room _ _ _ Hs); by right].
Qed.

Lemma sound_parent_act s cs g :
  sound s cs g -> sound (MkSystem (mem s) (parent_next cs g (parent s)) (kids s) (written s) (lost s)) cs g.
Proof.
  intros Hs. pose proof (so_room _ _ _ Hs) as Hroom. pose proof (so_scan _ _ _ Hs) as Hsc.
  pose proof (so_fork _ _ _ Hs) as Hfk.
  apply sound_parent; [done|..]; destruct (parent s) as [|i|i|p|]; cbn [parent_next]; try done; try (by auto).
  all: try (destruct (Z.ltb_spec (running_children g) (Z.of_nat (length cs))); intros; by simplify_eq).
  all: specialize (Hsc _ eq_refl); destruct (cs !! Z.to_nat i) as [x|] eqn:Hx; try done.
  all: destruct (Z.eqb_spec (child_pid x) EMPTY); intros; simplify_eq; try lia.
  - eexists _, x. split_and!; [by rewrite Z2Nat.id|done..].
Qed.

Lemma sound_fork s cs g i pid :
  sound s cs g -> parent s = PFork i -> 0 < pid -> kids s !! pid = None ->
  sound (MkSystem (mem s) (PWait pid) (<[pid := Live (CRegister i)]> (kids s)) (written s ∖ {[pid]}) (lost s)) cs g.
Proof.
  intros Hs Hp Hpid Hnone. pose proof (so_fork _ _ _ Hs _ Hp) as Hfree.
  assert (Hno : forall p, unborn (kids s) p -> False).
  { intros p Hu. destruct (so_unborn _ _ _ Hs _ Hu) as [[E|E] _]; congruence. }
  assert (Hun : forall p, unborn (<[pid := Live (CRegister i)]> (kids s)) p -> p = pid).
  { intros p (c & Hc & Hb). destruct (decide (p = pid)) as [|Hne]; [done|]. rewrite lookup_insert_ne in Hc by done.
    exfalso. by eapply (Hno p); exists c. }
  split; cbn; try as_before Hs; try done.
  - intros p st Hl. destruct (decide (p = pid)) as [->|Hne]; [done|].
    rewrite lookup_insert_ne in Hl by done. by apply (so_pids _ _ _ Hs _ _ Hl).
  - intros p c Hl. destruct (decide (p = pid)) as [->|Hne].
    + rewrite lookup_insert_eq in Hl. by injection Hl as <-.
    + rewrite lookup_insert_ne in Hl by done. by apply (so_slots _ _ _ Hs).
  - intros p Hu. rewrite (Hun _ Hu). split; [by left|]. set_solver.
  - intros p1 p2 H1 H2. by rewrite (Hun _ H1), (Hun _ H2).
  - rewrite (so_count _ _ _ Hs). unfold headcount. rewrite tally_insert. unfold tally_at. rewrite Hnone.
    cbn [counted_state counted_pc one]. lia.
  - intros _. apply (so_room _ _ _ Hs). left. by rewrite Hp.
Qed.

(** *** The handler's step *)

Lemma sound_reap s cs g pid (exited : bool) w' :
  sound s cs g -> kids s !! pid = Some (if exited then Exited else Killed) ->
  shared_mem carr sl ps w' (reaped pid exited cs) g ->
  sound (MkSystem w' (parent s) (delete pid (kids s)) (written s) (lost s)) (reaped pid exited cs) g.
Proof.
  intros Hs Hpid Hsh. assert (Hlen : length (reaped pid exited cs) = length cs).
  { unfold reaped. destruct (first_pid cs pid), exited; try done. apply length_alter. }
  assert (Hsub : forall p st, delete pid (kids s) !! p = Some st -> kids s !! p = Some st).
  { intros p st Hl. by apply lookup_delete_Some in Hl as [_ ?]. }
  pose proof (unborn_ext _ _ (fun p c => Hsub p (Live c))) as Hun.
  split; cbn; rewrite ?Hlen; try as_before Hs; eauto.
  - by intros p st Hl%Hsub%(so_pids _ _ _ Hs).
  - intros p c Hl. assert (p <> pid) by (intros ->; by rewrite lookup_delete_eq in Hl).
    apply Hsub in Hl. pose proof (so_slots _ _ _ Hs _ _ Hl) as Hin. unfold reaped.
    destruct (first_pid cs pid) as [k|] eqn:Hk; [|done]. destruct exited; [|done].
    destruct (first_pid_spec _ _ _ Hk) as (x & Hx & Hpx & _).
    apply (others_in_place s _ g _ x _ pid); auto.
  - intros i Hi. pose proof (so_fork _ _ _ Hs _ Hi). unfold reaped.
    destruct (first_pid cs pid), exited; try done. by apply free_slot_emptied.
  - intros p Hu. by apply (so_unborn _ _ _ Hs), Hun.
  - intros p1 p2 H1 H2. apply (so_single _ _ _ Hs); by apply Hun.
  - rewrite (so_count _ _ _ Hs). unfold headcount. rewrite tally_delete, (tally_at_eq _ _ _ _ Hpid).
    destruct exited; cbn [counted_state one]; lia.
  - intros [?|[p Hu]]; apply (so_room _ _ _ Hs); [by left|right; exists p; by apply Hun].
Qed.

(** ** Slots against the counter *)

Definition occupied (cs : list child_ctx) : Z := Z.of_nat (length (filter (fun c => child_pid c <> EMPTY) cs)).

(** A child that has left its slot and is still counted. *)
Definition uncounting (s : child_state) : bool := match s with Live CUncount => true | _ => false end.

(** A slot may be taken by a child that is not counted only while the parent
    waits for that child, and for ever if it was killed there. *)
Definition owed (p : parent_pc) (ks : gmap Z child_state) (wr : gset Z) : Z :=
  match p with
  | PWait pid =>
      if decide (pid ∈ wr) then 0
      else match ks !! pid with Some (Live CCount) | Some Killed | None => 1 | _ => 0 end
  | _ => 0
  end.

Definition supplied (s : system) (cs : list child_ctx) (g : global_state) : Prop :=
  parent s <> PDone ->
  occupied cs + tally uncounting (kids s) <= running_children g + owed (parent s) (kids s) (written s).

Lemma occupied_alter cs k x new :
  cs !! k = Some x ->
  occupied (alter (with_pid new) k cs) =
  occupied cs + (if new =? EMPTY then 0 else 1) - (if child_pid x =? EMPTY then 0 else 1).
Proof. apply filter_alter_length. Qed.

Lemma occupied_none cs : Forall (fun x => child_pid x = EMPTY) cs -> occupied cs = 0.
Proof.
  unfold occupied. induction 1 as [|x cs Hx _ IH]; [done|]. rewrite filter_cons_False; [done|tauto].
Qed.

(** With fewer process ids than slots a slot is empty. *)
Lemma occupied_lt cs : occupied cs < Z.of_nat (length cs) -> is_Some (first_pid cs EMPTY).
Proof.
  unfold occupied. induction cs as [|x cs IH]; cbn [first_pid length]; [cbn; lia|].
  destruct (Z.eqb_spec (child_pid x) EMPTY); [by eexists|]. rewrite filter_cons_True by done. cbn [length].
  intros H. destruct IH as [k ->]; [lia|]. by eexists.
Qed.

Lemma pid_not_empty pid : 0 < pid -> (pid =? EMPTY) = false.
Proof. intros H. apply Z.eqb_neq. unfold EMPTY. lia. Qed.

(** What is owed changes only with the child waited for. *)
Lemma owed_other p ks ks' wr wr' pid :
  p <> PWait pid -> (forall q, q <> pid -> ks' !! q = ks !! q /\ (q ∈ wr' <-> q ∈ wr)) -> owed p ks' wr' = owed p ks wr.
Proof.
  intros Hp H. destruct p as [| | |q|]; try done. cbn. destruct (H q) as [-> Hw]; [congruence|].
  repeat case_decide; tauto.
Qed.

Lemma owed_range p ks wr : 0 <= owed p ks wr <= 1.
Proof. destruct p; cbn; try lia. case_decide; [lia|]. repeat case_match; lia. Qed.

Lemma supplied_child s cs g pid c st cs' g' w' :
  sound s cs g -> supplied s cs g -> kids s !! pid = Some (Live c) -> child_effect ps pid cs g c st cs' g' ->
  supplied (MkSystem w' (parent s) (<[pid := st]> (kids s))
    (if decide (c = CNotify) then {[pid]} ∪ written s else written s) (lost s)) cs' g'.
Proof.
  intros Hs Hsup Hc Hef Hnd. specialize (Hsup Hnd). pose proof (effect_counter _ _ _ _ _ _ _ _ Hs Hc Hef) as Hg. cbn [parent kids written].
  pose proof (pid_not_empty _ (so_pids _ _ _ Hs _ _ Hc)) as Hpos.
  rewrite tally_insert, (tally_at_eq _ _ _ _ Hc), Hg.
  set (wr' := if decide (c = CNotify) then _ else _).
  assert (Hoth : forall q, q <> pid -> <[pid := st]> (kids s) !! q = kids s !! q /\ (q ∈ wr' <-> q ∈ written s)).
  { intros q Hq. split; [by apply lookup_insert_ne|]. unfold wr'. case_decide; set_solver. }
  assert (Howe : parent s <> PWait pid ->
    owed (parent s) (<[pid := st]> (kids s)) wr' = owed (parent s) (kids s) (written s)).
  { intros Hp. by apply (owed_other _ _ _ _ _ pid). }
  assert (Hun : counted_pc c = false -> parent s = PWait pid /\ pid ∉ written s).
  { intros Hb. destruct (so_unborn _ _ _ Hs pid) as [[?|?] ?]; [by exists c|done..]. }
  destruct (decide (parent s = PWait pid)) as [Hp|Hp].
  - rewrite Hp in Hsup |- *. cbn [owed] in *. rewrite lookup_insert_eq. rewrite Hc in Hsup. subst wr'.
    destruct Hef as [k x Hx He| | | |k p x Hpk Hx Hpx|k p x Hpk Hx Hpx|]; cbn [uncounting counted_pc counted_state one] in *.
    all: rewrite ?(occupied_alter _ _ _ _ Hx), ?He, ?Hpx, ?Hpos, ?Z.eqb_refl; repeat case_decide; try lia.
    all: try (destruct (Hun eq_refl); tauto). all: set_solver.
  - rewrite (Howe Hp).
    destruct Hef as [k x Hx He| | | |k p x Hpk Hx Hpx|k p x Hpk Hx Hpx|]; cbn [uncounting counted_pc counted_state one] in *.
    all: rewrite ?(occupied_alter _ _ _ _ Hx), ?He, ?Hpx, ?Hpos, ?Z.eqb_refl; try lia.
    all: by destruct (Hun eq_refl).
Qed.

(** A step of the child [pid] that touches neither the contexts nor the
    counter. *)
Lemma supplied_move s cs g pid c ks' n' :
  supplied s cs g -> kids s !! pid = Some c -> (forall q, q <> pid -> ks' !! q = kids s !! q) ->
  tally uncounting ks' <= tally uncounting (kids s) ->
  owed (PWait pid) (kids s) (written s) <= owed (PWait pid) ks' (written s) ->
  supplied (MkSystem (mem s) (parent s) ks' (written s) n') cs g.
Proof.
  intros Hsup Hc Hq Ht Ho Hnd. specialize (Hsup Hnd). cbn [parent kids written].
  destruct (decide (parent s = PWait pid)) as [Hp|Hp]; [rewrite Hp in *; lia|].
  rewrite (owed_other _ (kids s) ks' (written s) (written s) pid); [lia|done|]. intros q Hne. by rewrite Hq.
Qed.

Lemma occupied_reaped pid exited cs : 0 < pid -> occupied (reaped pid exited cs) <= occupied cs.
Proof.
  intros Hpos. unfold reaped. destruct (first_pid cs pid) as [k|] eqn:Hk; [|lia]. destruct exited; [|lia].
  destruct (first_pid_spec _ _ _ Hk) as (x & Hx & Hpx & _).
  rewrite (occupied_alter _ _ _ _ Hx), Hpx, (pid_not_empty _ Hpos), Z.eqb_refl. lia.
Qed.

(** No process has crashed, and the invariants hold. *)
Definition config_ok (c : config) : Prop :=
  match c with Conf s => exists cs g, sound s cs g /\ supplied s cs g | Wrong => False end.

(** The steps of the children and of the handler. *)
Lemma supplied_reap s cs g pid (exited : bool) w' :
  sound s cs g -> supplied s cs g -> kids s !! pid = Some (if exited then Exited else Killed) ->
  supplied (MkSystem w' (parent s) (delete pid (kids s)) (written s) (lost s)) (reaped pid exited cs) g.
Proof.
  intros Hs Hsup Hpid. pose proof (occupied_reaped pid exited cs (so_pids _ _ _ Hs _ _ Hpid)) as Hocc.
  assert (Hm : supplied (MkSystem (mem s) (parent s) (delete pid (kids s)) (written s) (lost s)) cs g).
  { eapply supplied_move; [done..| | |].
    - intros q Hq. by apply lookup_delete_ne.
    - rewrite tally_delete. unfold tally_at. rewrite Hpid. destruct exited; cbn [uncounting one]; lia.
    - cbn. rewrite lookup_delete_eq. pose proof (owed_range (PWait pid) (kids s) (written s)) as Hr.
      cbn in Hr. case_decide; lia. }
  intros Hnd. specialize (Hm Hnd). cbn in *. lia.
Qed.

Lemma supplied_kill s cs g pid c n' :
  supplied s cs g -> kids s !! pid = Some (Live c) ->
  supplied (MkSystem (mem s) (parent s) (<[pid := Killed]> (kids s)) (written s) n') cs g.
Proof.
  intros Hsup Hc. eapply supplied_move; [done..| | |].
  - intros q Hq. by apply lookup_insert_ne.
  - rewrite tally_insert, (tally_at_eq _ _ _ _ Hc). destruct (uncounting (Live c)); cbn; lia.
  - cbn. rewrite lookup_insert_eq. pose proof (owed_range (PWait pid) (kids s) (written s)) as Hr.
    cbn in Hr. case_decide; lia.
Qed.

Lemma supplied_write_fails s cs g pid :
  supplied s cs g -> kids s !! pid = Some (Live CNotify) ->
  supplied (MkSystem (mem s) (parent s) (<[pid := Live CLeave]> (kids s)) (written s) (lost s)) cs g.
Proof.
  intros Hsup Hc. eapply supplied_move; [done..| | |].
  - intros q Hq. by apply lookup_insert_ne.
  - rewrite tally_insert, (tally_at_eq _ _ _ _ Hc). cbn [uncounting one]. lia.
  - cbn. rewrite lookup_insert_eq, Hc. lia.
Qed.

(** The steps of the parent. *)
Lemma supplied_parent s cs g c' :
  supplied s cs g -> (parent s = PDone -> c' = PDone) ->
  owed (parent s) (kids s) (written s) <= owed c' (kids s) (written s) \/ c' = PDone ->
  supplied (MkSystem (mem s) c' (kids s) (written s) (lost s)) cs g.
Proof.
  intros Hsup Hd Ho Hnd. cbn [parent kids written] in *.
  assert (parent s <> PDone) as Hnd' by tauto. specialize (Hsup Hnd'). destruct Ho; [lia|done].
Qed.

Lemma supplied_fork s cs g i pid :
  supplied s cs g -> parent s = PFork i -> kids s !! pid = None ->
  supplied (MkSystem (mem s) (PWait pid) (<[pid := Live (CRegister i)]> (kids s)) (written s ∖ {[pid]}) (lost s)) cs g.
Proof.
  intros Hsup Hp Hnone _. unfold supplied in Hsup. rewrite Hp in Hsup. specialize (Hsup ltac:(done)). cbn in *.
  rewrite lookup_insert_eq, tally_insert. unfold tally_at. rewrite Hnone. cbn [uncounting one].
  case_decide; [set_solver|lia].
Qed.

Lemma step_ok c c' : step c c' -> config_ok c -> config_ok c'.
Proof.
  intros Hst.
  destruct Hst as [w c ks wr n c' w' Hact|w c ks wr n Hact|w c ks wr n|w i ks wr n pid Hpid Hnone|w pid ks wr n Hw
    |w p ks wr n pid c s w' Hk Hact|w p ks wr n pid c Hk Hact|w p ks wr n pid Hk|w p ks wr n pid c Hk
    |w p ks wr n pid exited more w' Hk Hact|w p ks wr n pid exited Hk Hact];
    cbn [config_ok]; intros (cs & g & Hs & Hsup).
  - pose proof (parent_act_eq carr sl ps _ _ _ c (so_mem _ _ _ Hs) (so_scan _ _ _ Hs)) as Heq.
    cbn in Heq. rewrite Hact in Heq. injection Heq as -> ->. exists cs, g. split; [apply (sound_parent_act _ _ _ Hs)|].
    apply (supplied_parent _ _ _ _ Hsup); cbn; [by intros ->|left].
    destruct c; cbn; repeat case_match; done.
  - pose proof (parent_act_eq carr sl ps _ _ _ c (so_mem _ _ _ Hs) (so_scan _ _ _ Hs)). cbn in *. congruence.
  - exists cs, g. split; [|apply (supplied_parent _ _ _ PDone Hsup); auto].
    apply (sound_parent _ _ _ PDone Hs); try done. intros pid _. auto.
  - exists cs, g. split; [by apply (sound_fork _ _ _ i pid Hs)|by apply (supplied_fork _ _ _ i pid Hsup)].
  - exists cs, g. split.
    + apply (sound_parent _ _ _ PCheck Hs); try done. cbn. intros p [= ->]. auto.
    + apply (supplied_parent _ _ _ PCheck Hsup); [done|]. left. cbn. by rewrite decide_True.
  - destruct (child_act_run carr sl ps _ _ _ pid c (so_mem _ _ _ Hs) (so_slots _ _ _ Hs _ _ Hk))
      as (s' & w1 & cs' & g' & Hrun & Hsh & Hef).
    cbn in Hrun. rewrite Hact in Hrun. injection Hrun as -> ->. exists cs', g'.
    split; [by apply (sound_child _ _ _ _ _ _ _ _ _ Hs Hk Hef)|by apply (supplied_child _ _ _ _ _ _ _ _ _ Hs Hsup Hk Hef)].
  - by apply (sound_child_wrong _ _ _ _ _ Hs Hk).
  - exists cs, g. split; [by apply (sound_write_fails _ _ _ _ Hs)|by apply (supplied_write_fails _ _ _ _ Hsup)].
  - exists cs, g. split; [by apply (sound_kill _ _ _ _ _ Hs)|by apply (supplied_kill _ _ _ _ _ _ Hsup Hk)].
  - destruct (reap_act_run carr sl ps _ _ _ pid exited (so_mem _ _ _ Hs)) as (more' & w1 & Hrun & Hsh).
    cbn in Hrun. rewrite Hact in Hrun. injection Hrun as -> ->. do 2 eexists.
    split; [by apply (sound_reap _ _ _ _ _ _ Hs Hk)|by apply (supplied_reap _ _ _ _ _ _ Hs Hsup Hk)].
  - destruct (reap_act_run carr sl ps _ _ _ pid exited (so_mem _ _ _ Hs)) as (? & w1 & Hrun & _). cbn in Hrun. congruence.
Qed.

Lemma steps_ok c c' : steps c c' -> config_ok c -> config_ok c'.
Proof. induction 1; eauto using step_ok. Qed.

(** ** Where runs start *)

(** No child, every slot empty, the counter at zero. *)
Definition initial (s : system) : Prop :=
  parent s = PCheck /\ kids s = ∅ /\ written s = ∅ /\ lost s = 0 /\ Z.of_nat (length ps) < 2 ^ 32 /\
  exists cs g, shared_mem carr sl ps (mem s) cs g /\ Forall (fun x => child_pid x = EMPTY) cs /\ running_children g = 0.

Lemma shared_slots w cs g : shared_mem carr sl ps w cs g -> length cs = length ps.
Proof. intros ([(_ & _ & _ & Hall) _] & _). symmetry. by apply Forall2_length in Hall. Qed.

(** The memory determines the contexts and the counter. *)
Lemma shared_fun w cs g cs' g' : shared_mem carr sl ps w cs g -> shared_mem carr sl ps w cs' g' -> cs' = cs /\ g' = g.
Proof.
  intros Hsh Hsh'. split; [|destruct Hsh as (_ & _ & H1), Hsh' as (_ & _ & H2); congruence].
  pose proof (shared_slots _ _ _ Hsh). pose proof (shared_slots _ _ _ Hsh').
  apply list_eq_same_length with (n := length cs); [done|congruence|]. intros i x y _ Hx Hy.
  destruct (shared_slot _ _ _ _ _ _ _ _ Hsh Hy) as (l & Hl & Ho & _).
  destruct (shared_slot _ _ _ _ _ _ _ _ Hsh' Hx) as (l' & Hl' & Ho' & _). unfold ptr in *. congruence.
Qed.

Lemma initial_ok s : initial s -> config_ok (Conf s).
Proof.
  destruct s as [w p ks wr n]. intros (Hp & Hk & Hw & Hn & Hlen & cs & g & Hsh & Hall & Hr). cbn in *. subst.
  pose proof (shared_slots _ _ _ Hsh) as Hl. exists cs, g. split.
  - split; cbn; rewrite ?Hl; try done; try lia.
    + by intros pid (c & Hc & _).
    + by intros pid pid' (c & Hc & _).
    + intros [?|(pid & c & Hc & _)]; done.
  - intros _. cbn. rewrite (occupied_none _ Hall). change (tally uncounting ∅) with 0. lia.
Qed.

Lemma steps_trans c1 c2 c3 : steps c1 c2 -> steps c2 c3 -> steps c1 c3.
Proof. intros H1 H2. induction H2; eauto using steps. Qed.

Lemma lost_mono s s' : steps (Conf s) (Conf s') -> lost s <= lost s'.
Proof.
  intros H. remember (Conf s) as c. remember (Conf s') as c'. revert s s' Heqc Heqc'.
  induction H as [c|c1 c2 c3 _ IH Hst]; intros s s' -> E; [by injection E as ->|].
  destruct Hst; simplify_eq/=; specialize (IH _ _ eq_refl eq_refl); cbn in *; try done.
  destruct (counted_pc c); lia.
Qed.

(** ** Taking on a child *)

Lemma step_parent_next w cs g c ks wr n :
  shared_mem carr sl ps w cs g -> (forall i, c = PScan i -> 0 <= i) ->
  step (Conf (MkSystem w c ks wr n)) (Conf (MkSystem w (parent_next cs g c) ks wr n)).
Proof. intros Hsh Hc. apply step_parent. by eapply parent_act_eq. Qed.

(** The search ends at the first empty slot. *)
Lemma scan_steps w cs g ks wr n k : forall j i : nat,
  shared_mem carr sl ps w cs g -> first_pid cs EMPTY = Some k -> (i + j = k)%nat ->
  steps (Conf (MkSystem w (PScan (Z.of_nat i)) ks wr n)) (Conf (MkSystem w (PFork (Z.of_nat k)) ks wr n)).
Proof.
  induction j as [|j IH]; intros i Hsh Hk Hij; destruct (first_pid_spec _ _ _ Hk) as (x & Hx & He & Hbefore).
  - assert (i = k) as -> by lia. eapply steps_step; [constructor|].
    assert (PFork (Z.of_nat k) = parent_next cs g (PScan (Z.of_nat k))) as ->.
    { cbn. by rewrite Nat2Z.id, Hx, He. }
    apply step_parent_next; [done|]. intros i [= <-]. lia.
  - apply steps_trans with (Conf (MkSystem w (PScan (Z.of_nat (S i))) ks wr n)); [|apply IH; [done..|lia]].
    eapply steps_step; [constructor|]. pose proof (lookup_lt_Some _ _ _ Hx).
    destruct (lookup_lt_is_Some_2 cs i) as [y Hy]; [lia|].
    assert (PScan (Z.of_nat (S i)) = parent_next cs g (PScan (Z.of_nat i))) as ->.
    { cbn. rewrite Nat2Z.id, Hy. rewrite (proj2 (Z.eqb_neq _ _)) by (eapply Hbefore; [|done]; lia).
      f_equal. lia. }
    apply step_parent_next; [done|]. intros i' [= <-]. lia.
Qed.

(** The child behind the fork registers, is counted and reports. *)
Lemma birth_steps w cs g p ks wr n pid k x :
  shared_mem carr sl ps w cs g -> cs !! k = Some x -> child_pid x = EMPTY ->
  exists w', steps (Conf (MkSystem w p (<[pid := Live (CRegister (Z.of_nat k))]> ks) wr n))
      (Conf (MkSystem w' p (<[pid := Live CRun]> ks) ({[pid]} ∪ wr) n)) /\
    shared_mem carr sl ps w' (alter (with_pid pid) k cs) (add_running 1 g).
Proof.
  intros Hsh Hx He.
  assert (Hmove : forall w0 w1 c st wr0, child_act pid c w0 = Ret st w1 ->
    step (Conf (MkSystem w0 p (<[pid := Live c]> ks) wr0 n))
      (Conf (MkSystem w1 p (<[pid := st]> ks) (if decide (c = CNotify) then {[pid]} ∪ wr0 else wr0) n))).
  { intros w0 w1 c st wr0 Ha. rewrite <- (insert_insert_eq ks pid st (Live c)). apply step_child; [|done].
    apply lookup_insert_eq. }
  destruct (shared_slot _ _ _ _ _ _ _ _ Hsh Hx) as (l & Hl & _ & Hload).
  destruct (shared_set_pid _ _ _ _ _ _ _ _ _ pid Hsh Hx Hl) as (w1 & R1 & Hsh1).
  destruct (shared_add_running _ _ _ _ _ _ 1 Hsh1) as (w2 & R2 & Hsh2).
  exists w2. split; [|done].
  assert (A1 : child_act pid (CRegister (Z.of_nat k)) w = Ret (Live CCount) w1).
  { cbn. erewrite bind_eq by reflexivity. erewrite bind_eq by exact Hload. by erewrite bind_eq by exact R1. }
  assert (A2 : child_act pid CCount w1 = Ret (Live CNotify) w2) by (cbn; by erewrite bind_eq by exact R2).
  eapply steps_step; [|apply (Hmove w2 w2 CNotify (Live CRun) wr); reflexivity].
  eapply steps_step; [|apply (Hmove w1 w2 CCount _ wr A2)].
  eapply steps_step; [constructor|apply (Hmove w w1 _ _ wr A1)].
Qed.

(** From the parent's check to its next one. *)
Lemma refill_steps w cs g ks wr n pid k :
  shared_mem carr sl ps w cs g -> running_children g < Z.of_nat (length ps) -> first_pid cs EMPTY = Some k ->
  0 < pid -> ks !! pid = None ->
  exists w', steps (Conf (MkSystem w PCheck ks wr n))
      (Conf (MkSystem w' PCheck (<[pid := Live CRun]> ks) ({[pid]} ∪ wr ∖ {[pid]}) n)) /\
    shared_mem carr sl ps w' (alter (with_pid pid) k cs) (add_running 1 g).
Proof.
  intros Hsh Hr Hk Hpid Hnone. destruct (first_pid_spec _ _ _ Hk) as (x & Hx & He & _).
  destruct (birth_steps w cs g (PWait pid) ks (wr ∖ {[pid]}) n pid k x Hsh Hx He) as (w2 & Hb & Hsh2).
  exists w2. split; [|done]. eapply steps_step; [|apply (step_wake w2 pid); set_solver].
  refine (steps_trans _ _ _ _ Hb). eapply steps_step; [|by apply step_fork].
  refine (steps_trans _ _ _ _ (scan_steps _ _ _ _ _ _ k k 0%nat Hsh Hk eq_refl)).
  eapply steps_step; [constructor|].
  assert (PScan (Z.of_nat 0) = parent_next cs g PCheck) as ->.
  { cbn. by rewrite (shared_slots _ _ _ Hsh), (proj2 (Z.ltb_lt _ _) Hr). }
  by apply step_parent_next.
Qed.
End invariant.

(** (C3) The parent, its handler and its children never crash one another,
    however their accesses to the shared memory interleave, wherever children
    are killed and whichever process ids are used again.  Throughout, the
    counter of running children is the number of children at work plus the
    number of children that were killed at work; it never exceeds the number
    of slots (nor wraps below zero), and every child finds its process id in a
    slot whenever it looks for it. *)
Theorem population_invariant carr sl ps s c :
  initial carr sl ps s -> steps (Conf s) c ->
  exists s' cs g, c = Conf s' /\ shared_mem carr sl ps (mem s') cs g /\
    running_children g = headcount (kids s') + lost s' /\ running_children g <= Z.of_nat (length ps) /\
    (forall pid c, kids s' !! pid = Some (Live c) -> in_place ps cs pid c).
Proof.
  intros Hi Hst. pose proof (steps_ok carr sl ps _ _ Hst (initial_ok _ _ _ _ Hi)) as Hok.
  destruct c as [s'|]; [|done]. destruct Hok as (cs & g & Hs & _). exists s', cs, g.
  rewrite <- (shared_slots _ _ _ _ _ _ (so_mem _ _ _ _ _ _ Hs)).
  destruct Hs. by repeat (split; [done|]).
Qed.

(** (C4) In every reachable configuration whose parent is at the test of its
    loop with the counter below the number of slots, the parent can take on
    another child: the first slot without a process id exists, and for any
    process id that is not in use there is a continuation in which the new
    child takes that slot, is counted and starts to work, and the parent is
    back at its loop, all other slots and children as before.  (Other
    continuations end in the stop flag or in a signal to the new child; a
    parent that has left its loop or waits for a child that was killed takes
    none on.) *)
Theorem population_refills carr sl ps s s1 cs g pid :
  initial carr sl ps s -> steps (Conf s) (Conf s1) -> parent s1 = PCheck ->
  shared_mem carr sl ps (mem s1) cs g -> running_children g < Z.of_nat (length ps) ->
  0 < pid -> kids s1 !! pid = None ->
  exists s2 k, first_pid cs EMPTY = Some k /\ steps (Conf s1) (Conf s2) /\ parent s2 = PCheck /\
    kids s2 = <[pid := Live CRun]> (kids s1) /\ lost s2 = lost s1 /\
    shared_mem carr sl ps (mem s2) (alter (with_pid pid) k cs) (add_running 1 g).
Proof.
  intros Hi Hst Hp Hsh Hr Hpid Hnone.
  pose proof (steps_ok carr sl ps _ _ Hst (initial_ok _ _ _ _ Hi)) as (cs' & g' & Hs & Hsup).
  destruct (shared_fun _ _ _ _ _ _ _ _ Hsh (so_mem _ _ _ _ _ _ Hs)) as [-> ->].
  unfold supplied in Hsup. rewrite Hp in Hsup. specialize (Hsup ltac:(done)). cbn in Hsup.
  pose proof (tally_nonneg uncounting (kids s1)). pose proof (shared_slots _ _ _ _ _ _ Hsh) as Hl.
  destruct (occupied_lt cs) as [k Hk]; [lia|].
  destruct s1 as [w p ks wr n]. cbn in *. subst p.
  destruct (refill_steps _ _ _ _ _ _ _ wr n pid k Hsh Hr Hk Hpid Hnone) as (w2 & Hrun & Hsh2).
  eexists _, k. by repeat (split; [done|]).
Qed.





(** (C11) Children that are killed are never replaced: their part of the
    counter is not given back, so once as many were killed at work as there
    are slots no child runs, then or later, and the parent's loop waits for a
    counter that stays at the number of slots. *)
Theorem population_starves carr sl ps s s1 s2 :
  initial carr sl ps s -> steps (Conf s) (Conf s1) -> lost s1 = Z.of_nat (length ps) ->
  steps (Conf s1) (Conf s2) ->
  (forall pid c, kids s2 !! pid <> Some (Live c)) /\ searching (parent s2) = false /\
  exists cs g, shared_mem carr sl ps (mem s2) cs g /\ running_children g = Z.of_nat (length ps).
Proof.
  intros Hi H1 Hl H2. pose proof (lost_mono _ _ H2) as Hm.
  pose proof (steps_ok carr sl ps _ _ (steps_trans _ _ _ H1 H2) (initial_ok _ _ _ _ Hi)) as (cs & g & Hs & _).
  pose proof (so_count _ _ _ _ _ _ Hs) as Hc. pose proof (so_bound _ _ _ _ _ _ Hs) as Hb.
  pose proof (so_room _ _ _ _ _ _ Hs) as Hroom.
  rewrite (shared_slots _ _ _ _ _ _ (so_mem _ _ _ _ _ _ Hs)) in Hb, Hroom.
  pose proof (tally_nonneg counted_state (kids s2)) as Hn. fold headcount in Hn.
  split_and!.
  - intros pid c Hk. destruct (counted_pc c) eqn:Hcc.
    + pose proof (tally_positive counted_state _ _ _ Hk Hcc) as Ht. fold headcount in Ht. lia.
    + assert (running_children g < Z.of_nat (length ps)); [|lia]. apply Hroom. right. exists pid. by exists c.
  - destruct (searching (parent s2)); [|done]. specialize (Hroom (or_introl eq_refl)). lia.
  - exists cs, g. split; [apply Hs|lia].
Qed.

(** ** One slot *)

Definition one_slot (pid running : Z) : world :=
  set_sys (MkSys (Some 8%positive) 1 (Some 5%positive) NULL NULL 0 TRUE NULL)
    (set_heap (list_to_map
      [ (5%positive, OPtrs [Some 6%positive]); (6%positive, OChild (blank_child pid));
        (8%positive, OGlobal (MkGlobal running NULL)) ])
      (fresh_world [] [])).

Lemma one_slot_shared pid running :
  shared_mem 5%positive 8%positive [Some 6%positive] (one_slot pid running) [blank_child pid] (MkGlobal running NULL).
Proof.
  split; [|done]. split; [|by apply NoDup_singleton]. split_and!; try done. repeat constructor. by exists 6%positive.
Qed.

Definition at_start : system := MkSystem (one_slot 0 0) PCheck ∅ ∅ 0.

Lemma at_start_initial : initial 5%positive 8%positive [Some 6%positive] at_start.
Proof.
  repeat (split; [done|]). do 2 eexists. split; [apply one_slot_shared|]. by repeat constructor.
Qed.

(** The child 100 is taken on and killed at work. *)
Lemma killed_at_work :
  exists s, steps (Conf at_start) (Conf s) /\ kids s = {[100 := Killed]} /\ lost s = 1 /\ parent s = PCheck.
Proof.
  destruct (refill_steps 5%positive 8%positive [Some 6%positive] _ _ _ ∅ ∅ 0 100 0%nat
    (one_slot_shared 0 0) ltac:(done) eq_refl ltac:(done) eq_refl) as (w' & Hrun & _).
  eexists. split; [eapply steps_step; [exact Hrun|apply (step_kill _ _ _ _ _ 100 CRun), lookup_insert_eq]|]. done.
Qed.

Lemma population_invariant_witness :
  exists s cs g, steps (Conf at_start) (Conf s) /\
    shared_mem 5%positive 8%positive [Some 6%positive] (mem s) cs g /\ running_children g = 1 /\ lost s = 1.
Proof.
  destruct killed_at_work as (s & Hrun & Hk & Hl & _).
  destruct (population_invariant _ _ _ at_start (Conf s) at_start_initial Hrun) as (s' & cs & g & E & Hsh & Hc & _).
  injection E as <-. exists s, cs, g. split_and!; try done. by rewrite Hc, Hk, Hl.
Defined.

Lemma population_refills_witness :
  exists s2, steps (Conf at_start) (Conf s2) /\ parent s2 = PCheck /\ kids s2 = {[100 := Live CRun]} /\
    shared_mem 5%positive 8%positive [Some 6%positive] (mem s2) [blank_child 100] (MkGlobal 1 NULL).
Proof.
  destruct (population_refills _ _ _ at_start at_start _ _ 100 at_start_initial (steps_refl _) eq_refl
    (one_slot_shared 0 0) ltac:(done) ltac:(done) eq_refl) as (s2 & k & Hk & Hrun & Hp & Hkids & _ & Hsh).
  injection Hk as <-. exists s2. by repeat (split; [done|]).
Defined.



Lemma population_starves_witness :
  exists s, steps (Conf at_start) (Conf s) /\ kids s = ∅ /\
    exists cs g, shared_mem 5%positive 8%positive [Some 6%positive] (mem s) cs g /\ running_children g = 1.
Proof.
  destruct killed_at_work as ([w p ks wr n] & Hrun & Hk & Hl & Hp). cbn in *. subst.
  assert (Hreap : steps (Conf (MkSystem w PCheck {[100 := Killed]} wr 1)) (Conf (MkSystem w PCheck ∅ wr 1))).
  { eapply steps_step; [constructor|]. exact (step_reap w PCheck {[100 := Killed]} wr 1 100 false true w eq_refl eq_refl). }
  destruct (population_starves _ _ _ at_start _ _ at_start_initial Hrun eq_refl Hreap) as (_ & _ & cs & g & Hsh & Hr).
  eexists. split; [exact (steps_trans _ _ _ Hrun Hreap)|]. split; [done|]. by exists cs, g.
Defined.

(** ** The steps and the code

    The accesses above are those of the functions in Syscall.v and
    Signals.v. *)

Lemma main_loop_accesses H R rsrc_gen strsignal allocator random n thread w :
  main_loop H R rsrc_gen strsignal allocator random (S n) thread w =
  (let! v := atomic_load_stop in
   if negb (v =? FALSE) then write STD "Exiting main loop\n"
   else
     let! c := check_act in
     match c with
     | PScan _ =>
         let! rtrn := create_child H R rsrc_gen strsignal allocator random (S n) thread in
         if rtrn <? 0 then write ERROR "Can't create child\n"
         else main_loop H R rsrc_gen strsignal allocator random n thread
     | _ => main_loop H R rsrc_gen strsignal allocator random n thread
     end) w.
Proof.
  cbn [main_loop]. unfold check_act, bind, gets, ret. destruct (atomic_load_stop w) as [v w1| | | |]; try done.
  destruct (negb (v =? FALSE)); [done|].
  destruct (load_global (sys_state (w_sys w1)) w1) as [g w2| | | |]; try done.
  by destruct (running_children g <? total_children (w_sys w1)).
Qed.

Lemma register_child_accesses i pid w :
  register_child i pid w = (child_act pid (CRegister i) ;;; child_act pid CCount ;;; ret tt) w.
Proof.
  unfold register_child, child_act, bind, gets, ret.
  destruct (load_elem (children (w_sys w)) i w) as [p w1| | | |]; try done.
  destruct (set_child_pid p pid w1) as [[] w2| | | |]; try done.
  by destruct (update_state (add_running 1) w2) as [[] w3| | | |].
Qed.

Lemma exit_handler_accesses n w :
  child_exit_handler (S n) w =
  (let! '(pid, status) := waitpid in
   if pid <=? 0 then ret tt
   else let! more := reap_act pid (WIFEXITED status) in if more then child_exit_handler n else ret tt) w.
Proof.
  cbn [child_exit_handler]. unfold bind. destruct (waitpid w) as [[pid status] w1| | | |]; try done.
  destruct (pid <=? 0); [done|]. unfold reap_act. destruct (WIFEXITED status); [|done]. unfold bind.
  destruct (get_child_ctx_from_pid pid w1) as [[l|] w2| | | |]; try done.
  by destruct (set_child_pid (Some l) EMPTY w2).
Qed.

(** A child's own process id does not change. *)
Lemma leave_accesses (K : ptr -> M unit) w :
  bind get_child K w =
  (let! st := child_act (w_pid w) CLeave in match st with Live (CEmpty p) => K p | _ => crash end) w.
Proof.
  assert (Hw : set_pid (w_pid w) w = w) by (by destruct w).
  cbn [child_act exit_act]. rewrite bind_assoc. erewrite (bind_eq (modify _)) by reflexivity. rewrite Hw, bind_assoc.
  unfold bind. by destruct (get_child w).
Qed.

Lemma empty_accesses {A} child pid (K : M A) w :
  (set_child_pid child EMPTY ;;; update_state (add_running (-1)) ;;; K) w =
  (child_act pid (CEmpty child) ;;; child_act pid CUncount ;;; K) w.
Proof.
  cbn [child_act exit_act]. unfold bind, ret. destruct (set_child_pid child EMPTY w) as [[] w1| | | |]; try done.
  by destruct (update_state (add_running (-1)) w1) as [[] w2| | | |].
Qed.
