(* ===== verification/SyscallSetup.v ===== *)
(** * SyscallSetup: the system call module once it is set up (syscall/syscall.c)

    [setup_syscall_module] builds the table, the shared state and one context
    per core.  What it leaves behind is what the other components start from:
    a table whose entries can be tested, contexts with buffers of their own,
    and the initial configuration of the population of children. *)

From S2P Require Import Prelude Types CWorld Memory Realloc Epoch Crypto Utils ArgTypes EntriesFreebsd EntriesMac.
From S2P Require Import EntriesLinux SetTest Child Generate Mutate Signals Log SyscallTable Syscall SyscallLife.
From S2P Require Import SyscallArgs Population.

(** ** The contexts *)

(** [n] of the slots of the index at [arr] are still to be filled. *)
Record contexts (w0 w : world) (arr : loc) (ps : list ptr) (cs : list child_ctx) (bss : list (list ptr)) (n : nat) : Prop := {
  cx_oracle : oracle_ok w;
  cx_wf : heap_wf w;
  cx_index : w_heap w !! arr = Some (OPtrs (ps ++ replicate n NULL));
  cx_objects : Forall2 (fun p c => exists l, p = Some l /\ w_heap w !! l = Some (OChild c)) ps cs;
  cx_built : Forall2 (context_built w) cs bss;
  cx_empty : Forall (fun c => child_pid c = EMPTY) cs;
  cx_apart : Forall (fun c => arg_value_array c <> Some arr /\ arg_copy_array c <> Some arr) cs;
  cx_slots : NoDup ps;
  cx_buffers : NoDup (concat bss);
  cx_old : forall l o, l <> arr -> w_heap w0 !! l = Some o -> w_heap w !! l = Some o;
  cx_sys : w_sys w = w_sys w0;
  cx_entries : w_entries w = w_entries w0
}.

(** An object that is neither a buffer nor the sizes of a context. *)
Definition no_buffer (w : world) (l : loc) : Prop :=
  exists o, w_heap w !! l = Some o /\ match o with OPtrs _ | OGlobal _ => True | _ => False end.

(** A context stays built as the heap grows, and as other objects change. *)
Lemma context_built_mono w w' arr c bufs :
  (forall l o, l <> arr -> w_heap w !! l = Some o -> w_heap w' !! l = Some o) ->
  no_buffer w arr ->
  arg_value_array c <> Some arr /\ arg_copy_array c <> Some arr ->
  context_built w c bufs -> context_built w' c bufs.
Proof.
  intros Hold (o & Harr & Ho) [Hva Hca] (va & sz & ca & vs & ds & -> & H1 & H2 & H3 & H4 & H5 & H6 & H7). cbn in Hva, Hca.
  exists va, sz, ca, vs, ds. split_and!; try done; try (apply Hold; [|done]); try congruence.
  { intros ->. rewrite Harr in H3. by injection H3 as ->. }
  eapply Forall_impl; [exact H7|]. intros p (l & -> & Hl). exists l. split; [done|]. apply Hold; [|done].
  intros ->. rewrite Harr in Hl. by injection Hl as ->.
Qed.

Lemma built_buffers_old w c bufs p : context_built w c bufs -> p ∈ bufs -> exists l o, p = Some l /\ w_heap w !! l = Some o.
Proof.
  intros (va & sz & ca & vs & ds & _ & _ & _ & _ & _ & _ & _ & Hall) Hp. rewrite Forall_forall in Hall.
  destruct (Hall p Hp) as (l & -> & Hl). eauto.
Qed.

(** The next context is none of those there are, nor are its buffers. *)
Lemma slots_new w ps cs :
  heap_wf w -> Forall2 (fun p c => exists l, p = Some l /\ w_heap w !! l = Some (OChild c)) ps cs -> NoDup ps ->
  NoDup (ps ++ [Some (w_next w)]).
Proof.
  intros Hwf Hobj Hnd. apply NoDup_app. split_and!; [done| |by apply NoDup_singleton].
  intros p Hp ->%list_elem_of_singleton. apply list_elem_of_lookup in Hp as (i & Hi).
  destruct (Forall2_lookup_l _ _ _ _ _ Hobj Hi) as (x & _ & l & E & Hl). injection E as <-.
  pose proof (heap_wf_lt _ _ _ Hwf Hl). lia.
Qed.

Lemma buffers_new w cs bss bufs :
  heap_wf w -> Forall2 (context_built w) cs bss -> NoDup (concat bss) -> NoDup bufs ->
  Forall (fun p => exists l, p = Some l /\ (w_next w <= l)%positive) bufs -> NoDup (concat bss ++ bufs).
Proof.
  intros Hwf Hblt Hbuf Hnd Hnew. apply NoDup_app. split_and!; [done| |done].
  intros p Hp Hp'. rewrite Forall_forall in Hnew. destruct (Hnew p Hp') as (l & -> & Hl).
  apply list_elem_of_In, in_concat in Hp as (bs & Hin%list_elem_of_In & Hp%list_elem_of_In).
  apply list_elem_of_lookup in Hin as (i & Hi). destruct (Forall2_lookup_r _ _ _ _ _ Hblt Hi) as (x & _ & Hbx).
  destruct (built_buffers_old _ _ _ _ Hbx Hp) as (l' & o & [= <-] & Hl'). pose proof (heap_wf_lt _ _ _ Hwf Hl'). lia.
Qed.

Lemma init_children_step w0 w arr ps cs bss n :
  contexts w0 w arr ps cs bss (S n) -> children (w_sys w0) = Some arr ->
  exists w' p c bufs, init_children_from default_allocator (S n) (Z.of_nat (length ps)) w =
      init_children_from default_allocator n (Z.of_nat (S (length ps))) w' /\
    contexts w0 w' arr (ps ++ [p]) (cs ++ [c]) (bss ++ [bufs]) n.
Proof.
  intros [Ho Hwf Hidx Hobj Hblt Hemp Hap Hsl Hbuf Hold Hsys Hent] Harr.
  destruct (init_child_context_run w Ho Hwf)
    as (w1 & c & bufs & Hrun & Hc & Hb & He & Hnd & Hnew & Hva & Hkeep & Ho1 & Hwf1 & Hs1 & He1 & Hnx).
  cbn [init_children_from]. erewrite bind_eq by exact Hrun. cbv beta iota. erewrite bind_eq by reflexivity.
  rewrite Hs1, Hsys, Harr. pose proof (heap_wf_lt _ _ _ Hwf Hidx) as Hlt.
  pose proof (Hkeep _ _ Hidx) as Hidx1.
  erewrite bind_eq.
  2: { eapply store_elem_eq; [exact Hidx1|]. rewrite set_z_lt by (rewrite length_app, length_replicate; lia).
       rewrite Nat2Z.id. cbn [replicate]. rewrite insert_next. reflexivity. }
  replace (Z.of_nat (length ps) + 1) with (Z.of_nat (S (length ps))) by lia.
  set (w2 := set_heap _ _). exists w2, (Some (w_next w)), c, bufs. split; [done|].
  assert (K12 : forall l o, l <> arr -> w_heap w1 !! l = Some o -> w_heap w2 !! l = Some o).
  { intros l o Hne Hl. cbn. by rewrite lookup_insert_ne. }
  assert (Hidx' : no_buffer w arr) by (by eexists).
  assert (Hidx1' : no_buffer w1 arr) by (by eexists).
  assert (Hapc : arg_value_array c <> Some arr /\ arg_copy_array c <> Some arr).
  { split; intros E; [pose proof (Hva arr (or_introl E))|pose proof (Hva arr (or_intror E))]; lia. }
  split; try done.
  - intros l Hl. cbn. rewrite lookup_insert_ne by (cbn in Hl; lia). by apply Hwf1.
  - cbn. rewrite lookup_insert_eq. by rewrite <- app_assoc.
  - apply Forall2_app; [|apply Forall2_cons; split; [|constructor]].
    + eapply Forall2_impl; [exact Hobj|]. intros p x (l & -> & Hl). exists l. split; [done|].
      apply K12; [congruence|]. by apply Hkeep.
    + eexists. split; [done|]. apply K12; [lia|done].
  - apply Forall2_app; [|apply Forall2_cons; split; [|constructor]].
    + apply Forall2_same_length_lookup_2; [by eapply Forall2_length|]. intros i x bs Hx Hbs.
      pose proof (Forall2_lookup_lr _ _ _ _ _ _ Hblt Hx Hbs) as Hbi.
      apply (context_built_mono w _ arr); [|done|by apply (Forall_lookup_1 _ _ _ _ Hap Hx)|done].
      intros l o Hne Hl. apply K12; [done|]. by apply Hkeep.
    + by apply (context_built_mono w1 _ arr).
  - apply Forall_app_2; [done|]. by apply Forall_singleton.
  - apply Forall_app_2; [done|]. by apply Forall_singleton.
  - by apply (slots_new w _ cs).
  - rewrite concat_app. cbn. rewrite app_nil_r. by apply (buffers_new w cs).
  - intros l o Hne Hl. apply K12; [done|]. by apply Hkeep, Hold.
  - cbn. congruence.
  - cbn. congruence.
Qed.

Lemma init_children_run w0 arr n : forall w ps cs bss,
  contexts w0 w arr ps cs bss n -> children (w_sys w0) = Some arr ->
  exists w' ps' cs' bss', init_children_from default_allocator n (Z.of_nat (length ps)) w = Ret true w' /\
    contexts w0 w' arr ps' cs' bss' 0 /\ length ps' = (length ps + n)%nat.
Proof.
  induction n as [|n IH]; intros w ps cs bss Hc Harr.
  - exists w, ps, cs, bss. split_and!; [done..|lia].
  - destruct (init_children_step _ _ _ _ _ _ _ Hc Harr) as (w1 & p & c & bufs & Hrun & Hc1).
    destruct (IH _ _ _ _ Hc1 Harr) as (w2 & ps2 & cs2 & bss2 & Hrun2 & Hc2 & Hlen).
    rewrite length_app in Hrun2, Hlen. cbn [length] in Hrun2, Hlen. rewrite Nat.add_1_r in Hrun2.
    exists w2, ps2, cs2, bss2. rewrite Hrun. split_and!; [done..|lia].
Qed.

(** ** The module *)

Lemma core_count_run plat w :
  oracle_ok w -> exists n w', get_core_count plat w = Ret (Some n) w' /\ env_step w w' /\ oracle_ok w' /\
    0 <= n < 2 ^ 32 /\ (plat <> LINUX -> 0 < n).
Proof.
  intros Ho. pose proof (oracle_ok_tl _ Ho) as Ho1. pose proof (oracle_ok_tl _ Ho1) as Ho2.
  assert (Hbsd : exists n w', (let! rtrn := ask_status in
      if rtrn <? 0 then printf "sysctl: %s\n" ;;; ret None
      else let! n := ask in let core_count := u32 n in ret (Some (if core_count <? 1 then 1 else core_count))) w =
      Ret (Some n) w' /\ env_step w w' /\ oracle_ok w' /\ 0 < n < 2 ^ 32).
  { unfold ask_status. rewrite bind_assoc. erewrite bind_eq by reflexivity. cbv beta.
    rewrite oracle_ok_hd by done. erewrite bind_eq by reflexivity. cbn [Z.ltb Z.compare].
    erewrite bind_eq by reflexivity. do 2 eexists. split; [reflexivity|].
    split; [exact (env_step_trans _ _ _ (env_asked w) (env_asked (asked w)))|]. split; [done|].
    match goal with |- context [u32 ?x] => pose proof (u32_range x); destruct (Z.ltb_spec (u32 x) 1) end; lia. }
  destruct plat; cbn [get_core_count].
  1,2: destruct Hbsd as (n & w' & H1 & H2 & H3 & H4); exists n, w'; split_and!; try done; lia.
  erewrite bind_eq by reflexivity. do 2 eexists. split; [reflexivity|].
  split; [apply env_asked|]. split; [done|]. split; [apply u32_range|done].
Qed.

Lemma granted_wf w o : heap_wf w -> heap_wf (granted o w).
Proof. intros Hwf l Hl. cbn in *. rewrite lookup_insert_ne by lia. apply Hwf. lia. Qed.

Lemma store_wf w l o o' : heap_wf w -> w_heap w !! l = Some o -> heap_wf (set_heap (<[l := o']> (w_heap w)) w).
Proof.
  intros Hwf Hl x Hx. pose proof (heap_wf_lt _ _ _ Hwf Hl). cbn in *. rewrite lookup_insert_ne by lia. by apply Hwf.
Qed.

(** Where [setup_syscall_module] stands when it starts on the contexts: the
    table at [tl], the state at [sl] and the index at [arr] are new. *)
Record indexed (w w0 : world) (t : syscall_table) (tl sl arr : loc) (cores : Z) : Prop := {
  ix_oracle : oracle_ok w0;
  ix_wf : heap_wf w0;
  ix_sys : w_sys w0 = MkSys (Some sl) cores (Some arr) (Some tl) (sys_stop (w_sys w)) (sys_mode (w_sys w))
    (table_set (w_sys w)) (sys_epoch (w_sys w));
  ix_table : w_heap w0 !! tl = Some (OTable t);
  ix_state : w_heap w0 !! sl = Some (OGlobal (MkGlobal 0 NULL));
  ix_index : w_heap w0 !! arr = Some (OPtrs (replicate (Z.to_nat cores) NULL));
  ix_new : (w_next w <= tl /\ w_next w <= sl /\ w_next w <= arr)%positive;
  ix_old : forall l o, w_heap w !! l = Some o -> w_heap w0 !! l = Some o
}.

Section setup.
Context (H : headers).
Let plat := h_platform H.

Lemma setup_prefix w stop_ptr counter run_mode e cores w1 :
  oracle_ok w1 -> heap_wf w -> env_step w w1 -> get_core_count plat w = Ret (Some cores) w1 -> 0 < cores ->
  table_set (w_sys w) <> TRUE -> entries_ok plat (w_entries w) ->
  exists w0 tl sl arr, indexed w w0 (platform_table plat) tl sl arr cores /\
    w_entries w0 = built_entries plat (w_entries w) /\
    setup_syscall_module H default_allocator stop_ptr counter run_mode e w =
    (let! ok := init_children_from default_allocator (Z.to_nat cores) 0 in
     if negb ok then ret (-1)
     else
       let! s := gets w_sys in
       sys_set_run stop_ptr run_mode e (table_set s) ;;;
       update_state (fun g => MkGlobal (running_children g) counter) ;;;
       sys_set_run stop_ptr run_mode e TRUE ;;;
       ret 0) w0.
Proof.
  intros Ho Hwf Henv Hcore Hpos Hset Hent. unfold setup_syscall_module. fold plat.
  erewrite bind_eq by exact Hcore. cbv beta iota. erewrite bind_eq by reflexivity. clear Hcore.
  destruct Henv as (orc & out & ->). unfold get_syscall_table. rewrite bind_assoc. erewrite bind_eq by reflexivity.
  cbn [w_sys set_sys set_out set_oracle table_set]. rewrite (proj2 (Z.eqb_neq _ _) Hset).
  match goal with |- context [bind (build_syscall_table _ _) _ ?W] => set (wa := W) end.
  assert (Hwa : heap_wf wa) by exact Hwf. assert (Hoa : oracle_ok wa) by exact Ho.
  erewrite bind_eq by (apply build_syscall_table_eq; [by apply oracle_ok_hd|done]).
  set (wb := set_entries _ _). assert (Hwb : heap_wf wb) by exact (granted_wf wa _ Hwa).
  erewrite bind_eq by reflexivity. cbv beta iota.
  erewrite bind_eq by (apply shared_granted; [exact (oracle_ok_tl _ Hoa)|done]). cbv beta iota.
  erewrite bind_eq by reflexivity. cbv beta iota.
  erewrite bind_eq by (eapply update_state_eq; [reflexivity|apply lookup_insert_eq]).
  erewrite bind_eq by (apply shared_granted; [exact (oracle_ok_tl _ (oracle_ok_tl _ Hoa))|];
    cbn; rewrite length_replicate; lia).
  cbv beta iota. erewrite bind_eq by reflexivity. cbv beta iota.
  do 4 eexists. split; [|split; [|reflexivity]]; [|done].
  cbn [w_next set_next granted set_heap set_sys set_entries wb wa set_out set_oracle running_children test_counter].
  split; try done.
  - exact (oracle_ok_tl _ (oracle_ok_tl _ (oracle_ok_tl _ Hoa))).
  - intros l Hl. cbn in *. rewrite !lookup_insert_ne by lia. apply Hwf. lia.
  - cbn. rewrite !lookup_insert_ne by lia. apply lookup_insert_eq.
  - cbn. rewrite lookup_insert_ne by lia. apply lookup_insert_eq.
  - cbn. apply lookup_insert_eq.
  - cbn. lia.
  - intros l o Hl. pose proof (heap_wf_lt _ _ _ Hwf Hl). cbn. by rewrite !lookup_insert_ne by lia.
Qed.
End setup.

(** Every entry of the built table is ready. *)
Lemma built_table_ready plat w tl es :
  entries_ok plat es -> w_entries w = built_entries plat es -> sys_table (w_sys w) = Some tl ->
  w_heap w !! tl = Some (OTable (platform_table plat)) -> table_ready w tl (platform_table plat).
Proof.
  intros Hok Hent Hs Ht. split_and!; try done; try (by destruct plat). intros j Hj.
  destruct (Hok j Hj) as (Hslot & e & He & Hb). exists j, (prepared e). split_and!; [done| |by apply prepared_ready].
  rewrite Hent, built_entries_lookup, decide_True, He by done. done.
Qed.

(** The last stores leave the contexts as they are. *)
Lemma contexts_final w0 w arr ps cs bss sl g g' s' :
  contexts w0 w arr ps cs bss 0 -> w_heap w !! sl = Some (OGlobal g) ->
  children s' = Some arr -> total_children s' = Z.of_nat (length ps) ->
  let w' := set_sys s' (set_heap (<[sl := OGlobal g']> (w_heap w)) w) in
  children_distinct w' arr ps cs /\ Forall2 (context_built w') cs bss /\ w_heap w' !! sl = Some (OGlobal g').
Proof.
  intros [_ _ Hidx Hobj Hblt _ _ Hsl _ _ _ _] Hg Hch Htot w'. rewrite app_nil_r in Hidx.
  assert (K : forall l o, l <> sl -> w_heap w !! l = Some o -> w_heap w' !! l = Some o).
  { intros l o Hne Hl. cbn. by rewrite lookup_insert_ne. }
  split; [split; [|done]|split].
  - split_and!; [done|apply K; [congruence|done]|done|]. eapply Forall2_impl; [exact Hobj|].
    intros p c (l & -> & Hl). exists l. split; [done|]. apply K; [congruence|done].
  - eapply Forall2_impl; [exact Hblt|]. intros c bufs Hb. apply (context_built_mono w _ sl); [done|by eexists| |done].
    destruct Hb as (va & sz & ca & vs & ds & -> & H1 & H2 & _). split; intros [= ->]; congruence.
  - apply lookup_insert_eq.
Qed.

(** (C10) Once [setup_syscall_module] has been called (with memory granted, on
    a machine that reports a core, and not set up before) it has returned 0
    and the module is what the rest of the fuzzer starts from: the static
    variables are set; every entry of the platform's table is ready to be
    tested; there is one context per core, each in its own slot, its process
    id empty, with seven argument and seven copy buffers of 4096 zeroed bytes
    that it shares with no other context; the counter of running children is
    zero, so that the population of children is in its initial
    configuration; and everything that was on the heap is as before. *)
Theorem setup_syscall_module_correct H w stop_ptr counter run_mode e cores w1 :
  oracle_ok w -> heap_wf w -> get_core_count (h_platform H) w = Ret (Some cores) w1 -> 0 < cores ->
  table_set (w_sys w) <> TRUE -> entries_ok (h_platform H) (w_entries w) ->
  exists w' sl arr tl ps cs bss,
    setup_syscall_module H default_allocator stop_ptr counter run_mode e w = Ret 0 w' /\
    w_sys w' = MkSys (Some sl) cores (Some arr) (Some tl) stop_ptr run_mode TRUE e /\
    table_ready w' tl (platform_table (h_platform H)) /\
    children_distinct w' arr ps cs /\ Forall2 (context_built w') cs bss /\ NoDup (concat bss) /\
    w_heap w' !! sl = Some (OGlobal (MkGlobal 0 counter)) /\
    initial arr sl ps (MkSystem w' PCheck ∅ ∅ 0) /\
    (forall l o, w_heap w !! l = Some o -> w_heap w' !! l = Some o).
Proof.
  intros Ho Hwf Hcore Hpos Hset Hent.
  destruct (core_count_run (h_platform H) w Ho) as (n & w1' & Hn & Henv & Ho1 & Hb & _).
  rewrite Hcore in Hn. injection Hn as <- <-.
  destruct (setup_prefix H w stop_ptr counter run_mode e cores w1 Ho1 Hwf Henv Hcore Hpos Hset Hent)
    as (w0 & tl & sl & arr & [Ho0 Hwf0 Hs0 Ht0 Hg0 Hi0 Hnew Hold] & He0 & ->).
  destruct (init_children_run w0 arr (Z.to_nat cores) w0 [] [] []) as (w2 & ps & cs & bss & Hrun & Hc & Hlen).
  { split; try done; try constructor. }
  { by rewrite Hs0. }
  change (Z.of_nat (length [])) with 0 in Hrun. erewrite bind_eq by exact Hrun. cbn [negb].
  pose proof (cx_old _ _ _ _ _ _ _ Hc) as K. pose proof (cx_sys _ _ _ _ _ _ _ Hc) as Hs2.
  assert (Hg2 : w_heap w2 !! sl = Some (OGlobal (MkGlobal 0 NULL))) by (apply K; [congruence|done]).
  rewrite Hs0 in Hs2. cbn [length Nat.add] in Hlen.
  erewrite bind_eq by reflexivity. erewrite bind_eq by reflexivity.
  erewrite bind_eq by (eapply update_state_eq; [cbn; by rewrite Hs2|exact Hg2]).
  erewrite bind_eq by reflexivity. cbn [w_sys w_heap set_heap set_sys sys_state total_children children sys_table].
  rewrite Hs2. cbn [sys_state total_children children sys_table running_children].
  set (s' := MkSys _ _ _ _ _ _ _ _). set (w' := set_sys s' _).
  destruct (contexts_final _ _ _ _ _ _ sl _ (MkGlobal 0 counter) s' Hc Hg2) as (Hd & Hbl & Hg').
  { done. }
  { cbn. rewrite Hlen. lia. }
  exists w', sl, arr, tl, ps, cs, bss. split; [done|]. split; [done|].
  split; [|split; [exact Hd|split; [exact Hbl|split; [by apply Hc|split; [exact Hg'|split]]]]].
  - apply (built_table_ready _ _ _ (w_entries w)); try done.
    + cbn. by rewrite (cx_entries _ _ _ _ _ _ _ Hc).
    + cbn. rewrite lookup_insert_ne by congruence. apply K; [congruence|done].
  - do 4 (split; [done|]). split; [rewrite Hlen; lia|]. exists cs, (MkGlobal 0 counter).
    split; [|split; [by apply Hc|done]]. split; [exact Hd|]. by split.
  - intros l o Hl. pose proof (heap_wf_lt _ _ _ Hwf Hl). cbn. rewrite lookup_insert_ne by lia.
    apply K; [lia|]. by apply Hold.
Qed.

Definition cold_world : world := fresh_world [0; 2] (static_entries MAC_OS).

(** A machine with two cores. *)
Lemma setup_syscall_module_correct_witness :
  exists w' sl arr ps, setup_syscall_module some_headers default_allocator NULL NULL 0 NULL cold_world = Ret 0 w' /\
    initial arr sl ps (MkSystem w' PCheck ∅ ∅ 0) /\ total_children (w_sys w') = 2.
Proof.
  assert (Ho : Forall (fun a => 0 <= a) [0; 2]) by (by repeat constructor).
  pose proof (setup_syscall_module_correct some_headers cold_world NULL NULL 0 NULL 2 _ Ho
    (proj2 (fresh_world_ok [0; 2] _ Ho)) eq_refl ltac:(lia) ltac:(done) (static_entries_ok MAC_OS)) as Hthm.
  destruct Hthm as (w' & sl & arr & tl & ps & cs & bss & H1 & H2 & _ & _ & _ & _ & _ & H3 & _).
  exists w', sl, arr, ps. split; [exact H1|]. split; [exact H3|]. by rewrite H2.
Defined.

(** ** When memory is refused *)

(** Nothing below location [n] has changed, nor any static variable. *)
Record extends (n : loc) (w w' : world) : Prop := {
  ex_heap : forall l, (l < n)%positive -> w_heap w' !! l = w_heap w !! l;
  ex_wf : heap_wf w';
  ex_next : (w_next w <= w_next w')%positive;
  ex_sys : w_sys w' = w_sys w
}.

Lemma extends_refl n w : heap_wf w -> extends n w w.
Proof. intros Hwf. by split. Qed.

Lemma extends_trans n w1 w2 w3 : extends n w1 w2 -> extends n w2 w3 -> extends n w1 w3.
Proof. intros [H1 _ N1 S1] [H2 W2 N2 S2]. split; [|done|lia|congruence]. intros l Hl. by rewrite H2, H1. Qed.

Lemma extends_env n w w' : heap_wf w -> env_step w w' -> extends n w w'.
Proof. intros Hwf (o & x & ->). by split. Qed.

Lemma extends_granted n w o : heap_wf w -> (n <= w_next w)%positive -> extends n w (granted o w).
Proof.
  intros Hwf Hn. split; [|by apply granted_wf|cbn; lia|done]. intros l Hl. cbn. by rewrite lookup_insert_ne by lia.
Qed.

Lemma extends_store n w l o o' :
  heap_wf w -> w_heap w !! l = Some o -> (n <= l)%positive -> extends n w (set_heap (<[l := o']> (w_heap w)) w).
Proof.
  intros Hwf Hl Hn. split; [|by eapply store_wf|done|done]. intros x Hx. cbn. by rewrite lookup_insert_ne by lia.
Qed.

Lemma extends_delete n w l : heap_wf w -> (n <= l)%positive -> extends n w (set_heap (delete l (w_heap w)) w).
Proof.
  intros Hwf Hn. split; [| |done|done].
  - intros x Hx. cbn. by rewrite lookup_delete_ne by lia.
  - intros x Hx. cbn in *. destruct (decide (x = l)) as [->|]; [apply lookup_delete_eq|].
    rewrite lookup_delete_ne by done. by apply Hwf.
Qed.

Lemma wp_shared o w (Q : ptr -> world -> Prop) :
  Q NULL (asked w) -> (sizeof o <> 0 -> Q (Some (w_next w)) (granted o w)) -> wp (shared default_allocator o) Q w.
Proof.
  intros HN HS. cbn [shared default_allocator]. unfold default_mem_alloc_shared, mmap_anon.
  apply wp_bind, wp_bind, wp_answer. destruct (hd 0 (w_oracle w) <? 0); cbn [orb]; [by apply wp_ret, wp_ret|].
  destruct (Z.eqb_spec (sizeof o) 0); [by apply wp_ret, wp_ret|]. by apply HS.
Qed.

(** Locations from [n] on, other than [cl]. *)
Definition spare (n cl : loc) (p : ptr) : Prop := forall l, p = Some l -> (n <= l)%positive /\ l <> cl.

(** The child at [cl] is new, and so are the arrays it has. *)
Definition owned (n cl : loc) (w : world) : Prop :=
  (n <= cl)%positive /\ exists c, w_heap w !! cl = Some (OChild c) /\
    spare n cl (arg_value_array c) /\ spare n cl (arg_copy_array c) /\ spare n cl (arg_size_array c).

Lemma free_shared_wp n cl w p k :
  heap_wf w -> spare n cl p -> k <> 0 ->
  wp (free_shared default_allocator p k)
    (fun q w' => q = NULL /\ extends n w w' /\ w_heap w' !! cl = w_heap w !! cl) w.
Proof.
  intros Hwf Hp Hk%Z.eqb_neq. cbn [free_shared default_allocator]. unfold default_mem_free_shared, munmap.
  destruct p as [l|]; [|apply wp_ret; split; [done|]; split; [by apply extends_refl|done]].
  destruct (Hp l eq_refl) as [Hn Hne]. rewrite Hk. apply wp_bind, wp_modify, wp_ret.
  split; [done|]. destruct (w_heap w !! l) as [o|] eqn:Hl; [|split; [by apply extends_refl|done]].
  case_match.
  - split; [by apply extends_delete|]. cbn. by rewrite lookup_delete_ne.
  - split; [by eapply extends_store|]. cbn. by rewrite lookup_insert_ne.
Qed.

Lemma spare_null n cl : spare n cl NULL.
Proof. by intros l. Qed.
#[local] Hint Resolve spare_null : core.

Lemma update_owned n cl w c f :
  heap_wf w -> (n <= cl)%positive -> w_heap w !! cl = Some (OChild c) ->
  spare n cl (arg_value_array (f c)) -> spare n cl (arg_copy_array (f c)) -> spare n cl (arg_size_array (f c)) ->
  wp (update_child (Some cl) f) (fun _ w' => extends n w w' /\ w_heap w' !! cl = Some (OChild (f c)) /\ owned n cl w') w.
Proof.
  intros Hwf Hn Hc H1 H2 H3. eapply wp_eq; [by apply update_child_eq|].
  split; [by eapply extends_store|]. split; [apply lookup_insert_eq|]. split; [done|]. exists (f c).
  split; [apply lookup_insert_eq|done].
Qed.

(** Freeing one of the arrays. *)
Lemma free_array_wp n cl w m :
  heap_wf w -> owned n cl w -> m ∈ [free_copy_array; free_size_array; free_value_array] ->
  wp (m default_allocator (Some cl)) (fun _ w' => extends n w w' /\ owned n cl w') w.
Proof.
  intros Hwf (Hn & c & Hc & Hv & Hd & Hs) Hm.
  assert (Hfree : forall p k f, spare n cl p -> k <> 0 ->
    spare n cl (arg_value_array (f NULL c)) -> spare n cl (arg_copy_array (f NULL c)) ->
    spare n cl (arg_size_array (f NULL c)) ->
    wp (let! p := free_shared default_allocator p k in update_child (Some cl) (f p))
      (fun _ w' => extends n w w' /\ owned n cl w') w).
  { intros p k f Hp Hk H1 H2 H3. apply wp_bind. eapply wp_mono; [by apply (free_shared_wp n cl)|].
    intros q w1 (-> & E1 & K1). rewrite Hc in K1.
    eapply wp_mono; [apply (update_owned n cl w1 c); [apply E1|done..]|]. intros _ w2 (E2 & _ & O2).
    split; [by eapply extends_trans|done]. }
  repeat (apply elem_of_cons in Hm as [->|Hm]); [..|by apply elem_of_nil in Hm].
  all: unfold free_copy_array, free_size_array, free_value_array; apply wp_bind;
    (eapply wp_eq; [by apply load_child_eq|]).
  - apply (Hfree _ _ (fun p => with_arrays (arg_value_array c) p (arg_size_array c))); try done; destruct c; by auto.
  - apply (Hfree _ _ (fun p => with_arrays (arg_value_array c) (arg_copy_array c) p)); try done; destruct c; by auto.
  - apply (Hfree _ _ (fun p => with_arrays p (arg_copy_array c) (arg_size_array c))); try done; destruct c; by auto.
Qed.

(** The error paths: some of the arrays, then the context. *)
Fixpoint free_all (ms : list (memory_allocator -> ptr -> M unit)) (child : ptr) : M ptr :=
  match ms with
  | [] => free_child_ctx default_allocator child ;;; ret NULL
  | m :: ms' => m default_allocator child ;;; free_all ms' child
  end.

Lemma free_all_wp n cl ms : forall w,
  heap_wf w -> owned n cl w -> Forall (fun m => m ∈ [free_copy_array; free_size_array; free_value_array]) ms ->
  wp (free_all ms (Some cl)) (fun p w' => p = NULL /\ extends n w w') w.
Proof.
  induction ms as [|m ms IH]; intros w Hwf Ho Hms; cbn [free_all].
  - apply wp_bind. unfold free_child_ctx. apply wp_bind. destruct Ho as [Hn _].
    eapply wp_mono; [apply (free_shared_wp n (Pos.succ cl)); [done| |done]|].
    { intros l [= <-]. split; [done|lia]. }
    intros q w1 (_ & E1 & _). apply wp_ret, wp_ret. by split.
  - apply Forall_cons in Hms as [Hm Hms]. apply wp_bind. eapply wp_mono; [by apply (free_array_wp n cl)|].
    intros _ w1 [E1 O1]. eapply wp_mono; [by apply IH; [apply E1|..]|]. intros p w2 [-> E2].
    split; [done|]. by eapply extends_trans.
Qed.

(** A context while its slots are filled: two index arrays of seven. *)
Record filling (n cl va ca : loc) (w : world) : Prop := {
  fi_wf : heap_wf w;
  fi_new : (n <= cl /\ n <= va /\ n <= ca)%positive;
  fi_child : exists c, w_heap w !! cl = Some (OChild c) /\ arg_value_array c = Some va /\ arg_copy_array c = Some ca /\
    spare n cl (arg_size_array c);
  fi_values : exists vs, w_heap w !! va = Some (OPtrs vs) /\ length vs = 7%nat;
  fi_copies : exists ds, w_heap w !! ca = Some (OPtrs ds) /\ length ds = 7%nat
}.

Lemma filling_owned n cl va ca w : filling n cl va ca w -> owned n cl w.
Proof.
  intros [_ (Hn & Hv & Hd) (c & Hc & Eva & Eca & Hs) (vs & Hvs & _) (ds & Hds & _)]. split; [done|].
  exists c. rewrite Eva, Eca. split; [done|]. split_and!; [..|done]; intros l [= <-]; split; (done || congruence).
Qed.

Lemma filling_granted n cl va ca w o : (n <= w_next w)%positive -> filling n cl va ca w -> filling n cl va ca (granted o w).
Proof.
  intros Hn [Hwf Hnew (c & Hc & Hm) (vs & Hvs & Hl) (ds & Hds & Hl')].
  assert (K : forall l x, w_heap w !! l = Some x -> w_heap (granted o w) !! l = Some x).
  { intros l x Hl1. pose proof (heap_wf_lt _ _ _ Hwf Hl1). cbn. by rewrite lookup_insert_ne by lia. }
  split; [by apply granted_wf|done|exists c; split; [by apply K|done]|exists vs; split; [by apply K|done]|
    exists ds; split; [by apply K|done]].
Qed.

Lemma filling_env n cl va ca w w' : env_step w w' -> filling n cl va ca w -> filling n cl va ca w'.
Proof. intros (o & x & ->) []. by split. Qed.

(** Storing in one of the two arrays. *)
Lemma store_slot n cl va ca w (i : nat) arr p :
  filling n cl va ca w -> arr = va \/ arr = ca -> (i < 7)%nat ->
  wp (store_elem (Some arr) (Z.of_nat i) p) (fun _ w' => extends n w w' /\ filling n cl va ca w' /\ w_next w' = w_next w) w.
Proof.
  intros [Hwf (Hn & Hv & Hd) (c & Hc & Hm) (vs & Hvs & Hl) (ds & Hds & Hl')] Harr Hi.
  assert (Hqs : exists qs, w_heap w !! arr = Some (OPtrs qs) /\ length qs = 7%nat) by (destruct Harr as [->| ->]; eauto).
  destruct Hqs as (qs & Hqs & Hlq). assert (n <= arr)%positive by (by destruct Harr as [->| ->]).
  eapply wp_eq; [eapply store_elem_eq; [exact Hqs|apply set_z_lt; lia]|]. rewrite Nat2Z.id.
  assert (Hlen : length (<[i := p]> qs) = 7%nat) by (by rewrite length_insert).
  split; [by eapply extends_store|]. split; [|done]. split; [by eapply store_wf|done|..]; cbn.
  - exists c. rewrite lookup_insert_ne by congruence. done.
  - destruct (decide (arr = va)) as [->|]; [rewrite lookup_insert_eq; eauto|rewrite lookup_insert_ne by done; eauto].
  - destruct (decide (arr = ca)) as [->|]; [rewrite lookup_insert_eq; eauto|rewrite lookup_insert_ne by done; eauto].
Qed.

(** Abandoning a context that cannot be completed. *)
Lemma abandon_wp n cl w s ms :
  heap_wf w -> owned n cl w -> Forall (fun m => m ∈ [free_copy_array; free_size_array; free_value_array]) ms ->
  wp (write ERROR s ;;; free_all ms (Some cl)) (fun p w' => (p = NULL \/ p = Some cl) /\ extends n w w') w.
Proof.
  intros Hwf Ho Hms. apply wp_bind, wp_write. pose proof (extends_env n _ _ Hwf (env_write w ERROR s)) as E1.
  eapply wp_mono; [apply (free_all_wp n cl); [apply E1| |done]|].
  - done.
  - intros p w' [-> E2]. split; [by left|]. by eapply extends_trans.
Qed.

(** One buffer: allocated, stored, and everything given back if it was
    refused. *)
Lemma slot_wp n cl va ca w (i : nat) arr s (K : M ptr) :
  filling n cl va ca w -> (n <= w_next w)%positive -> arr = va \/ arr = ca -> (i < 7)%nat ->
  (forall w', filling n cl va ca w' -> (n <= w_next w')%positive ->
     wp K (fun p w2 => (p = NULL \/ p = Some cl) /\ extends n w' w2) w') ->
  wp (let! v := Memory.shared default_allocator (zeros ARG_BUF_LEN) in
      store_elem (Some arr) (Z.of_nat i) v ;;;
      match v with
      | None => write ERROR s ;;; free_all [free_copy_array; free_size_array; free_value_array] (Some cl)
      | Some _ => K
      end) (fun p w' => (p = NULL \/ p = Some cl) /\ extends n w w') w.
Proof.
  intros Hf Hn Harr Hi HK. pose proof (fi_wf _ _ _ _ _ Hf) as Hwf.
  assert (Hstore : forall v w1, extends n w w1 -> filling n cl va ca w1 ->
    wp (store_elem (Some arr) (Z.of_nat i) v)
      (fun _ w2 => extends n w w2 /\ filling n cl va ca w2 /\ (n <= w_next w2)%positive) w1).
  { intros v w1 E1 F1. eapply wp_mono; [by apply (store_slot n cl va ca)|]. intros _ w2 (E2 & F2 & N2).
    split; [by eapply extends_trans|]. split; [done|]. rewrite N2. pose proof (ex_next _ _ _ E1). lia. }
  apply wp_bind, wp_shared; [|intros _]; apply wp_bind.
  - eapply wp_mono; [apply Hstore; [by apply extends_env, env_asked|apply (filling_env _ _ _ _ w); [apply env_asked|done]]|].
    intros _ w2 (E2 & F2 & N2). eapply wp_mono.
    + apply abandon_wp; [apply F2|by eapply filling_owned|]. repeat (apply Forall_cons; split; [set_solver|]). constructor.
    + intros p w3 [Hp E3]. split; [done|]. by eapply extends_trans.
  - eapply wp_mono; [apply Hstore; [by apply extends_granted|by apply filling_granted]|].
    intros _ w2 (E2 & F2 & N2). eapply wp_mono; [by apply HK|].
    intros p w3 [Hp E3]. split; [done|]. by eapply extends_trans.
Qed.

Lemma init_args_wp n cl va ca k : forall w (i : nat),
  filling n cl va ca w -> (n <= w_next w)%positive -> (i + k <= 7)%nat ->
  wp (init_args_from default_allocator k (Z.of_nat i) (Some cl))
    (fun p w' => (p = NULL \/ p = Some cl) /\ extends n w w') w.
Proof.
  induction k as [|k IH]; intros w i Hf Hn Hik; cbn [init_args_from].
  - apply wp_ret. split; [by right|]. apply extends_refl, Hf.
  - destruct (fi_child _ _ _ _ _ Hf) as (c & Hc & Eva & Eca & _). apply wp_bind.
    eapply wp_eq; [by apply load_child_eq|]. rewrite Eva, Eca.
    apply (slot_wp n cl va ca); try done; [by left|lia|]. intros w1 F1 N1.
    apply (slot_wp n cl va ca); try done; [by right|lia|]. intros w2 F2 N2.
    replace (Z.of_nat i + 1) with (Z.of_nat (S i)) by lia. apply IH; [done..|lia].
Qed.

(** One array: allocated, entered in the context at [cl], and everything given
    back if it was refused. *)
Lemma array_wp n cl w o c f s ms (K : ptr -> M ptr) :
  heap_wf w -> (n <= cl)%positive -> w_heap w !! cl = Some (OChild c) ->
  (forall v, spare n cl v -> spare n cl (arg_value_array (f v c)) /\ spare n cl (arg_copy_array (f v c)) /\
     spare n cl (arg_size_array (f v c))) ->
  Forall (fun m => m ∈ [free_copy_array; free_size_array; free_value_array]) ms ->
  (forall l w', heap_wf w' -> w_heap w' !! cl = Some (OChild (f (Some l) c)) -> w_heap w' !! l = Some o ->
     (cl < l)%positive -> (forall l' x, l' <> cl -> w_heap w !! l' = Some x -> w_heap w' !! l' = Some x) ->
     (n <= w_next w')%positive -> wp (K (Some l)) (fun p w2 => (p = NULL \/ p = Some cl) /\ extends n w' w2) w') ->
  wp (let! v := Memory.shared default_allocator o in
      update_child (Some cl) (f v) ;;;
      match v with None => write ERROR s ;;; free_all ms (Some cl) | Some _ => K v end)
    (fun p w' => (p = NULL \/ p = Some cl) /\ extends n w w') w.
Proof.
  intros Hwf Hn Hc Hf Hms HK. pose proof (heap_wf_lt _ _ _ Hwf Hc) as Hlt.
  apply wp_bind, wp_shared; [|intros _]; apply wp_bind.
  - pose proof (extends_env n _ _ Hwf (env_asked w)) as E1. destruct (Hf NULL (spare_null _ _)) as (S1 & S2 & S3).
    eapply wp_mono; [apply (update_owned n cl _ c); [apply E1|done..]|]. intros _ w2 (E2 & _ & O2).
    eapply wp_mono; [apply (abandon_wp n); [apply E2|done..]|]. intros p w3 [Hp E3]. split; [done|].
    eapply extends_trans; [exact E1|]. by eapply extends_trans.
  - pose proof (extends_granted n _ o Hwf ltac:(lia)) as E1.
    assert (Hspare : spare n cl (Some (w_next w))) by (intros l [= <-]; split; lia).
    destruct (Hf _ Hspare) as (S1 & S2 & S3).
    assert (Hc1 : w_heap (granted o w) !! cl = Some (OChild c)) by (cbn; by rewrite lookup_insert_ne by lia).
    eapply wp_eq; [by apply update_child_eq|]. pose proof (extends_store n _ _ _ (OChild (f (Some (w_next w)) c))
      (ex_wf _ _ _ E1) Hc1 Hn) as E2.
    eapply wp_mono; [apply HK|].
    + apply E2.
    + apply lookup_insert_eq.
    + cbn. rewrite lookup_insert_ne by lia. apply lookup_insert_eq.
    + done.
    + intros l x Hne Hl. pose proof (heap_wf_lt _ _ _ Hwf Hl). cbn. by rewrite !lookup_insert_ne by (done || lia).
    + cbn. lia.
    + intros p w3 [Hp E3]. split; [done|]. eapply extends_trans; [exact E1|]. by eapply extends_trans.
Qed.

(** Whatever is refused, [init_child_context] returns, a context or NULL, and
    leaves what was there before alone. *)
Lemma init_child_context_wp w :
  heap_wf w -> wp (init_child_context default_allocator)
    (fun p w' => (p = NULL \/ p = Some (w_next w)) /\ extends (w_next w) w w') w.
Proof.
  intros Hwf. unfold init_child_context. set (cl := w_next w).
  apply wp_bind, wp_shared; [|intros _].
  - apply wp_bind, wp_write, wp_ret. split; [by left|].
    exact (extends_env _ _ _ Hwf (env_step_trans _ _ _ (env_asked w) (env_write _ _ _))).
  - pose proof (extends_granted cl _ (OChild zero_child) Hwf ltac:(lia)) as E1. set (w1 := granted _ w) in *. fold cl.
    apply wp_bind. eapply wp_mono.
    { apply (update_owned cl cl w1 zero_child (with_current_arg 0)); try done; [apply E1|apply lookup_insert_eq]. }
    intros _ w2 (E2 & Hc2 & _). pose proof (extends_trans _ _ _ _ E1 E2) as E12. clear E1 E2.
    assert (Hpost : forall m, wp m (fun p w' => (p = NULL \/ p = Some cl) /\ extends cl w2 w') w2 ->
      wp m (fun p w' => (p = NULL \/ p = Some cl) /\ extends cl w w') w2).
    { intros m Hm. eapply wp_mono; [exact Hm|]. intros p w3 [Hp E3]. split; [done|]. by eapply extends_trans. }
    apply Hpost. change (Z.to_nat ARG_LIMIT) with 7%nat.
    set (c0 := with_current_arg 0 zero_child) in *. apply (array_wp cl cl w2 _ c0 (fun v => with_arrays v NULL NULL) _ []); try done; [apply E12|].
    intros va w3 Hwf3 Hc3 Hva3 Lva Hk3 Hn3.
    set (c1 := with_arrays _ _ _ c0) in *. apply (array_wp cl cl w3 _ c1 (fun v => with_arrays (Some va) NULL v) _ [free_value_array]); try done.
    { intros v Hv. split_and!; [|done|done]. intros l [= <-]. split; lia. }
    { repeat (apply Forall_cons; split; [set_solver|]). constructor. }
    intros sz w4 Hwf4 Hc4 Hsz4 Lsz Hk4 Hn4.
    set (c2 := with_arrays _ _ _ c1) in *.
    apply (array_wp cl cl w4 _ c2 (fun v => with_arrays (Some va) v (Some sz)) _ [free_size_array; free_value_array]); try done.
    { intros v Hv. split_and!; [|done|]; intros l [= <-]; split; lia. }
    { repeat (apply Forall_cons; split; [set_solver|]). constructor. }
    intros ca w5 Hwf5 Hc5 Hca5 Lca Hk5 Hn5.
    apply (init_args_wp cl cl va ca 7 w5 0%nat); [|done|lia]. split; [done|lia|..].
    + eexists. split; [exact Hc5|]. split_and!; try done. intros l [= <-]. split; lia.
    + exists (replicate 7 NULL). split; [|done]. apply Hk5; [lia|]. apply Hk4; [lia|done].
    + by exists (replicate 7 NULL).
Qed.

Lemma init_children_wp n arr k : forall w (i len : nat),
  heap_wf w -> (n <= arr)%positive -> children (w_sys w) = Some arr ->
  (exists qs, w_heap w !! arr = Some (OPtrs qs) /\ length qs = len) -> (i + k <= len)%nat ->
  wp (init_children_from default_allocator k (Z.of_nat i)) (fun _ w' => extends n w w' /\
    forall l o, l <> arr -> w_heap w !! l = Some o -> w_heap w' !! l = Some o) w.
Proof.
  induction k as [|k IH]; intros w i len Hwf Hn Harr (qs & Hqs & Hlen) Hik; cbn [init_children_from].
  - apply wp_ret. split; [by apply extends_refl|auto].
  - pose proof (heap_wf_lt _ _ _ Hwf Hqs) as Hlt. apply wp_bind.
    eapply wp_mono; [by apply init_child_context_wp|]. intros p w1 [Hp [K1 W1 N1 S1]].
    assert (E1 : extends n w w1) by (split; [intros l Hl; apply K1; lia|done..]).
    assert (O1 : forall l o, w_heap w !! l = Some o -> w_heap w1 !! l = Some o).
    { intros l o Hl. rewrite K1; [done|]. exact (heap_wf_lt _ _ _ Hwf Hl). }
    destruct Hp as [->| ->]; cbv beta iota.
    + apply wp_bind, wp_write, wp_ret. split; [|auto].
      eapply extends_trans; [exact E1|]. apply extends_env; [done|apply env_write].
    + apply wp_bind, wp_gets. rewrite S1, Harr. apply wp_bind.
      eapply wp_eq; [eapply store_elem_eq; [by apply O1|apply set_z_lt; lia]|]. rewrite Nat2Z.id.
      set (w2 := set_heap _ w1). assert (E2 : extends n w1 w2) by (eapply extends_store; [done|by apply O1|done]).
      replace (Z.of_nat i + 1) with (Z.of_nat (S i)) by lia.
      eapply wp_mono; [apply (IH w2 (S i) len)|].
      * apply E2.
      * done.
      * cbn. by rewrite S1.
      * eexists. split; [apply lookup_insert_eq|]. by rewrite length_insert.
      * lia.
      * intros b w3 [E3 O3]. split; [eapply extends_trans; [exact E1|]; by eapply extends_trans|].
        intros l o Hne Hl. apply O3; [done|]. cbn. rewrite lookup_insert_ne by done. by apply O1.
Qed.

(** What [setup_syscall_module] keeps until it succeeds: the objects it found,
    and the flag that says whether it did. *)
Record readying (w w' : world) : Prop := {
  ry_heap : forall l o, w_heap w !! l = Some o -> w_heap w' !! l = Some o;
  ry_wf : heap_wf w';
  ry_set : table_set (w_sys w') = table_set (w_sys w)
}.

Lemma readying_env w w1 w2 : readying w w1 -> env_step w1 w2 -> readying w w2.
Proof. intros [H1 H2 H3] (o & x & ->). by split. Qed.

Lemma readying_granted w w1 o : readying w w1 -> readying w (granted o w1).
Proof.
  intros [H1 H2 H3]. split; [|by apply granted_wf|done]. intros l x Hl. pose proof (heap_wf_lt _ _ _ H2 (H1 _ _ Hl)).
  cbn. rewrite lookup_insert_ne by lia. by apply H1.
Qed.

Lemma core_count_wp plat w : wp (get_core_count plat) (fun _ w' => env_step w w') w.
Proof.
  assert (Hbsd : wp (let! rtrn := ask_status in
      if rtrn <? 0 then printf "sysctl: %s\n" ;;; ret None
      else let! n := ask in let core_count := u32 n in ret (Some (if core_count <? 1 then 1 else core_count)))
      (fun _ w' => env_step w w') w).
  { unfold ask_status. apply wp_bind, wp_bind, wp_ask. intros a. apply wp_ret.
    destruct (_ <? 0); [apply wp_bind, wp_write, wp_ret|apply wp_bind, wp_ask; intros b; apply wp_ret].
    - eapply env_step_trans; [apply env_asked|apply env_write].
    - eapply env_step_trans; apply env_asked. }
  destruct plat; [exact Hbsd|exact Hbsd|]. apply wp_bind, wp_ask. intros a. apply wp_ret, env_asked.
Qed.

Lemma build_table_wp plat w (Q : ptr -> world -> Prop) :
  entries_ok plat (w_entries w) -> (forall w', env_step w w' -> Q NULL w') ->
  Q (Some (w_next w)) (set_entries (built_entries plat (w_entries w)) (granted (OTable (platform_table plat)) w)) ->
  wp (build_syscall_table plat default_allocator) Q w.
Proof.
  intros Hok HN HS. destruct (hd 0 (w_oracle w) <? 0) eqn:Ha; [|by eapply wp_eq; [by apply build_syscall_table_eq|]].
  unfold build_syscall_table. apply wp_bind. eapply wp_eq; [reflexivity|]. cbv beta iota. apply wp_bind.
  eapply wp_eq.
  { cbn [Memory.shared default_allocator]. unfold default_mem_alloc_shared.
    erewrite bind_eq by (apply mmap_anon_refused; by apply Z.ltb_lt). reflexivity. }
  apply wp_bind, wp_write, wp_ret, HN. eapply env_step_trans; [apply env_asked|apply env_write].
Qed.

(** The call has succeeded, or failed and left no trace. *)
Definition set_up_or_not (w : world) (r : Z) (w' : world) : Prop :=
  (r = 0 /\ table_set (w_sys w') = TRUE \/ r = -1 /\ table_set (w_sys w') = table_set (w_sys w)) /\
  (forall l o, w_heap w !! l = Some o -> w_heap w' !! l = Some o).

(** From the contexts on. *)
Lemma setup_tail_wp w w0 sl arr n g stop_ptr counter run_mode e :
  readying w w0 -> children (w_sys w0) = Some arr -> sys_state (w_sys w0) = Some sl ->
  w_heap w0 !! sl = Some (OGlobal g) -> w_heap w0 !! arr = Some (OPtrs (replicate n NULL)) ->
  w_heap w !! arr = None -> w_heap w !! sl = None ->
  wp (let! ok := init_children_from default_allocator n 0 in
     if negb ok then ret (-1)
     else
       let! s := gets w_sys in
       sys_set_run stop_ptr run_mode e (table_set s) ;;;
       update_state (fun g => MkGlobal (running_children g) counter) ;;;
       sys_set_run stop_ptr run_mode e TRUE ;;;
       ret 0) (set_up_or_not w) w0.
Proof.
  intros R0 Hch Hst Hg Harr Na Ns. apply wp_bind.
  eapply wp_mono; [apply (init_children_wp 1%positive arr n w0 0%nat n)|].
  - apply R0.
  - lia.
  - done.
  - eexists. split; [exact Harr|apply length_replicate].
  - lia.
  - intros ok w1 [E1 O1]. pose proof (ex_sys _ _ _ E1) as S1.
    assert (K : forall l o, w_heap w !! l = Some o -> w_heap w1 !! l = Some o).
    { intros l o Hl. apply O1; [congruence|]. by apply (ry_heap _ _ R0). }
    destruct ok; cbn [negb].
    + apply wp_bind, wp_gets, wp_bind, wp_modify, wp_bind.
      eapply wp_eq; [eapply update_state_eq; [cbn; by rewrite S1|cbn; apply O1; [congruence|exact Hg]]|].
      apply wp_bind, wp_modify, wp_ret. split; [by left|]. intros l o Hl. cbn.
      rewrite lookup_insert_ne by congruence. by apply K.
    + apply wp_ret. split; [|done]. right. split; [done|]. rewrite S1. apply R0.
Qed.

(** (C13) Whatever the environment refuses, [setup_syscall_module] (called when
    the module is not set up) returns: 0 with the module marked as set up, or
    -1 with that mark as it was, so that a later call starts afresh.  Either
    way every object that was on the heap is as before. *)
Theorem setup_syscall_module_outcomes H w stop_ptr counter run_mode e :
  heap_wf w -> table_set (w_sys w) <> TRUE -> entries_ok (h_platform H) (w_entries w) ->
  exists r w', setup_syscall_module H default_allocator stop_ptr counter run_mode e w = Ret r w' /\
    (r = 0 /\ table_set (w_sys w') = TRUE \/ r = -1 /\ table_set (w_sys w') = table_set (w_sys w)) /\
    (forall l o, w_heap w !! l = Some o -> w_heap w' !! l = Some o).
Proof.
  intros Hwf Hset Hent. apply wp_run. unfold setup_syscall_module.
  set (Q := fun (r : Z) (w' : world) => _). change Q with (set_up_or_not w). clear Q. set (Q := set_up_or_not w).
  assert (Hfail : forall s w1, readying w w1 -> wp (write ERROR s ;;; ret (-1)) Q w1).
  { intros s w1 R1. apply wp_bind, wp_write, wp_ret. destruct (readying_env _ _ _ R1 (env_write w1 ERROR s)).
    split; [by right|done]. }
  apply wp_bind. eapply wp_mono; [apply core_count_wp|]. intros cores w1 E1.
  assert (R1 : readying w w1) by (apply (readying_env w w); [by split|done]).
  assert (En1 : w_entries w1 = w_entries w) by (by destruct E1 as (o & x & ->)).
  destruct cores as [cores|]; [|by apply Hfail]. apply wp_bind, wp_modify. set (w2 := set_sys _ _).
  assert (R2 : readying w w2) by (destruct R1; by split).
  apply wp_bind. unfold get_syscall_table. apply wp_bind, wp_gets.
  rewrite (proj2 (Z.eqb_neq _ _)) by (by rewrite (ry_set _ _ R2)).
  apply build_table_wp; [cbn; by rewrite En1|intros w3 E3|].
  { apply wp_bind, wp_modify, Hfail. destruct (readying_env _ _ _ R2 E3). by split. }
  set (w3 := set_entries _ _). assert (R3 : readying w w3) by (destruct (readying_granted _ _ (OTable (platform_table (h_platform H))) R2); by split).
  apply wp_bind, wp_modify. set (w4 := set_sys _ _). assert (R4 : readying w w4) by (destruct R3; by split).
  cbv beta iota. apply wp_bind, wp_shared; [|intros _]; apply wp_bind, wp_modify; cbv beta iota.
  { apply Hfail. destruct (readying_env _ _ _ R4 (env_asked w4)). by split. }
  set (w5 := set_sys _ _). assert (R5 : readying w w5).
  { destruct (readying_granted _ _ (OGlobal (MkGlobal 0 NULL)) R4). by split. }
  assert (N4 : (w_next w <= w_next w4)%positive) by (by destruct E1 as (o & x & ->); cbn; lia).
  assert (G5 : w_heap w5 !! w_next w4 = Some (OGlobal (MkGlobal 0 NULL))) by apply lookup_insert_eq.
  apply wp_bind. eapply wp_eq; [eapply update_state_eq; [reflexivity|exact G5]|]. set (w6 := set_heap _ _).
  assert (R6 : readying w w6).
  { destruct R5 as [H1 H2 H3]. split; [|by eapply store_wf|done]. intros l o Hl. pose proof (heap_wf_lt _ _ _ Hwf Hl).
    unfold w6. cbn [w_heap set_heap]. rewrite lookup_insert_ne; [by apply H1|]. intros E. rewrite E in N4. lia. }
  apply wp_bind, wp_shared; [|intros _]; apply wp_bind, wp_modify; cbv beta iota.
  { apply Hfail. destruct (readying_env _ _ _ R6 (env_asked w6)). by split. }
  eapply (setup_tail_wp w _ (w_next w4) (Pos.succ (w_next w4))); try reflexivity.
  - destruct (readying_granted _ _ (OPtrs (replicate (Z.to_nat cores) NULL)) R6). by split.
  - cbn. rewrite lookup_insert_ne by lia. apply lookup_insert_eq.
  - cbn. apply lookup_insert_eq.
  - apply Hwf. lia.
  - by apply Hwf.
Qed.

Definition poor_world : world := fresh_world [0; 2; 0; 0; 0; -1] (static_entries MAC_OS).

(** Two cores, and no memory for the contexts. *)
Lemma setup_syscall_module_outcomes_witness :
  exists w', setup_syscall_module some_headers default_allocator NULL NULL 0 NULL poor_world = Ret (-1) w' /\
    table_set (w_sys w') = FALSE.
Proof.
  pose proof (setup_syscall_module_outcomes some_headers poor_world NULL NULL 0 NULL) as Hthm.
  destruct Hthm as (r & w' & H1 & H2 & _).
  - intros l _. apply lookup_empty.
  - done.
  - apply (static_entries_ok MAC_OS).
  - assert (Hr : r = -1). { vm_compute in H1. by injection H1. }
    subst r. exists w'. split; [exact H1|]. by destruct H2 as [[? _]|[_ H2]].
Defined.
