(* ===== verification/ResourceServe.v ===== *)
(** * ResourceServe: the resource module behind the generators' interface

    Generate.v states what the generators and the syscall fuzzer rely on
    ([ResourceLaws]); here the module of resource.c, set up over its four
    pools, is shown to keep that promise for as long as the pools have free
    blocks. *)

From S2P Require Import Prelude Types CWorld Io Memory Realloc Epoch Crypto Utils Dirs Network Resource ResourceCache.
From S2P Require Import ArgTypes EntriesFreebsd EntriesMac EntriesLinux SetTest Child Generate Mutate Signals Log.
From S2P Require Import SyscallTable Syscall SyscallLife SyscallArgs.

(** The functions of resource.c the generators call; one turn is enough to
    take a free block. *)
Definition module_resources : resources :=
  MkResources (Resource.get_desc 1) (Resource.get_socket 1) (Resource.get_filepath 1) (Resource.get_dirpath 1).

(** ** The four pools *)

Inductive rkind := RDesc | RSocket | RFile | RDir.

#[export] Instance rkind_eq_dec : EqDecision rkind.
Proof. solve_decision. Defined.

Definition pool_field (k : rkind) (r : rsrc_statics) : ptr :=
  match k with
  | RDesc => desc_pool r
  | RSocket => socket_pool r
  | RFile => file_pool r
  | RDir => dirpath_pool r
  end.

(** What a buffer of the pool holds: a number, or a terminated string. *)
Definition good (k : rkind) (bs : list (option Z)) : Prop :=
  match k with
  | RDesc | RSocket => exists z, int_at bs z
  | RFile | RDir => is_Some (cstr bs)
  end.

Record stock := MkStock {
  sk_pool : loc;
  sk_ctx : loc -> ptr;
  sk_buf : loc -> loc;
  sk_val : loc -> list (option Z);
  sk_free : list loc;
  sk_out : list loc
}.

Definition blocks (s : stock) : list loc := sk_free s ++ sk_out s.

(** The locations of the pool, its blocks, its contexts and its buffers. *)
Definition footprint (s : stock) (l : loc) : Prop :=
  l = sk_pool s \/ exists b, b ∈ blocks s /\ (l = b \/ sk_ctx s b = Some l \/ l = sk_buf s b).

(** The pool is in the heap, with at least [n] free blocks. *)
Record stocked (h : gmap loc hobj) (k : rkind) (n : nat) (s : stock) : Prop := {
  st_pool : pool_with h (sk_pool s) (sk_ctx s) (sk_buf s) (sk_val s) (sk_free s) (sk_out s);
  st_enough : (n <= length (sk_free s))%nat;
  st_good : forall b, b ∈ blocks s -> good k (sk_val s b)
}.

(** Each kind has a pool of its own, apart from the client's locations. *)
Record stores (w : world) (n : nat) (X : gset loc) (s : rkind -> stock) : Prop := {
  so_field : forall k, pool_field k (m_rsrc (w_mods w)) = Some (sk_pool (s k));
  so_stocked : forall k, stocked (w_heap w) k n (s k);
  so_apart : forall k1 k2, k1 <> k2 -> sk_pool (s k1) <> sk_pool (s k2) /\ forall b, b ∈ blocks (s k1) -> b ∉ blocks (s k2);
  so_client : forall k l, footprint (s k) l -> l ∉ X
}.

Definition pools_ready (n : nat) (X : gset loc) (w : world) : Prop :=
  heap_wf w /\ rsrc_setup (m_rsrc (w_mods w)) <> 0 /\ rsrc_iface (m_rsrc (w_mods w)) = every_interface CACHE /\
  exists s, stores w n X s.

(** ** Frame *)

Lemma footprint_object h k n s l : stocked h k n s -> footprint s l -> is_Some (h !! l).
Proof.
  intros [[Hr Hv] _ _] [->|(b & Hb & Hl)].
  - destruct (pool_repr_pool _ _ _ _ _ _ Hr) as [p ->]. by eexists.
  - destruct (Hv b Hb) as (rl & m & Hd & H1 & H2). destruct Hl as [->|[Hl| ->]].
    + destruct (pool_repr_block _ _ _ _ _ _ _ Hr Hb) as [nx ->]. by eexists.
    + rewrite Hd in Hl. injection Hl as <-. by rewrite H1.
    + by rewrite H2.
Qed.

(** A pool depends on its footprint alone. *)
Lemma stocked_frame h h' k n s :
  (forall l o, footprint s l -> h !! l = Some o -> h' !! l = Some o) -> stocked h k n s -> stocked h' k n s.
Proof.
  intros Hf [[(p & Hp & Hlk & Hfr & Hal & Hnd) Hv] Hn Hg]. split; [split|done|done].
  - assert (Hkeep : forall ls pp, (forall b, b ∈ ls -> b ∈ blocks s) -> slist h (sk_ctx s) pp ls -> slist h' (sk_ctx s) pp ls).
    { intros ls pp Hin Hs. refine (slist_frame _ _ _ _ _ _ Hs). intros l Hl.
      destruct (slist_block _ _ _ _ _ Hs Hl) as [nx Hnx]. rewrite Hnx. apply Hf; [|done]. right. exists l. auto. }
    exists p. split_and!; [apply Hf; [by left|done]|done|apply Hkeep; [|done]|apply Hkeep; [|done]|done];
      intros b Hb; apply elem_of_app; auto.
  - intros b Hb. destruct (Hv b Hb) as (rl & m & Hd & H1 & H2). exists rl, m.
    split_and!; [done|apply Hf|apply Hf]; try done; right; exists b; auto.
Qed.

Lemma pools_ready_frame n X w w' :
  pools_ready n X w ->
  (forall l o, l ∉ X -> w_heap w !! l = Some o -> w_heap w' !! l = Some o) ->
  w_mods w' = w_mods w -> heap_wf w' -> pools_ready n X w'.
Proof.
  intros (_ & Hs & Hi & s & [Hf Hst Ha Hc]) Hh Hm Hwf. unfold pools_ready. rewrite Hm. split_and!; [done..|].
  exists s. split; [by rewrite Hm| |done|done]. intros k. eapply stocked_frame; [|apply Hst]. intros l o Hl.
  apply Hh. by eapply Hc.
Qed.

(** ** Taking from one pool *)

Lemma block_not_pool h k n s b : stocked h k n s -> b ∈ blocks s -> forall p, h !! b <> Some (OPool p).
Proof. intros [[Hr _] _ _] Hb p. by destruct (pool_repr_block _ _ _ _ _ _ _ Hr Hb) as [nx ->]. Qed.

Lemma footprint_other w n X s k1 k2 l :
  stores w n X s -> k1 <> k2 -> footprint (s k2) l -> l <> sk_pool (s k1) /\ l ∉ blocks (s k1).
Proof.
  intros [_ Hst Ha _] Hk Hl. pose proof (Hst k1) as [[Hr1 _] _ _].
  destruct (pool_repr_pool _ _ _ _ _ _ Hr1) as [p1 Hp1].
  assert (Hb1 : forall b, b ∈ blocks (s k1) -> exists q, w_heap w !! b = Some (OBlock q)).
  { intros b Hb. destruct (pool_repr_block _ _ _ _ _ _ _ Hr1 Hb) as [nx ?]. by eexists. }
  pose proof (Hst k2) as [[Hr2 Hv2] _ _]. destruct Hl as [->|(b & Hb & Hl)].
  - destruct (pool_repr_pool _ _ _ _ _ _ Hr2) as [p2 Hp2]. split.
    + by apply not_eq_sym, (proj1 (Ha k1 k2 Hk)).
    + intros [q Hq]%Hb1. congruence.
  - destruct (Hv2 b Hb) as (rl & m & Hd & H1 & H2). destruct Hl as [->|[Hl| ->]].
    + destruct (pool_repr_block _ _ _ _ _ _ _ Hr2 Hb) as [nx Hnx]. split; [congruence|]. apply (Ha k2 k1); [by apply not_eq_sym|done].
    + rewrite Hd in Hl. injection Hl as <-. split; [congruence|]. intros [q Hq]%Hb1. congruence.
    + split; [congruence|]. intros [q Hq]%Hb1. congruence.
Qed.

(** The block taken moves to the handed out ones. *)
Definition take_one (s : stock) : stock :=
  match sk_free s with
  | [] => s
  | b :: fr => MkStock (sk_pool s) (sk_ctx s) (sk_buf s) (sk_val s) fr (b :: sk_out s)
  end.

Lemma take_one_blocks s b : b ∈ blocks (take_one s) <-> b ∈ blocks s.
Proof. unfold take_one, blocks. destruct (sk_free s) as [|a fr] eqn:E; [by rewrite E|]. cbn. set_solver. Qed.

Lemma take_one_footprint s l : footprint (take_one s) l <-> footprint s l.
Proof.
  assert (sk_pool (take_one s) = sk_pool s /\ sk_ctx (take_one s) = sk_ctx s /\ sk_buf (take_one s) = sk_buf s) as (E1 & E2 & E3)
    by (unfold take_one; by destruct (sk_free s)).
  unfold footprint. rewrite E1, E2, E3. split; (intros [?|(b & Hb & ?)]; [by left|right; exists b; split; [by apply take_one_blocks|done]]).
Qed.

Lemma taken_keeps_stable w h' pl d fr al :
  pool_repr (w_heap w) pl 0 d fr al -> pool_frame (w_heap w) h' pl (fr ++ al) -> keeps_stable w (set_heap h' w).
Proof.
  intros Hr Hf.
  assert (Hout : forall l, (forall o, w_heap w !! l = Some o -> stable o) -> h' !! l = w_heap w !! l).
  { intros l Hl. apply Hf.
    - intros ->. destruct (pool_repr_pool _ _ _ _ _ _ Hr) as [p Hp]. by apply Hl in Hp.
    - intros Hin. destruct (pool_repr_block _ _ _ _ _ _ _ Hr Hin) as [nx Hb]. by apply Hl in Hb. }
  split; cbn; try done; try lia.
  - intros l o Ho Hl. rewrite Hout; [done|]. intros o' Ho'. by simplify_eq.
  - intros Hwf l Hl. pose proof (Hwf l Hl) as Hn. cbn. rewrite Hout; [done|]. intros o Ho.
    discriminate (eq_trans (eq_sym Ho) Hn).
Qed.

Lemma get_from_pool n X w k :
  pools_ready (S n) X w ->
  exists l bs w', get_cached 1 (pool_field k (m_rsrc (w_mods w))) w = Ret (Some (Some l)) w' /\
    keeps_stable w w' /\ pools_ready n X w' /\ w_heap w' !! l = Some (OBytes bs) /\ good k bs.
Proof.
  intros (Hwf & Hs & Hi & s & Hst). pose proof Hst as [Hfield Hstock Hapart Hclient].
  rewrite Hfield. pose proof (Hstock k) as [Hpool Hn Hgood].
  destruct (sk_free (s k)) as [|b fr] eqn:Efr; [cbn in Hn; lia|].
  destruct (get_cached_run 0 _ _ _ _ _ _ _ _ Hpool) as (h' & Hrun & Hpool' & Hframe).
  assert (Hb : b ∈ blocks (s k)) by (unfold blocks; rewrite Efr; set_solver).
  assert (Hk : keeps_stable w (set_heap h' w)) by (eapply taken_keeps_stable; [apply Hpool|exact Hframe]).
  exists (sk_buf (s k) b), (sk_val (s k) b), (set_heap h' w). split_and!; [done|done| | |by apply Hgood].
  2: { destruct Hpool' as [_ Hv]. by destruct (Hv b ltac:(set_solver)) as (_ & _ & _ & _ & ?). }
  split_and!; [by apply (ks_wf _ _ Hk)|done|done|].
  exists (fun k' => if decide (k' = k) then take_one (s k) else s k'). split.
  - intros k'. cbn. case_decide as E; [subst k'|done]. rewrite Hfield. unfold take_one. by rewrite Efr.
  - intros k'. cbn. case_decide as E; [subst k'|].
    + split.
      * unfold take_one. rewrite Efr. exact Hpool'.
      * unfold take_one. rewrite Efr. cbn in *. lia.
      * intros c Hc. rewrite take_one_blocks in Hc. unfold take_one. rewrite Efr. cbn. by apply Hgood.
    + destruct (Hstock k') as [Hp' Hn' Hg']. eapply stocked_frame; [|split; [exact Hp'|lia|exact Hg']].
      intros l o Hl Ho. rewrite Hframe; [done|..]; (destruct (footprint_other w (S n) X s k k' l Hst) as [? Hnot]; [done..|]).
      * done.
      * intros Hin. apply Hnot. unfold blocks. by rewrite Efr.
  - intros k1 k2 Hne. assert (E : forall k', sk_pool (if decide (k' = k) then take_one (s k) else s k') = sk_pool (s k') /\
      forall c, c ∈ blocks (if decide (k' = k) then take_one (s k) else s k') <-> c ∈ blocks (s k')).
    { intros k'. case_decide as E; [subst k'|done]. split; [unfold take_one; by rewrite Efr|]. intros c. apply take_one_blocks. }
    destruct (E k1) as [-> E1], (E k2) as [-> E2]. destruct (Hapart k1 k2 Hne) as [H1 H2]. split; [done|].
    intros c Hc%E1 Hc2%E2. by eapply H2.
  - intros k' l. case_decide as E; [subst k'; rewrite take_one_footprint|]; apply Hclient.
Qed.

(** ** The interface *)

Lemma pools_served n X w (A : Type) (e : A) f cached nocached :
  pools_ready n X w -> f (every_interface CACHE) = Some CACHE -> when_setup e (through f cached nocached) w = cached w.
Proof. intros (_ & Hs & Hi & _) Hf. apply served_cached; [done|]. by rewrite Hi. Qed.

Lemma number_law n X w k :
  good k = good RDesc -> pools_ready (S n) X w ->
  wp (let! pool := get_mods (fun m => pool_field k (m_rsrc m)) in
      let! fd := get_cached 1 pool in
      match fd with None => ret (-1) | Some fd => load_i32 fd end)
    (fun _ w' => keeps_stable w w' /\ pools_ready n X w') w.
Proof.
  intros Hg Hp. destruct (get_from_pool n X w k Hp) as (l & bs & w' & Hrun & Hk & Hr & Hl & Hgood).
  rewrite Hg in Hgood. destruct Hgood as [z Hz].
  apply (wp_eq _ _ _ z w'); [|done]. erewrite bind_eq by reflexivity. erewrite bind_eq by exact Hrun.
  by eapply load_i32_eq.
Qed.

Lemma path_law n X w k :
  good k = good RFile -> pools_ready (S n) X w ->
  wp (let! pool := get_mods (fun m => pool_field k (m_rsrc m)) in
      let! path := get_cached 1 pool in ret (default NULL path))
    (fun p w' => keeps_stable w w' /\ pools_ready n X w' /\ is_path w' p) w.
Proof.
  intros Hg Hp. destruct (get_from_pool n X w k Hp) as (l & bs & w' & Hrun & Hk & Hr & Hl & Hgood).
  rewrite Hg in Hgood. destruct Hgood as [z Hz].
  apply (wp_eq _ _ _ (Some l) w'); [|split_and!; [done..|by exists bs, z]].
  erewrite bind_eq by reflexivity. by erewrite bind_eq by exact Hrun.
Qed.

Lemma pools_ready_client n X Y w :
  pools_ready n X w -> (forall l, l ∈ Y -> is_Some (w_heap w !! l) -> l ∈ X) -> pools_ready n Y w.
Proof.
  intros (Hwf & Hs & Hi & s & [Hf Hst Ha Hc]) Hsub. split_and!; [done..|]. exists s. split; [done..|].
  intros k l Hl Hin. apply (Hc k l Hl), Hsub; [done|]. by eapply footprint_object.
Qed.

(** The module keeps the promise the generators rely on: with [n] free
    blocks in each of its four pools it serves [n] requests of every kind. *)
#[export, refine] Instance module_resources_laws : ResourceLaws module_resources := {| available := pools_ready |}.
Proof.
  - intros n X w (Hwf & Hs & Hi & s & [Hf Hst Ha Hc]). split_and!; [done..|]. exists s. split; [done| |done|done].
    intros k. destruct (Hst k). split; [done|lia|done].
  - intros n X w w'. apply pools_ready_frame.
  - intros n X w l Ha Hl. eapply pools_ready_client; [exact Ha|]. intros l' Hl' [o Ho]. set_solver.
  - intros n X Y w Ha Hsub. eapply pools_ready_client; [exact Ha|]. set_solver.
  - intros n X w _ Ha. cbn. unfold wp, Resource.get_desc. rewrite (pools_served (S n) X) by done.
    by apply (number_law n X w RDesc).
  - intros n X w _ Ha. cbn. unfold wp, Resource.get_socket. rewrite (pools_served (S n) X) by done.
    by apply (number_law n X w RSocket).
  - intros n X w _ Ha. cbn. unfold wp, Resource.get_filepath. rewrite (pools_served (S n) X) by done.
    by apply (path_law n X w RFile).
  - intros n X w _ Ha. cbn. unfold wp, Resource.get_dirpath. rewrite (pools_served (S n) X) by done.
    by apply (path_law n X w RDir).
Defined.

(** (C16) The syscall fuzzer on top of the resource module: with at least as many
    free blocks in each pool as the entry has arguments, generating the
    arguments of a call never waits and never goes wrong; it returns 0 or -1,
    after 0 every slot holds a value of its kind, and the pools can serve the
    rest of the requests. *)
Theorem generate_arguments_from_pools H w cl va ca sz tl c t k e ps cps X m :
  headers_ok H -> pools_ready (Z.to_nat (total_args e) + m) X w -> cl ∈ X -> va ∈ X ->
  args_ready w cl va ca sz tl c t k e ps cps -> child_total_args c = total_args e ->
  forallb (fun g => match g with Some g => sound_generator g | None => false end)
    (take (Z.to_nat (total_args e)) (get_arg_array e)) = true ->
  exists r w' ps', generate_arguments H module_resources (Some cl) w = Ret r w' /\
    args_ready w' cl va ca sz tl c t k e ps' cps /\ pools_ready m X w' /\
    (r = -1 \/ r = 0 /\ forall j g, (j < Z.to_nat (total_args e))%nat -> get_arg_array e !! j = Some (Some g) ->
       exists p, ps' !! j = Some p /\ value_at H w w' g p).
Proof. exact (@generate_arguments_spec H module_resources module_resources_laws w cl va ca sz tl c t k e ps cps X m). Qed.

(** With a pool used up, a request for its kind of resource never returns. *)
Theorem exhausted_pool_spins fuel w pl buf val al :
  rsrc_setup (m_rsrc (w_mods w)) <> 0 -> rsrc_iface (m_rsrc (w_mods w)) = every_interface CACHE ->
  desc_pool (m_rsrc (w_mods w)) = Some pl -> pool_of (w_heap w) pl buf val [] al ->
  Resource.get_desc fuel w = Spin.
Proof.
  intros Hs Hi Hp Hpool. unfold Resource.get_desc. rewrite served_cached by (done || by rewrite Hi).
  unfold get_desc_cached. erewrite bind_eq by reflexivity. rewrite Hp. apply bind_spin. by eapply get_cached_empty.
Qed.

(** ** Four pools of three resources *)

Definition slot (base : positive) (i : nat) (j : positive) : loc := (base + Pos.of_nat (3 * i + 1) + j - 1)%positive.

Definition demo_pool (base : positive) (bs : list Z) : list (loc * hobj) :=
  (base, OPool (MkPool 0 8 3 (Some (slot base 0 1)) NULL)) ::
  concat (map (fun i : nat =>
    [ (slot base i 1, OBlock (MkBlock (Some (slot base i 2)) (if decide (i = 2%nat) then NULL else Some (slot base (S i) 1))));
      (slot base i 2, OResource (MkResource (Some (slot base i 1)) (Some (slot base i 3))));
      (slot base i 3, OBytes (map Some bs)) ]) [0; 1; 2]%nat).

Definition demo_bytes (k : rkind) : list Z :=
  match k with RDesc => le_bytes 4 5 | RSocket => le_bytes 4 6 | RFile => codes "/f" ++ [0] | RDir => codes "/d" ++ [0] end.
Definition demo_base (k : rkind) : positive :=
  match k with RDesc => 11 | RSocket => 21 | RFile => 31 | RDir => 41 end%positive.

Definition demo_stock (k : rkind) : stock :=
  MkStock (demo_base k) (fun b => Some (b + 1)%positive) (fun b => (b + 2)%positive) (fun _ => map Some (demo_bytes k))
    [slot (demo_base k) 0 1; slot (demo_base k) 1 1; slot (demo_base k) 2 1] [].

Definition pools_world (oracle : list Z) : world :=
  let w := test_world (replicate 7 NULL) EntriesLinux.entry_read oracle in
  set_mods (set_m_rsrc (MkRsrc 1 (Some 11%positive) NULL (Some 41%positive) (Some 31%positive) (Some 21%positive)
      (every_interface CACHE)) initial_mods)
    (set_next 60%positive (set_heap
      (list_to_map (demo_pool 11 (demo_bytes RDesc) ++ demo_pool 21 (demo_bytes RSocket) ++
         demo_pool 31 (demo_bytes RFile) ++ demo_pool 41 (demo_bytes RDir)) ∪ w_heap w) w)).

Lemma pools_world_stocked oracle k : stocked (w_heap (pools_world oracle)) k 3 (demo_stock k).
Proof.
  destruct k; (split; [split|cbn; lia|]).
  all: try (intros b _; cbn; first [eexists; eexists; split; reflexivity | by eexists]).
  all: try (eexists; split; [vm_compute; reflexivity|]; split_and!; [done| |done|by apply (bool_decide_unpack _)];
    repeat (split; [done|]; eexists; split; [vm_compute; reflexivity|]); done).
  all: intros b Hb; cbn in Hb; repeat (apply elem_of_cons in Hb as [->|Hb];
    [do 2 eexists; split; [reflexivity|]; split; vm_compute; reflexivity|]); by apply not_elem_of_nil in Hb.
Qed.

Lemma pools_world_ready oracle : pools_ready 3 {[1%positive; 2%positive]} (pools_world oracle).
Proof.
  split_and!; [|done|done|].
  - intros l Hl. change (60 <= l)%positive in Hl. cbn -[union list_to_map]. apply lookup_union_None. split.
    + apply not_elem_of_list_to_map. cbn. intros Hin. repeat (apply elem_of_cons in Hin as [->|Hin]; [by vm_compute in Hl|]).
      by apply not_elem_of_nil in Hin.
    + cbn -[replicate map]. rewrite !lookup_insert_ne by lia. apply lookup_empty.
  - exists demo_stock. split.
    + by intros [].
    + apply pools_world_stocked.
    + intros [] []; try done; intros _; (split; [done|]); intros b Hb Hb'; cbn in Hb, Hb';
        repeat (apply elem_of_cons in Hb as [->|Hb]; [repeat (apply elem_of_cons in Hb' as [Hb'|Hb']; [done|]);
          by apply not_elem_of_nil in Hb'|]); by apply not_elem_of_nil in Hb.
    + intros k l Hl Hin. assert (Hlt : (l <= 2)%positive).
      { apply elem_of_union in Hin as [->%elem_of_singleton| ->%elem_of_singleton]; lia. }
      revert Hlt.
      destruct Hl as [->|(b & Hb & Hl)]; [by destruct k|].
      assert (Hb3 : (3 <= b)%positive).
      { destruct k; cbn in Hb; repeat (apply elem_of_cons in Hb as [->|Hb]; [done|]); by apply not_elem_of_nil in Hb. }
      destruct Hl as [->|[Hl| ->]]; [lia|cbn in Hl; injection Hl as <-; lia|cbn; lia].
Qed.

Lemma pools_world_args oracle :
  args_ready (pools_world oracle) 1%positive 2%positive 3%positive 4%positive
    5%positive one_child linux_syscall_table 0 (prepared EntriesLinux.entry_read) (replicate 7 NULL) (replicate 7 NULL).
Proof.
  split; try done.
  - split; [done|by eexists|apply pools_world_ready|].
    exists one_child, 4%positive, (replicate 7 0). split_and!; done.
  - split_and!; [done..|]. apply (test_table_ready (replicate 7 NULL) EntriesLinux.entry_read oracle eq_refl).
  - by exists 0.
  - by apply prepared_ready.
Qed.

(** A call of [read] gets descriptor 5 from its pool. *)
Lemma generate_arguments_from_pools_witness :
  exists r w', generate_arguments some_headers module_resources (Some 1%positive) (pools_world []) = Ret r w' /\
    (r = -1 \/ r = 0) /\ pools_ready 0 {[1%positive; 2%positive]} w'.
Proof.
  destruct (generate_arguments_from_pools some_headers (pools_world []) 1%positive 2%positive 3%positive 4%positive
    5%positive one_child linux_syscall_table 0 (prepared EntriesLinux.entry_read) (replicate 7 NULL) (replicate 7 NULL)
    {[1%positive; 2%positive]} 0%nat some_headers_ok (pools_world_ready [])
    (elem_of_union_l _ _ _ (proj2 (elem_of_singleton _ _) eq_refl))
    (elem_of_union_r _ _ _ (proj2 (elem_of_singleton _ _) eq_refl))
    (pools_world_args []) eq_refl eq_refl) as (r & w' & ps' & H1 & _ & H3 & H2).
  exists r, w'. split; [exact H1|]. split; [|exact H3]. destruct H2 as [->|[-> _]]; [by left|by right].
Defined.
