(* ===== verification/File.v ===== *)
(** * File: the file fuzzer (file/file.c, file-freebsd.c, file-mac.m,
    file-linux.c)

    The module keeps an array of contexts, one for each file of the input
    directory.  Every turn of its loop picks one of them, maps the file into
    memory, mutates the mapping, writes the result to a new file in /tmp, runs
    the target program on it and removes it again.

    Strings made by [asprintf] are values here; the contexts, their array, the
    mapping, the stop flag and the path of the target, which the caller of the
    set-up owns, are objects of the heap. *)

From Stdlib Require Import Ascii.
From S2P Require Import Prelude Types CWorld Io Memory Concurrent Realloc Crypto Utils Dirs Network Resource Mutate.
From S2P Require Import ArgTypes EntriesFreebsd EntriesMac EntriesLinux SetTest Child Signals Log.

(** ** Static variables *)

Definition set_stop_ptr (p : ptr) (f : file_statics) : file_statics :=
  MkFileStatics p (path_to_exec f) (start_offset f) (file_array f) (file_count f) (input_dir f) (file_setup f).
Definition set_path_to_exec (s : ptr) (f : file_statics) : file_statics :=
  MkFileStatics (stop_ptr f) s (start_offset f) (file_array f) (file_count f) (input_dir f) (file_setup f).
Definition set_start_offset (z : Z) (f : file_statics) : file_statics :=
  MkFileStatics (stop_ptr f) (path_to_exec f) z (file_array f) (file_count f) (input_dir f) (file_setup f).
Definition set_file_array (p : ptr) (f : file_statics) : file_statics :=
  MkFileStatics (stop_ptr f) (path_to_exec f) (start_offset f) p (file_count f) (input_dir f) (file_setup f).
Definition set_file_count (z : Z) (f : file_statics) : file_statics :=
  MkFileStatics (stop_ptr f) (path_to_exec f) (start_offset f) (file_array f) z (input_dir f) (file_setup f).
Definition set_input_dir (s : option string) (f : file_statics) : file_statics :=
  MkFileStatics (stop_ptr f) (path_to_exec f) (start_offset f) (file_array f) (file_count f) s (file_setup f).
Definition set_file_setup (z : Z) (f : file_statics) : file_statics :=
  MkFileStatics (stop_ptr f) (path_to_exec f) (start_offset f) (file_array f) (file_count f) (input_dir f) z.

Definition get_file_static {A} (f : file_statics -> A) : M A := get_mods (fun m => f (m_file m)).

Definition load_file (p : ptr) : M file_ctx :=
  let! o := load p in match o with OFile f => ret f | _ => crash end.

(** ** Signals *)

Definition ctrlc_handler (sig : Z) : M unit :=
  let! p := get_file_static stop_ptr in cas_loop_int32 1 p TRUE.

Definition SIGFPE : Z := 8.

Definition setup_signal_handler (plat : platform) : M unit :=
  emit (EvSigaction SIGFPE SIG_DFL) ;;;
  emit (EvSigaction (SIGCHLD plat) SIG_DFL) ;;;
  emit (EvSigaction SIGINT fn_file_ctrlc_handler).

(** A SIGINT that arrives, or none. *)
Definition interrupt : M unit :=
  let! sig := ask in if sig =? 0 then ret tt else ctrlc_handler SIGINT.

(** ** Picking a file *)

(** The return value and what is left in [*file] and [*extension]. *)
Definition get_file (random : random_generator) : M (Z * Z * option string) :=
  let! count := get_file_static file_count in
  let! offset := call_range random (u32 (count - 1)) in
  match offset with
  | None => write ERROR "Can't pick random number\n" ;;; ret (-1, 0, None)
  | Some offset =>
      let! array := get_file_static file_array in
      let! p := load_elem array offset in
      let! f := load_file p in
      let! path := need (file_ctx_path f) in
      let! file := open_rdwr path in
      if file <? 0 then write ERROR "Can't open file: %s\n" ;;; ret (-1, file, None)
      else
        let! f := load_file p in
        let! ext := need (file_ctx_extension f) in
        let! extension := asprintf ext in
        match extension with
        | None => write ERROR "Can't create extension string: %s\n" ;;; ret (-1, file, None)
        | Some extension => ret (0, file, Some extension)
        end
  end.

Definition start_file_smart_loop : M unit := ret tt.

(** The return value and what is left in [*exec_path]. *)
Definition get_exec_path (exec_path : ptr) : M (Z * ptr) :=
  let! setup := get_file_static file_setup in
  if negb (setup =? 1) then write ERROR "Setup the file module first\n" ;;; ret (-1, exec_path)
  else
    let! path := get_file_static path_to_exec in ret (0, path).

Definition set_start_addr (addr : Z) : M unit := mod_file (set_start_offset addr).
Definition get_start_addr : M Z := get_file_static start_offset.

(** ** The array of contexts *)

(** [init_file_ctx] behind its declarations: the answer, and the descriptor
    that is closed when the function is left. *)
Definition file_ctx_body (path : string) : M (ptr * Z) :=
  let! file := mem_alloc (OFile (MkFileCtx None None 0)) in
  match file with
  | None => write ERROR "Can't allocate file context\n" ;;; ret (NULL, 0)
  | Some _ =>
      let! extension := get_extension path in
      match extension with
      | None => write ERROR "Can't get file extension\n" ;;; ret (NULL, 0)
      | Some extension =>
          store file (OFile (MkFileCtx None (Some extension) 0)) ;;;
          let! copy := asprintf path in
          match copy with
          | None => write ERROR "Can't create path string\n" ;;; ret (NULL, 0)
          | Some copy =>
              store file (OFile (MkFileCtx (Some copy) (Some extension) 0)) ;;;
              let! fd := open_rdonly path in
              if fd <? 0 then write ERROR "Can't open file\n" ;;; ret (NULL, fd)
              else
                let! size := get_file_size fd in
                match size with
                | None => write ERROR "Can't get file size\n" ;;; ret (NULL, fd)
                | Some size =>
                    store file (OFile (MkFileCtx (Some copy) (Some extension) size)) ;;; ret (file, fd)
                end
          end
      end
  end.

Definition init_file_ctx (path : option string) : M ptr :=
  match path with
  | None => write ERROR "Path is NULL\n" ;;; ret NULL
  | Some path =>
      let! '(file, fd) := file_ctx_body path in
      close_fd fd ;;; ret file
  end.

(** The loop of [init_file_array] over the names left in the directory behind
    [fd]; [None] is [return (NULL)], otherwise the index behind the last
    element. *)
Fixpoint fill_array (fd : Z) (names : list string) (array : ptr) (index_counter : Z) : M (option Z) :=
  match names with
  | [] => ret (Some index_counter)
  | name :: names' =>
      if hidden name then fill_array fd names' array index_counter
      else
        let! dir := get_file_static input_dir in
        let! file_path := asprintf (show_str dir +:+ "/" +:+ name) in
        match file_path with
        | None => let! _ := closedir fd in ret None
        | Some file_path =>
            let! buf := sys_stat file_path in
            match buf with
            | None => write ERROR "Can't get file stats: %s\n" ;;; ret None
            | Some st_mode =>
                if has_flag st_mode S_IFREG then
                  let! file := init_file_ctx (Some file_path) in
                  store_elem array index_counter file ;;;
                  match file with
                  | None => write ERROR "Can't init file context\n" ;;; ret None
                  | Some _ => fill_array fd names' array (u32 (index_counter + 1))
                  end
                else fill_array fd names' array index_counter
            end
        end
  end.

(** The elements of the new array are indeterminate; reading one of them as a
    pointer is as undefined as following [NULL].  The directory is not closed. *)
Definition init_file_array (dir : string) (size : Z) : M ptr :=
  let! array := mem_alloc (OPtrs (replicate (Z.to_nat size) NULL)) in
  match array with
  | None => write ERROR "Can't create file index: %s\n" ;;; ret NULL
  | Some _ =>
      let! directory := opendir dir in
      match directory with
      | None => write ERROR "Can't open dir: %s\n" ;;; ret NULL
      | Some (fd, names) =>
          let! index_counter := fill_array fd names array 0 in
          match index_counter with
          | None => ret NULL
          | Some index_counter =>
              if index_counter =? 0 then write ERROR "Input dir is empty\n" ;;; ret NULL else ret array
          end
      end
  end.

Definition initial_fuzz_run : M Z := ret 0.
Definition set_end_offset (offset : Z) : M Z := ret 0.

Definition setup_file_module (stop : ptr) (exec_path : ptr) (input : string) : M Z :=
  mod_file (set_path_to_exec exec_path) ;;;
  mod_file (set_input_dir (Some input)) ;;;
  let! count := get_file_static file_count in
  let! '(rtrn, count) := count_files_directory count input in
  mod_file (set_file_count count) ;;;
  if rtrn <? 0 then write ERROR "Can't count files in the in directory.\n" ;;; ret (-1)
  else
    let! array := init_file_array input count in
    mod_file (set_file_array array) ;;;
    match array with
    | None => write ERROR "Can't init file array\n" ;;; ret (-1)
    | Some _ =>
        mod_file (set_stop_ptr stop) ;;;
        mod_file (set_file_setup 1) ;;;
        ret 0
    end.

(** ** Running the target (file/file-freebsd.c) *)

Section target.
Context (SHA256 : list Z -> list Z) (PATH_MAX : Z).

(** The thread that kills the target after a second. *)
Definition kill_test_proc (pid : Z) : M unit :=
  emit (EvKill pid) ;;;
  let! rtrn := ask_status in
  if rtrn <? 0 then write ERROR "Can't kill child process: %s\n" else ret tt.

Definition handle_crash (file_path : string) (file_extension : option string) : M Z :=
  let! '(rtrn, file_name) := generate_name SHA256 PATH_MAX file_extension FILE_NAME in
  if rtrn <? 0 then write ERROR "Can't create out path: %s\n" ;;; ret (-1)
  else
    let! path := asprintf (file_path +:+ "/crash_dir/" +:+ show_str file_name) in
    match path with
    | None => write ERROR "Can't create out path: %s\n" ;;; ret (-1)
    | Some path =>
        let! rtrn := copy_file_to file_path path in
        if rtrn <? 0 then write ERROR "Can't copy file to crash directory\n" ;;; ret (-1) else ret 0
    end.

(** The low seven bits of a status are the signal; 127 is a stopped process. *)
Definition WTERMSIG (status : Z) : Z := Z.land status 127.
Definition WIFSIGNALED (status : Z) : bool := negb (WTERMSIG status =? 0) && negb (WTERMSIG status =? 127).
Definition SIGKILL : Z := 9.

(** [execv(2)] only returns when it fails; a program that takes the place of
    the child ends the child as far as this program is concerned. *)
Definition execv (path : string) (argv : list string) : M Z :=
  let! a := ask in
  if a <? 0 then ret (-1) else emit (EvExec path argv) ;;; exit 0.

(** The child's half of [run_test_case]. *)
Definition exec_target (exec_path : ptr) (file_path : string) : M Z :=
  let! rtrn := ask_status in
  if rtrn <? 0 then write ERROR "Can't seteuid\n" ;;; exit (-1)
  else
    let! rtrn := match exec_path with
                 | None => ret (-1)
                 | Some _ => let! path := load_string exec_path in execv path [file_path]
                 end in
    if rtrn <? 0 then write ERROR "Can't execute target program: %s\n" ;;; exit (-1) else exit 0.

(** The parent's half.  The thread has ended when [pthread_join] returns;
    joining a thread that was never made is undefined. *)
Definition watch_target (child_pid : Z) (file_path : string) (file_extension : option string) : M Z :=
  let! rtrn := pthread_create fn_kill_test_proc in
  if rtrn <? 0 then write ERROR "Can't create kill thread\n" ;;; ret (-1)
  else
    let! status := ask in
    (if WIFSIGNALED status then
       if WTERMSIG status =? SIGKILL then ret tt
       else if (WTERMSIG status =? SIGSEGV) || (WTERMSIG status =? SIGBUS FREEBSD) then
         let! _ := handle_crash file_path file_extension in ret tt
       else ret tt
     else ret tt) ;;;
    (if rtrn =? 0 then kill_test_proc child_pid else crash) ;;;
    ret 0.

(** file/file-mac.m: the workspace opens the test case with the target, and
    its answer is not looked at.  A null C string cannot become an NSString.
    The observer is registered and only logs. *)
Definition run_test_case_mac (exec_path : ptr) (file_path : string) : M Z :=
  let! target_path := load_string exec_path in
  let! opened := ask in
  ret 0.

(** file/file-linux.c has an empty [run_test_case]. *)
Definition run_test_case (plat : platform) (exec_path : ptr) (file_path : string)
    (file_extension : option string) : M Z :=
  match plat with
  | LINUX => ret 0
  | MAC_OS => run_test_case_mac exec_path file_path
  | FREEBSD =>
      emit EvFork ;;;
      let! child_pid := ask in
      if child_pid =? 0 then exec_target exec_path file_path
      else if 0 <? child_pid then watch_target child_pid file_path file_extension
      else write ERROR "Can't create child process: %s\n" ;;; ret (-1)
  end.

(** ** The main loop *)

Context (P : plugins) (plat : platform).

Definition WRITE : Z := 2.

(** The part of a turn behind the choice of the file: whether the loop goes
    on. *)
Definition test_file (file : Z) (file_extension : string) (random : random_generator) : M bool :=
  let! r := map_file_in file (Z.lor READ WRITE) in
  match r with
  | None => write ERROR "Can't read file to memory\n" ;;; ret false
  | Some (file_buffer, file_size) =>
      let! rtrn := mutate_file P file_buffer file_extension file_size random in
      if rtrn <? 0 then write ERROR "Can't mutate file\n" ;;; ret false
      else
        let! '(rtrn, file_name) := generate_name SHA256 PATH_MAX (Some file_extension) FILE_NAME in
        if rtrn <? 0 then write ERROR "Can't generate random file name\n" ;;; ret false
        else
          let! file_path := asprintf ("/tmp/" +:+ show_str file_name) in
          match file_path with
          | None => write ERROR "Can't create out path\n" ;;; ret false
          | Some file_path =>
              let! rtrn := map_file_out file_path file_buffer file_size in
              if rtrn <? 0 then write ERROR "Can't write file to disk\n" ;;; ret false
              else
                let! rtrn := log_file (Some file_path) (Some file_extension) in
                if rtrn <? 0 then write ERROR "Can't log file generated\n" ;;; ret false
                else
                  let! exec_path := get_file_static path_to_exec in
                  let! rtrn := run_test_case plat exec_path file_path (Some file_extension) in
                  if rtrn <? 0 then write ERROR "Can't test exec with file\n" ;;; ret false
                  else
                    let! _ := mem_free_shared file_buffer file_size in
                    let! rtrn := unlink file_path in
                    if rtrn <? 0 then write ERROR "Can't remove test case\n" ;;; ret false
                    else ret true
          end
  end.

(** One turn of the loop; the descriptor is closed when it is left. *)
Definition file_turn (random : random_generator) : M bool :=
  let! '(rtrn, file, file_extension) := get_file random in
  let! go_on :=
    (if rtrn <? 0 then write ERROR "Can't get file\n" ;;; ret false
     else let! ext := need file_extension in test_file file ext random) in
  close_fd file ;;;
  ret go_on.

Fixpoint file_loop (fuel : nat) (random : random_generator) : M unit :=
  match fuel with
  | O => spin
  | S n =>
      interrupt ;;;
      let! stop := get_file_static stop_ptr in
      let! v := load_int stop in
      if v =? FALSE then
        let! go_on := file_turn random in
        if go_on : bool then file_loop n random else ret tt
      else write STD "Exiting main loop\n"
  end.

Definition start_main_file_loop (fuel : nat) (random : random_generator) : M unit :=
  write STD "Starting fuzzer\n" ;;;
  setup_signal_handler plat ;;;
  file_loop fuel random.
End target.

(** ** What setting up leaves *)

(** Files were opened, read and closed again: what was on the heap, the file
    system, the descriptors and the static variables are as before. *)
Record opened (w w' : world) : Prop := {
  op_heap : forall l o, w_heap w !! l = Some o -> w_heap w' !! l = Some o;
  op_wf : heap_wf w -> heap_wf w';
  op_rest : w_fs w' = w_fs w /\ w_fds w' = w_fds w /\ w_modes w' = w_modes w /\ w_mods w' = w_mods w;
  op_grants : oracle_ok w -> oracle_ok w'
}.

#[export] Instance opened_preorder : PreOrder opened.
Proof.
  split; [intros w; split; [auto|auto|by split_and!|auto]|].
  intros w1 w2 w3 [] []. split; [auto|auto|intuition congruence|auto].
Qed.

Lemma opened_asked w : opened w (asked w).
Proof. split; [done|done|by split_and!|apply oracle_ok_tl]. Qed.

Lemma opened_write w t s : opened w (set_out ((t, s) :: w_out w) w).
Proof. split; [done|done|by split_and!|done]. Qed.

Lemma opened_granted w o : heap_wf w -> opened w (granted o w).
Proof.
  intros Hwf. split.
  - intros l x Hl. cbn. rewrite lookup_insert_ne; [done|]. pose proof (heap_wf_lt _ _ _ Hwf Hl). lia.
  - apply heap_wf_granted.
  - by split_and!.
  - apply oracle_ok_granted.
Qed.

(** Changing an object that was not there at the start. *)
Lemma opened_store w w' l o :
  opened w w' -> w_heap w !! l = None -> is_Some (w_heap w' !! l) ->
  opened w (set_heap (<[l := o]> (w_heap w')) w').
Proof.
  intros [Hh Hwf Hr Ho] Hn Hs. split; cbn; [|intros H; apply heap_wf_set_heap; [auto|by rewrite dom_insert_lookup_L]|done|done].
  intros l' o' Hl'. rewrite lookup_insert_ne; [auto|]. congruence.
Qed.

Lemma wp_mem_alloc_obj o w (Q : ptr -> world -> Prop) :
  sizeof o <> 0 -> (forall w', opened w w' -> ~ oracle_ok w -> Q NULL w') -> Q (Some (w_next w)) (granted o w) ->
  wp (mem_alloc o) Q w.
Proof.
  intros Hs HN HS. unfold mem_alloc. rewrite (proj2 (Z.eqb_neq _ _) Hs). unfold malloc. do 2 apply wp_bind. apply wp_answer.
  destruct (hd 0 (w_oracle w) <? 0) eqn:E.
  - apply wp_ret, wp_bind, wp_write, wp_ret. apply HN; [etrans; [apply opened_asked|apply opened_write]|].
    intros Ho. by eapply oracle_ok_refused.
  - exact HS.
Qed.

(** The context of the file at [path]. *)
Definition file_entry (h : gmap loc hobj) (path : string) (l : loc) : Prop :=
  exists ext size, h !! l = Some (OFile (MkFileCtx (Some path) (Some ext) size)).

(** What a file needs for its context: contents, and a dot in its path. *)
Definition usable (w : world) (path : string) : Prop := is_Some (w_fs w !! path) /\ is_Some (strrchr path "."%char).

(** The answer [p] of [init_file_ctx]: a new context, and [NULL] only if the
    file is not usable or something was refused. *)
Definition ctx_result (w : world) (path : string) (p : ptr) (w' : world) : Prop :=
  (forall l, p = Some l -> w_heap w !! l = None /\ file_entry (w_heap w') path l) /\
  (oracle_ok w -> usable w path -> p <> NULL).

(** The state the body leaves to the cleanup: [fd] is the descriptor to be
    closed. *)
Definition ctx_left (w : world) (path : string) (pf : ptr * Z) (w' : world) : Prop :=
  opened w (set_fds (w_fds w) w') /\ ctx_result w path pf.1 w' /\
  ((pf.2 = 0 \/ pf.2 = -1) /\ w_fds w' = w_fds w \/
   pf.2 = fresh_fd (w_fds w) /\ w_fds w' = <[fresh_fd (w_fds w) := path]> (w_fds w)).

Lemma ctx_left_failed w w' path fd t s :
  opened w w' -> fd = 0 \/ fd = -1 -> (oracle_ok w -> usable w path -> False) ->
  wp (write t s ;;; ret (NULL, fd)) (ctx_left w path) w'.
Proof.
  intros Ho Hfd Hno. apply wp_bind, wp_write, wp_ret. pose proof (op_rest _ _ Ho) as (_ & R & _).
  split_and!; [|split; [done|intros; by exfalso; auto]|by left].
  assert (E : set_fds (w_fds w) (set_out ((t, s) :: w_out w') w') = set_out ((t, s) :: w_out w') w')
    by (rewrite <- R; by destruct w').
  rewrite E. etrans; [exact Ho|apply opened_write].
Qed.

(** The last part: the file is opened and its size stored. *)
Lemma ctx_left_opened w w1 path ext l :
  opened w w1 -> w_heap w !! l = None -> is_Some (w_heap w1 !! l) ->
  wp (let! fd := open_rdonly path in
      if fd <? 0 then write ERROR "Can't open file\n" ;;; ret (NULL, fd)
      else
        let! size := get_file_size fd in
        match size with
        | None => write ERROR "Can't get file size\n" ;;; ret (NULL, fd)
        | Some size => store (Some l) (OFile (MkFileCtx (Some path) (Some ext) size)) ;;; ret (Some l, fd)
        end) (ctx_left w path) w1.
Proof.
  intros Ho Hl Hs. pose proof (op_rest _ _ Ho) as (R1 & R2 & R3 & R4).
  unfold open_rdonly. do 2 apply wp_bind. apply wp_gets. rewrite R1.
  destruct (w_fs w !! path) as [content|] eqn:Ef.
  2: { apply wp_ret. cbn [Z.ltb Z.compare]. apply ctx_left_failed; [done|by right|]. intros _ [[? Hu] _]. congruence. }
  unfold sys_open. apply wp_bind, wp_answer. destruct (hd 0 (w_oracle w1) <? 0) eqn:E1.
  { apply wp_ret. cbn [Z.ltb Z.compare]. apply ctx_left_failed; [etrans; [exact Ho|apply opened_asked]|by right|].
    intros Hok _. eapply oracle_ok_refused; [by apply (op_grants _ _ Ho)|done]. }
  apply wp_bind, wp_gets, wp_bind, wp_modify, wp_ret. cbn [w_fds asked set_oracle]. rewrite R2.
  pose proof (fresh_fd_ge (w_fds w)) as Hfd. rewrite (proj2 (Z.ltb_ge (fresh_fd _) 0)) by lia.
  set (fd := fresh_fd (w_fds w)) in *. set (w2 := set_fds _ (asked w1)).
  assert (Ho2 : opened w (set_fds (w_fds w) w2)).
  { etrans; [exact Ho|]. etrans; [apply opened_asked|]. unfold w2. rewrite <- R2. by destruct w1. }
  unfold get_file_size, fstat, ask_status. do 4 apply wp_bind. apply wp_answer, wp_ret.
  destruct (hd 0 (w_oracle w2) <? 0) eqn:E2; cbn [Z.ltb Z.compare].
  - apply wp_ret, wp_bind, wp_write, wp_ret, wp_bind, wp_write, wp_ret. split_and!; [|split; [done|]|by right].
    + etrans; [exact Ho2|]. split; [done|done|by split_and!|apply (oracle_ok_tl w2)].
    + intros Hok _ _. eapply (oracle_ok_refused w2); [exact (op_grants _ _ Ho2 Hok)|done].
  - apply wp_bind, wp_gets, wp_bind, wp_gets, wp_ret. cbn [w_fds w_fs asked set_oracle w2 set_fds].
    rewrite lookup_insert_eq. cbn [mbind option_bind]. rewrite R1, Ef. cbn [mbind option_bind]. apply wp_ret.
    apply wp_bind. eapply wp_eq; [unfold store; cbn; destruct Hs as [o Hs]; by rewrite Hs|]. apply wp_ret.
    split_and!; [|split|by right].
    + assert (Hx : opened w (set_fds (w_fds w) (asked w2))).
      { etrans; [exact Ho2|]. split; [done|done|by split_and!|apply (oracle_ok_tl w2)]. }
      exact (opened_store _ _ l _ Hx Hl Hs).
    + intros l' [= <-]. split; [done|]. do 2 eexists. apply lookup_insert_eq.
    + done.
Qed.

Lemma strrchr_nonempty s c : strrchr s c <> Some EmptyString.
Proof. induction s as [|a s IH]; [done|]. cbn. destruct (strrchr s c); [done|]. by case_match. Qed.

Lemma file_ctx_body_spec w path : heap_wf w -> wp (file_ctx_body path) (ctx_left w path) w.
Proof.
  intros Hwf. unfold file_ctx_body. apply wp_bind, wp_mem_alloc_obj; [done| |].
  { intros w' Ho Hno. apply ctx_left_failed; [done|by left|done]. }
  set (l := w_next w). assert (Hl : w_heap w !! l = None) by (apply Hwf; lia).
  pose proof (opened_granted w (OFile (MkFileCtx None None 0)) Hwf) as H1. set (w1 := granted _ w) in *.
  assert (Hs1 : is_Some (w_heap w1 !! l)) by (cbn; rewrite lookup_insert_eq; by eexists).
  unfold get_extension. apply wp_bind. destruct (strrchr path "."%char) as [[|a ext]|] eqn:Ee.
  - by apply strrchr_nonempty in Ee.
  - apply wp_bind, wp_asprintf; [intros Hno|].
    { apply wp_bind, wp_write, wp_ret. apply ctx_left_failed; [|by left|].
      - etrans; [exact H1|]. etrans; [apply opened_asked|apply opened_write].
      - intros Hok _. apply Hno. by apply (op_grants _ _ H1). }
    apply wp_ret. set (w2 := asked w1). assert (H2 : opened w w2) by (etrans; [exact H1|apply opened_asked]).
    apply wp_bind. eapply wp_eq; [unfold store; destruct Hs1 as [o Hs1]; cbn [w2 asked set_oracle w_heap]; by rewrite Hs1|].
    set (w3 := set_heap _ w2).
    assert (H3 : opened w w3) by exact (opened_store w w2 l _ H2 Hl Hs1).
    assert (Hs3 : is_Some (w_heap w3 !! l)) by (cbn; rewrite lookup_insert_eq; by eexists).
    apply wp_bind, wp_asprintf; [intros Hno|].
    { apply ctx_left_failed; [etrans; [exact H3|apply opened_asked]|by left|]. intros Hok _. apply Hno.
      by apply (op_grants _ _ H3). }
    set (w4 := asked w3). assert (H4 : opened w w4) by (etrans; [exact H3|apply opened_asked]).
    apply wp_bind. eapply wp_eq; [unfold store; destruct Hs3 as [o Hs3]; cbn [w4 asked set_oracle w_heap]; by rewrite Hs3|].
    apply ctx_left_opened; [exact (opened_store w w4 l _ H4 Hl Hs3)|done|]. cbn. rewrite lookup_insert_eq. by eexists.
  - apply wp_bind, wp_write, wp_ret. apply ctx_left_failed; [etrans; [exact H1|apply opened_write]|by left|].
    intros _ [_ [? Hu]]. congruence.
Qed.

Lemma init_file_ctx_spec w path :
  heap_wf w -> w_fds w !! (-1) = None ->
  wp (init_file_ctx (Some path)) (fun p w' => opened w w' /\ ctx_result w path p w') w.
Proof.
  intros Hwf Hm. cbn [init_file_ctx]. apply wp_bind. eapply wp_mono; [by apply file_ctx_body_spec|].
  intros [p fd] w1 (Ho & Hr & Hfd). cbn [fst snd] in *. apply wp_bind.
  assert (Hclose : forall fds, w_fds w1 = fds -> delete fd fds = w_fds w ->
    wp (sys_close fd) (fun _ w2 => wp (ret p) (fun p w' => opened w w' /\ ctx_result w path p w') w2) w1).
  { intros fds Hf Hd. split; [|done]. destruct Ho as [Hh Hw (R1 & R2 & R3 & R4) Hg]. split; cbn in *; [done|done| |done].
    split_and!; [done| |done|done]. by rewrite Hf. }
  unfold close_fd. destruct Hfd as [[[-> | ->] Hf]|[-> Hf]].
  - apply wp_ret, wp_ret. split; [|done]. assert (E : set_fds (w_fds w) w1 = w1) by (rewrite <- Hf; by destruct w1).
    by rewrite E in Ho.
  - cbn [Z.eqb]. eapply Hclose; [exact Hf|]. by apply delete_id.
  - pose proof (fresh_fd_ge (w_fds w)). rewrite (proj2 (Z.eqb_neq (fresh_fd (w_fds w)) 0)) by lia.
    eapply Hclose; [exact Hf|]. apply delete_insert_id, fresh_fd_fresh.
Qed.

(** ** Filling the array *)

Definition in_dir (dir name : string) : string := dir +:+ "/" +:+ name.

(** The array at [al] holds the contexts of the files [done], and [k] elements
    are still free; nothing else has changed since [w0]. *)
Record half_filled (w0 w : world) (al : loc) (done : list string) (k : nat) : Prop := {
  hf_array : exists ls, w_heap w !! al = Some (OPtrs (map Some ls ++ replicate k NULL)) /\
    Forall2 (file_entry (w_heap w)) done ls;
  hf_old : forall l o, l <> al -> w_heap w0 !! l = Some o -> w_heap w !! l = Some o;
  hf_wf : heap_wf w;
  hf_rest : w_fs w = w_fs w0 /\ w_fds w = w_fds w0 /\ w_modes w = w_modes w0 /\ w_mods w = w_mods w0;
  hf_grants : oracle_ok w0 -> oracle_ok w
}.

Lemma half_filled_opened w0 w w' al done k :
  half_filled w0 w al done k -> opened w w' -> half_filled w0 w' al done k.
Proof.
  intros [(ls & Ha & Hf) Ho Hwf Hr Hg] [Hh Hwf' Hr' Hg']. split; [|auto|auto|intuition congruence|auto].
  exists ls. split; [by apply Hh|]. eapply Forall2_impl; [exact Hf|]. intros path l (ext & sz & Hl). exists ext, sz. auto.
Qed.

(** A new context goes into the next element. *)
Lemma half_filled_next w0 w w' al done k path l :
  half_filled w0 w al done (S k) -> opened w w' -> w_heap w !! l = None -> file_entry (w_heap w') path l ->
  exists w'', store_elem (Some al) (Z.of_nat (length done)) (Some l) w' = Ret tt w'' /\
    half_filled w0 w'' al (done ++ [path]) k.
Proof.
  intros Hh Hop Hn Hl. pose proof (half_filled_opened _ _ _ _ _ _ Hh Hop) as [(ls & Ha & Hf) Ho Hwf Hr Hg].
  pose proof (Forall2_length _ _ _ Hf) as Hlen. destruct Hh as [(ls0 & Ha0 & _) _ _ _ _].
  eexists. split.
  - eapply store_elem_eq; [exact Ha|]. rewrite set_z_lt by (rewrite length_app, length_map, length_replicate; lia).
    rewrite Nat2Z.id, Hlen. cbn [replicate]. rewrite <- (length_map Some ls), insert_next. reflexivity.
  - assert (Hne : forall x f, w_heap w' !! x = Some (OFile f) -> x <> al) by congruence.
    assert (Hent : forall p x, file_entry (w_heap w') p x ->
      file_entry (<[al := OPtrs (map Some ls ++ Some l :: replicate k NULL)]> (w_heap w')) p x).
    { intros p x (ext & sz & Hx). exists ext, sz. rewrite lookup_insert_ne; [done|]. by apply not_eq_sym, (Hne _ _ Hx). }
    split; [| |apply heap_wf_set_heap; [done|]; rewrite dom_insert_lookup_L; [done|by eexists]|done|done].
    + exists (ls ++ [l]). cbn. rewrite lookup_insert_eq, map_app, <- app_assoc. split; [done|].
      apply Forall2_app; [|by constructor; [apply Hent|]]. eapply Forall2_impl; [exact Hf|]. intros p x. apply Hent.
    + intros x o Hx Hxo. cbn. rewrite lookup_insert_ne by done. by apply Ho.
Qed.

(** What the loop over [names] answers; when it fails it may have closed the
    directory. *)
Definition filled (w0 : world) (al : loc) (fd : Z) (dir : string) (done names : list string) (k : nat) (r : option Z)
    (w' : world) : Prop :=
  let all := done ++ map (in_dir dir) (taken_names w0 dir names) in
  (exists w1 done' k', half_filled w0 w1 al done' k' /\ (w' = w1 \/ w' = set_fds (delete fd (w_fds w1)) w1)) /\
  (forall n, r = Some n -> n = Z.of_nat (length all) /\
     half_filled w0 w' al all (k - length (taken_names w0 dir names))) /\
  (oracle_ok w0 -> names_exist w0 dir names ->
     (forall name, name ∈ taken_names w0 dir names -> usable w0 (in_dir dir name)) -> r <> None).

Lemma filled_failed w0 w1 w' al fd dir done names k done' k' :
  half_filled w0 w1 al done' k' -> w' = w1 \/ w' = set_fds (delete fd (w_fds w1)) w1 ->
  (oracle_ok w0 -> names_exist w0 dir names ->
     (forall name, name ∈ taken_names w0 dir names -> usable w0 (in_dir dir name)) -> False) ->
  filled w0 al fd dir done names k None w'.
Proof. intros Hh Hw Hno. split_and!; [by eexists _, _, _|done|intros; by exfalso; auto]. Qed.

(** A name that is skipped, and one that is taken. *)
Lemma filled_skip w0 al fd dir done name names k r w' :
  taken w0 dir name = false -> filled w0 al fd dir done names k r w' -> filled w0 al fd dir done (name :: names) k r w'.
Proof.
  intros Ht (H1 & H2 & H3). unfold filled, taken_names in *. cbn [List.filter]. rewrite Ht. split_and!; [done..|].
  intros Ho Hex Hu. apply H3; [done| |done]. intros n Hn. apply Hex. set_solver.
Qed.

Lemma filled_take w0 al fd dir done name names k r w' :
  taken w0 dir name = true -> filled w0 al fd dir (done ++ [in_dir dir name]) names k r w' ->
  filled w0 al fd dir done (name :: names) (S k) r w'.
Proof.
  intros Ht (H1 & H2 & H3). unfold filled, taken_names in *. cbn [List.filter]. rewrite Ht. split_and!; [done|..].
  - intros n Hn. destruct (H2 n Hn) as [-> H]. cbn [map]. rewrite <- app_assoc in H. cbn [app] in H.
    split; [by rewrite !length_app; cbn; lia|exact H].
  - intros Ho Hex Hu. apply H3; [done| |]. { intros n Hn. apply Hex. set_solver. }
    intros n Hn. apply Hu. set_solver.
Qed.

Lemma taken_cons_le w dir name names :
  (length (taken_names w dir names) <= length (taken_names w dir (name :: names)))%nat.
Proof. unfold taken_names. cbn [List.filter]. case_match; cbn; lia. Qed.

Lemma fill_array_spec w0 al fd dir names : forall w done k,
  half_filled w0 w al done k -> input_dir (m_file (w_mods w0)) = Some dir -> w_fds w0 !! (-1) = None ->
  (length (taken_names w0 dir names) <= k)%nat -> Z.of_nat (length done + k) < 2 ^ 32 ->
  wp (fill_array fd names (Some al) (Z.of_nat (length done))) (filled w0 al fd dir done names k) w.
Proof.
  induction names as [|name names IH]; intros w done k Hh Hdir Hfds Hk Hlt; cbn [fill_array].
  { apply wp_ret. split_and!; [by eexists w, _, _; split; [|left]| |done]. intros n [= <-]. cbn. rewrite app_nil_r, Nat.sub_0_r. done. }
  pose proof (hf_rest _ _ _ _ _ Hh) as (R1 & R2 & R3 & R4). pose proof (taken_cons_le w0 dir name names) as Hle.
  destruct (hidden name) eqn:Hhid.
  { eapply wp_mono; [apply IH; [done..|lia|done]|]. intros r w' Hf. apply filled_skip; [|done].
    unfold taken. by rewrite Hhid. }
  apply wp_bind, wp_gets. rewrite R4, Hdir. cbn [show_str default id]. fold (in_dir dir name).
  apply wp_bind, wp_asprintf; [intros Hno|].
  { apply wp_bind. eapply wp_mono; [apply closedir_spec|]. intros a w1 (-> & _ & _). apply wp_ret.
    eapply (filled_failed _ (asked (asked w))); [eapply half_filled_opened; [exact Hh|etrans; apply opened_asked]|by right|].
    intros Ho _ _. apply Hno. by apply (hf_grants _ _ _ _ _ Hh). }
  pose proof (half_filled_opened _ _ _ _ _ _ Hh (opened_asked w)) as H1. set (w1 := asked w) in *.
  unfold sys_stat. apply wp_bind, wp_bind, wp_answer. destruct (hd 0 (w_oracle w1) <? 0) eqn:E1.
  { apply wp_ret, wp_bind, wp_write, wp_ret.
    eapply filled_failed; [eapply half_filled_opened; [exact H1|etrans; [apply opened_asked|apply opened_write]]|by left|].
    intros Ho _ _. eapply (oracle_ok_refused w1); [by apply (hf_grants _ _ _ _ _ H1)|done]. }
  pose proof (half_filled_opened _ _ _ _ _ _ H1 (opened_asked w1)) as H2. set (w2 := asked w1) in *.
  apply wp_gets. assert (Hmode : mode_of w2 (in_dir dir name) = mode_of w0 (in_dir dir name)).
  { unfold mode_of. cbn [w2 w1 asked set_oracle w_modes w_fs]. by rewrite R1, R3. }
  rewrite Hmode. destruct (mode_of w0 (in_dir dir name)) as [m|] eqn:Em.
  2: { apply wp_bind, wp_write, wp_ret.
       eapply filled_failed; [eapply half_filled_opened; [exact H2|apply opened_write]|by left|].
       intros _ Hex _. destruct (Hex name ltac:(set_solver) Hhid) as [? Hx]. unfold in_dir in Em. congruence. }
  assert (Ht : taken w0 dir name = has_flag m S_IFREG) by (unfold taken, in_dir in *; by rewrite Hhid, Em).
  destruct (has_flag m S_IFREG).
  2: { eapply wp_mono; [apply IH; [done..|lia|done]|]. intros r w' Hf. by apply filled_skip. }
  assert (Hlen : length (taken_names w0 dir (name :: names)) = S (length (taken_names w0 dir names)))
    by (unfold taken_names; cbn [List.filter]; by rewrite Ht).
  destruct k as [|k]; [lia|].
  apply wp_bind. eapply wp_mono; [apply init_file_ctx_spec; [apply (hf_wf _ _ _ _ _ H2)|]|].
  { destruct (hf_rest _ _ _ _ _ H2) as (_ & -> & _). done. }
  intros [l|] w3 [Ho3 [Hres Hlive]].
  - destruct (Hres l eq_refl) as [Hfresh Hent].
    destruct (half_filled_next _ _ _ _ _ _ _ _ H2 Ho3 Hfresh Hent) as (w4 & Hst & H4).
    apply wp_bind. eapply wp_eq; [exact Hst|].
    replace (u32 (Z.of_nat (length done) + 1)) with (Z.of_nat (length (done ++ [in_dir dir name])))
      by (rewrite u32_small, length_app by lia; cbn; lia).
    eapply wp_mono; [apply IH; [done..|lia|rewrite length_app; cbn; lia]|]. intros r w' Hf. by apply filled_take.
  - pose proof (half_filled_opened _ _ _ _ _ _ H2 Ho3) as H3. destruct (hf_array _ _ _ _ _ H3) as (ls & Ha & Hf).
    pose proof (Forall2_length _ _ _ Hf) as Hl3.
    apply wp_bind. eapply wp_eq; [eapply store_elem_eq; [exact Ha|]|].
    { rewrite set_z_lt by (rewrite length_app, length_map, length_replicate; lia). reflexivity. }
    rewrite Nat2Z.id, Hl3. cbn [replicate] in Ha |- *. rewrite <- (length_map Some ls), insert_next.
    rewrite insert_id by exact Ha. replace (set_heap (w_heap w3) w3) with w3 by (by destruct w3).
    apply wp_bind, wp_write, wp_ret. eapply filled_failed; [eapply half_filled_opened; [exact H3|apply opened_write]|by left|].
    intros Ho Hex Hu. destruct (hf_rest _ _ _ _ _ H2) as (Hfs & _).
    apply Hlive; [by apply (hf_grants _ _ _ _ _ H2)| |done]. unfold usable. rewrite Hfs. apply Hu.
    unfold taken_names. cbn [List.filter]. rewrite Ht. set_solver.
Qed.

(** ** Setting up *)

(** The files of the input directory the module takes. *)
Definition corpus (w : world) (dir : string) : list string :=
  map (in_dir dir) (taken_names w dir (entries_of w dir)).

Lemma taken_listing w dir : taken_names w dir (listing w dir) = taken_names w dir (entries_of w dir).
Proof. done. Qed.

(** The array has a context for each of [files], then [spare] elements that
    were never assigned; [file_count] counts both. *)
Record corpus_ready (w : world) (files : list string) (spare : nat) : Prop := {
  cr_array : exists al ls, file_array (m_file (w_mods w)) = Some al /\
    w_heap w !! al = Some (OPtrs (map Some ls ++ replicate spare NULL)) /\ Forall2 (file_entry (w_heap w)) files ls;
  cr_count : file_count (m_file (w_mods w)) = Z.of_nat (length files + spare);
  cr_some : files <> [];
  cr_bound : Z.of_nat (length files + spare) < 2 ^ 32
}.

(** The descriptors with the one of the directory [dir] that was opened and is
    still open. *)
Definition dir_left (fds : gmap Z string) (dir : string) : gmap Z string := <[fresh_fd fds := dir]> fds.

(** What a set-up of the directory [dir] answers, when [n0] files had been
    counted before. *)
Definition set_up (w : world) (n0 : nat) (stop exec : ptr) (dir : string) (r : Z) (w' : world) : Prop :=
  (w_fs w' = w_fs w /\ w_modes w' = w_modes w /\ (w_fds w' = w_fds w \/ w_fds w' = dir_left (w_fds w) dir) /\
   forall l o, w_heap w !! l = Some o -> w_heap w' !! l = Some o) /\
  (r = 0 \/ r = -1) /\
  (r = 0 -> w_fds w' = dir_left (w_fds w) dir /\ corpus_ready w' (corpus w dir) n0 /\
     let f := m_file (w_mods w') in file_setup f = 1 /\ stop_ptr f = stop /\ path_to_exec f = exec) /\
  (oracle_ok w -> dir_exists w dir = true -> corpus w dir <> [] -> (forall path, path ∈ corpus w dir -> usable w path) ->
     r = 0).

Lemma env_step_opened w w' : env_step w w' -> (oracle_ok w -> oracle_ok w') -> opened w w'.
Proof. intros (o & x & ->) Ho. split; [done|done|by split_and!|done]. Qed.

Lemma set_up_failed w n0 stop exec dir w0 w' :
  (w_fs w0 = w_fs w /\ w_modes w0 = w_modes w /\ w_fds w0 = w_fds w /\ w_heap w0 = w_heap w) ->
  (w_fs w' = w_fs w0 /\ w_modes w' = w_modes w0 /\ (w_fds w' = w_fds w0 \/ w_fds w' = dir_left (w_fds w0) dir) /\
   forall l o, w_heap w0 !! l = Some o -> w_heap w' !! l = Some o) ->
  (oracle_ok w -> dir_exists w dir = true -> corpus w dir <> [] -> (forall path, path ∈ corpus w dir -> usable w path) ->
     False) ->
  set_up w n0 stop exec dir (-1) w'.
Proof.
  intros (E1 & E2 & E3 & E4) (F1 & F2 & F3 & F4) Hno.
  split_and!; [congruence|congruence|by rewrite <- E3| |by right|done|intros; by exfalso; auto].
  intros l o Hl. apply F4. by rewrite E4.
Qed.

Lemma same_tree_taken w w' dir names :
  w_fs w' = w_fs w -> w_modes w' = w_modes w -> taken_names w' dir names = taken_names w dir names.
Proof. intros H1 H2. unfold taken_names, taken, mode_of. by rewrite H1, H2. Qed.

Lemma same_tree_entries w w' dir :
  w_fs w' = w_fs w -> w_modes w' = w_modes w -> entries_of w' dir = entries_of w dir /\ dir_exists w' dir = dir_exists w dir.
Proof. intros H1 H2. unfold entries_of, paths, dir_exists, mode_of. by rewrite H1, H2. Qed.

(** The array of a directory in which [count] elements are enough. *)
Definition array_result (w : world) (dir : string) (n : nat) (p : ptr) (w' : world) : Prop :=
  let files := corpus w dir in
  (w_fs w' = w_fs w /\ w_modes w' = w_modes w /\ (w_fds w' = w_fds w \/ w_fds w' = dir_left (w_fds w) dir) /\
   w_mods w' = w_mods w /\ forall l o, w_heap w !! l = Some o -> w_heap w' !! l = Some o) /\
  (forall al, p = Some al -> w_fds w' = dir_left (w_fds w) dir /\ files <> [] /\ exists ls,
     w_heap w' !! al = Some (OPtrs (map Some ls ++ replicate (n - length files) NULL)) /\
     Forall2 (file_entry (w_heap w')) files ls) /\
  (oracle_ok w -> dir_exists w dir = true -> files <> [] -> (forall path, path ∈ files -> usable w path) -> p <> NULL).

Lemma init_file_array_spec w dir n :
  heap_wf w -> input_dir (m_file (w_mods w)) = Some dir -> w_fds w !! (-1) = None ->
  (length (corpus w dir) <= n)%nat -> Z.of_nat n < 2 ^ 32 ->
  wp (init_file_array dir (Z.of_nat n)) (array_result w dir n) w.
Proof.
  intros Hwf Hdir Hfds Hn Hlt. unfold init_file_array. rewrite Nat2Z.id.
  assert (Hfail : forall w', opened w w' ->
    (oracle_ok w -> dir_exists w dir = true -> corpus w dir <> [] -> (forall path, path ∈ corpus w dir -> usable w path) ->
       False) -> array_result w dir n NULL w').
  { intros w' [Hh _ (R1 & R2 & R3 & R4) _] Hno. split_and!; [done|done|by left|done|done|done|intros; by exfalso; auto]. }
  destruct (decide (n = 0%nat)) as [->|Hn0].
  { apply wp_bind. unfold mem_alloc. cbn [replicate sizeof length Z.of_nat Z.mul Z.eqb].
    apply wp_bind, wp_write, wp_ret, wp_bind, wp_write, wp_ret. apply Hfail; [etrans; apply opened_write|].
    intros _ _ Hne _. destruct (corpus w dir); [done|cbn in Hn; lia]. }
  apply wp_bind, wp_mem_alloc_obj; [cbn; rewrite length_replicate; lia| |].
  { intros w' Ho Hno. apply wp_bind, wp_write, wp_ret. apply Hfail; [etrans; [exact Ho|apply opened_write]|done]. }
  set (al := w_next w). assert (Hal : w_heap w !! al = None) by (apply Hwf; lia).
  pose proof (opened_granted w (OPtrs (replicate n NULL)) Hwf) as H1. set (w1 := granted _ w) in *.
  apply wp_bind. eapply wp_mono; [apply opendir_spec|]. intros d w2 [(-> & -> & Hno)|(-> & Hd & _ & ->)].
  { apply wp_bind, wp_write, wp_ret.
    apply Hfail; [etrans; [exact H1|]; etrans; [apply opened_asked|apply opened_write]|].
    intros Ho Hd _ _. change (dir_exists w1 dir) with (dir_exists w dir) in Hno.
    by rewrite (Hno (op_grants _ _ H1 Ho)) in Hd. }
  change (dir_exists w1 dir) with (dir_exists w dir) in Hd. change (listing w1 dir) with (listing w dir).
  change (w_fds w1) with (w_fds w). set (fd := fresh_fd (w_fds w)). set (w2 := set_fds _ (asked w1)).
  assert (Hh : half_filled w2 w2 al [] n).
  { split; [|done|exact (heap_wf_granted w _ Hwf)|by split_and!|done]. exists []. split; [apply lookup_insert_eq|constructor]. }
  assert (Hk : (length (taken_names w2 dir (listing w dir)) <= n)%nat).
  { unfold corpus in Hn. rewrite length_map in Hn. exact Hn. }
  assert (Hfds2 : w_fds w2 !! (-1) = None).
  { cbn. pose proof (fresh_fd_ge (w_fds w)). rewrite lookup_insert_ne by lia. exact Hfds. }
  apply wp_bind. eapply wp_mono; [exact (fill_array_spec w2 al fd dir (listing w dir) w2 [] n Hh Hdir Hfds2 Hk Hlt)|].
  intros r w3 ((w3' & done' & k' & Hx & Hw3) & Hr & Hlive). destruct Hx as [_ Hold _ (R1 & R2 & R3 & R4) _].
  assert (Hrest : w_fs w3 = w_fs w /\ w_modes w3 = w_modes w /\ (w_fds w3 = w_fds w \/ w_fds w3 = dir_left (w_fds w) dir) /\
    w_mods w3 = w_mods w /\ forall l o, w_heap w !! l = Some o -> w_heap w3 !! l = Some o).
  { assert (Hhp : forall l o, w_heap w !! l = Some o -> w_heap w3' !! l = Some o).
    { intros l o Hl. apply Hold; [congruence|]. by apply (op_heap _ _ H1). }
    destruct Hw3 as [-> | ->]; cbn; split_and!; try done.
    - by right.
    - left. rewrite R2. apply delete_insert_id, fresh_fd_fresh. }
  assert (Hok2 : oracle_ok w -> oracle_ok w2) by (intros Ho; exact (oracle_ok_tl w1 (op_grants _ _ H1 Ho))).
  assert (Hno : r = None -> oracle_ok w -> (forall path, path ∈ corpus w dir -> usable w path) -> False).
  { intros -> Ho Hu. refine (Hlive (Hok2 Ho) (listing_exist w dir) _ eq_refl). intros name Hname.
    apply Hu. unfold corpus. apply list_elem_of_fmap. by exists name. }
  destruct r as [i|].
  - destruct (Hr i eq_refl) as [-> Hfull]. cbn [app] in *. change (taken_names w2 dir (listing w dir))
      with (taken_names w dir (entries_of w dir)) in *. fold (corpus w dir) in *.
    destruct (Z.eqb_spec (Z.of_nat (length (corpus w dir))) 0) as [E0|E0].
    + assert (Hnil : corpus w dir = []) by (destruct (corpus w dir); [done|cbn in E0; lia]).
      apply wp_bind, wp_write, wp_ret. split_and!; [apply Hrest..|done|]. intros _ _ Hne. by rewrite Hnil in Hne.
    + apply wp_ret. split_and!; [apply Hrest..| |done]. intros al' [= <-].
      split; [by destruct (hf_rest _ _ _ _ _ Hfull) as (_ & -> & _)|].
      split; [by destruct (corpus w dir)|]. destruct (hf_array _ _ _ _ _ Hfull) as (ls & Ha & Hf). exists ls.
      unfold corpus in *. rewrite length_map in *. done.
  - apply wp_ret. split_and!; [apply Hrest..|done|]. intros Ho _ _ Hu. by exfalso; apply Hno.
Qed.

Lemma setup_file_spec w n0 stop exec dir :
  heap_wf w -> w_fds w !! (-1) = None -> file_count (m_file (w_mods w)) = Z.of_nat n0 ->
  Z.of_nat (length (corpus w dir) + n0) < 2 ^ 32 ->
  wp (setup_file_module stop exec dir) (set_up w n0 stop exec dir) w.
Proof.
  intros Hwf Hfds Hc Hlt. unfold setup_file_module. apply wp_bind, wp_modify, wp_bind, wp_modify, wp_bind, wp_gets.
  set (w1 := set_mods _ _). change (file_count (m_file (w_mods w1))) with (file_count (m_file (w_mods w))). rewrite Hc.
  apply wp_bind. eapply wp_mono; [apply (count_files_spec w1 dir); lia|]. intros [rc c] w2 (He & Hrc & Hcount & Hlive).
  cbn [fst snd] in *. apply wp_bind, wp_modify. set (w3 := set_mods _ w2).
  assert (E3 : w_fs w3 = w_fs w /\ w_modes w3 = w_modes w /\ w_fds w3 = w_fds w /\ w_heap w3 = w_heap w /\
    w_next w3 = w_next w).
  { destruct He as (o & x & ->). by split_and!. }
  destruct E3 as (F1 & F2 & F3 & F4 & F5).
  assert (Hcorpus : corpus w3 dir = corpus w dir).
  { unfold corpus. rewrite (same_tree_taken w w3) by done. by destruct (same_tree_entries w w3 dir F1 F2) as [-> _]. }
  destruct Hrc as [-> | ->]; cbn [Z.ltb Z.compare].
  2: { apply wp_bind, wp_write, wp_ret. eapply (set_up_failed _ _ _ _ _ w3); [done|split_and!; [done|done|by left|done]|].
       intros Ho Hd _ _. by destruct (Hlive Ho Hd). }
  destruct (Hcount eq_refl) as [Hd Hcc]. change (length (taken_names w1 dir (entries_of w1 dir)))
    with (length (taken_names w dir (entries_of w dir))) in Hcc.
  assert (Hcn : c = Z.of_nat (length (corpus w dir) + n0)).
  { rewrite Hcc. unfold corpus. rewrite length_map. unfold corpus in Hlt. rewrite length_map in Hlt. rewrite u32_small; lia. }
  rewrite Hcn. assert (Hwf3 : heap_wf w3) by (intros l Hl; rewrite F4; apply Hwf; by rewrite <- F5).
  assert (Hm3 : m_file (w_mods w3) = set_file_count c (m_file (w_mods w1))) by (by destruct He as (o & x & ->)).
  apply wp_bind. eapply wp_mono.
  { apply init_file_array_spec; [done|by rewrite Hm3|by rewrite F3|rewrite Hcorpus; lia|done]. }
  intros p w4 ((G1 & G2 & G3 & G4 & G5) & Hsome & Hnone). rewrite Hcorpus in *. apply wp_bind, wp_modify.
  destruct p as [al|].
  - apply wp_bind, wp_modify, wp_bind, wp_modify, wp_ret. destruct (Hsome al eq_refl) as (Hleft & Hne & ls & Ha & Hf). rewrite F3 in *.
    split_and!; cbn; [congruence|congruence|done|intros l o Hl; apply G5; by rewrite F4|by left| |done].
    intros _. split; [done|]. split; [|by rewrite G4, Hm3]. split; [|by rewrite G4, Hm3|done|done]. exists al, ls.
    split_and!; [done| |done]. by replace (length (corpus w dir) + n0 - length (corpus w dir))%nat with n0 in Ha by lia.
  - apply wp_bind, wp_write, wp_ret. eapply (set_up_failed _ _ _ _ _ w3); [done|done|]. intros Ho _ Hne Hu.
    refine (Hnone _ _ Hne _ eq_refl).
    + by apply (Hlive Ho).
    + by destruct (same_tree_entries w w3 dir F1 F2) as [_ ->].
    + intros path Hp. unfold usable. rewrite F1. by apply Hu.
Qed.

(** (C19) The first set-up of the module returns 0 or -1 and changes no file.
    After 0 the array has exactly one context for every visible regular file of
    the input directory, in the order of the directory, and [file_count] is the
    length of the array; the descriptors are those from before and one more,
    that of the input directory, which is never closed (after -1 it may be
    open or closed).  The answer is 0 whenever the environment grants what it
    is asked for and the directory has files, all of them with a dot in their
    path. *)
Theorem setup_file_module_correct w stop exec dir :
  heap_wf w -> w_fds w !! (-1) = None -> file_count (m_file (w_mods w)) = 0 ->
  Z.of_nat (length (corpus w dir)) < 2 ^ 32 ->
  exists r w', setup_file_module stop exec dir w = Ret r w' /\ set_up w 0 stop exec dir r w'.
Proof. intros Hwf Hfds Hc Hlt. apply wp_run, setup_file_spec; [done..|lia]. Qed.

(** ** Picking a file of the corpus *)

(** An element of the array leads to the context of its file; an element that
    was never assigned leads nowhere. *)
Lemma corpus_pick w w' files spare n :
  corpus_ready w files spare -> w_heap w' = w_heap w -> 0 <= n ->
  match files !! Z.to_nat n with
  | Some path => exists p ext size, load_elem (file_array (m_file (w_mods w))) n w' = Ret (Some p) w' /\
      w_heap w' !! p = Some (OFile (MkFileCtx (Some path) (Some ext) size))
  | None => forall A (k : ptr -> file_ctx -> M A),
      (let! p := load_elem (file_array (m_file (w_mods w))) n in let! f := load_file p in k p f) w' = Crash
  end.
Proof.
  intros [(al & ls & -> & Hal & Hf) _ _ _] Hw' Hn. pose proof (Forall2_length _ _ _ Hf) as Hlen.
  destruct (Z_of_nat_complete n Hn) as [i ->]. rewrite Nat2Z.id.
  destruct (files !! i) as [path|] eqn:Hp.
  - destruct (Forall2_lookup_l _ _ _ _ _ Hf Hp) as (p & Hpl & ext & size & Hent). exists p, ext, size.
    split; [|by rewrite Hw']. eapply load_elem_eq; [by rewrite Hw'|].
    rewrite nth_z_nat, lookup_app_l by (rewrite length_map; by eapply lookup_lt_Some).
    etrans; [apply list_lookup_fmap|by rewrite Hpl].
  - intros A k. apply lookup_ge_None in Hp. unfold load_elem. rewrite bind_assoc.
    erewrite bind_eq by (apply load_ptrs_eq; by rewrite Hw'). rewrite nth_z_nat, lookup_app_r by (rewrite length_map; lia).
    destruct (_ !! (i - _)%nat) as [q|] eqn:E; [|done].
    apply lookup_replicate in E as [-> _]. by erewrite bind_eq by reflexivity.
Qed.

Lemma env_step_parts w w' :
  env_step w w' -> w_heap w' = w_heap w /\ w_mods w' = w_mods w /\ w_fs w' = w_fs w /\ w_fds w' = w_fds w /\
    w_modes w' = w_modes w /\ w_next w' = w_next w.
Proof. by intros (o & x & ->). Qed.

(** What [get_file] answers. *)
Definition picked (w : world) (files : list string) (r fd : Z) (ext : option string) (w' : world) : Prop :=
  w_heap w' = w_heap w /\ w_next w' = w_next w /\ w_fs w' = w_fs w /\ w_modes w' = w_modes w /\ w_mods w' = w_mods w /\
  (r = 0 \/ r = -1) /\
  (r = 0 -> exists path e, path ∈ files /\ is_Some (w_fs w !! path) /\ ext = Some e /\ fd = fresh_fd (w_fds w) /\
     w_fds w' = <[fd := path]> (w_fds w)) /\
  (r = -1 -> (fd = 0 \/ fd = -1) /\ w_fds w' = w_fds w \/
     exists path, fd = fresh_fd (w_fds w) /\ w_fds w' = <[fd := path]> (w_fds w)).

Lemma picked_failed w w' files fd t s :
  (fd = 0 \/ fd = -1) /\ w_fds w' = w_fds w \/ (exists path, fd = fresh_fd (w_fds w) /\ w_fds w' = <[fd := path]> (w_fds w)) ->
  w_heap w' = w_heap w /\ w_next w' = w_next w /\ w_fs w' = w_fs w /\ w_modes w' = w_modes w /\ w_mods w' = w_mods w ->
  wp (write t s ;;; ret (-1, fd, None)) (fun rfe w' => picked w files rfe.1.1 rfe.1.2 rfe.2 w') w'.
Proof.
  intros Hfd (H1 & H2 & H3 & H4 & H5). apply wp_bind, wp_write, wp_ret. split_and!; [done..|by right|done|done].
Qed.

Lemma get_file_spec random `{!RandomLaws random} w files :
  corpus_ready w files 0 ->
  wp (get_file random) (fun rfe w' => picked w files rfe.1.1 rfe.1.2 rfe.2 w') w.
Proof.
  intros Hr. pose proof Hr as [_ Hc Hne Hlt]. rewrite Nat.add_0_r in *.
  assert (Hpos : (0 < length files)%nat) by (destruct files; [done|cbn; lia]).
  unfold get_file. apply wp_bind, wp_gets. rewrite Hc, u32_small by lia.
  destruct (call_range_law (Z.of_nat (length files) - 1) w ltac:(lia)) as (r & w1 & Hrun & He & Hbound).
  apply wp_bind. eapply wp_eq; [exact Hrun|]. apply env_step_parts in He as (E1 & E2 & E3 & E4 & E5 & E6).
  destruct r as [n|]; [|by apply picked_failed; [left; split; [left|]|split_and!]].
  specialize (Hbound n eq_refl). apply wp_bind, wp_gets. rewrite E2.
  pose proof (corpus_pick w w1 files 0 n Hr E1 ltac:(lia)) as Hp.
  destruct (files !! Z.to_nat n) as [path|] eqn:Hpath; [|apply lookup_ge_None in Hpath; lia].
  destruct Hp as (p & ext & size & Hload & Hent). apply wp_bind. eapply wp_eq; [exact Hload|].
  assert (Hlf : forall w2, w_heap w2 = w_heap w1 -> load_file (Some p) w2 = Ret (MkFileCtx (Some path) (Some ext) size) w2).
  { intros w2 H2. unfold load_file. by erewrite bind_eq by (apply load_eq; rewrite H2; exact Hent). }
  apply wp_bind. eapply wp_eq; [by apply Hlf|]. apply wp_bind, wp_ret.
  assert (Hin : path ∈ files) by (by eapply list_elem_of_lookup_2).
  unfold open_rdwr, open_rdonly. do 2 apply wp_bind. apply wp_gets. rewrite E3.
  destruct (w_fs w !! path) as [content|] eqn:Ef.
  2: { apply wp_ret. cbn [Z.ltb Z.compare]. by apply picked_failed; [left; split; [right|]|split_and!]. }
  unfold sys_open. apply wp_bind, wp_ask. intros a. case_match.
  { apply wp_ret. cbn [Z.ltb Z.compare]. by apply picked_failed; [left; split; [right|]|split_and!]. }
  apply wp_bind, wp_gets, wp_bind, wp_modify, wp_ret. cbn [w_fds asked set_oracle]. rewrite E4.
  pose proof (fresh_fd_ge (w_fds w)) as Hfd. rewrite (proj2 (Z.ltb_ge (fresh_fd _) 0)) by lia.
  apply wp_bind. eapply wp_eq; [by apply Hlf|]. apply wp_bind, wp_ret. apply wp_bind, wp_asprintf.
  - intros _. apply picked_failed; [right; by exists path|by split_and!].
  - apply wp_ret. split_and!; [done..|by left| |done]. intros _. exists path, ext. by split_and!.
Qed.

(** (C24) With an array every element of which is assigned and a generator that
    keeps its promise, [get_file] never goes wrong: it fails with -1, or opens
    a file of the corpus and answers its descriptor and extension.  Files,
    heap and static variables are as before. *)
Theorem get_file_in_corpus random `{!RandomLaws random} w files :
  corpus_ready w files 0 ->
  exists r fd ext w', get_file random w = Ret (r, fd, ext) w' /\ picked w files r fd ext w'.
Proof.
  intros Hr. destruct (wp_run _ _ _ (get_file_spec random w files Hr)) as ([[r fd] ext] & w' & Hrun & Hp).
  by exists r, fd, ext, w'.
Qed.

(** Setting up a second time adds to [file_count], so that the new array has
    elements that are never assigned; drawing one of them is undefined. *)
Theorem repeated_setup_overruns w n0 stop exec dir random w' n w1 :
  heap_wf w -> w_fds w !! (-1) = None -> file_count (m_file (w_mods w)) = Z.of_nat n0 ->
  Z.of_nat (length (corpus w dir) + n0) < 2 ^ 32 ->
  setup_file_module stop exec dir w = Ret 0 w' ->
  call_range random (file_count (m_file (w_mods w')) - 1) w' = Ret (Some n) w1 -> env_step w' w1 ->
  Z.of_nat (length (corpus w dir)) <= n ->
  get_file random w' = Crash.
Proof.
  intros Hwf Hfds Hc Hlt Hrun Hdraw He Hn.
  destruct (wp_run _ _ _ (setup_file_spec w n0 stop exec dir Hwf Hfds Hc Hlt)) as (r & w2 & Hrun2 & _ & _ & H0 & _).
  rewrite Hrun in Hrun2. injection Hrun2 as <- <-. destruct (H0 eq_refl) as (_ & Hr & _). pose proof Hr as [_ Hcount Hne _].
  assert (0 < length (corpus w dir))%nat by (destruct (corpus w dir); [done|cbn; lia]).
  unfold get_file. erewrite bind_eq by reflexivity. rewrite u32_small by lia. erewrite bind_eq by exact Hdraw.
  apply env_step_parts in He as (E1 & E2 & _). erewrite bind_eq by reflexivity. rewrite E2.
  pose proof (corpus_pick w' w1 _ n0 n Hr E1 ltac:(lia)) as Hp.
  rewrite lookup_ge_None_2 in Hp by lia. apply Hp.
Qed.
