(* ===== verification/FileLoop.v ===== *)
(** * FileLoop: what the loop of the file fuzzer does to the file system

    On Linux, where [run_test_case] is empty, and on macOS, where the
    workspace runs the target, with the plugin module of Plugins.v, which knows
    no file, and an environment that grants everything it is asked for.  A turn maps
    the chosen file with [MAP_SHARED] and mutates the mapping, so it is the
    input file itself that changes; the test case in /tmp is removed again. *)

From S2P Require Import Prelude Types CWorld Io Memory Concurrent Realloc Crypto Utils Dirs Network Resource Mutate Plugins.
From S2P Require Import ArgTypes EntriesFreebsd EntriesMac EntriesLinux SetTest Child Signals Log File.

(** ** Answers *)

(** [m] leaves an environment that grants everything a granting one. *)
Definition grants {A} (m : M A) : Prop := forall w a w', m w = Ret a w' -> oracle_ok w -> oracle_ok w'.

Lemma grants_bind {A B} (m : M A) (k : A -> M B) : grants m -> (forall a, grants (k a)) -> grants (bind m k).
Proof.
  intros Hm Hk w b w'. unfold bind. destruct (m w) as [a w1| | | |] eqn:E; try done. intros Hb Ho.
  eapply Hk; [exact Hb|]. by eapply Hm.
Qed.
Lemma grants_keeps {A} (m : M A) : keeps w_oracle m -> grants m.
Proof. intros Hm w a w' E Ho. unfold oracle_ok. by rewrite (Hm _ _ _ E). Qed.
Lemma grants_ret {A} (a : A) : grants (ret a).
Proof. by intros w ? ? [= <- <-]. Qed.
Lemma grants_crash {A} : grants (@crash A).
Proof. done. Qed.
Lemma grants_need {A} (o : option A) : grants (need o).
Proof. destruct o; [apply grants_ret|apply grants_crash]. Qed.
Lemma grants_write t s : grants (write t s).
Proof. by intros w ? ? [= <- <-]. Qed.
Lemma grants_gets {A} (g : world -> A) : grants (gets g).
Proof. by intros w ? ? [= <- <-]. Qed.
Lemma grants_load p : grants (load p).
Proof. intros w a w'. unfold load. repeat case_match; try done. by intros [= <- <-]. Qed.

Create HintDb grants.
#[export] Hint Resolve grants_bind grants_ret grants_crash grants_need grants_write grants_gets grants_load : grants.

Lemma grants_load_byte p off : grants (load_byte p off).
Proof. apply grants_bind; [apply grants_load|]. intros o; destruct o; repeat case_match; eauto 6 with grants. Qed.

Lemma grants_store p o : grants (store p o).
Proof. intros w a w'. unfold store. repeat case_match; try done. by intros [= <- <-]. Qed.

Lemma grants_store_at p off new : grants (store_at p off new).
Proof.
  apply grants_bind.
  - apply grants_bind; [apply grants_load|]. intros o. destruct o; auto with grants.
  - intros bs. apply grants_bind; [apply grants_need|]. intros bs'. apply grants_store.
Qed.

Lemma grants_store_byte p off v : grants (store_byte p off v).
Proof.
  apply grants_bind; [apply grants_load|]. intros o; destruct o; repeat case_match;
    eauto 6 using grants_store_at with grants.
  do 3 (apply grants_bind; [auto with grants|intros ?]). by intros w ? ? [= <- <-].
Qed.
#[export] Hint Resolve grants_load_byte grants_store_byte : grants.

(** A generator whose draws leave a granting environment granting. *)
Class GrantLaws (random : random_generator) : Prop := {
  call_range_grants : forall bound, grants (call_range random bound)
}.

Lemma grants_ask : grants ask.
Proof. intros w a w' [= _ <-]. apply oracle_ok_tl. Qed.
#[export] Hint Resolve grants_ask : grants.

Ltac grant := repeat first [apply call_range_grants | progress auto with grants | apply grants_bind; [|intros ?] | case_match].

#[export] Instance default_generator_grants : GrantLaws default_generator.
Proof.
  split. intros bound. change (grants (default_rand_range bound)).
  unfold default_rand_range, BN_new, BN_set_word, BN_rand_range, BN_bn2dec, printf. grant.
Qed.

Section turns.
Context (SHA256 : list Z -> list Z) (PATH_MAX : Z) (P : plugins) (plat : platform) (random : random_generator).
Context (HH : forall s, length (SHA256 s) = 32%nat /\ Forall is_byte (SHA256 s)) (Hmax : 0 < PATH_MAX < 2 ^ 31).
Context (HP : forall ext w, Mutate.supported_file P ext w = Ret None w).
Context (Hplat : plat <> FREEBSD) `{!RandomLaws random} `{!GrantLaws random}.

Lemma grants_mutate p ext size : grants (mutate_file P p ext size random).
Proof.
  intros w a w'. unfold mutate_file. erewrite bind_eq by apply HP. revert w a w'.
  change (grants (let! rtrn := mutate_file_randomly p size random in
    if rtrn <? 0 then write ERROR "Can't mutate file randomly\n" ;;; ret (-1) else ret 0)).
  unfold mutate_file_randomly. apply grants_bind; [|intros r; grant]. apply grants_bind; [apply call_range_grants|].
  intros [n|]; [|grant]. destruct (nth_z mutator_array n) as [f|] eqn:E; [|done].
  apply nth_z_bound in E as [_ E].
  assert (f = flip_byte_mutator \/ f = flip_bit_mutator \/ f = xor_mutator) as [->|[->| ->]].
  { apply list_elem_of_lookup_2 in E. set_solver. }
  - change (grants (flip_byte_mutator p size random)). unfold flip_byte_mutator. grant.
  - change (grants (flip_bit_mutator p size random)). unfold flip_bit_mutator. grant.
  - change (grants (xor_mutator p size random)). apply grants_ret.
Qed.

Lemma length_mutated c c' : mutated c c' -> length c' = length c.
Proof. intros [->|(n & b & _ & [->|(bit & _ & ->)])]; by rewrite ?length_insert. Qed.

(** The world a turn leaves: nothing but answers, messages, events, the file
    [path] and the file system below /tmp has changed. *)
Record only_files (w w' : world) : Prop := {
  of_heap : w_heap w' = w_heap w;
  of_next : (w_next w <= w_next w')%positive;
  of_fds : w_fds w' = w_fds w;
  of_modes : w_modes w' = w_modes w;
  of_mods : w_mods w' = w_mods w;
  of_grants : oracle_ok w'
}.

(** Below /tmp there are plain files only. *)
Definition tmp_clear (w : world) : Prop := forall p, below "/tmp" p -> w_modes w !! p = None.

(** What [test_file] answers on the file at [path] with contents [content] that
    [fd] is open for. *)
Definition tested (w : world) (fd : Z) (path : string) (content : list Z) (o : outcome bool) : Prop :=
  let size := Z.of_nat (length content) in
  match o with
  | Ret true w' => exists content' tmp, mutated content content' /\ below "/tmp" tmp /\
      w_fs w' = delete tmp (<[path := content']> (w_fs w)) /\ only_files w w'
  | Ret false w' => w_fs w' = w_fs w /\ w_fds w' = w_fds w
  | Crash => exists buf w1, map_file_in fd (Z.lor READ WRITE) w = Ret (Some (buf, size)) w1 /\
      overdrawn random (Mapped path) size w1
  | _ => False
  end.

Lemma unlink_plain w path :
  oracle_ok w -> w_modes w !! path = None -> is_Some (w_fs w !! path) ->
  unlink path w = Ret 0 (drop_path path (asked w)).
Proof.
  intros Ho Hm [c Hf]. unfold unlink, bind, ask, gets. rewrite oracle_ok_hd by done.
  unfold mode_of. cbn [w_modes w_fs set_oracle]. by rewrite Hm, Hf.
Qed.

(** macOS needs the path of a target. *)
Definition exec_ready (w : world) : Prop :=
  plat = MAC_OS -> is_Some (string_at (w_heap w) (path_to_exec (m_file (w_mods w)))).

Lemma run_test_case_ok exec_path tmp ext w :
  oracle_ok w -> (plat = MAC_OS -> is_Some (string_at (w_heap w) exec_path)) ->
  exists o, run_test_case SHA256 PATH_MAX plat exec_path tmp ext w = Ret 0 (set_oracle o w) /\ oracle_ok (set_oracle o w).
Proof.
  intros Ho He. destruct plat; [done| |].
  - destruct He as [path Hp]; [done|]. exists (tl (w_oracle w)). split; [|by apply oracle_ok_tl].
    cbn [run_test_case]. unfold run_test_case_mac. by erewrite bind_eq by (by rewrite load_string_run, Hp).
  - exists (w_oracle w). split; [by destruct w|done].
Qed.

Lemma write_test_case w path content l ext :
  oracle_ok w -> heap_wf w -> tmp_clear w -> exec_ready w -> ~ below "/tmp" path -> content <> [] ->
  file_at (Mapped path) w l content ->
  let size := Z.of_nat (length content) in
  exists w' tmp, (let! '(rtrn, file_name) := generate_name SHA256 PATH_MAX (Some ext) FILE_NAME in
     if rtrn <? 0 then write ERROR "Can't generate random file name\n" ;;; ret false
     else
       let! file_path := asprintf ("/tmp/" +:+ show_str file_name) in
       match file_path with
       | None => write ERROR "Can't create out path\n" ;;; ret false
       | Some file_path =>
           let! rtrn := map_file_out file_path (Some l) size in
           if rtrn <? 0 then write ERROR "Can't write file to disk\n" ;;; ret false
           else
             let! rtrn := log_file (Some file_path) (Some ext) in
             if rtrn <? 0 then write ERROR "Can't log file generated\n" ;;; ret false
             else
               let! exec_path := get_file_static path_to_exec in
               let! rtrn := run_test_case SHA256 PATH_MAX plat exec_path file_path (Some ext) in
               if rtrn <? 0 then write ERROR "Can't test exec with file\n" ;;; ret false
               else
                 let! _ := mem_free_shared (Some l) size in
                 let! rtrn := unlink file_path in
                 if rtrn <? 0 then write ERROR "Can't remove test case\n" ;;; ret false
                 else ret true
       end) w = Ret true w' /\ below "/tmp" tmp /\ w_fs w' = delete tmp (w_fs w) /\
    w_heap w' = delete l (w_heap w) /\ (w_next w <= w_next w')%positive /\ w_fds w' = w_fds w /\
    w_modes w' = w_modes w /\ w_mods w' = w_mods w /\ oracle_ok w'.
Proof.
  intros Ho Hwf Hclear Hexec Hout Hne [Hl Hf] size.
  assert (Hpos : 0 < size) by (unfold size; destruct content; [done|cbn; lia]).
  destruct (generate_name_ok SHA256 PATH_MAX w ext HH Hmax Ho Hwf) as (digest & o & n & _ & Hpos1 & Hn & Hname).
  erewrite bind_eq by exact Hname. cbv beta iota. cbn [Z.ltb Z.compare show_str default id].
  set (tmp := "/tmp/" +:+ _). set (w1 := set_next n _). assert (Ho1 : oracle_ok w1) by exact Hpos1.
  erewrite bind_eq by (by apply asprintf_ok). cbv beta iota.
  assert (Htmp : below "/tmp" tmp) by (by eexists).
  assert (Hwf1 : heap_wf (asked w1)) by (intros x Hx; apply Hwf; cbn in Hx; lia).
  destruct (map_file_out_ok (asked w1) tmp (Some l) size content) as (w2 & Hrun & Ho2 & Hh2 & Hfd2 & Hfs2 & Hn2 & Hm2 & Hs2).
  - exact (oracle_ok_tl _ Ho1).
  - done.
  - done.
  - done.
  - intros w' Hh' Hq. unfold buffer_bytes. erewrite bind_eq.
    2: { apply load_eq. rewrite Hh', lookup_insert_ne; [exact Hl|]. pose proof (heap_wf_lt _ _ _ Hwf Hl). cbn. lia. }
    cbv beta iota. rewrite Z.ltb_irrefl. erewrite bind_eq by reflexivity. cbv beta.
    rewrite Hq by (intros ->; done). cbn [w_fs w1 asked set_oracle set_next]. rewrite Hf. erewrite bind_eq by reflexivity.
    unfold size. rewrite Nat2Z.id, decide_True, take_ge by lia. done.
  - erewrite bind_eq by exact Hrun. cbn [Z.ltb Z.compare]. do 2 (erewrite bind_eq by reflexivity; cbn [Z.ltb Z.compare]).
    destruct (run_test_case_ok (path_to_exec (m_file (w_mods w2))) tmp (Some ext) w2 Ho2) as (o2 & Hcase & Ho3);
      [by rewrite Hs2, Hh2|].
    erewrite bind_eq by exact Hcase. cbn [Z.ltb Z.compare].
    unfold mem_free_shared. rewrite bind_assoc.
    erewrite bind_eq by (eapply munmap_eq; [cbn; rewrite Hh2; exact Hl|done|lia]). erewrite bind_eq by reflexivity.
    erewrite bind_eq.
    2: { apply unlink_plain; [done|cbn; rewrite Hm2; by apply Hclear|]. cbn. rewrite Hfs2, lookup_insert_eq. by eexists. }
    eexists _, tmp. split; [reflexivity|]. cbn. rewrite Hh2, Hfd2, Hfs2, Hm2, Hs2.
    split_and!; [done|by rewrite delete_insert_eq|done|cbn in Hn2; lia|done| |done|exact (oracle_ok_tl _ Ho3)].
    apply delete_id. by apply Hclear.
Qed.
Lemma test_file_spec w fd path content ext :
  oracle_ok w -> heap_wf w -> tmp_clear w -> exec_ready w -> ~ below "/tmp" path -> content <> [] ->
  Z.of_nat (length content) < 2 ^ 32 -> w_fds w !! fd = Some path -> w_fs w !! path = Some content ->
  tested w fd path content (test_file SHA256 PATH_MAX P plat fd ext random w).
Proof.
  intros Ho Hwf Hclear Hexec Hout Hne Hlt Hfd Hf. unfold test_file.
  pose proof (map_file_in_ok w fd path content (Z.lor READ WRITE) Ho Hne Hfd Hf) as Hmap.
  erewrite bind_eq by exact Hmap. cbv beta iota.
  set (l := w_next w). set (w1 := granted _ _). change (Z.lor READ WRITE) with 3 in w1.
  assert (Ho1 : oracle_ok w1) by (do 2 apply oracle_ok_tl; done).
  assert (Hl1 : file_at (Mapped path) w1 l content) by (split; [apply lookup_insert_eq|done]).
  pose proof (mutate_file_spec random P ext (Mapped path) l content w1 Hlt Hl1 (HP ext w1)) as Hm.
  pose proof (grants_mutate (Some l) ext (Z.of_nat (length content)) w1) as Hg. unfold bind at 1.
  destruct (mutate_file _ _ _ _ _ w1) as [r w2| | | |]; [|by eexists _, _|done..].
  destruct Hm as (_ & content' & we & He & -> & Hres). specialize (Hg r _ eq_refl Ho1).
  apply env_step_parts in He as (E1 & E2 & E3 & E4 & E5 & E6).
  destruct Hres as [[-> Hmut]|[-> ->]]; cbn [Z.ltb Z.compare].
  - set (w2 := file_set _ _ _ we) in *.
    assert (Hh2 : w_heap w2 = <[l := OMap path (Z.of_nat (length content)) 3]> (w_heap w)) by exact E1.
    pose proof (length_mutated _ _ Hmut) as Hlen.
    destruct (write_test_case w2 path content' l ext) as (w3 & tmp & Hrun & Htmp & F1 & F2 & F3 & F4 & F5 & F6 & F7).
    + done.
    + intros x Hx. rewrite Hh2. cbn [w_next w2 file_set set_fs] in Hx. rewrite E6 in Hx. cbn in Hx.
      rewrite lookup_insert_ne by (unfold l; lia). apply Hwf. lia.
    + intros p Hp. cbn [w_modes w2 file_set set_fs]. rewrite E5. by apply Hclear.
    + assert (Em : w_mods w2 = w_mods w) by exact E2. unfold exec_ready. rewrite Em, Hh2.
      intros Hp. destruct (Hexec Hp) as [e He]. exists e.
      eapply string_at_mono; [|exact He]. apply insert_subseteq, Hwf. lia.
    + done.
    + intros ->. by destruct content.
    + split; [rewrite Hh2, lookup_insert_eq; by rewrite Hlen|apply lookup_insert_eq].
    + rewrite Hlen in Hrun. rewrite Hrun. exists content', tmp. split_and!; [done|done| |split].
      * rewrite F1. cbn [w_fs w2 file_set set_fs]. by rewrite E3.
      * rewrite F2, Hh2. apply delete_insert_id, Hwf. lia.
      * cbn [w_next w2 file_set set_fs] in F3. rewrite E6 in F3. cbn in F3. lia.
      * rewrite F4. exact E4.
      * rewrite F5. exact E5.
      * rewrite F6. exact E2.
      * exact F7.
  - split; [|exact E4]. cbn. rewrite E3. apply insert_id. exact Hf.
Qed.

(** ** A turn *)

Lemma grants_get_file : grants (get_file random).
Proof.
  unfold get_file, get_file_static, get_mods, load_elem, load_ptrs, load_file, open_rdwr, open_rdonly, sys_open, asprintf.
  grant. by intros w x w' [= <- <-].
Qed.

(** The invariant of the loop: the array of contexts, the stop flag and the
    descriptors are in order, every file of the corpus has as many bytes as at
    the start, and no file outside the corpus and /tmp has changed. *)
Record loop_inv (w0 : world) (files : list string) (w : world) : Prop := {
  li_grants : oracle_ok w;
  li_wf : heap_wf w;
  li_corpus : corpus_ready w files 0;
  li_stop : exists s z, stop_ptr (m_file (w_mods w)) = Some s /\ w_heap w !! s = Some (OInt z);
  li_fds : w_fds w = w_fds w0 /\ w_fds w0 !! (-1) = None;
  li_tmp : tmp_clear w;
  li_exec : exec_ready w;
  li_inputs : forall path, path ∈ files -> ~ below "/tmp" path /\ exists c c', w_fs w0 !! path = Some c /\
    w_fs w !! path = Some c' /\ length c' = length c /\ c <> [] /\ Z.of_nat (length c) < 2 ^ 32;
  li_others : forall p, p ∉ files -> ~ below "/tmp" p -> w_fs w !! p = w_fs w0 !! p
}.

(** What is left of it when the loop has ended. *)
Definition confined (w0 : world) (files : list string) (w : world) : Prop :=
  w_fds w = w_fds w0 /\
  (forall p, p ∉ files -> ~ below "/tmp" p -> w_fs w !! p = w_fs w0 !! p) /\
  (forall p, p ∈ files -> exists c c', w_fs w0 !! p = Some c /\ w_fs w !! p = Some c' /\ length c' = length c).

Lemma loop_inv_confined w0 files w w' :
  loop_inv w0 files w -> w_fs w' = w_fs w -> w_fds w' = w_fds w0 -> confined w0 files w'.
Proof.
  intros Hi Hf Hd. split_and!; [done|by rewrite Hf; apply Hi|]. intros p Hp. rewrite Hf.
  destruct (li_inputs _ _ _ Hi p Hp) as (_ & c & c' & ? & ? & ? & _). by exists c, c'.
Qed.

(** What a turn from [w] on comes to when it goes wrong: [get_file] opened the
    file [path] of the corpus, the file was mapped, and the mutation drew the
    file's size as the offset, with nothing behind the mapping. *)
Definition turn_overdrawn (files : list string) (w : world) : Prop :=
  exists fd ext path c wa buf wb, get_file random w = Ret (0, fd, Some ext) wa /\ path ∈ files /\
    w_fds wa !! fd = Some path /\ w_fs wa !! path = Some c /\
    map_file_in fd (Z.lor READ WRITE) wa = Ret (Some (buf, Z.of_nat (length c))) wb /\
    overdrawn random (Mapped path) (Z.of_nat (length c)) wb.

Definition turn_result (w0 : world) (files : list string) (w : world) (o : outcome bool) : Prop :=
  match o with
  | Ret true w' => loop_inv w0 files w'
  | Ret false w' => confined w0 files w'
  | Crash => turn_overdrawn files w
  | _ => False
  end.

Lemma close_fd_eq fd w :
  exists w', close_fd fd w = Ret tt w' /\ w_fds w' = (if fd =? 0 then w_fds w else delete fd (w_fds w)) /\
    w_heap w' = w_heap w /\ w_fs w' = w_fs w /\ w_modes w' = w_modes w /\ w_mods w' = w_mods w /\
    w_next w' = w_next w /\ w_oracle w' = w_oracle w.
Proof. unfold close_fd. destruct (fd =? 0); eexists; (split; [reflexivity|]); by split_and!. Qed.

(** Replacing a file of the corpus by one of the same length, and losing a
    file below /tmp, keeps the invariant. *)
Lemma loop_inv_tested w0 files w w' path c' content' tmp :
  loop_inv w0 files w -> path ∈ files -> w_fs w !! path = Some c' -> length content' = length c' -> below "/tmp" tmp ->
  w_fs w' = delete tmp (<[path := content']> (w_fs w)) -> w_heap w' = w_heap w -> (w_next w <= w_next w')%positive ->
  w_fds w' = w_fds w0 -> w_modes w' = w_modes w -> w_mods w' = w_mods w -> oracle_ok w' -> loop_inv w0 files w'.
Proof.
  intros [Hg Hwf [Ha Hc Hn Hb] (s & z & Hs & Hz) [Hd Hd0] Ht He Hi Ho] Hin Hf Hlen Htmp Ef Eh En Ed Em Es Eo.
  assert (Hne : forall p, ~ below "/tmp" p -> tmp <> p) by (intros p Hp ->; done).
  split.
  - done.
  - intros l Hl. rewrite Eh. apply Hwf. lia.
  - split; rewrite ?Es, ?Eh; done.
  - exists s, z. by rewrite Es, Eh.
  - done.
  - intros p Hp. rewrite Em. by apply Ht.
  - unfold exec_ready. by rewrite Es, Eh.
  - intros p Hp. destruct (Hi p Hp) as (Hb' & c1 & c2 & H1 & H2 & H3 & H4 & H5). split; [done|].
    rewrite Ef, lookup_delete_ne by auto. destruct (decide (p = path)) as [->|Hpp].
    + exists c1, content'. rewrite lookup_insert_eq. assert (c2 = c') as -> by congruence. split_and!; [done|done|lia|done|done].
    + exists c1, c2. by rewrite lookup_insert_ne by done.
  - intros p Hp Hb'. rewrite Ef, lookup_delete_ne by auto. rewrite lookup_insert_ne by (intros ->; done). by apply Ho.
Qed.

Lemma file_turn_spec w0 files w :
  loop_inv w0 files w -> turn_result w0 files w (file_turn SHA256 PATH_MAX P plat random w).
Proof.
  intros Hi. pose proof Hi as [Hg Hwf Hc _ [Hd Hd0] Ht He Hin _].
  destruct (wp_run _ _ _ (get_file_spec random w files Hc)) as ([[r fd] ext] & w1 & Hrun & Hp). cbn [fst snd] in Hp.
  pose proof (grants_get_file w _ w1 Hrun Hg) as Hg1.
  destruct Hp as (E1 & E2 & E3 & E4 & E5 & Hr & Hok & Hbad).
  unfold file_turn. erewrite bind_eq by exact Hrun. cbv beta iota.
  destruct Hr as [-> | ->]; cbn [Z.ltb Z.compare].
  - destruct (Hok eq_refl) as (path & e & Hpath & Hex & -> & -> & Hfds). cbn [need]. unfold bind at 1 2, ret at 1.
    destruct (Hin path Hpath) as (Hb & c & c' & H1 & H2 & H3 & H4 & H5).
    assert (Htest : tested w1 (fresh_fd (w_fds w)) path c' (test_file SHA256 PATH_MAX P plat (fresh_fd (w_fds w)) e random w1)).
    { apply test_file_spec; [done| | | |done| |lia|rewrite Hfds; apply lookup_insert_eq|by rewrite E3].
      - intros l Hl. rewrite E1. apply Hwf. by rewrite <- E2.
      - intros p Hp. rewrite E4. by apply Ht.
      - unfold exec_ready. by rewrite E5, E1.
      - intros ->. by destruct c. }
    assert (Hclose : forall w2, w_fds w2 = w_fds w1 -> exists w3, close_fd (fresh_fd (w_fds w)) w2 = Ret tt w3 /\
      w_fds w3 = w_fds w /\ w_heap w3 = w_heap w2 /\ w_fs w3 = w_fs w2 /\ w_modes w3 = w_modes w2 /\
      w_mods w3 = w_mods w2 /\ w_next w3 = w_next w2 /\ w_oracle w3 = w_oracle w2).
    { intros w2 Hw2. destruct (close_fd_eq (fresh_fd (w_fds w)) w2) as (w3 & C1 & C2 & C3). exists w3.
      split; [done|]. split; [|done]. pose proof (fresh_fd_ge (w_fds w)).
      rewrite C2, (proj2 (Z.eqb_neq _ 0)), Hw2, Hfds by lia. apply delete_insert_id, fresh_fd_fresh. }
    destruct (test_file _ _ _ _ _ _ _ w1) as [[] w2| | | |]; cbn in Htest; [| | |done..].
    + destruct Htest as (content' & tmp & Hmut & Htmp & Hfs & [F1 F2 F3 F4 F5 F6]).
      destruct (Hclose w2 F3) as (w3 & C1 & C2 & C3 & C4 & C5 & C6 & C7 & C8). unfold bind. rewrite C1. cbn.
      eapply (loop_inv_tested w0 files w w3 path c' content' tmp);
        [done|done|done|by apply length_mutated|done|by rewrite C4, Hfs, E3|congruence|rewrite C7; lia|congruence|congruence|
         congruence|unfold oracle_ok; by rewrite C8].
    + destruct Htest as [Hfs Hfd]. destruct (Hclose w2 Hfd) as (w3 & C1 & C2 & C3 & C4 & _). unfold bind. rewrite C1. cbn.
      eapply loop_inv_confined; [exact Hi|congruence|congruence].
    + destruct Htest as (buf & wb & Hmap & Hdraw). exists (fresh_fd (w_fds w)), e, path, c', w1, buf, wb.
      split_and!; [done|done|rewrite Hfds; apply lookup_insert_eq|by rewrite E3|done|done].
  - destruct (close_fd_eq fd (set_out ((ERROR, "Can't get file\n"%string) :: w_out w1) w1))
      as (w3 & C1 & C2 & C3 & C4 & C5 & C6 & C7 & C8).
    erewrite bind_eq by reflexivity. erewrite bind_eq by exact C1. cbn.
    eapply loop_inv_confined; [exact Hi|by rewrite C4|]. rewrite C2, <- Hd. cbn [w_fds set_out].
    destruct (Hbad eq_refl) as [[[-> | ->] Hfd]|(path & -> & Hfd)].
    + done.
    + cbn [Z.eqb]. rewrite Hfd. apply delete_id. by rewrite Hd.
    + pose proof (fresh_fd_ge (w_fds w)). rewrite (proj2 (Z.eqb_neq _ 0)), Hfd by lia. apply delete_insert_id, fresh_fd_fresh.
Qed.

(** ** The loop *)

(** A turn is begun: after the signal that may have arrived the stop flag is
    clear. *)
Definition begins_turn (w w1 : world) : Prop :=
  interrupt w = Ret tt w1 /\
  exists s, stop_ptr (m_file (w_mods w1)) = Some s /\ w_heap w1 !! s = Some (OInt FALSE).

(** The worlds at the head of the loop, one complete turn after the other. *)
Inductive turns : world -> world -> Prop :=
| turns_none w : turns w w
| turns_more w w1 w2 w3 :
    begins_turn w w1 -> file_turn SHA256 PATH_MAX P plat random w1 = Ret true w2 -> turns w2 w3 -> turns w w3.

(** The loop goes wrong in a turn that it comes to from [w]. *)
Definition loop_overdrawn (files : list string) (w : world) : Prop :=
  exists w1 w2, turns w w1 /\ begins_turn w1 w2 /\ turn_overdrawn files w2.

Definition loop_result (w0 : world) (files : list string) (w : world) (o : outcome unit) : Prop :=
  match o with
  | Ret _ w' => confined w0 files w'
  | Spin => True
  | Crash => loop_overdrawn files w
  | _ => False
  end.

Lemma loop_inv_stop w0 files w w' s z z' :
  loop_inv w0 files w -> stop_ptr (m_file (w_mods w)) = Some s -> w_heap w !! s = Some (OInt z) ->
  w' = set_heap (<[s := OInt z']> (w_heap w)) (asked w) \/ w' = asked w -> loop_inv w0 files w'.
Proof.
  intros [Hg Hwf [(al & ls & A1 & A2 & A3) Hc Hn Hb] Hst Hd Ht He Hi Ho] Hs Hz [-> | ->].
  - split; try done; try exact (oracle_ok_tl _ Hg).
    + apply heap_wf_set_heap; [exact Hwf|]. cbn. rewrite dom_insert_lookup_L; [done|by eexists].
    + split; [|done..]. exists al, ls. cbn. split_and!; [done|rewrite lookup_insert_ne by congruence; done|].
      eapply Forall2_impl; [exact A3|]. intros path l (ext & sz & Hl). exists ext, sz. rewrite lookup_insert_ne by congruence. done.
    + exists s, z'. split; [done|]. apply lookup_insert_eq.
    + intros Hp. destruct (He Hp) as [e Hx]. exists e. by eapply string_at_insert.
  - split; try done; try exact (oracle_ok_tl _ Hg). by split; [exists al, ls|..].
Qed.

Lemma file_loop_spec fuel : forall w0 files w,
  loop_inv w0 files w -> loop_result w0 files w (file_loop SHA256 PATH_MAX P plat fuel random w).
Proof.
  induction fuel as [|n IH]; intros w0 files w Hi; [done|]. cbn [file_loop].
  pose proof (li_stop _ _ _ Hi) as (s & z & Hs & Hz).
  assert (Hint : exists w1 z1, interrupt w = Ret tt w1 /\ loop_inv w0 files w1 /\
    stop_ptr (m_file (w_mods w1)) = Some s /\ w_heap w1 !! s = Some (OInt z1)).
  { unfold interrupt. destruct (hd 0 (w_oracle w) =? 0) eqn:E.
    - exists (asked w), z. split; [by erewrite bind_eq by reflexivity; rewrite E|].
      split; [|done]. apply (loop_inv_stop w0 files w _ s z z); [done..|by right].
    - exists (set_heap (<[s := OInt TRUE]> (w_heap w)) (asked w)), TRUE.
      split; [|split; [apply (loop_inv_stop w0 files w _ s z TRUE); [done..|by left]|split; [done|apply lookup_insert_eq]]].
      erewrite bind_eq by reflexivity. rewrite E. unfold File.ctrlc_handler. erewrite bind_eq by reflexivity.
      cbn [w_mods asked set_oracle]. rewrite Hs. exact (cas_loop_int32_alone 0 (asked w) s z TRUE Hz). }
  destruct Hint as (w1 & z1 & Hrun & Hi1 & Hs1 & Hz1). erewrite bind_eq by exact Hrun.
  erewrite bind_eq by reflexivity. rewrite Hs1. erewrite bind_eq by (by apply load_int_eq).
  destruct (Z.eqb_spec z1 FALSE) as [->|_].
  - assert (Hb : begins_turn w w1) by (split; [done|by exists s]).
    pose proof (file_turn_spec w0 files w1 Hi1) as Ht. unfold bind.
    destruct (file_turn SHA256 PATH_MAX P plat random w1) as [[] w2| | | |] eqn:Et; [|done|by exists w, w1; split_and!; [constructor|..]|done..].
    pose proof (IH w0 files w2 Ht) as Hn. destruct (file_loop _ _ _ _ _ _ w2); try done.
    destruct Hn as (wa & wb & H1 & H2). exists wa, wb. split; [by eapply turns_more|done].
  - cbn. eapply loop_inv_confined; [exact Hi1|done|apply Hi1].
Qed.
End turns.

(** (C15) The loop of the file fuzzer on Linux and macOS, for any number of turns,
    with an environment that grants what it is asked for and input files of
    less than 2^32 bytes that do not lie in /tmp: apart from test cases below
    /tmp it changes only the input files, in place, each of which keeps its
    length; it leaves every descriptor closed; and it goes wrong only if this
    very run, after some complete turns, opens and maps an input file whose
    length is a multiple of the page size and draws that length as the offset
    of a flip. *)
Theorem file_loop_confined SHA256 PATH_MAX plat random `{!RandomLaws random} `{!GrantLaws random} fuel files w :
  (forall s, length (SHA256 s) = 32%nat /\ Forall is_byte (SHA256 s)) -> 0 < PATH_MAX < 2 ^ 31 ->
  plat <> FREEBSD -> loop_inv plat w files w ->
  match start_main_file_loop SHA256 PATH_MAX module_plugins plat fuel random w with
  | Ret _ w' => confined w files w'
  | Spin => True
  | Crash => exists w1, setup_signal_handler plat (set_out ((STD, "Starting fuzzer\n"%string) :: w_out w) w) = Ret tt w1 /\
      loop_overdrawn SHA256 PATH_MAX module_plugins plat random files w1
  | _ => False
  end.
Proof.
  intros HH Hmax Hplat [Hg Hwf [Ha Hn Hb Hl] Hs Hd Ht He Hi Ho]. unfold start_main_file_loop, File.setup_signal_handler.
  erewrite bind_eq by reflexivity. erewrite bind_eq by reflexivity.
  match goal with |- context [file_loop _ _ _ _ _ _ ?w1] => set (w' := w1) end.
  pose proof (file_loop_spec SHA256 PATH_MAX module_plugins plat random HH Hmax (fun _ _ => eq_refl) Hplat fuel w files w') as Hloop.
  assert (Hi' : loop_inv plat w files w') by (by split). specialize (Hloop Hi').
  destruct (file_loop _ _ _ _ _ _ w'); try done. by exists w'.
Qed.

(** ** One file of two bytes *)

Definition corpus_world (oracle : list Z) : world :=
  set_mods (set_m_file (MkFileStatics (Some 1%positive) (Some 4%positive) 0 (Some 2%positive) 1
      (Some "/in"%string) 1) initial_mods)
    (set_fs (list_to_map [("/in/a.txt"%string, [65; 66])]) (set_modes (list_to_map [("/in"%string, 16893)])
      (set_next 5%positive (set_heap (list_to_map
        [ (1%positive, OInt 0); (2%positive, OPtrs [Some 3%positive]); (4%positive, text_of "/bin/cat");
          (3%positive, OFile (MkFileCtx (Some "/in/a.txt"%string) (Some "txt"%string) 2)) ]) (fresh_world oracle []))))).

Lemma corpus_world_ready oracle : corpus_ready (corpus_world oracle) ["/in/a.txt"%string] 0.
Proof.
  split; [|done|done|done]. exists 2%positive, [3%positive]. split_and!; [done|done|].
  constructor; [|constructor]. by eexists _, _.
Qed.

Lemma not_below_tmp : ~ below "/tmp" "/in/a.txt".
Proof. intros [s Hs]. discriminate. Qed.

Lemma corpus_world_inv plat oracle :
  Forall (fun a => 0 <= a) oracle -> loop_inv plat (corpus_world oracle) ["/in/a.txt"%string] (corpus_world oracle).
Proof.
  intros Ho. split; try done.
  - intros l Hl. cbn in *. rewrite !lookup_insert_ne by lia. apply lookup_empty.
  - apply corpus_world_ready.
  - by exists 1%positive, 0.
  - intros p [s ->]. cbn. rewrite lookup_insert_ne by discriminate. apply lookup_empty.
  - intros _. by eexists.
  - intros path Hp. apply list_elem_of_singleton in Hp as ->. split; [apply not_below_tmp|]. by exists [65; 66], [65; 66].
Qed.

(** A turn, then SIGINT: the input file itself has changed. *)
Definition interrupted : list Z := replicate 20 0 ++ replicate 30 1.

Lemma constant_digest : forall s : list Z, length (replicate 32 7) = 32%nat /\ Forall is_byte (replicate 32 7).
Proof. intros _. split; [done|]. apply Forall_replicate. unfold is_byte. lia. Qed.

Lemma file_loop_confined_witness :
  exists w', start_main_file_loop (fun _ => replicate 32 7) 4 module_plugins MAC_OS 2 default_generator
      (corpus_world interrupted) = Ret tt w' /\
    confined (corpus_world interrupted) ["/in/a.txt"%string] w' /\ w_fs w' !! "/in/a.txt"%string = Some [190; 66].
Proof.
  eassert (Hrun : start_main_file_loop (fun _ => replicate 32 7) 4 module_plugins MAC_OS 2 default_generator
    (corpus_world interrupted) = Ret tt _) by (vm_compute; reflexivity).
  pose proof (file_loop_confined (fun _ => replicate 32 7) 4 MAC_OS default_generator 2 ["/in/a.txt"%string]
    (corpus_world interrupted) constant_digest (conj eq_refl eq_refl) ltac:(discriminate)
    (corpus_world_inv MAC_OS interrupted ltac:(repeat constructor; lia))) as H.
  rewrite Hrun in H. eexists. split; [exact Hrun|]. split; [exact H|vm_compute; reflexivity].
Defined.

(** An input directory with one file. *)
Definition input_world (oracle : list Z) : world :=
  set_fs (list_to_map [("/in/a.txt"%string, [65; 66])]) (set_modes (list_to_map [("/in"%string, 16893)])
    (fresh_world oracle [])).

Lemma setup_file_module_correct_witness :
  exists w', setup_file_module NULL NULL "/in" (input_world []) = Ret 0 w' /\
    corpus_ready w' ["/in/a.txt"%string] 0.
Proof.
  destruct (setup_file_module_correct (input_world []) NULL NULL "/in" (fun l _ => lookup_empty l) eq_refl eq_refl eq_refl)
    as (r & w' & Hrun & _ & Hr & H0 & _).
  assert (r = 0) as ->. { destruct Hr as [Hr | ->]; [exact Hr|]. vm_compute in Hrun. discriminate. }
  exists w'. split; [exact Hrun|]. by destruct (H0 eq_refl) as (_ & ? & _).
Defined.

Lemma get_file_in_corpus_witness :
  exists r fd ext w', get_file default_generator (corpus_world []) = Ret (r, fd, ext) w' /\
    picked (corpus_world []) ["/in/a.txt"%string] r fd ext w'.
Proof. exact (get_file_in_corpus default_generator (corpus_world []) ["/in/a.txt"%string] (corpus_world_ready [])). Defined.

(** After a second set-up the array has two elements, one of them assigned. *)
Definition counted_world : world :=
  set_mods (set_m_file (MkFileStatics NULL NULL 0 NULL 1 None 1) initial_mods) (input_world []).

Lemma repeated_setup_overruns_witness :
  exists w', setup_file_module NULL NULL "/in" counted_world = Ret 0 w' /\ get_file (constant_generator 1 0) w' = Crash.
Proof.
  eassert (Hrun : setup_file_module NULL NULL "/in" counted_world = Ret 0 _) by (vm_compute; reflexivity).
  eexists. split; [exact Hrun|].
  refine (repeated_setup_overruns counted_world 1 NULL NULL "/in" (constant_generator 1 0) _ 1 _ (fun l _ => lookup_empty l)
    eq_refl eq_refl eq_refl Hrun eq_refl (env_step_refl _) _). vm_compute. discriminate.
Defined.
