(* ===== verification/Probe.v ===== *)
(** * Probe: probes in the target program (probe/probe.c and its three platform files)

    The kernel probes are empty functions (Syscall.v).  Here are the ones for
    a target program: dtrace probes, and a target that is started stopped.
    Nothing calls them yet.  dtrace, the Mach task ports and [ptrace] belong to the
    system: each call asks the environment for its answer.

    [pid], a static variable of probe-mac.c and of probe-freebsd.c, and
    [*target_pid], which the caller provides, are passed along. *)

From stdpp Require Import pretty.
From S2P Require Import Prelude Types CWorld Io Memory Utils Child Signals Syscall File.

(** ** probe.c *)

(** struct probe_ctx: the two handles dtrace answers. *)
Record probe_ctx := MkProbeCtx { dtrace_handle : option Z; prog : option Z }.

(** A handle of dtrace, or NULL. *)
Definition dtrace_answer : M (option Z) :=
  let! a := ask in ret (if a <? 0 then None else Some a).

(** [ctx] is the static variable, NULL unless something sets it; the script
    names the process. *)
Definition inject_probes (plat : platform) (pid : Z) (ctx : option probe_ctx) : M (Z * option probe_ctx) :=
  match plat with
  | LINUX => ret (0, ctx)
  | _ =>
      printf "Injecting probes\n" ;;;
      let! dtrace_prog := asprintf ("pid" +:+ pretty pid +:+ ":::") in
      match dtrace_prog with
      | None => printf "Can't create probe program string\n" ;;; ret (-1, ctx)
      | Some _ =>
          let! h := dtrace_answer in
          match ctx with
          | None => crash
          | Some c =>
              let c := MkProbeCtx h (prog c) in
              match h with
              | None => write ERROR "failed to initialize dtrace: %s\n" ;;; ret (-1, Some c)
              | Some _ =>
                  let! _ := ask in
                  let! _ := ask in
                  let! p := dtrace_answer in
                  let c := MkProbeCtx h p in
                  match p with
                  | None => printf "Failed to compile dtrace program\n" ;;; ret (-1, Some c)
                  | Some _ =>
                      let! rtrn := ask_status in
                      if rtrn <? 0 then printf "Failed to enable dtrace probes\n" ;;; ret (-1, Some c)
                      else
                        let! rtrn := ask_status in
                        if rtrn <? 0 then printf "Can't start probes\n" ;;; ret (-1, Some c)
                        else ret (0, Some c)
                  end
              end
          end
      end
  end.

(** The new value of the static [target_path], and the return value. *)
Definition setup_probe_module (exec_path : option string) (target_path : option string) : M (Z * option string) :=
  ret (0, exec_path).

(** ** A target that is started stopped *)

Record probe_st := MkProbeSt { pid : Z; target_pid : Z }.

(** *** macOS *)

Definition KERN_SUCCESS : Z := 0.

(** [args] is an array of two null pointers. *)
Definition start_target (path : string) (st : probe_st) : M (Z * probe_st) :=
  let! own := ask in
  let st := MkProbeSt own (target_pid st) in
  let! rtrn := drop_privileges in
  if rtrn <? 0 then printf "Can't drop privileges\n" ;;; ret (-1, st)
  else
    let! rtrn := execv path [] in
    if rtrn <? 0 then printf "execv: %d\n" ;;; ret (-1, st) else ret (0, st).

Definition pause_target (target : Z) : M Z :=
  let! kr := ask in
  if negb (kr =? KERN_SUCCESS) then write ERROR "Can't get target task port\n" ;;; ret (-1)
  else
    let! kr := ask in
    if negb (kr =? KERN_SUCCESS) then write ERROR "Can't suspend target process\n" ;;; ret (-1) else ret 0.

Definition start_and_pause_target_mac (path : string) (st : probe_st) : M (Z * probe_st) :=
  let! child := fork in
  let st := MkProbeSt child (target_pid st) in
  if child =? 0 then
    let! '(rtrn, st) := start_target path st in
    if rtrn <? 0 then printf "Can't start target process\n" ;;; ret (-1, st) else exit 0
  else if 0 <? child then
    let! rtrn := pause_target child in
    if rtrn <? 0 then printf "Can't pause target process\n" ;;; ret (-1, st)
    else ret (0, MkProbeSt child child)
  else printf "Can't start and pause target process\n" ;;; ret (-1, st).

Definition inject_fork_server_mac (main_address : Z) : M Z :=
  let! kr := ask in
  if negb (kr =? KERN_SUCCESS) then write ERROR "Can't get target task port\n" ;;; ret (-1) else ret 0.

(** *** FreeBSD *)

(** The macros of sys/wait.h on FreeBSD; a continued process reports 19. *)
Definition WIFCONTINUED (status : Z) : bool := status =? 19.
Definition WIFSTOPPED (status : Z) : bool := Z.land status 127 =? 127.
Definition WIFSIGNALED_fb (status : Z) : bool :=
  negb (WIFSTOPPED status) && negb (WIFEXITED status) && negb (WIFCONTINUED status).

(** [wait4] or [waitpid] with [status] set to zero before. *)
Definition wait_status : M Z :=
  let! r := ask in
  if r <? 0 then ret 0 else ask.

(** The three tests both functions make. *)
Definition not_stopped (status : Z) : M bool :=
  if WIFCONTINUED status then output ERROR "The process we are testing is continuing?\n" ;;; ret true
  else if WIFEXITED status then output ERROR "The process we are testing has exited prematurely\n" ;;; ret true
  else if WIFSIGNALED_fb status then output ERROR "The process we are testing has exited due to a signal\n" ;;; ret true
  else ret false.

(** When [execv] fails the error number is printed as a string. *)
Definition start_and_pause_target_freebsd (exec_path : string) (st : probe_st) : M (Z * probe_st) :=
  let! child := fork in
  let st := MkProbeSt (pid st) child in
  if child =? 0 then
    let! own := ask in
    let st := MkProbeSt (pid st) own in
    let! rtrn := drop_privileges in
    if rtrn <? 0 then output ERROR "Can't drop privileges\n" ;;; ret (-1, st)
    else
      let! _ := ask in
      let! rtrn := execv exec_path ["blah"] in
      if rtrn <? 0 then crash else exit 0
  else if 0 <? child then
    let! status := wait_status in
    let! bad := not_stopped status in
    if bad then ret (-1, st)
    else if WIFSTOPPED status then ret (0, MkProbeSt (target_pid st) (target_pid st))
    else ret (-1, st)
  else ret (0, MkProbeSt (target_pid st) (target_pid st)).

Definition inject_fork_server_freebsd (main_address : Z) : M Z :=
  output STD "Creating fork server\n" ;;;
  let! _ := ask in
  let! status := wait_status in
  let! bad := not_stopped status in
  if bad then ret (-1)
  else
    let! _ := ask in
    printf "rax: Ox%lx\n" ;;;
    ret 0.

(** *** Linux *)

Definition start_and_pause_target_linux (exec_path : string) (st : probe_st) : M (Z * probe_st) := ret (0, st).
Definition inject_fork_server_linux (main_address : Z) : M Z := ret 0.

(** ** What they answer *)

(** The tests leave exactly the stopped processes: the code behind them that
    must not be reached is not. *)
Lemma stopped_or_not status :
  WIFCONTINUED status || WIFEXITED status || WIFSIGNALED_fb status = negb (WIFSTOPPED status).
Proof.
  unfold WIFSIGNALED_fb. destruct (WIFCONTINUED status) eqn:Hc.
  - apply Z.eqb_eq in Hc as ->. done.
  - destruct (WIFEXITED status) eqn:He.
    + unfold WIFEXITED in He. apply Z.eqb_eq in He. unfold WIFSTOPPED. by rewrite He.
    + by destruct (WIFSTOPPED status).
Qed.

Lemma not_stopped_run status w :
  exists w', not_stopped status w = Ret (negb (WIFSTOPPED status)) w' /\ env_step w w'.
Proof.
  rewrite <- stopped_or_not. unfold not_stopped.
  destruct (WIFCONTINUED status), (WIFEXITED status), (WIFSIGNALED_fb status); cbn [orb];
    eexists; (split; [reflexivity|]); apply env_write || apply env_step_refl.
Qed.

Lemma drop_privileges_run w : exists r w', drop_privileges w = Ret r w'.
Proof.
  assert (Hwp : wp drop_privileges (fun _ _ => True) w).
  { unfold drop_privileges, ask_status. apply wp_bind, wp_bind, wp_ask. intros a. apply wp_ret.
    destruct (_ <? 0); [by apply wp_bind, wp_write, wp_ret|]. apply wp_bind, wp_bind, wp_ask. intros b. apply wp_ret.
    destruct (_ <? 0); [by apply wp_bind, wp_write, wp_ret|]. by apply wp_ret. }
  apply wp_run in Hwp as (r & w' & Hrun & _). eauto.
Qed.

(** What the parent is told of the process it waits for. *)
Definition told (w : world) : Z :=
  match w_oracle w with r :: s :: _ => if r <? 0 then 0 else s | _ => 0 end.

Lemma wait_status_run w : exists w', wait_status w = Ret (told w) w' /\ env_step w w'.
Proof.
  unfold wait_status, told. erewrite bind_eq by reflexivity. destruct (w_oracle w) as [|r [|s rest]] eqn:E; cbn [hd].
  - eexists. split; [reflexivity|]. eexists _, (w_out w); reflexivity.
  - destruct (r <? 0); (eexists; split; [reflexivity|]); by exists [], (w_out w).
  - destruct (r <? 0); (eexists; split; [reflexivity|]); [by exists (s :: rest), (w_out w)|by exists rest, (w_out w)].
Qed.

(** On FreeBSD the parent's [start_and_pause_target] succeeds, and both
    the caller and the module learn the process id, exactly when the process it
    waited for is reported stopped; continued, exited and killed processes
    (and a failed wait) give -1 and leave the module's process id alone.  When
    [fork] fails there is no such check: the call succeeds with the process id
    -1.  The child never gets past [execv]: it becomes the target, comes back
    with -1 (it could not drop its privileges), or crashes on the message for
    a failed [execv]. *)
Theorem start_and_pause_outcomes path st w :
  let child := hd 0 (w_oracle w) in
  let run := start_and_pause_target_freebsd path st w in
  if child <? 0 then exists w', run = Ret (0, MkProbeSt child child) w'
  else if 0 <? child then
    exists w', run = Ret (if WIFSTOPPED (told (asked w)) then (0, MkProbeSt child child)
                          else (-1, MkProbeSt (pid st) child)) w'
  else run = Crash \/ (exists w', run = Exit 0 w' /\ EvExec path ["blah"] ∈ w_events w') \/
    exists own w', run = Ret (-1, MkProbeSt (pid st) own) w'.
Proof.
  cbv zeta. set (child := hd 0 (w_oracle w)). unfold start_and_pause_target_freebsd, fork. rewrite bind_assoc.
  erewrite bind_eq by reflexivity. erewrite bind_eq by reflexivity.
  set (w1 := set_oracle _ _). change (hd 0 (w_oracle _)) with child. cbv zeta.
  assert (Htold : told w1 = told (asked w)) by done.
  destruct (Z.ltb_spec child 0); [|destruct (Z.ltb_spec 0 child)].
  - rewrite (proj2 (Z.eqb_neq child 0)), (proj2 (Z.ltb_ge 0 child)) by lia. by eexists.
  - rewrite (proj2 (Z.eqb_neq child 0)) by lia. destruct (wait_status_run w1) as (w2 & R2 & _).
    erewrite bind_eq by exact R2. rewrite Htold. destruct (not_stopped_run (told (asked w)) w2) as (w3 & R3 & _).
    erewrite bind_eq by exact R3. exists w3. by destruct (WIFSTOPPED (told (asked w))).
  - assert (child = 0) as -> by lia. cbn [Z.eqb]. erewrite bind_eq by reflexivity.
    destruct (drop_privileges_run (asked w1)) as (r & w2 & R2). erewrite bind_eq by exact R2.
    destruct (r <? 0); [right; right; by do 2 eexists|]. erewrite bind_eq by reflexivity.
    unfold execv. rewrite bind_assoc. erewrite bind_eq by reflexivity.
    destruct (_ <? 0); [left; by erewrite bind_eq by reflexivity|]. right. left.
    eexists. split; [reflexivity|]. cbn. by left.
Qed.

(** Outside Linux the probes need a context that nothing provides. *)
Theorem inject_probes_no_context plat target w :
  plat <> LINUX -> 0 <= hd 0 (w_oracle w) -> inject_probes plat target None w = Crash.
Proof.
  intros Hp Ha. destruct plat; [| |done]; unfold inject_probes, asprintf, dtrace_answer.
  all: erewrite bind_eq by reflexivity; rewrite bind_assoc; erewrite bind_eq by reflexivity.
  all: erewrite bind_eq by reflexivity; cbn [w_oracle set_out]; rewrite (proj2 (Z.ltb_ge _ 0)) by done.
  all: rewrite bind_assoc; erewrite bind_eq by reflexivity; erewrite bind_eq by reflexivity; done.
Qed.
