(* ===== verification/Runtime.v ===== *)
(** * Runtime: the command line and the fuzzer objects
    (runtime/nextgen.c, runtime/fuzzer.c, runtime/fuzzer-syscall.c, main.c)

    [getopt_long] of the C library is given as the list of all the options it
    will answer, one after the other: its answers do not depend on what the
    program does between the calls. *)

From Stdlib Require Import Ascii.
From S2P Require Import Prelude Types CWorld Io Memory Crypto Utils Dirs Plugins.

(** ** getopt_long(3) *)

Record longopt := MkLong { opt_name : string; has_arg : bool; opt_val : ascii }.

Definition longopts : list longopt :=
  [ MkLong "in" true "i"; MkLong "out" true "o"; MkLong "exec" true "e"; MkLong "crypto" true "c";
    MkLong "port" true "p"; MkLong "address" true "a"; MkLong "protocol" true "c"; MkLong "args" true "x";
    MkLong "file" false "f"; MkLong "network" false "n"; MkLong "syscall" false "s"; MkLong "help" false "h";
    MkLong "dumb" false "d"; MkLong "verbose" false "v" ].

(** [optstring] is "p:e:": two short options, both with an argument. *)
Definition optstring : list ascii := ["p"%char; "e"%char].

(** The option a name stands for: an exact match, or else the only one whose
    name starts with it. *)
Definition find_long (name : string) : option longopt :=
  match List.find (fun o => String.eqb (opt_name o) name) longopts with
  | Some o => Some o
  | None =>
      match List.filter (fun o => starts_with name (opt_name o)) longopts with
      | [o] => Some o
      | _ => None
      end
  end.

(** A string up to the first [=], and what follows it. *)
Fixpoint split_equals (s : string) : string * option string :=
  match s with
  | EmptyString => (EmptyString, None)
  | String a s' =>
      if Ascii.eqb a "=" then (EmptyString, Some s')
      else let '(name, value) := split_equals s' in (String a name, value)
  end.

(** The letters of a word of short options: unknown ones are errors, the
    first known one takes the rest of the word. *)
Fixpoint short_options (s : string) : list (ascii * option string) * option (ascii * string) :=
  match s with
  | EmptyString => ([], None)
  | String a s' =>
      if existsb (Ascii.eqb a) optstring then ([], Some (a, s'))
      else let '(errors, found) := short_options s' in (("?"%char, None) :: errors, found)
  end.

(** The characters [getopt_long] answers with their [optarg]; words that are
    no options are passed over, "--" ends them. *)
Fixpoint getopt_long (args : list string) : list (ascii * option string) :=
  match args with
  | [] => []
  | String "-" (String "-" EmptyString) :: _ => []
  | String "-" (String "-" long) :: rest =>
      let '(name, value) := split_equals long in
      match find_long name with
      | None => ("?"%char, None) :: getopt_long rest
      | Some o =>
          if has_arg o then
            match value, rest with
            | Some v, _ => (opt_val o, Some v) :: getopt_long rest
            | None, v :: rest' => (opt_val o, Some v) :: getopt_long rest'
            | None, [] => [("?"%char, None)]
            end
          else
            match value with
            | None => (opt_val o, None) :: getopt_long rest
            | Some _ => ("?"%char, None) :: getopt_long rest
            end
      end
  | String "-" (String a shorts) :: rest =>
      let '(errors, found) := short_options (String a shorts) in
      errors ++
      match found with
      | None => getopt_long rest
      | Some (c, EmptyString) =>
          match rest with
          | v :: rest' => (c, Some v) :: getopt_long rest'
          | [] => [("?"%char, None)]
          end
      | Some (c, v) => (c, Some v) :: getopt_long rest
      end
  | _ :: rest => getopt_long rest
  end.

(** ** The configuration *)

Definition display_help_banner : M unit :=
  set_verbosity TRUE ;;;
  write STD "Nextgen is a Genetic File, Syscall, and Network Fuzzer.\n" ;;;
  write STD "To use the file fuzzer in smart mode run the command below.\n" ;;;
  write STD "sudo ./nextgen --file --in /path/to/in/directory --out /path/to/out/directory --exec /path/to/target/exec .\n" ;;;
  write STD "To use the syscall fuzzer in smart mode run.\n" ;;;
  write STD "sudo ./nextgen --syscall --out /path/to/out/directory\n" ;;;
  write STD "To use dumb mode just pass --dumb with any of the above commands.\n".

(** The members of a new configuration are not assigned. *)
Definition new_config : fuzzer_config := MkConfig None None None None None None None.

Definition with_exec_path (p : string) (c : fuzzer_config) : fuzzer_config :=
  MkConfig (Some p) (input_path c) (output_path c) (config_args c) (smart_mode c) (config_method c) (config_mode c).
Definition with_input_path (p : string) (c : fuzzer_config) : fuzzer_config :=
  MkConfig (exec_path c) (Some p) (output_path c) (config_args c) (smart_mode c) (config_method c) (config_mode c).
Definition with_output_path (p : string) (c : fuzzer_config) : fuzzer_config :=
  MkConfig (exec_path c) (input_path c) (Some p) (config_args c) (smart_mode c) (config_method c) (config_mode c).
Definition with_args (s : ptr) (c : fuzzer_config) : fuzzer_config :=
  MkConfig (exec_path c) (input_path c) (output_path c) s (smart_mode c) (config_method c) (config_mode c).
Definition with_smart_mode (z : Z) (c : fuzzer_config) : fuzzer_config :=
  MkConfig (exec_path c) (input_path c) (output_path c) (config_args c) (Some z) (config_method c) (config_mode c).
Definition with_method (m : crypto_method) (c : fuzzer_config) : fuzzer_config :=
  MkConfig (exec_path c) (input_path c) (output_path c) (config_args c) (smart_mode c) (Some m) (config_mode c).
Definition with_mode (m : fuzz_mode) (c : fuzzer_config) : fuzzer_config :=
  MkConfig (exec_path c) (input_path c) (output_path c) (config_args c) (smart_mode c) (config_method c) (Some m).

Definition update_config (config : ptr) (f : fuzzer_config -> fuzzer_config) : M unit :=
  let! o := load config in
  match o with OConfig c => store config (OConfig (f c)) | _ => crash end.

Definition init_fuzzer_config (allocator : memory_allocator) : M ptr :=
  let! config := alloc allocator (OConfig new_config) in
  match config with
  | None => write ERROR "Failed to allocate fuzzer config\n" ;;; ret NULL
  | Some _ => ret config
  end.

Definition set_input_path (config : ptr) (path : option string) : M Z :=
  match config, path with
  | None, _ => write ERROR "Parser context is not allocated\n" ;;; ret (-1)
  | _, None => write ERROR "Path supplied is NULL\n" ;;; ret (-1)
  | Some _, Some path =>
      let! sb := sys_stat path in
      match sb with
      | None => write ERROR "Can't get stats: %s\n" ;;; ret (-1)
      | Some st_mode =>
          if has_flag st_mode S_IFDIR then update_config config (with_input_path path) ;;; ret 0
          else write ERROR "Input path is not a directory\n" ;;; ret (-1)
      end
  end.

Definition set_output_path (config : ptr) (path : option string) : M Z :=
  match config, path with
  | None, _ => write ERROR "Parser context is not allocated\n" ;;; ret (-1)
  | _, None => write ERROR "Path supplied is NULL\n" ;;; ret (-1)
  | Some _, Some path =>
      let! sb := sys_stat path in
      match sb with
      | Some _ => write ERROR "Path already exist\n" ;;; ret (-1)
      | None => update_config config (with_output_path path) ;;; ret 0
      end
  end.

Definition set_exec_path (config : ptr) (path : option string) : M Z :=
  match config, path with
  | None, _ => write ERROR "Parser context is not allocated\n" ;;; ret (-1)
  | _, None => write ERROR "Path supplied is NULL\n" ;;; ret (-1)
  | Some _, Some path =>
      let! sb := sys_stat path in
      match sb with
      | None => write ERROR "Can't get stats: %s\n" ;;; ret (-1)
      | Some st_mode =>
          if has_flag st_mode S_IXUSR then update_config config (with_exec_path path) ;;; ret 0
          else write ERROR "Exec path is not a excutable\n" ;;; ret (-1)
      end
  end.

(** A value of either enum is one of its constants, so the [default] branches
    are not taken. *)
Definition set_fuzz_mode (config : ptr) (mode : fuzz_mode) : M Z := update_config config (with_mode mode) ;;; ret 0.
Definition set_crypto_method (config : ptr) (method : crypto_method) : M Z :=
  update_config config (with_method method) ;;; ret 0.

(** ** The command line *)

Record flags := MkFlags {
  iFlag : bool; oFlag : bool; fFlag : bool; nFlag : bool; eFlag : bool;
  pFlag : bool; aFlag : bool; tFlag : bool; sFlag : bool
}.

Definition no_flags : flags := MkFlags false false false false false false false false false.

(** The flag an option sets. *)
Definition flag (f : flags) (ch : ascii) : flags :=
  let '(MkFlags i o fl n e p a t s) := f in
  if Ascii.eqb ch "p" then MkFlags i o fl n e true a t s
  else if Ascii.eqb ch "a" then MkFlags i o fl n e p true t s
  else if Ascii.eqb ch "t" then MkFlags i o fl n e p a true s
  else if Ascii.eqb ch "e" then MkFlags i o fl n true p a t s
  else if Ascii.eqb ch "i" then MkFlags true o fl n e p a t s
  else if Ascii.eqb ch "o" then MkFlags i true fl n e p a t s
  else if Ascii.eqb ch "f" then MkFlags i o true n e p a t s
  else if Ascii.eqb ch "n" then MkFlags i o fl true e p a t s
  else if Ascii.eqb ch "s" then MkFlags i o fl n e p a t true
  else f.

Section parsing.
Context (allocator : memory_allocator).

(** Freeing the configuration and [return (NULL)]. *)
Definition reject (config : ptr) : M bool := let! _ := free allocator config in ret false.

(** A call of one of the [set_*] functions. *)
Definition or_reject (config : ptr) (m : M Z) (error : string) : M bool :=
  let! rtrn := m in
  if rtrn <? 0 then write ERROR error ;;; reject config else ret true.

(** The body of the loop for the character [ch]: whether the loop goes on. *)
Definition parse_option (config : ptr) (ch : ascii) (optarg : option string) : M bool :=
  if Ascii.eqb ch "h" then display_help_banner ;;; reject config
  else if Ascii.eqb ch "p" || Ascii.eqb ch "a" || Ascii.eqb ch "t" then ret true
  else if Ascii.eqb ch "e" then or_reject config (set_exec_path config optarg) "Can't set exec path\n"
  else if Ascii.eqb ch "i" then or_reject config (set_input_path config optarg) "Can't set input path\n"
  else if Ascii.eqb ch "o" then or_reject config (set_output_path config optarg) "Can't set output path\n"
  else if Ascii.eqb ch "f" then or_reject config (set_fuzz_mode config MODE_FILE) "Can't set fuzz mode\n"
  else if Ascii.eqb ch "n" then or_reject config (set_fuzz_mode config MODE_NETWORK) "Can't set fuzz mode\n"
  else if Ascii.eqb ch "s" then or_reject config (set_fuzz_mode config MODE_SYSCALL) "Can't set fuzz mode\n"
  else if Ascii.eqb ch "c" then or_reject config (set_crypto_method config NO_CRYPTO) "Can't set crypto method\n"
  else if Ascii.eqb ch "d" then update_config config (with_smart_mode FALSE) ;;; ret true
  else if Ascii.eqb ch "v" then set_verbosity TRUE ;;; ret true
  else if Ascii.eqb ch "x" then
    let! args := asprintf (show_str optarg) in
    match args with
    | None => write ERROR "asprintf: %s\n" ;;; reject config
    | Some args =>
        let! args := heap_string args in
        update_config config (with_args args) ;;; ret true
    end
  else display_help_banner ;;; reject config.

(** The flags after the loop, [None] when it was left by a [return]. *)
Fixpoint parse_options (config : ptr) (opts : list (ascii * option string)) (f : flags) : M (option flags) :=
  match opts with
  | [] => ret (Some f)
  | (ch, optarg) :: opts' =>
      let! ok := parse_option config ch optarg in
      if ok : bool then parse_options config opts' (flag f ch) else ret None
  end.

(** The checks behind the loop. *)
Definition check_flags (config : ptr) (f : flags) : M bool :=
  if negb (fFlag f) && negb (nFlag f) && negb (sFlag f) then display_help_banner ;;; reject config
  else if fFlag f && (negb (iFlag f) || negb (oFlag f) || negb (eFlag f)) then
    write STD "Pass --exec , --in and --out for file mode\n" ;;; reject config
  else if nFlag f && (negb (aFlag f) || negb (tFlag f) || negb (oFlag f)) then
    write STD "Pass --address , --port, --protocol, and --out for network mode\n" ;;; reject config
  else if sFlag f && negb (oFlag f) then
    write STD "Pass --out for syscall mode\n" ;;; reject config
  else ret true.

Definition parse_cmd_line (argv : list string) : M ptr :=
  if Nat.eqb (length argv) 1 then display_help_banner ;;; ret NULL
  else
    let! config := init_fuzzer_config allocator in
    match config with
    | None => write ERROR "Can't init parser context\n" ;;; ret NULL
    | Some _ =>
        update_config config (with_smart_mode TRUE) ;;;
        let! rtrn := set_crypto_method config CRYPTO in
        if rtrn <? 0 then write ERROR "Can't set crypto method\n" ;;; ret NULL
        else
          let! f := parse_options config (getopt_long (tl argv)) no_flags in
          match f with
          | None => ret NULL
          | Some f =>
              let! ok := check_flags config f in
              ret (if ok : bool then config else NULL)
          end
    end.
End parsing.

(** ** Fuzzer objects *)

Record fuzzer_instance := MkFuzzer { fuzzer_stop : M Z; fuzzer_setup : random_generator -> M Z; fuzzer_start : M Z }.

Definition stop_syscall_fuzzer : M Z := ret 0.
Definition start_syscall_fuzzer : M Z := ret 0.

Definition setup_syscall_fuzzer (random : random_generator) : M Z :=
  let! f := need (seed random) in
  let! rtrn := f in
  if rtrn <? 0 then write ERROR "Failed to seed random number generator\n" ;;; ret (-1) else ret 0.

(** The struct has three function pointers. *)
Definition get_syscall_fuzzer (allocator : memory_allocator) : M (option fuzzer_instance) :=
  let! fuzzer := alloc allocator (junk 24) in
  match fuzzer with
  | None => write ERROR "Failed to allocate syscall fuzzer: %s\n" ;;; ret None
  | Some _ => ret (Some (MkFuzzer stop_syscall_fuzzer setup_syscall_fuzzer start_syscall_fuzzer))
  end.

Definition get_fuzzer (config : ptr) : M (option fuzzer_instance) := ret None.

Definition main (argv : list string) : M Z :=
  let! output := get_console_writter in
  match output with
  | None => printf "Failed to get console writter\n" ;;; ret (-1)
  | Some _ =>
      let! allocator := get_default_allocator in
      match allocator with
      | None => write ERROR "Failed to get memory allocator\n" ;;; ret (-1)
      | Some allocator =>
          let! config := parse_cmd_line allocator argv in
          match config with None => ret (-1) | Some _ => ret 0 end
      end
  end.

(** ** What a command line means *)

(** What the options an option letter stands for do. *)
Inductive action :=
| Help | Flag | SetExec | SetInput | SetOutput | SetMode (m : fuzz_mode) | NoCrypto | Dumb | Verbose | SetArgs.

Definition action_of (ch : ascii) : action :=
  if Ascii.eqb ch "h" then Help
  else if Ascii.eqb ch "p" || Ascii.eqb ch "a" || Ascii.eqb ch "t" then Flag
  else if Ascii.eqb ch "e" then SetExec
  else if Ascii.eqb ch "i" then SetInput
  else if Ascii.eqb ch "o" then SetOutput
  else if Ascii.eqb ch "f" then SetMode MODE_FILE
  else if Ascii.eqb ch "n" then SetMode MODE_NETWORK
  else if Ascii.eqb ch "s" then SetMode MODE_SYSCALL
  else if Ascii.eqb ch "c" then NoCrypto
  else if Ascii.eqb ch "d" then Dumb
  else if Ascii.eqb ch "v" then Verbose
  else if Ascii.eqb ch "x" then SetArgs
  else Help.

(** The configuration after an option, and the next free location: the
    arguments of the target are copied to one. *)
Definition meant (s : fuzzer_config * loc) (o : ascii * option string) : fuzzer_config * loc :=
  let '(c, n) := s in
  match action_of o.1, o.2 with
  | SetExec, Some p => (with_exec_path p c, n)
  | SetInput, Some p => (with_input_path p c, n)
  | SetOutput, Some p => (with_output_path p c, n)
  | SetMode m, _ => (with_mode m c, n)
  | NoCrypto, _ => (with_method NO_CRYPTO c, n)
  | Dumb, _ => (with_smart_mode FALSE c, n)
  | SetArgs, _ => (with_args (Some n) c, Pos.succ n)
  | _, _ => (c, n)
  end.

(** The heap [h] with a copy of the arguments for every --args among the
    options, from the location [n] on. *)
Fixpoint args_left (n : loc) (opts : list (ascii * option string)) (h : gmap loc hobj) : gmap loc hobj :=
  match opts with
  | [] => h
  | o :: opts' =>
      match action_of o.1 with
      | SetArgs => args_left (Pos.succ n) opts' (<[n := text_of (show_str o.2)]> h)
      | _ => args_left n opts' h
      end
  end.

Lemma args_left_insert l o n opts : forall h, (l < n)%positive ->
  args_left n opts (<[l := o]> h) = <[l := o]> (args_left n opts h).
Proof.
  revert n. induction opts as [|[ch arg] opts IH]; intros n h Hlt; [done|]. cbn.
  destruct (action_of ch); rewrite <- ?IH by lia; try done. by rewrite insert_insert_ne by lia.
Qed.

Lemma args_left_delete l n opts : forall h, (l < n)%positive ->
  args_left n opts (delete l h) = delete l (args_left n opts h).
Proof.
  revert n. induction opts as [|[ch arg] opts IH]; intros n h Hlt; [done|]. cbn.
  destruct (action_of ch); rewrite <- ?IH by lia; try done. by rewrite delete_insert_ne by lia.
Qed.

(** Only --args takes storage. *)
Lemma args_left_lookup n opts : forall h x, (x < n)%positive -> args_left n opts h !! x = h !! x.
Proof.
  revert n. induction opts as [|[ch arg] opts IH]; intros n h x Hx; [done|]. cbn.
  destruct (action_of ch); rewrite IH by lia; try done. by rewrite lookup_insert_ne by lia.
Qed.

Lemma args_left_id n opts h : h !! n = None ->
  args_left n opts h = h <-> Forall (fun o => action_of o.1 <> SetArgs) opts.
Proof.
  intros Hn. induction opts as [|[ch arg] opts IH]; [by split|]. cbn [args_left fst snd].
  rewrite Forall_cons, <- IH. cbn [fst]. destruct (action_of ch) eqn:E; try (split; [by intros ->|by intros [_ ->]]).
  split; [|by intros [? _]]. intros Heq. exfalso.
  assert (Hl : args_left (Pos.succ n) opts (<[n := text_of (show_str arg)]> h) !! n = h !! n) by (by rewrite Heq).
  rewrite args_left_lookup, lookup_insert_eq in Hl by lia. congruence.
Qed.

Lemma args_left_cons n o opts h c :
  args_left n (o :: opts) h = args_left (meant (c, n) o).2 opts (args_left n [o] h).
Proof. destruct o as [ch arg]. cbn. by destruct (action_of ch), arg. Qed.

Lemma meant_next_le c n o : (n <= (meant (c, n) o).2)%positive.
Proof. destruct o as [ch arg]. cbn. destruct (action_of ch), arg; cbn; lia. Qed.

(** The options the file system allows; [out_ok] says what is asked of the
    output path. *)
Definition allowed (out_ok : string -> bool) (w : world) (o : ascii * option string) : bool :=
  match action_of o.1, o.2 with
  | Help, _ => false
  | SetExec, Some p => match mode_of w p with Some m => has_flag m S_IXUSR | None => false end
  | SetInput, Some p => match mode_of w p with Some m => has_flag m S_IFDIR | None => false end
  | SetOutput, Some p => out_ok p
  | (SetExec | SetInput | SetOutput), None => false
  | _, _ => true
  end.

(** The output path does not exist. *)
Definition valid (w : world) : ascii * option string -> bool :=
  allowed (fun p => match mode_of w p with Some _ => false | None => true end) w.
Definition checked : world -> ascii * option string -> bool := allowed (fun _ => true).

Definition enough (f : flags) : bool :=
  (fFlag f || nFlag f || sFlag f) && (negb (fFlag f) || iFlag f && oFlag f && eFlag f) &&
  (negb (nFlag f) || aFlag f && tFlag f && oFlag f) && (negb (sFlag f) || oFlag f).

Definition default_config : fuzzer_config := with_method CRYPTO (with_smart_mode TRUE new_config).

(** ** The parser *)

(** The files are as before. *)
Definition same_tree (w w' : world) : Prop := w_fs w' = w_fs w /\ w_modes w' = w_modes w.

Lemma same_tree_trans w1 w2 w3 : same_tree w1 w2 -> same_tree w2 w3 -> same_tree w1 w3.
Proof. unfold same_tree. intuition congruence. Qed.

Lemma same_tree_allowed f w w' o : same_tree w w' -> allowed f w' o = allowed f w o.
Proof. intros [H1 H2]. unfold allowed, mode_of. by rewrite H1, H2. Qed.

Section parser.
Context (l : loc).

(** What one option leaves of the configuration [c] at [l]. *)
Definition option_post (w : world) (c : fuzzer_config) (o : ascii * option string) (ok : bool) (w' : world) : Prop :=
  same_tree w w' /\
  if ok then w_heap w' = <[l := OConfig (meant (c, w_next w) o).1]> (args_left (w_next w) [o] (w_heap w)) /\
    w_next w' = (meant (c, w_next w) o).2 /\ checked w o = true /\ (oracle_ok w -> valid w o = true /\ oracle_ok w')
  else w_heap w' = delete l (w_heap w) /\ (oracle_ok w -> valid w o = false).

Lemma wp_reject w (Q : bool -> world -> Prop) c :
  w_heap w !! l = Some (OConfig c) -> Q false (set_heap (delete l (w_heap w)) w) ->
  wp (reject default_allocator (Some l)) Q w.
Proof.
  intros Hl HQ. unfold reject. apply wp_bind. cbn [free default_allocator default_mem_free]. apply wp_bind.
  eapply wp_eq; [by eapply free_loc_eq|]. by apply wp_ret, wp_ret.
Qed.

Lemma wp_update w (Q : unit -> world -> Prop) c f :
  w_heap w !! l = Some (OConfig c) -> Q tt (set_heap (<[l := OConfig (f c)]> (w_heap w)) w) ->
  wp (update_config (Some l) f) Q w.
Proof.
  intros Hl HQ. unfold update_config. apply wp_bind. eapply wp_eq; [by apply load_eq|].
  eapply wp_eq; [by eapply store_eq|]. done.
Qed.

Lemma wp_banner w (Q : unit -> world -> Prop) :
  (forall w', same_tree w w' -> w_heap w' = w_heap w -> w_oracle w' = w_oracle w -> Q tt w') -> wp display_help_banner Q w.
Proof. intros HQ. apply HQ; [by split_and!|done|done]. Qed.

(** An option that makes [f c] of the configuration and takes no storage. *)
Definition means (w : world) (c : fuzzer_config) (o : ascii * option string) (f : fuzzer_config -> fuzzer_config) : Prop :=
  meant (c, w_next w) o = (f c, w_next w) /\ args_left (w_next w) [o] (w_heap w) = w_heap w.

(** A setting that stores one member and cannot fail. *)
Lemma wp_setting w c o f (m : M Z) e :
  w_heap w !! l = Some (OConfig c) -> means w c o f -> checked w o = true -> valid w o = true ->
  m = (update_config (Some l) f ;;; ret 0) ->
  wp (or_reject default_allocator (Some l) m e) (option_post w c o) w.
Proof.
  intros Hl [Hm Ha] Hc Hv ->. unfold or_reject. do 2 apply wp_bind. eapply wp_update; [exact Hl|]. apply wp_ret.
  cbn [Z.ltb Z.compare]. apply wp_ret. split; [by split_and!|]. rewrite Hm, Ha. by split_and!.
Qed.

(** A path that is only taken if its mode [m] passes the test. *)
Lemma wp_path_setting w c ch path f (test : option Z -> bool) e e1 e2 :
  w_heap w !! l = Some (OConfig c) -> means w c (ch, Some path) f ->
  (test (mode_of w path) = true -> checked w (ch, Some path) = true) ->
  valid w (ch, Some path) = test (mode_of w path) ->
  (test None = true -> checked w (ch, Some path) = true) ->
  wp (or_reject default_allocator (Some l)
       (let! sb := sys_stat path in
        match sb with
        | None => if test None then update_config (Some l) f ;;; ret 0 else write ERROR e1 ;;; ret (-1)
        | Some m => if test (Some m) then update_config (Some l) f ;;; ret 0 else write ERROR e2 ;;; ret (-1)
        end) e) (option_post w c (ch, Some path)) w.
Proof.
  intros Hl [Hm Ha] Hc Hv Hn.
  assert (Hyes : forall w1, same_tree w w1 -> w_heap w1 = w_heap w -> w_next w1 = w_next w -> checked w (ch, Some path) = true ->
    (oracle_ok w -> valid w (ch, Some path) = true /\ oracle_ok w1) ->
    wp (update_config (Some l) f ;;; ret 0)
      (fun rtrn w' => wp (if rtrn <? 0 then write ERROR e ;;; reject default_allocator (Some l) else ret true)
         (option_post w c (ch, Some path)) w') w1).
  { intros w1 Ht Hh Hnx Hck Hok. apply wp_bind. eapply wp_update; [rewrite Hh; exact Hl|]. apply wp_ret.
    cbn [Z.ltb Z.compare]. apply wp_ret. split; [done|]. rewrite Hm, Ha, <- Hh. by split_and!. }
  assert (Hno : forall w1 t, same_tree w w1 -> w_heap w1 = w_heap w ->
    (oracle_ok w -> valid w (ch, Some path) = false) ->
    wp (write ERROR t ;;; ret (-1))
      (fun rtrn w' => wp (if rtrn <? 0 then write ERROR e ;;; reject default_allocator (Some l) else ret true)
         (option_post w c (ch, Some path)) w') w1).
  { intros w1 t Ht Hh Hok. apply wp_bind, wp_write, wp_ret. cbn [Z.ltb Z.compare]. apply wp_bind, wp_write.
    eapply wp_reject; [cbn; rewrite Hh; exact Hl|]. split; [done|]. cbn. by rewrite Hh. }
  assert (Hcase : forall w1 m (e' : string), same_tree w w1 -> w_heap w1 = w_heap w -> w_next w1 = w_next w ->
    (test m = true -> checked w (ch, Some path) = true) ->
    (oracle_ok w -> valid w (ch, Some path) = test m /\ oracle_ok w1) ->
    wp (if test m then update_config (Some l) f ;;; ret 0 else write ERROR e' ;;; ret (-1))
      (fun rtrn w' => wp (if rtrn <? 0 then write ERROR e ;;; reject default_allocator (Some l) else ret true)
         (option_post w c (ch, Some path)) w') w1).
  { intros w1 m e' Ht Hh Hnx Hck Hok. destruct (test m) eqn:E; [apply Hyes; auto|].
    apply Hno; [done|done|]. intros Ho. by destruct (Hok Ho). }
  unfold or_reject. apply wp_bind, wp_bind. unfold sys_stat. apply wp_bind, wp_answer.
  destruct (hd 0 (w_oracle w) <? 0) eqn:Ea; [apply wp_ret|apply wp_gets].
  - apply (Hcase (asked w) None); [by split_and!|done|done|done|]. intros Ho. exfalso. by eapply oracle_ok_refused.
  - change (mode_of (asked w) path) with (mode_of w path).
    destruct (mode_of w path) as [m|]; apply Hcase; try done; intros Ho; (split; [done|by apply oracle_ok_tl]).
Qed.

Lemma wp_help w c o : w_heap w !! l = Some (OConfig c) -> valid w o = false ->
  wp (display_help_banner ;;; reject default_allocator (Some l)) (option_post w c o) w.
Proof.
  intros Hl Hv. apply wp_bind, wp_banner. intros w' Ht Hh Ho. eapply wp_reject; [by rewrite Hh|].
  split; [done|]. cbn. by rewrite Hh.
Qed.

Lemma wp_no_path w c o t e : w_heap w !! l = Some (OConfig c) -> valid w o = false ->
  wp (or_reject default_allocator (Some l) (write ERROR t ;;; ret (-1)) e) (option_post w c o) w.
Proof.
  intros Hl Hv. apply wp_bind, wp_bind, wp_write, wp_ret. cbn [Z.ltb Z.compare]. apply wp_bind, wp_write.
  eapply wp_reject; [exact Hl|]. by split.
Qed.

Ltac acts Ha := unfold means, checked, valid, allowed, meant; cbn [fst snd args_left]; rewrite ?Ha; try done.

(** A setting that needs no check. *)
Lemma post_free w w' c o f :
  same_tree w w' -> w_heap w' = <[l := OConfig (f c)]> (w_heap w) -> w_next w' = w_next w -> means w c o f ->
  checked w o = true -> valid w o = true -> (oracle_ok w -> oracle_ok w') -> option_post w c o true w'.
Proof. intros Ht Hh Hn [Hm Ha] Hc Hv Ho. split; [done|]. rewrite Hm, Ha. split_and!; auto. Qed.

Lemma parse_option_spec w c ch arg :
  w_heap w !! l = Some (OConfig c) -> (l < w_next w)%positive ->
  wp (parse_option default_allocator (Some l) ch arg) (option_post w c (ch, arg)) w.
Proof.
  intros Hl Hlt. destruct (action_of ch) eqn:Ha; pose proof Ha as Ha'; unfold action_of in Ha'; unfold parse_option;
    repeat match type of Ha' with (if ?b then _ else _) = _ => destruct b; [try discriminate Ha'|] end;
    try discriminate Ha'.
  all: try (apply wp_help; [done|acts Ha]).
  all: try (injection Ha' as <-).
  - apply wp_ret. apply (post_free w w c _ id); [by split_and!|by rewrite insert_id|done|acts Ha..].
  - destruct arg as [p|]; [|apply wp_no_path; [done|acts Ha]].
    apply (wp_path_setting w c ch p (with_exec_path p) (fun m => match m with Some m => has_flag m S_IXUSR | None => false end));
      [done|acts Ha..].
  - destruct arg as [p|]; [|apply wp_no_path; [done|acts Ha]].
    apply (wp_path_setting w c ch p (with_input_path p) (fun m => match m with Some m => has_flag m S_IFDIR | None => false end));
      [done|acts Ha..].
  - destruct arg as [p|]; [|apply wp_no_path; [done|acts Ha]].
    apply (wp_path_setting w c ch p (with_output_path p) (fun m => match m with Some _ => false | None => true end));
      [done|acts Ha..].
  - apply (wp_setting w c _ (with_mode MODE_FILE)); [done|acts Ha..].
  - apply (wp_setting w c _ (with_mode MODE_NETWORK)); [done|acts Ha..].
  - apply (wp_setting w c _ (with_mode MODE_SYSCALL)); [done|acts Ha..].
  - apply (wp_setting w c _ (with_method NO_CRYPTO)); [done|acts Ha..].
  - apply wp_bind. eapply wp_update; [exact Hl|]. apply wp_ret.
    apply (post_free w _ c _ (with_smart_mode FALSE)); [by split_and!|done|done|acts Ha..].
  - apply wp_bind, wp_modify, wp_ret.
    apply (post_free w _ c _ id); [by split_and!|cbn; by rewrite insert_id|done|acts Ha..].
  - apply wp_bind, wp_asprintf; [intros Hno; apply wp_bind, wp_write|apply wp_bind].
    + eapply wp_reject; [exact Hl|]. split; [by split_and!|]. by split; [|intros Ho].
    + eapply wp_eq; [reflexivity|]. apply wp_bind. eapply wp_update; [cbn; rewrite lookup_insert_ne by lia; exact Hl|].
      apply wp_ret. split; [by split_and!|]. acts Ha. cbn. split_and!; try done.
      intros Ho. split; [done|]. exact (oracle_ok_tl w Ho).
Qed.

(** What the loop leaves of them. *)
Definition options_post (w : world) (c : fuzzer_config) (f : flags) (opts : list (ascii * option string))
    (r : option flags) (w' : world) : Prop :=
  same_tree w w' /\
  match r with
  | Some f' => f' = fold_left flag opts.*1 f /\
      w_heap w' = <[l := OConfig (fold_left meant opts (c, w_next w)).1]> (args_left (w_next w) opts (w_heap w)) /\
      forallb (checked w) opts = true /\ (oracle_ok w -> forallb (valid w) opts = true /\ oracle_ok w')
  | None => exists read o rest, opts = read ++ o :: rest /\
      w_heap w' = delete l (args_left (w_next w) read (w_heap w)) /\
      (oracle_ok w -> forallb (valid w) read = true /\ valid w o = false)
  end.

Lemma same_tree_forallb f w w' opts : same_tree w w' -> forallb (allowed f w') opts = forallb (allowed f w) opts.
Proof. intros Ht. induction opts as [|o opts IH]; [done|]. cbn. by rewrite (same_tree_allowed _ _ _ _ Ht), IH. Qed.

Lemma same_tree_valid w w' opts : same_tree w w' -> forallb (valid w') opts = forallb (valid w) opts.
Proof.
  intros Ht. unfold valid. rewrite (same_tree_forallb _ _ _ _ Ht). destruct Ht as [H1 H2].
  unfold mode_of. by rewrite H1, H2.
Qed.

Lemma same_tree_allowed_valid w w' o : same_tree w w' -> valid w' o = valid w o.
Proof. intros Ht. pose proof (same_tree_valid _ _ [o] Ht) as H. cbn in H. by rewrite !andb_true_r in H. Qed.

Lemma parse_options_spec opts : forall w c f,
  w_heap w !! l = Some (OConfig c) -> (l < w_next w)%positive ->
  wp (parse_options default_allocator (Some l) opts f) (options_post w c f opts) w.
Proof.
  induction opts as [|[ch arg] opts IH]; intros w c f Hl Hlt; cbn [parse_options].
  { apply wp_ret. split; [by split_and!|]. cbn. by rewrite insert_id. }
  apply wp_bind. eapply wp_mono; [by apply parse_option_spec|]. intros [|] w1 [Ht1 H1].
  - destruct H1 as (Hh1 & Hn1 & Hc1 & Ho1). assert (Hlt1 : (l < w_next w1)%positive) by
      (rewrite Hn1; eapply Pos.lt_le_trans; [exact Hlt|apply meant_next_le]).
    eapply wp_mono; [apply IH; [rewrite Hh1; apply lookup_insert_eq|done]|].
    intros r w2 [Ht2 H2]. split; [by eapply same_tree_trans|].
    assert (Hmeant : meant (c, w_next w) (ch, arg) = ((meant (c, w_next w) (ch, arg)).1, w_next w1)) by
      (rewrite Hn1; apply surjective_pairing).
    destruct r as [f'|]; cbn [fmap list_fmap fst fold_left forallb].
    + destruct H2 as (-> & Hh2 & Hc2 & Ho2).
      rewrite Hh1, args_left_insert, insert_insert_eq in Hh2 by done.
      unfold checked in *. rewrite (same_tree_forallb _ _ _ _ Ht1) in Hc2. rewrite Hc1, Hc2, Hmeant, (args_left_cons _ _ _ _ c), <- Hn1.
      split_and!; try done. intros Ho. destruct (Ho1 Ho) as [-> Hok1]. rewrite <- (same_tree_valid _ _ _ Ht1). auto.
    + destruct H2 as (read & o & rest & -> & Hh2 & Ho2). exists ((ch, arg) :: read), o, rest.
      rewrite Hh1, args_left_insert, delete_insert_eq in Hh2 by done.
      rewrite (args_left_cons _ _ _ _ c), <- Hn1. split_and!; [done|done|]. intros Ho. destruct (Ho1 Ho) as [Hv Hok1].
      destruct (Ho2 Hok1) as [Hr Hov]. rewrite (same_tree_valid _ _ _ Ht1) in Hr. cbn [forallb]. rewrite Hv. split; [done|].
      by rewrite <- (same_tree_allowed_valid _ _ _ Ht1).
  - apply wp_ret. destruct H1 as [Hh1 Ho1]. split; [done|]. exists [], (ch, arg), opts. split_and!; [done|done|auto].
Qed.

Lemma check_flags_spec w c f : w_heap w !! l = Some (OConfig c) ->
  wp (check_flags default_allocator (Some l) f)
    (fun ok w' => same_tree w w' /\ ok = enough f /\
       w_heap w' = (if ok : bool then w_heap w else delete l (w_heap w))) w.
Proof.
  intros Hl. unfold check_flags.
  assert (Hwarn : forall t, false = enough f ->
    wp (write STD t ;;; reject default_allocator (Some l))
      (fun ok w' => same_tree w w' /\ ok = enough f /\
         w_heap w' = (if ok : bool then w_heap w else delete l (w_heap w))) w).
  { intros t He. apply wp_bind, wp_write. eapply wp_reject; [exact Hl|]. by split_and!. }
  destruct (negb (fFlag f) && negb (nFlag f) && negb (sFlag f)) eqn:E1.
  { apply wp_bind, wp_banner. intros w' Ht Hh _. eapply wp_reject; [by rewrite Hh|].
    split_and!; [exact Ht..| |cbn; by rewrite Hh]. unfold enough.
    destruct (fFlag f), (nFlag f), (sFlag f); done. }
  destruct (fFlag f && _) eqn:E2;
    [apply Hwarn; unfold enough; destruct (fFlag f), (iFlag f), (oFlag f), (eFlag f); try done; by rewrite ?andb_false_r|].
  destruct (nFlag f && _) eqn:E3;
    [apply Hwarn; unfold enough; destruct (nFlag f), (aFlag f), (oFlag f), (tFlag f); try done; by rewrite ?andb_false_r|].
  destruct (sFlag f && _) eqn:E4;
    [apply Hwarn; unfold enough; destruct (sFlag f), (oFlag f); try done; by rewrite ?andb_false_r|].
  apply wp_ret. split_and!; [done..| |done]. unfold enough.
  destruct (fFlag f), (nFlag f), (sFlag f), (iFlag f), (oFlag f), (eFlag f), (aFlag f), (tFlag f); done.
Qed.
End parser.

(** ** What the answers of getopt_long give *)

(** No option stands for 't': "protocol" is given the letter of "crypto". *)
Lemma long_never_t name o : find_long name = Some o -> opt_val o <> "t"%char.
Proof.
  assert (Hall : Forall (fun o => opt_val o <> "t"%char) longopts) by (repeat (constructor; [discriminate|]); constructor).
  rewrite Forall_forall in Hall. unfold find_long. destruct (List.find _ longopts) as [o'|] eqn:E.
  - intros [= <-]. apply Hall. apply List.find_some in E. by apply list_elem_of_In, E.
  - destruct (List.filter _ longopts) as [|o' [|]] eqn:E'; [done| |done]. intros [= <-]. apply Hall.
    apply list_elem_of_In. assert (Hin : In o' (o' :: [])) by (by left). rewrite <- E' in Hin. apply filter_In in Hin. apply Hin.
Qed.

Lemma short_never_t s errors found : short_options s = (errors, found) ->
  Forall (fun o => o.1 <> "t"%char) errors /\ forall c v, found = Some (c, v) -> c <> "t"%char.
Proof.
  revert errors found. induction s as [|a s IH]; intros errors found; cbn [short_options].
  { intros [= <- <-]. by split. }
  destruct (existsb (Ascii.eqb a) optstring) eqn:E.
  - intros [= <- <-]. split; [done|]. intros c v [= <- <-] ->. discriminate E.
  - destruct (short_options s) as [er fo]. intros [= <- <-]. destruct (IH er fo eq_refl) as [He Hf].
    split; [|done]. constructor; [discriminate|done].
Qed.

Lemma getopt_never_t args : Forall (fun o => o.1 <> "t"%char) (getopt_long args).
Proof.
  induction args as [args IH] using (well_founded_induction (well_founded_ltof _ length)). unfold ltof in IH.
  destruct args as [|word rest]; [constructor|].
  assert (Hrest : Forall (fun o => o.1 <> "t"%char) (getopt_long rest)) by (apply IH; cbn; lia).
  assert (Htail : forall v rest', rest = v :: rest' -> Forall (fun o => o.1 <> "t"%char) (getopt_long rest')).
  { intros v rest' ->. apply IH. cbn. lia. }
  assert (Hcons : forall c (v : option string) os, c <> "t"%char -> Forall (fun o => o.1 <> "t"%char) os ->
    Forall (fun o => o.1 <> "t"%char) ((c, v) :: os)) by (by constructor).
  cbn [getopt_long].
  repeat case_match; subst;
    repeat match goal with H : short_options _ = _ |- _ => apply short_never_t in H as [? ?] end;
    rewrite ?Forall_app; try split; eauto using long_never_t;
    try (apply Hcons; [first [discriminate | by eapply long_never_t | eauto]|try by constructor]); eauto.
Qed.

(** The flags and the configuration after the same options. *)
Record agrees (w : world) (f : flags) (c : fuzzer_config) : Prop := {
  ag_exec : eFlag f = true ->
    exists p m, exec_path c = Some p /\ mode_of w p = Some m /\ has_flag m S_IXUSR = true;
  ag_input : iFlag f = true ->
    exists p m, input_path c = Some p /\ mode_of w p = Some m /\ has_flag m S_IFDIR = true;
  ag_output : oFlag f = true -> is_Some (output_path c);
  ag_mode : match config_mode c with
            | Some MODE_FILE => fFlag f = true
            | Some MODE_NETWORK => nFlag f = true
            | Some MODE_SYSCALL => sFlag f = true
            | None => fFlag f || nFlag f || sFlag f = false
            end
}.

Lemma agrees_step w f c n o : agrees w f c -> checked w o = true -> agrees w (flag f o.1) (meant (c, n) o).1.
Proof.
  intros [He Hi Ho Hm] Hc. destruct o as [ch arg]. unfold checked, allowed, meant, action_of in *.
  destruct f as [i ou fl nw e p a t s]. unfold flag. cbn [fst snd] in *.
  repeat match goal with |- context [Ascii.eqb ch ?x] => destruct (Ascii.eqb ch x); cbn [orb] in * end;
    destruct arg as [path|]; try discriminate Hc; split; cbn in *; eauto.
  all: destruct (mode_of w path) as [m|] eqn:E; [eauto|done].
Qed.

Lemma agrees_all w opts : forall f c n, agrees w f c -> forallb (checked w) opts = true ->
  agrees w (fold_left flag opts.*1 f) (fold_left meant opts (c, n)).1.
Proof.
  induction opts as [|o opts IH]; intros f c n Ha Hc; [done|]. cbn [fmap list_fmap fold_left forallb] in Hc |- *.
  apply andb_prop in Hc as [Hc1 Hc2]. rewrite (surjective_pairing (meant (c, n) o)). apply IH; [by apply agrees_step|done].
Qed.

Lemma never_network (opts : list (ascii * option string)) f : Forall (fun o => o.1 <> "t"%char) opts -> tFlag f = false ->
  tFlag (fold_left flag opts.*1 f) = false.
Proof.
  intros Hall. revert f. induction Hall as [|[ch arg] opts Ho Hall IH]; intros f Hf; [done|]. cbn. apply IH.
  destruct f. unfold flag. cbn in *. repeat case_match; cbn; try done.
  match goal with H : (ch =? "t")%char = true |- _ => apply Ascii.eqb_eq in H; congruence end.
Qed.

(** What an accepted configuration has: the paths its mode asks for, the ones
    of a file fuzzer checked. No configuration is for the network. *)
Definition complete (w : world) (c : fuzzer_config) : Prop :=
  match config_mode c with
  | Some MODE_FILE =>
      (exists p m, exec_path c = Some p /\ mode_of w p = Some m /\ has_flag m S_IXUSR = true) /\
      (exists p m, input_path c = Some p /\ mode_of w p = Some m /\ has_flag m S_IFDIR = true) /\ is_Some (output_path c)
  | Some MODE_SYSCALL => is_Some (output_path c)
  | Some MODE_NETWORK | None => False
  end.

Lemma enough_complete w f c : agrees w f c -> tFlag f = false -> enough f = true -> complete w c.
Proof.
  intros [He Hi Ho Hm] Ht. unfold enough, complete. rewrite Ht.
  destruct (config_mode c) as [[]|]; destruct (fFlag f), (nFlag f), (sFlag f), (iFlag f), (oFlag f), (eFlag f), (aFlag f);
    cbn in *; try done; intros _; auto.
Qed.

Lemma init_config_spec w : heap_wf w ->
  wp (init_fuzzer_config default_allocator)
    (fun r w' => w_fs w' = w_fs w /\ w_modes w' = w_modes w /\ (oracle_ok w -> is_Some r /\ oracle_ok w') /\
       match r with
       | None => w_heap w' = w_heap w
       | Some l => l = w_next w /\ w_heap w' = <[l := OConfig new_config]> (w_heap w) /\ w_next w' = Pos.succ l
       end) w.
Proof.
  intros Hwf. unfold init_fuzzer_config. apply wp_bind, wp_alloc_default; [done|intros Hno; apply wp_bind, wp_write, wp_ret|apply wp_ret].
  - by split_and!.
  - split_and!; try done. intros Ho. split; [done|]. exact (oracle_ok_tl w Ho).
Qed.

(** The loop and the checks behind it, on the defaults at [l]. *)
Definition line_post (l : loc) (w : world) (opts : list (ascii * option string)) (r : ptr) (w' : world) : Prop :=
  same_tree w w' /\
  match r with
  | None => exists read rest, opts = read ++ rest /\ w_heap w' = delete l (args_left (w_next w) read (w_heap w)) /\
      (oracle_ok w -> forallb (valid w) read = true /\ (forall o, head rest = Some o -> valid w o = false))
  | Some l' => l' = l /\
      w_heap w' = <[l := OConfig (fold_left meant opts (default_config, w_next w)).1]> (args_left (w_next w) opts (w_heap w)) /\
      forallb (checked w) opts = true /\ enough (fold_left flag opts.*1 no_flags) = true
  end /\
  (oracle_ok w -> is_Some r <-> forallb (valid w) opts = true /\ enough (fold_left flag opts.*1 no_flags) = true).

Lemma parse_line_spec l w opts :
  w_heap w !! l = Some (OConfig default_config) -> (l < w_next w)%positive ->
  wp (let! f := parse_options default_allocator (Some l) opts no_flags in
      match f with
      | None => ret NULL
      | Some f => let! ok := check_flags default_allocator (Some l) f in ret (if ok : bool then Some l else NULL)
      end) (line_post l w opts) w.
Proof.
  intros Hl Hlt. apply wp_bind. eapply wp_mono; [by apply parse_options_spec|]. intros [f|] w2 [Ht2 H2].
  - destruct H2 as (-> & Hh2 & Hc2 & Ho2). apply wp_bind.
    eapply wp_mono; [eapply check_flags_spec; rewrite Hh2; apply lookup_insert_eq|]. intros ok w3 (Ht3 & -> & Hh3).
    apply wp_ret. rewrite Hh2 in Hh3. split; [by eapply same_tree_trans|]. destruct (enough _) eqn:E.
    + split; [by split_and!|]. intros Ho. by destruct (Ho2 Ho) as [-> _].
    + rewrite delete_insert_eq in Hh3. split; [|intros Ho; split; [by intros []|by intros [_ ?]]].
      exists opts, []. rewrite app_nil_r. split_and!; [done|done|]. intros Ho. by destruct (Ho2 Ho).
  - destruct H2 as (read & o & rest & Hopts & Hh2 & Ho2). apply wp_ret. split; [done|]. split.
    + exists read, (o :: rest). split_and!; [done|done|]. intros Ho. destruct (Ho2 Ho) as [? ?]. split; [done|].
      by intros ? [= <-].
    + intros Ho. destruct (Ho2 Ho) as [_ Hno]. split; [by intros []|]. intros [Hall _]. exfalso.
      rewrite Hopts, forallb_app in Hall. cbn in Hall. by rewrite Hno, andb_false_r in Hall.
Qed.

(** (C18) The parser returns for every command line, file system and
    environment and changes no file. It answers one new configuration, which
    is the defaults with the options applied in their order and has the paths
    its mode needs, and never a configuration for the network; the heap gains
    it and a copy of the argument of every --args. Or it answers NULL and the
    configuration is freed again, but the copies made for the options read so
    far stay, for rejecting a command line frees only the configuration: the
    heap is the one it started from exactly when none of these was --args.
    When the environment refuses nothing it accepts exactly the command lines
    whose options are all allowed by the file system and set the flags some
    mode needs, and otherwise has read the options before the first one that
    is not allowed. *)
Theorem parse_cmd_line_correct argv w :
  heap_wf w ->
  wp (parse_cmd_line default_allocator argv)
    (fun r w' =>
       let opts := getopt_long (tl argv) in
       let first := Pos.succ (w_next w) in
       let c := (fold_left meant opts (default_config, first)).1 in
       w_fs w' = w_fs w /\ w_modes w' = w_modes w /\
       match r with
       | None => exists read rest, opts = read ++ rest /\ w_heap w' = args_left first read (w_heap w) /\
           (w_heap w' = w_heap w <-> Forall (fun o => action_of o.1 <> SetArgs) read) /\
           (oracle_ok w -> forallb (valid w) read = true /\ (forall o, head rest = Some o -> valid w o = false))
       | Some l => l = w_next w /\ w_heap w' = <[l := OConfig c]> (args_left first opts (w_heap w)) /\ complete w c
       end /\
       (oracle_ok w -> is_Some r <->
          length argv <> 1%nat /\ forallb (valid w) opts = true /\ enough (fold_left flag opts.*1 no_flags) = true)) w.
Proof.
  intros Hwf. unfold parse_cmd_line. cbv zeta.
  assert (Hone : length argv = 1%nat -> getopt_long (tl argv) = []) by (by destruct argv as [|a [|]]).
  destruct (Nat.eqb_spec (length argv) 1) as [H1|H1].
  { apply wp_bind, wp_banner. intros w' [Hf Hm] Hh _. apply wp_ret. rewrite (Hone H1). split_and!; try done.
    - exists [], []. by rewrite Hh.
    - intros _. split; [by intros []|by intros [? _]]. }
  apply wp_bind. eapply wp_mono; [by apply init_config_spec|]. intros r w1 (Hf1 & Hm1 & Ho1 & H). destruct r as [l|].
  2:{ apply wp_bind, wp_write, wp_ret. split_and!; try done.
      - exists [], (getopt_long (tl argv)). split_and!; try done. intros Ho. by destruct (Ho1 Ho) as [[? ?] _].
      - intros Ho. by destruct (Ho1 Ho) as [[? ?] _]. }
  destruct H as (-> & Hh1 & Hn1). set (l := w_next w) in *.
  assert (Hnone : w_heap w !! l = None) by (apply Hwf; unfold l; lia).
  assert (Hnone' : w_heap w !! Pos.succ l = None) by (apply Hwf; unfold l; lia).
  apply wp_bind. eapply wp_update; [rewrite Hh1; apply lookup_insert_eq|]. do 2 apply wp_bind.
  eapply wp_update; [cbn; apply lookup_insert_eq|]. apply wp_ret. cbn [Z.ltb Z.compare].
  rewrite Hh1. cbn [set_heap w_heap]. rewrite !insert_insert_eq.
  match goal with |- wp _ _ ?w2 => assert (Ht : same_tree w w2) by (by split);
    assert (Hok : oracle_ok w -> oracle_ok w2) by (intros Ho; by apply Ho1);
    assert (Hn2 : w_next w2 = Pos.succ l) by exact Hn1 end.
  eapply wp_mono; [apply parse_line_spec; [cbn; apply lookup_insert_eq|rewrite Hn2; lia]|].
  intros r w2 (Ht2 & Hr & Hiff). rewrite Hn2 in Hr. destruct (same_tree_trans _ _ _ Ht Ht2) as [Hf Hm].
  split_and!; [done..| |].
  - destruct r as [l'|].
    + destruct Hr as (-> & Hh & Hc & He). cbn [w_heap set_heap] in Hh. rewrite args_left_insert, insert_insert_eq in Hh by lia.
      split_and!; [done..|]. refine (enough_complete w _ _ _ _ He); [apply agrees_all; [by split|]|].
      * unfold checked in Hc |- *. by rewrite (same_tree_forallb _ _ _ _ Ht) in Hc.
      * apply never_network; [apply getopt_never_t|done].
    + destruct Hr as (read & rest & Hopts & Hh & Hv). cbn [w_heap set_heap] in Hh.
      rewrite args_left_insert, delete_insert_eq, <- args_left_delete, (delete_id _ _ Hnone) in Hh by lia.
      exists read, rest. split_and!; [done|done|rewrite Hh; exact (args_left_id _ _ _ Hnone')|]. intros Ho.
      destruct (Hv (Hok Ho)) as [Hr Hno]. rewrite (same_tree_valid _ _ _ Ht) in Hr. split; [done|].
      intros o Hhd. by rewrite <- (same_tree_allowed_valid _ _ _ Ht); apply Hno.
  - intros Ho. rewrite (Hiff (Hok Ho)), (same_tree_valid _ _ _ Ht). tauto.
Qed.

(** An input directory and an executable file. *)
Definition target_world : world :=
  set_fs (list_to_map [("/bin/cat"%string, [127])])
    (set_modes (list_to_map [("/in"%string, 16893); ("/bin/cat"%string, 33261)]) (fresh_world [] [])).

Definition file_line : list string :=
  ["nextgen"; "--file"; "--in"; "/in"; "--out=/out"; "-e"; "/bin/cat"; "--dumb"]%string.

Lemma parse_cmd_line_correct_witness :
  exists l w', parse_cmd_line default_allocator file_line target_world = Ret (Some l) w' /\
    w_heap w' !! l = Some (OConfig (MkConfig (Some "/bin/cat"%string) (Some "/in"%string) (Some "/out"%string) None
      (Some FALSE) (Some CRYPTO) (Some MODE_FILE))).
Proof.
  eassert (Hrun : parse_cmd_line default_allocator file_line target_world = Ret (Some _) _) by (vm_compute; reflexivity).
  pose proof (parse_cmd_line_correct file_line target_world (fun l _ => lookup_empty l)) as H.
  unfold wp in H. rewrite Hrun in H. destruct H as (_ & _ & (_ & Hh & _) & _). eexists _, _. split; [exact Hrun|].
  refine (eq_trans (f_equal (lookup _) Hh) _). vm_compute. reflexivity.
Defined.

(** A rejected command line keeps the copy of the target's arguments. *)
Lemma rejected_line_leaks :
  exists w', parse_cmd_line default_allocator ["nextgen"; "--args=-v"; "--help"]%string target_world = Ret NULL w' /\
    w_heap w' = {[ 2%positive := text_of "-v" ]}.
Proof. eexists. split; vm_compute; reflexivity. Qed.
