(* ===== verification/Genetic.v ===== *)
(** * Genetic: the population of the genetic algorithm (genetic/genetic.c)

    A species per system call, each with a list of a thousand organisms, made
    by a thread of its own.  The members of an object are indeterminate until
    they are assigned; the pointers of a new array are written [None]. *)

From S2P Require Import Prelude Types CWorld Io Memory Crypto Network Mutate SyscallTable.

Definition SPECIES_POP : Z := 1000.

(** ** The static variables *)

Definition set_gen_stop (p : ptr) (g : gen_statics) : gen_statics := MkGen p (run_mode g) (gen_world_ptr g).
Definition set_run_mode (m : genetic_mode) (g : gen_statics) : gen_statics := MkGen (gen_stop g) m (gen_world_ptr g).
Definition set_gen_world (p : ptr) (g : gen_statics) : gen_statics := MkGen (gen_stop g) (run_mode g) p.

Definition get_gen {A} (f : gen_statics -> A) : M A := get_mods (fun m => f (m_gen m)).

Definition load_organism (p : ptr) : M organism_ctx :=
  let! o := load p in match o with OOrganism x => ret x | _ => crash end.
Definition load_species (p : ptr) : M species_ctx :=
  let! o := load p in match o with OSpecies x => ret x | _ => crash end.
Definition load_population (p : ptr) : M world_population :=
  let! o := load p in match o with OPopulation x => ret x | _ => crash end.

(** [NX_SLIST_INSERT_HEAD(&specie->organism_list, organism)] *)
Definition insert_organism (specie organism : ptr) : M unit :=
  let! o := load_organism organism in
  let! s := load_species specie in
  store organism (OOrganism (MkOrganism (fitness o) (chromosome o) (organism_list s))) ;;;
  let! s := load_species specie in
  store specie (OSpecies (MkSpecies (species_population s) (average_species_fitness s) organism)).

Section genetic.
Context (plat : platform) (allocator : memory_allocator).

(** The inner loop of [init_world]: [n] organisms are left to make. *)
Fixpoint populate (n : nat) (specie : ptr) : M bool :=
  match n with
  | O => ret true
  | S n' =>
      let! organism := alloc allocator (OOrganism (MkOrganism None None NULL)) in
      match organism with
      | None => write ERROR "Can't allocate organism context\n" ;;; ret false
      | Some _ =>
          let! chromosome := alloc allocator (OChromosome (MkChromosome None)) in
          let! o := load_organism organism in
          store organism (OOrganism (MkOrganism (fitness o) (Some chromosome) (organism_next o))) ;;;
          match chromosome with
          | None =>
              write ERROR "Can't allocate chromosome context\n" ;;;
              let! _ := free allocator organism in ret false
          | Some _ =>
              let! o := load_organism organism in
              store organism (OOrganism (MkOrganism (Some 0) (Types.chromosome o) (organism_next o))) ;;;
              insert_organism specie organism ;;;
              populate n' specie
          end
      end
  end.

(** The outer loop from species [i] on; [n] are left. *)
Fixpoint create_species (n : nat) (i : Z) : M bool :=
  match n with
  | O => ret true
  | S n' =>
      let! specie := alloc allocator (OSpecies (MkSpecies 0 0 NULL)) in
      match specie with
      | None => write ERROR "Can't allocate species_ctx\n" ;;; ret false
      | Some _ =>
          store specie (OSpecies (MkSpecies 0 0 NULL)) ;;;
          let! ok := populate (Z.to_nat SPECIES_POP) specie in
          if ok : bool then
            let! world := get_gen gen_world_ptr in
            let! p := load_population world in
            store_elem (pop_species p) i specie ;;;
            create_species n' (i + 1)
          else ret false
      end
  end.

(** [init_world] once it has the table. *)
Definition init_species (sys_table : ptr) : M Z :=
  let! t := load_table sys_table in
  let! world := get_gen gen_world_ptr in
  let! w := load_population world in
  store world (OPopulation (MkPopulation (total_syscalls t) 0 (pop_species w))) ;;;
  let! species := alloc allocator (OPtrs (replicate (Z.to_nat (total_syscalls t)) NULL)) in
  store world (OPopulation (MkPopulation (total_syscalls t) 0 species)) ;;;
  match species with
  | None =>
      write ERROR "Can't create species index\n" ;;;
      let! _ := cleanup_syscall_table sys_table allocator in ret (-1)
  | Some _ =>
      let! ok := create_species (Z.to_nat (u32 (total_syscalls t - 1))) 0 in
      ret (if ok : bool then 0 else -1)
  end.

Definition init_world : M Z :=
  write STD "Creating world, may take a sec\n" ;;;
  let! p := alloc allocator (OPopulation (MkPopulation 0 0 NULL)) in
  mod_gen (set_gen_world p) ;;;
  match p with
  | None => write ERROR "Can't allocate world\n" ;;; ret (-1)
  | Some _ =>
      let! sys_table := get_syscall_table plat allocator in
      match sys_table with
      | None => write ERROR "Can't get system table\n" ;;; ret (-1)
      | Some _ => init_species sys_table
      end
  end.

(** The loops over the calls of the table have an empty body. *)
Definition create_first_generation : M Z :=
  write STD "Creating first generation\n" ;;;
  let! sys_table := get_syscall_table plat allocator in
  match sys_table with
  | None => write ERROR "Can't get system table\n" ;;; ret (-1)
  | Some _ =>
      let! _ := load_table sys_table in
      let! _ := cleanup_syscall_table sys_table allocator in ret 0
  end.

Definition genesis : M Z :=
  let! rtrn := init_world in
  if rtrn <? 0 then write ERROR "Can't init world\n" ;;; ret (-1)
  else
    let! rtrn := create_first_generation in
    if rtrn <? 0 then write ERROR "Can't create first generation\n" ;;; ret (-1) else ret 0.
End genetic.

(** ** The thread and the function that starts it

    The two run at the same time on one memory, so they are given as programs
    whose steps are taken one by one.  *)

(** Where the thread is: at its start, at the test of its loop, or ended. *)
Inductive god_pc := GodStart | GodLoop | GodEnd.

(** What the thread does next.  The first step makes the population: it
    touches neither of the variables [setup_genetic_module] assigns, so its
    calls are not told apart.  [genesis] uses the console and the allocator at
    once.  Every test of the loop is a step. *)
Definition god_loop (plat : platform) (pc : god_pc) : M god_pc :=
  match pc with
  | GodStart =>
      let! output := get_console_writter in
      let! allocator := get_default_allocator in
      match output, allocator with
      | Some _, Some allocator =>
          let! rtrn := genesis plat allocator in
          if rtrn <? 0 then write ERROR "Can't init ga\n" ;;; ret GodEnd else ret GodLoop
      | None, _ => crash
      | Some _, None => write STD "Creating world, may take a sec\n" ;;; crash
      end
  | GodLoop =>
      let! stop := get_gen gen_stop in
      let! s := load_int stop in
      ret (if s =? TRUE then GodEnd else GodLoop)
  | GodEnd => ret GodEnd
  end.

(** A program as the steps it takes: the rest of it depends on what a step
    answers. *)
#[warnings="-register-all"]
Inductive prog :=
| Done (rtrn : Z)
| Step (m : world -> outcome prog).

Notation "'step!' x ':=' m 'in' k" := (Step (bind m (fun x => ret k)))
  (at level 10, x binder, m at level 200, k at level 200) : c_scope.

(** The program run with nothing in between. *)
Fixpoint run (p : prog) (w : world) : outcome Z :=
  match p with
  | Done rtrn => Ret rtrn w
  | Step m =>
      match m w with
      | Ret p' w' => run p' w'
      | Crash => Crash
      | Exit c w' => Exit c w'
      | Jump w' => Jump w'
      | Spin => Spin
      end
  end.

Definition setup_genetic_module (mode : genetic_mode) (stop_ptr : ptr) : prog :=
  step! rtrn := pthread_create fn_god_loop in
  if rtrn <? 0 then step! _ := write ERROR "Can't create thread\n" in Done (-1)
  else
    step! _ := mod_gen (set_run_mode mode) in
    step! _ := mod_gen (set_gen_stop stop_ptr) in
    Done 0.

(** The caller, the thread once it was created, and their memory; or one of
    them has gone wrong. *)
Inductive race := Racing (caller : prog) (thread : option god_pc) (w : world) | Wrong.

(** The thread was created. *)
Definition god_created (w : world) : bool :=
  existsb (fun e => match e with EvThread fn_god_loop => true | _ => false end) (w_events w).

(** The thread there is in a world: the one there was, or a new one. *)
Definition spawned (thread : option god_pc) (w : world) : option god_pc :=
  match thread with
  | Some pc => Some pc
  | None => if god_created w then Some GodStart else None
  end.

(** The steps of the two, in any order, and of the code that stops the program
    by storing [TRUE] in the flag at [sl]. *)
Inductive race_step (plat : platform) (sl : loc) : race -> race -> Prop :=
| race_caller m t w p w' : m w = Ret p w' -> race_step plat sl (Racing (Step m) t w) (Racing p (spawned t w') w')
| race_caller_wrong m t w : m w = Crash -> race_step plat sl (Racing (Step m) t w) Wrong
| race_thread p pc w pc' w' : pc <> GodEnd -> god_loop plat pc w = Ret pc' w' ->
    race_step plat sl (Racing p (Some pc) w) (Racing p (Some pc') w')
| race_thread_wrong p pc w : pc <> GodEnd -> god_loop plat pc w = Crash -> race_step plat sl (Racing p (Some pc) w) Wrong
| race_stop p t w s : w_heap w !! sl = Some (OInt s) ->
    race_step plat sl (Racing p t w) (Racing p t (set_heap (<[sl := OInt TRUE]> (w_heap w)) w)).

(** ** Steps *)

Section steps.
Context (w : world) (l : loc).
Lemma wp_load_organism o (Q : organism_ctx -> world -> Prop) :
  w_heap w !! l = Some (OOrganism o) -> Q o w -> wp (load_organism (Some l)) Q w.
Proof. intros Hl HQ. apply wp_bind. eapply wp_eq; [by apply load_eq|]. by apply wp_ret. Qed.
Lemma wp_load_species s (Q : species_ctx -> world -> Prop) :
  w_heap w !! l = Some (OSpecies s) -> Q s w -> wp (load_species (Some l)) Q w.
Proof. intros Hl HQ. apply wp_bind. eapply wp_eq; [by apply load_eq|]. by apply wp_ret. Qed.
Lemma wp_load_population p (Q : world_population -> world -> Prop) :
  w_heap w !! l = Some (OPopulation p) -> Q p w -> wp (load_population (Some l)) Q w.
Proof. intros Hl HQ. apply wp_bind. eapply wp_eq; [by apply load_eq|]. by apply wp_ret. Qed.
Lemma wp_store o x (Q : unit -> world -> Prop) :
  w_heap w !! l = Some x -> Q tt (set_heap (<[l := o]> (w_heap w)) w) -> wp (store (Some l) o) Q w.
Proof. intros Hl HQ. eapply wp_eq; [by eapply store_eq|done]. Qed.
End steps.

Lemma heap_wf_ne w l o : heap_wf w -> w_heap w !! l = Some o -> l <> w_next w.
Proof. intros Hwf Hl ->. rewrite Hwf in Hl by lia. done. Qed.

(** ** The population *)

(** The organisms [ls] from [p] on, each with a chromosome of its own and no
    fitness yet. *)
Fixpoint organisms (h : gmap loc hobj) (p : ptr) (ls : list loc) : Prop :=
  match ls with
  | [] => p = NULL
  | l :: ls' =>
      p = Some l /\
      exists cl nx, h !! l = Some (OOrganism (MkOrganism (Some 0) (Some (Some cl)) nx)) /\
        h !! cl = Some (OChromosome (MkChromosome None)) /\ organisms h nx ls'
  end.

(** The species at [s] with the organisms [ls]. *)
Definition species_at (h : gmap loc hobj) (s : loc) (ls : list loc) : Prop :=
  exists p, h !! s = Some (OSpecies (MkSpecies 0 0 p)) /\ organisms h p ls /\ NoDup ls.

Definition populated (h : gmap loc hobj) (s : loc) : Prop :=
  exists ls, species_at h s ls /\ length ls = Z.to_nat SPECIES_POP.

(** [h'] has the objects of [h] that [P] holds of. *)
Definition retains (P : loc -> hobj -> Prop) (h h' : gmap loc hobj) : Prop :=
  forall l o, h !! l = Some o -> P l o -> h' !! l = Some o.

Definition people (l : loc) (o : hobj) : Prop :=
  match o with OSpecies _ | OOrganism _ | OChromosome _ => True | _ => False end.

Lemma organisms_retained P h h' p ls : retains P h h' ->
  (forall l o, match o with OOrganism _ | OChromosome _ => P l o | _ => True end) -> organisms h p ls -> organisms h' p ls.
Proof.
  intros Hr HP. revert p. induction ls as [|l ls IH]; intros p; [done|]. intros (-> & cl & nx & Hl & Hc & Ho).
  split; [done|]. exists cl, nx. split_and!; [by apply Hr; [|apply (HP l (OOrganism _))]
    |by apply Hr; [|apply (HP cl (OChromosome _))]|by apply IH].
Qed.

Lemma populated_retained h h' s : retains people h h' -> populated h s -> populated h' s.
Proof.
  intros Hr (ls & (p & Hs & Ho & Hnd) & Hlen). exists ls. split; [|done]. exists p. split_and!; [by apply Hr| |done].
  eapply organisms_retained; [exact Hr| |done]. by intros l [].
Qed.

Lemma organisms_elem h p ls l : organisms h p ls -> l ∈ ls -> is_Some (h !! l).
Proof.
  revert p. induction ls as [|a ls IH]; intros p; [set_solver|]. intros (_ & cl & nx & Hl & _ & Ho) [->|Hin]%elem_of_cons.
  - by rewrite Hl.
  - by eapply IH.
Qed.

(** What the loops leave alone. *)
Record steady (w w' : world) : Prop := {
  st_wf : heap_wf w -> heap_wf w';
  st_sys : w_sys w' = w_sys w;
  st_entries : w_entries w' = w_entries w;
  st_mods : w_mods w' = w_mods w
}.

#[export] Instance steady_preorder : PreOrder steady.
Proof. split; [by intros w|]. intros w1 w2 w3 [] []. split; [auto|congruence..]. Qed.

Lemma steady_env w w' : env_step w w' -> steady w w'.
Proof. intros (o & x & ->). by split. Qed.
Lemma steady_granted w o : steady w (granted o w).
Proof. split; [apply heap_wf_granted|done..]. Qed.
Lemma steady_intro w w' :
  (w_next w <= w_next w')%positive ->
  (forall l : loc, (w_next w' <= l)%positive -> w_heap w !! l = None -> w_heap w' !! l = None) ->
  w_sys w' = w_sys w -> w_entries w' = w_entries w -> w_mods w' = w_mods w -> steady w w'.
Proof.
  intros Hn Hh. split; [|done..]. intros Hwf l Hl. apply Hh; [done|]. apply Hwf. unfold loc in *. lia.
Qed.

(** The heap after an organism with its chromosome was put in front of the
    organisms at [p] of the species at [sp]. *)
Definition with_organism (sp l cl : loc) (p : ptr) (h : gmap loc hobj) : gmap loc hobj :=
  <[sp := OSpecies (MkSpecies 0 0 (Some l))]>
    (<[l := OOrganism (MkOrganism (Some 0) (Some (Some cl)) p)]> (<[cl := OChromosome (MkChromosome None)]> h)).

Lemma with_organism_spec sp l cl p h ls :
  sp <> l -> sp <> cl -> l <> cl -> h !! sp = Some (OSpecies (MkSpecies 0 0 p)) -> h !! l = None -> h !! cl = None ->
  organisms h p ls -> NoDup ls ->
  retains (fun l _ => l <> sp) h (with_organism sp l cl p h) /\ species_at (with_organism sp l cl p h) sp (l :: ls).
Proof.
  intros H1 H2 H3 Hsp Hl Hcl Ho Hnd. unfold with_organism.
  assert (Hr : retains (fun l _ => l <> sp) h (with_organism sp l cl p h)).
  { intros x o Hx Hne. unfold with_organism. rewrite !lookup_insert_ne; [done|..]; congruence. }
  split; [exact Hr|]. exists (Some l). split_and!; [apply lookup_insert_eq| |].
  - split; [done|]. exists cl, p.
    rewrite (lookup_insert_ne _ sp l), (lookup_insert_ne _ sp cl), lookup_insert_eq, lookup_insert_ne, lookup_insert_eq by done.
    split_and!; [done..|]. apply (organisms_retained (fun _ o => match o with OSpecies _ => False | _ => True end) h);
      [|by intros x []|done].
    intros x o Hx Hno. apply Hr; [done|]. intros ->. rewrite Hsp in Hx. by injection Hx as <-.
  - constructor; [|done]. intros Hin. destruct (organisms_elem _ _ _ _ Ho Hin) as [? ?]. congruence.
Qed.

Lemma insert_organism_spec sp l cl p h w (Q : unit -> world -> Prop) :
  sp <> l -> sp <> cl -> l <> cl -> h !! sp = Some (OSpecies (MkSpecies 0 0 p)) ->
  w_heap w = <[l := OOrganism (MkOrganism (Some 0) (Some (Some cl)) NULL)]> (<[cl := OChromosome (MkChromosome None)]> h) ->
  Q tt (set_heap (with_organism sp l cl p h) w) -> wp (insert_organism (Some sp) (Some l)) Q w.
Proof.
  intros H1 H2 H3 Hs Hh HQ. assert (Hsp : w_heap w !! sp = Some (OSpecies (MkSpecies 0 0 p))).
  { by rewrite Hh, !lookup_insert_ne. }
  apply wp_bind. eapply wp_load_organism; [rewrite Hh; apply lookup_insert_eq|].
  apply wp_bind. eapply wp_load_species; [exact Hsp|].
  apply wp_bind. eapply wp_store; [rewrite Hh; apply lookup_insert_eq|].
  apply wp_bind. eapply wp_load_species; [cbn; by rewrite lookup_insert_ne|].
  eapply wp_store; [cbn; rewrite lookup_insert_ne; [exact Hsp|done]|]. cbn. rewrite Hh, insert_insert_eq. exact HQ.
Qed.

(** What making organisms does to the species at [sp]. *)
Definition populate_post (sp : loc) (n : nat) (w : world) (ls : list loc) (ok : bool) (w' : world) : Prop :=
  steady w w' /\ retains (fun l _ => l <> sp) (w_heap w) (w_heap w') /\
  (oracle_ok w -> ok = true /\ oracle_ok w') /\
  (ok = true -> exists ls', species_at (w_heap w') sp ls' /\ length ls' = (n + length ls)%nat).

Lemma populate_spec sp n : forall w ls,
  heap_wf w -> species_at (w_heap w) sp ls -> wp (populate default_allocator n (Some sp)) (populate_post sp n w ls) w.
Proof.
  induction n as [|n IH]; intros w ls Hwf Hs; cbn [populate].
  { apply wp_ret. split_and!; [done|by intros l o Hl _|done|]. intros _. by exists ls. }
  apply wp_bind, wp_alloc_default; [done|intros Hno; apply wp_bind, wp_write, wp_ret|].
  { split_and!; [done|by intros l o Hl _|done|done]. }
  set (l := w_next w). set (w1 := granted _ w). set (cl := w_next w1).
  destruct Hs as (p & Hsp & Ho & Hnd). pose proof (heap_wf_lt _ _ _ Hwf Hsp) as Hlt.
  assert (Hcl : cl = Pos.succ l) by done.
  assert (sp <> l /\ sp <> cl /\ l <> cl) as (Hn1 & Hn2 & Hn3).
  { subst cl l. cbn. unfold loc in *. split_and!; lia. }
  assert (Hfresh : forall x, x = l \/ x = cl -> w_heap w !! x = None).
  { intros x Hx. apply Hwf. subst cl l. cbn in Hx. unfold loc in *. destruct Hx; subst; lia. }
  apply wp_bind, wp_alloc_default; [done|intros Hno|].
  - apply wp_bind. eapply wp_load_organism; [apply lookup_insert_eq|].
    apply wp_bind. eapply wp_store; [apply lookup_insert_eq|]. apply wp_bind, wp_write.
    apply wp_bind. cbn [free default_allocator default_mem_free]. apply wp_bind.
    eapply wp_eq; [eapply free_loc_eq; apply lookup_insert_eq|]. do 2 apply wp_ret.
    cbn. rewrite insert_insert_eq, delete_insert_id by (apply Hfresh; by left).
    split_and!; [by apply steady_intro; [cbn; lia|..]|by intros x o Hx _|intros Hok; destruct Hno; by apply oracle_ok_tl|done].
  - apply wp_bind. eapply wp_load_organism; [cbn; rewrite lookup_insert_ne by done; apply lookup_insert_eq|].
    apply wp_bind. eapply wp_store; [cbn; rewrite lookup_insert_ne by done; apply lookup_insert_eq|].
    apply wp_bind. eapply wp_load_organism; [apply lookup_insert_eq|].
    apply wp_bind. eapply wp_store; [apply lookup_insert_eq|]. apply wp_bind.
    eapply (insert_organism_spec sp l cl p (w_heap w)); [done..| |].
    { cbn. fold l. by rewrite !insert_insert_eq, (insert_insert_ne _ cl l), insert_insert_eq by done. }
    match goal with |- wp _ _ ?x => set (w3 := x) end.
    assert (Hw3 : steady w w3 /\ retains (fun l _ => l <> sp) (w_heap w) (w_heap w3) /\
      species_at (w_heap w3) sp (l :: ls) /\ (oracle_ok w -> oracle_ok w3)).
    { destruct (with_organism_spec sp l cl p (w_heap w) ls) as [Hr Hs]; [done..|apply Hfresh; by left|apply Hfresh; by right|done|done|].
      split_and!; [|exact Hr|exact Hs|intros Hok; by do 2 apply oracle_ok_tl].
      apply steady_intro; [cbn; lia| |done..]. intros x Hx Hxn. cbn in Hx. unfold loc in *.
      subst w3. cbn. unfold with_organism. rewrite !lookup_insert_ne by lia. exact Hxn. }
    destruct Hw3 as (Hst & Hr & Hs3 & Ho3).
    eapply wp_mono; [apply (IH w3 (l :: ls)); [by apply (st_wf _ _ Hst)|done]|].
    intros ok w4 (Hst4 & Hr4 & Hok4 & H4). split_and!.
    + by etrans.
    + intros x o Hx Hxs. by apply Hr4, Hxs; apply Hr.
    + intros Hok. auto.
    + intros Ht. destruct (H4 Ht) as (ls' & Hls & Hlen). exists ls'. split; [done|]. cbn in Hlen. lia.
Qed.

(** The world at [wl], with its species index at [al]: the species [ss] and
    [m] more that are not assigned. *)
Definition peopled (wl al : loc) (total : Z) (ss : list loc) (m : nat) (w : world) : Prop :=
  gen_world_ptr (m_gen (w_mods w)) = Some wl /\
  w_heap w !! wl = Some (OPopulation (MkPopulation total 0 (Some al))) /\
  w_heap w !! al = Some (OPtrs (map Some ss ++ replicate m NULL)) /\ NoDup ss /\ Forall (populated (w_heap w)) ss.

Definition species_post (wl al : loc) (total : Z) (n m : nat) (w : world) (ss : list loc) (ok : bool) (w' : world) : Prop :=
  steady w w' /\ retains (fun l _ => l <> al) (w_heap w) (w_heap w') /\
  (oracle_ok w -> ok = true /\ oracle_ok w') /\
  (ok = true -> exists ss', peopled wl al total ss' m w' /\ length ss' = (n + length ss)%nat).

Lemma peopled_add wl al total ss m w s :
  peopled wl al total ss (S m) w -> populated (w_heap w) s -> s ∉ ss -> wl <> al ->
  set_z (map Some ss ++ replicate (S m) NULL) (Z.of_nat (length ss)) (Some s) = Some (map Some (ss ++ [s]) ++ replicate m NULL) /\
  peopled wl al total (ss ++ [s]) m (set_heap (<[al := OPtrs (map Some (ss ++ [s]) ++ replicate m NULL)]> (w_heap w)) w).
Proof.
  intros (Hg & Hw & Ha & Hnd & Hall) Hs Hnin Hne. split.
  - rewrite set_z_lt by (rewrite length_app, length_map, length_replicate; lia). f_equal. rewrite Nat2Z.id.
    rewrite map_app, <- app_assoc. rewrite insert_app_r_alt by (by rewrite length_map).
    by rewrite length_map, Nat.sub_diag.
  - split_and!; cbn; [done|by rewrite lookup_insert_ne|apply lookup_insert_eq| |].
    + apply NoDup_app. split_and!; [done|set_solver|apply NoDup_singleton].
    + assert (Hr : retains people (w_heap w) (<[al := OPtrs (map Some (ss ++ [s]) ++ replicate m NULL)]> (w_heap w))).
      { intros l o Hl Hp. rewrite lookup_insert_ne; [done|]. intros <-. rewrite Ha in Hl. by injection Hl as <-. }
      apply Forall_app. split; [eapply Forall_impl; [exact Hall|]; intros x; by apply populated_retained|].
      apply Forall_singleton. by eapply populated_retained.
Qed.

Lemma create_species_spec wl al total m n : wl <> al -> forall w ss,
  heap_wf w -> peopled wl al total ss (n + m) w ->
  wp (create_species default_allocator n (Z.of_nat (length ss))) (species_post wl al total n m w ss) w.
Proof.
  intros Hne. induction n as [|n IH]; intros w ss Hwf Hp; cbn [create_species].
  { apply wp_ret. split_and!; [done|by intros l o Hl _|done|]. intros _. by exists ss. }
  apply wp_bind, wp_alloc_default; [done|intros Hno; apply wp_bind, wp_write, wp_ret|].
  { split_and!; [done|by intros l o Hl _|done|done]. }
  apply wp_bind. eapply wp_store; [apply lookup_insert_eq|]. cbn [w_heap set_heap granted set_next].
  rewrite insert_insert_eq. set (s := w_next w).
  match goal with |- wp _ _ ?x => set (w1 := x) end.
  apply wp_bind. eapply wp_mono; [apply (populate_spec s _ w1 [])|].
  { by apply heap_wf_granted. }
  { exists NULL. split_and!; [apply lookup_insert_eq|done|constructor]. }
  intros ok w2 (Hst2 & Hr2 & Ho2 & H2).
  assert (Hr : retains (fun _ _ => True) (w_heap w) (w_heap w2)).
  { intros l o Hl _. pose proof (heap_wf_lt _ _ _ Hwf Hl). apply Hr2; [|subst s; unfold loc in *; lia].
    subst w1 s. cbn. rewrite lookup_insert_ne; [done|]. unfold loc in *. lia. }
  assert (Hst : steady w w2).
  { etrans; [|exact Hst2]. apply steady_granted. }
  assert (Hok : oracle_ok w -> ok = true /\ oracle_ok w2).
  { intros Ho. apply Ho2. exact (oracle_ok_tl w Ho). }
  destruct ok.
  2:{ apply wp_ret. split_and!; [done|by intros l o Hl _; apply Hr|done|done]. }
  destruct (H2 eq_refl) as (ls & Hls & Hlen).
  destruct Hp as (Hg & Hw & Ha & Hnd & Hall).
  assert (Hp2 : peopled wl al total ss (S (n + m)) w2).
  { split_and!; [by rewrite (st_mods _ _ Hst)|by apply Hr|by apply Hr|done|].
    eapply Forall_impl; [exact Hall|]. intros x. apply populated_retained. by intros l o Hl _; apply Hr. }
  assert (Hnin : s ∉ ss).
  { intros Hin. eapply Forall_forall in Hall; [|exact Hin]. destruct Hall as (? & (p & Hs & _) & _).
    apply (heap_wf_lt _ _ _ Hwf) in Hs. unfold s, loc in *. lia. }
  destruct (peopled_add wl al total ss (n + m) w2 s Hp2) as [Hset Hp3]; [|done|done|].
  { exists ls. split; [done|]. cbn in Hlen. lia. }
  apply wp_bind, wp_gets. rewrite (st_mods _ _ Hst), Hg.
  apply wp_bind. eapply wp_load_population; [by apply Hr|]. cbn [pop_species].
  apply wp_bind. eapply wp_eq; [eapply store_elem_eq; [by apply Hr|exact Hset]|].
  replace (Z.of_nat (length ss) + 1) with (Z.of_nat (length (ss ++ [s]))) by (rewrite length_app; cbn; lia).
  match goal with |- wp _ _ ?x => set (w3 := x) in * end.
  assert (Hst3 : steady w2 w3).
  { apply steady_intro; [done| |done..]. intros l Hl Hn. subst w3. cbn. rewrite lookup_insert_ne; [done|].
    intros <-. discriminate (eq_trans (eq_sym (Hr _ _ Ha I)) Hn). }
  assert (Hwf3 : heap_wf w3) by (by apply (st_wf _ _ Hst3), (st_wf _ _ Hst)).
  eapply wp_mono; [by apply IH|]. intros ok w4 (Hst4 & Hr4 & Ho4 & H4). split_and!.
  - etrans; [exact Hst|]. by etrans.
  - intros l o Hl Hla. apply Hr4; [|done]. cbn. rewrite lookup_insert_ne by done. by apply Hr.
  - intros Ho. by apply Ho4, Hok.
  - intros Ht. destruct (H4 Ht) as (ss' & Hp' & Hlen'). exists ss'. split; [done|].
    rewrite Hlen', length_app. cbn. lia.
Qed.

(** ** The table of the system calls *)

(** The table [get_syscall_table] answers. *)
Definition table_available (plat : platform) (t : syscall_table) (w : world) : Prop :=
  if decide (table_set (w_sys w) = TRUE)
  then exists tl, sys_table (w_sys w) = Some tl /\ w_heap w !! tl = Some (OTable t)
  else entries_ok plat (w_entries w) /\ t = platform_table plat.

Definition not_table (l : loc) (o : hobj) : Prop := match o with OTable _ => False | _ => True end.

Record got_table (plat : platform) (t : syscall_table) (w : world) (r : ptr) (w' : world) : Prop := {
  gt_grants : oracle_ok w -> is_Some r /\ oracle_ok w';
  gt_wf : heap_wf w';
  gt_sys : w_sys w' = w_sys w;
  gt_mods : w_mods w' = w_mods w;
  gt_heap : retains (fun _ _ => True) (w_heap w) (w_heap w');
  gt_available : table_available plat t w';
  gt_table : forall tl, r = Some tl -> w_heap w' !! tl = Some (OTable t) /\
    if decide (table_set (w_sys w) = TRUE) then sys_table (w_sys w) = Some tl else w_heap w !! tl = None
}.

Lemma get_syscall_table_spec plat t w : heap_wf w -> table_available plat t w ->
  wp (get_syscall_table plat default_allocator) (got_table plat t w) w.
Proof.
  intros Hwf Hav. unfold get_syscall_table. apply wp_bind, wp_gets. unfold table_available in Hav.
  case_decide as Hd.
  - rewrite Hd. cbn. destruct Hav as (tl & Hs & Htl). rewrite Hs. apply wp_ret. split; try done.
    + by intros l o Hl _.
    + unfold table_available. rewrite decide_True by done. eauto.
    + intros ? [= <-]. by rewrite decide_True.
  - apply Z.eqb_neq in Hd as Hd'. rewrite Hd'. destruct Hav as [Hes ->].
    destruct (hd 0 (w_oracle w) <? 0) eqn:Ea.
    + assert (Hrun : build_syscall_table plat default_allocator w =
        (write ERROR "Can't create shadow table\n" ;;; ret NULL) (asked w)).
      { unfold build_syscall_table. erewrite bind_eq by reflexivity. cbv beta iota.
        cbn [shared default_allocator]. unfold default_mem_alloc_shared.
        by erewrite bind_eq by (by erewrite bind_eq by (apply mmap_anon_refused; by apply Z.ltb_lt)). }
      unfold wp. rewrite Hrun. split; try done.
      * intros Ho. exfalso. by eapply oracle_ok_refused.
      * by intros l o Hl _.
      * unfold table_available. by rewrite decide_False.
    + eapply wp_eq; [by apply build_syscall_table_eq|]. split; try done.
      * intros Ho. split; [done|]. exact (oracle_ok_tl w Ho).
      * by apply (heap_wf_granted w (OTable (platform_table plat))).
      * intros l o Hl _. by apply (al_heap _ _ (allocates_granted w (OTable (platform_table plat)) Hwf)).
      * unfold table_available. rewrite decide_False by done. split; [|done]. by apply built_entries_ok.
      * intros tl [= <-]. rewrite decide_False by done. split; [apply lookup_insert_eq|]. apply Hwf. lia.
Qed.

Lemma cleanup_syscall_table_spec tl t w (Q : ptr -> world -> Prop) :
  w_heap w !! tl = Some (OTable t) -> is_Some (nth_z (sys_entry t) 0) ->
  (forall ev, Q NULL (set_events ev (set_heap (delete tl (w_heap w)) w))) ->
  wp (cleanup_syscall_table (Some tl) default_allocator) Q w.
Proof.
  intros Htl [first Hf] HQ. unfold cleanup_syscall_table. apply wp_bind. eapply wp_eq; [by apply load_table_eq|].
  rewrite Hf. apply wp_bind, wp_ret. apply wp_bind.
  assert (Hfree : forall w' t', w_heap w' !! tl = Some (OTable t') -> Q NULL (set_heap (delete tl (w_heap w')) w') ->
    wp (free_shared default_allocator (Some tl) (sizeof (OTable t))) Q w').
  { intros w' t' Hl Hq. cbn [free_shared default_allocator]. unfold default_mem_free_shared. apply wp_bind.
    eapply wp_eq; [by eapply munmap_eq|]. by apply wp_ret. }
  destruct first as [k|].
  - apply wp_bind, wp_modify. eapply wp_store; [done|]. eapply Hfree; [apply lookup_insert_eq|]. cbn.
    rewrite delete_insert_eq. exact (HQ _).
  - apply wp_ret. eapply Hfree; [done|]. specialize (HQ (w_events w)). by destruct w.
Qed.

(** ** Genesis *)

(** A world that has been made: every species but the last one is there, with
    its organisms. *)
Definition world_made (t : syscall_table) (w : world) : Prop :=
  exists wl al ss, peopled wl al (total_syscalls t) ss 1 w /\ Z.of_nat (length ss) = total_syscalls t - 1.

Definition usable_table (t : syscall_table) : Prop := 0 < total_syscalls t < 2 ^ 32 /\ is_Some (nth_z (sys_entry t) 0).

Record made (P : loc -> hobj -> Prop) (plat : platform) (t : syscall_table) (w w' : world) : Prop := {
  md_wf : heap_wf w';
  md_sys : w_sys w' = w_sys w;
  md_stop : gen_stop (m_gen (w_mods w')) = gen_stop (m_gen (w_mods w));
  md_heap : retains P (w_heap w) (w_heap w');
  md_table : table_available plat t w';
  md_world : world_made t w'
}.

Lemma table_available_retained plat t w w' (P : loc -> hobj -> Prop) :
  w_sys w' = w_sys w -> w_entries w' = w_entries w -> retains P (w_heap w) (w_heap w') -> (forall l t, P l (OTable t)) ->
  table_available plat t w -> table_available plat t w'.
Proof.
  intros Hs He Hr HP. unfold table_available. rewrite Hs, He. case_decide; [|done].
  intros (tl & Htl & Hl). exists tl. split; [done|]. by apply Hr.
Qed.

Section genesis.
Context (plat : platform) (t : syscall_table) (Ht : usable_table t).

Lemma peopled_start wl al w :
  gen_world_ptr (m_gen (w_mods w)) = Some wl ->
  w_heap w !! wl = Some (OPopulation (MkPopulation (total_syscalls t) 0 (Some al))) ->
  w_heap w !! al = Some (OPtrs (replicate (Z.to_nat (total_syscalls t)) NULL)) ->
  peopled wl al (total_syscalls t) [] (Z.to_nat (u32 (total_syscalls t - 1)) + 1) w.
Proof.
  intros Hg Hw Ha. destruct Ht as [Htot _]. split_and!; [done..| |constructor|constructor]. rewrite Ha. cbn.
  rewrite u32_small by lia. do 3 f_equal. lia.
Qed.

Lemma init_species_spec w wl tl : heap_wf w -> table_available plat t w ->
  gen_world_ptr (m_gen (w_mods w)) = Some wl -> w_heap w !! wl = Some (OPopulation (MkPopulation 0 0 NULL)) ->
  w_heap w !! tl = Some (OTable t) ->
  wp (init_species default_allocator (Some tl))
    (fun r w' => (r = 0 /\ made (fun l _ => l <> wl) plat t w w' \/ r = -1) /\ (oracle_ok w -> r = 0 /\ oracle_ok w')) w.
Proof.
  intros Hwf Hav Hg Hwl Htl. assert (Hne : wl <> tl) by congruence.
  apply wp_bind. eapply wp_eq; [by apply load_table_eq|]. apply wp_bind, wp_gets. rewrite Hg.
  apply wp_bind. eapply wp_load_population; [done|]. apply wp_bind. eapply wp_store; [done|].
  destruct Ht as [Htot Hfirst]. apply wp_bind, wp_alloc_default.
  { cbn [sizeof]. rewrite length_replicate. lia. }
  { intros Hno. apply wp_bind. eapply wp_store; [apply lookup_insert_eq|]. apply wp_bind, wp_write, wp_bind.
    eapply cleanup_syscall_table_spec; [cbn; by rewrite !lookup_insert_ne|done|]. intros ev. apply wp_ret. split; [by right|done]. }
  set (al := w_next _). apply wp_bind. assert (Hlt : wl <> al) by (exact (heap_wf_ne _ _ _ Hwf Hwl)).
  eapply wp_store; [cbn; rewrite lookup_insert_ne by done; apply lookup_insert_eq|]. apply wp_bind.
  match goal with |- wp _ _ ?x => set (w3 := x) end.
  assert (Hwf3 : heap_wf w3).
  { eapply st_wf; [|exact Hwf]. apply steady_intro; [cbn; lia| |done..]. intros l Hl Hn. subst w3. cbn.
    rewrite !lookup_insert_ne; [exact Hn|..].
    - intros <-. discriminate (eq_trans (eq_sym Hwl) Hn).
    - intros <-. cbn in Hl. unfold al, loc in Hl. cbn in Hl. lia.
    - intros <-. discriminate (eq_trans (eq_sym Hwl) Hn). }
  eapply wp_mono; [apply (create_species_spec wl al (total_syscalls t) 1 _ Hlt w3 []); [exact Hwf3|]|].
  { apply peopled_start; [exact Hg|apply lookup_insert_eq|]. cbn. rewrite lookup_insert_ne by done. apply lookup_insert_eq. }
  intros ok w4 (Hst & Hr4 & Ho4 & H4).
  assert (Hr : retains (fun l _ => l <> wl) (w_heap w) (w_heap w4)).
  { intros l o Hl Hlw. assert (al <> l) by (exact (not_eq_sym (heap_wf_ne _ _ _ Hwf Hl))).
    apply Hr4; [|done]. cbn. by rewrite !lookup_insert_ne. }
  apply wp_ret. split; [|intros Ho; destruct Ho4 as [-> ?]; [exact (oracle_ok_tl w Ho)|done]].
  destruct ok; [left|by right]. split; [done|]. destruct (H4 eq_refl) as (ss & Hp & Hlen).
  split; [by apply (st_wf _ _ Hst)|exact (st_sys _ _ Hst)|by rewrite (st_mods _ _ Hst)|done| |].
  - eapply (table_available_retained plat t w _ (fun _ o => match o with OTable _ => True | _ => False end));
      [exact (st_sys _ _ Hst)|exact (st_entries _ _ Hst)| |done|done].
    intros l o Hl Htab. apply Hr; [done|]. intros ->. rewrite Hwl in Hl. by injection Hl as <-.
  - exists wl, al, ss. split; [done|]. rewrite Hlen. cbn. rewrite u32_small by lia. lia.
Qed.

Lemma init_world_spec w : heap_wf w -> table_available plat t w ->
  wp (init_world plat default_allocator)
    (fun r w' => (r = 0 /\ made (fun _ _ => True) plat t w w' \/ r = -1) /\ (oracle_ok w -> r = 0 /\ oracle_ok w')) w.
Proof.
  intros Hwf Hav. unfold init_world. apply wp_bind, wp_write.
  apply wp_bind, wp_alloc_default; [done|intros Hno|].
  { apply wp_bind, wp_modify, wp_bind, wp_write, wp_ret. split; [by right|done]. }
  apply wp_bind, wp_modify. set (wl := w_next _). apply wp_bind.
  match goal with |- wp _ _ ?x => set (w1 := x) end.
  assert (Hwf1 : heap_wf w1) by (by apply (heap_wf_granted w (OPopulation (MkPopulation 0 0 NULL)))).
  assert (Hr1 : retains (fun _ _ => True) (w_heap w) (w_heap w1)).
  { intros l o Hl _. by apply (al_heap _ _ (allocates_granted w (OPopulation (MkPopulation 0 0 NULL)) Hwf)). }
  assert (Hav1 : table_available plat t w1) by (by eapply (table_available_retained plat t w)).
  assert (Ho1 : oracle_ok w -> oracle_ok w1) by (exact (oracle_ok_tl w)).
  eapply wp_mono; [by apply get_syscall_table_spec|]. intros [tl|] w2 H2.
  2:{ apply wp_bind, wp_write, wp_ret. split; [by right|]. intros Ho.
      by destruct (gt_grants _ _ _ _ _ H2 (Ho1 Ho)) as [[? ?] _]. }
  eapply wp_mono; [apply (init_species_spec w2 wl tl)|].
  - exact (gt_wf _ _ _ _ _ H2).
  - exact (gt_available _ _ _ _ _ H2).
  - by rewrite (gt_mods _ _ _ _ _ H2).
  - apply (gt_heap _ _ _ _ _ H2); [apply lookup_insert_eq|done].
  - by apply (gt_table _ _ _ _ _ H2).
  - intros r w3 [Hr Ho]. split; [|intros Hok; by apply Ho, (gt_grants _ _ _ _ _ H2), Ho1].
    destruct Hr as [[-> [Hw Hs Hst Hh Ha Hm]]|]; [left|by right]. split; [done|]. split; [done| | | |done|done].
    + by rewrite Hs, (gt_sys _ _ _ _ _ H2).
    + by rewrite Hst, (gt_mods _ _ _ _ _ H2).
    + intros l o Hl _. apply Hh; [apply (gt_heap _ _ _ _ _ H2); [by apply Hr1|done]|]. exact (heap_wf_ne _ _ _ Hwf Hl).
Qed.

(** What the empty first generation leaves: everything but a table, which is
    the module's own one if there is one. *)
Definition first_generation (w w' : world) : Prop :=
  w_sys w' = w_sys w /\ w_mods w' = w_mods w /\ retains not_table (w_heap w) (w_heap w') /\
  (table_set (w_sys w) = TRUE -> forall tl, sys_table (w_sys w) = Some tl -> w_heap w' !! tl = None).

Lemma create_first_generation_spec w : heap_wf w -> table_available plat t w ->
  wp (create_first_generation plat default_allocator)
    (fun r w' => (r = 0 /\ first_generation w w' \/ r = -1) /\ (oracle_ok w -> r = 0)) w.
Proof.
  intros Hwf Hav. unfold create_first_generation. apply wp_bind, wp_write, wp_bind.
  eapply wp_mono; [by apply get_syscall_table_spec|]. intros [tl|] w2 H2.
  2:{ apply wp_bind, wp_write, wp_ret. split; [by right|]. intros Ho. by destruct (gt_grants _ _ _ _ _ H2 Ho) as [[? ?] _]. }
  destruct (gt_table _ _ _ _ _ H2 tl eq_refl) as [Htl Hown]. destruct Ht as [Htot Hfirst].
  apply wp_bind. eapply wp_eq; [by apply load_table_eq|]. apply wp_bind.
  eapply cleanup_syscall_table_spec; [done..|]. intros ev. apply wp_ret. split; [left; split; [done|]|done]. split_and!.
  - exact (gt_sys _ _ _ _ _ H2).
  - exact (gt_mods _ _ _ _ _ H2).
  - intros l o Hl Hnt. cbn. rewrite lookup_delete_ne; [by apply (gt_heap _ _ _ _ _ H2)|].
    intros <-. pose proof (gt_heap _ _ _ _ _ H2 _ _ Hl I) as Hl'. rewrite Htl in Hl'. by injection Hl' as <-.
  - intros Hset tl' Htl'. cbn in *. rewrite decide_True in Hown by done. rewrite Hown in Htl'. injection Htl' as <-.
    apply lookup_delete_eq.
Qed.

Lemma peopled_retained wl al total ss m w w' :
  w_mods w' = w_mods w -> retains not_table (w_heap w) (w_heap w') -> peopled wl al total ss m w -> peopled wl al total ss m w'.
Proof.
  intros Hm Hr (Hg & Hw & Ha & Hnd & Hall). split_and!; [by rewrite Hm|by apply Hr|by apply Hr|done|].
  eapply Forall_impl; [exact Hall|]. intros x. apply populated_retained. intros l o Hl Hp. apply Hr; [done|]. by destruct o.
Qed.

(** What a successful [genesis] leaves. *)
Definition created (w w' : world) : Prop :=
  world_made t w' /\ w_sys w' = w_sys w /\ gen_stop (m_gen (w_mods w')) = gen_stop (m_gen (w_mods w)) /\
  retains not_table (w_heap w) (w_heap w') /\
  (table_set (w_sys w) = TRUE -> forall tl, sys_table (w_sys w) = Some tl -> w_heap w' !! tl = None).

Lemma genesis_spec w : heap_wf w -> table_available plat t w ->
  wp (genesis plat default_allocator) (fun r w' => (r = 0 /\ created w w' \/ r = -1) /\ (oracle_ok w -> r = 0)) w.
Proof.
  intros Hwf Hav. unfold genesis. apply wp_bind. eapply wp_mono; [by apply init_world_spec|].
  intros r w1 [[[-> Hm]| ->] Hok]; cbn [Z.ltb Z.compare].
  2:{ apply wp_bind, wp_write, wp_ret. split; [by right|]. intros Ho. by destruct (Hok Ho). }
  apply wp_bind. eapply wp_mono; [apply create_first_generation_spec; [by apply (md_wf _ _ _ _ _ Hm)|by apply (md_table _ _ _ _ _ Hm)]|].
  intros r w2 [[[-> (Hs & Hmods & Hr & Hd)]| ->] Hok2]; cbn [Z.ltb Z.compare].
  2:{ apply wp_bind, wp_write, wp_ret. split; [by right|]. intros Ho. by discriminate (Hok2 (proj2 (Hok Ho))). }
  apply wp_ret. split; [left; split; [done|]|done]. rewrite (md_sys _ _ _ _ _ Hm) in *. split_and!.
  - destruct (md_world _ _ _ _ _ Hm) as (wl & al & ss & Hp & Hlen). exists wl, al, ss. split; [|done].
    by eapply peopled_retained.
  - done.
  - rewrite Hmods. apply (md_stop _ _ _ _ _ Hm).
  - intros l o Hl Hnt. apply Hr; [|done]. by apply (md_heap _ _ _ _ _ Hm).
  - done.
Qed.
End genesis.

(** (C20) Making the first population either fails with -1 or returns 0, and in
    an environment that grants every request it returns 0. Having returned 0
    it has made the world of the table's calls: each species but the last one
    has a list of a thousand different organisms, each with a chromosome, and
    the last slot of the species index is never assigned. *)
Theorem genesis_correct plat t w :
  heap_wf w -> usable_table t -> table_available plat t w ->
  wp (genesis plat default_allocator) (fun r w' => (r = 0 /\ world_made t w' \/ r = -1) /\ (oracle_ok w -> r = 0)) w.
Proof.
  intros Hwf Ht Hav. eapply wp_mono; [by apply genesis_spec|]. intros r w' [[[-> [Hm _]]| ->] Ho]; split; auto.
Qed.

(** (C27) Once the system call module is set up, [get_syscall_table] answers the
    module's own table, and [create_first_generation] releases it: in an
    environment that grants every request [genesis] returns 0 and leaves the
    module pointing to a table that is gone from the process.  From then on
    every choice of a system call in the process crashes, for as long as the
    module keeps that pointer and nothing is mapped there again.  (Where a
    request is refused [genesis] may give up before the release; a child
    forked before it has a mapping of its own.) *)
Theorem genesis_releases_module_table plat t w tl :
  heap_wf w -> oracle_ok w -> usable_table t -> table_set (w_sys w) = TRUE -> sys_table (w_sys w) = Some tl ->
  w_heap w !! tl = Some (OTable t) ->
  exists w', genesis plat default_allocator w = Ret 0 w' /\ sys_table (w_sys w') = Some tl /\ w_heap w' !! tl = None /\
    forall later child random, sys_table (w_sys later) = sys_table (w_sys w') -> w_heap later !! tl = w_heap w' !! tl ->
      pick_syscall child random later = Crash.
Proof.
  intros Hwf Ho Ht Hset Htl Hl. assert (Hav : table_available plat t w).
  { unfold table_available. rewrite decide_True by done. eauto. }
  destruct (wp_run _ _ _ (genesis_spec plat t Ht w Hwf Hav)) as (r & w' & Hrun & [Hr Hok]).
  specialize (Hok Ho) as ->. destruct Hr as [[_ (_ & Hs & _ & _ & Hgone)]|]; [|done].
  exists w'. rewrite Hs. specialize (Hgone Hset tl Htl). split_and!; [done..|]. intros later child random Es El.
  unfold pick_syscall. erewrite bind_eq by reflexivity. rewrite Es, Htl. unfold load_table. rewrite bind_assoc.
  unfold bind at 1, load. by rewrite El, Hgone.
Qed.

(** ** The thread *)

Lemma get_console_ok w : oracle_ok w -> get_console_writter w = Ret (Some (w_next w)) (granted (junk 8) w).
Proof. intros Ho. unfold get_console_writter. by erewrite bind_eq by (by apply malloc_ok). Qed.

Lemma get_allocator_ok w : oracle_ok w -> get_default_allocator w = Ret (Some default_allocator) (granted (junk 32) w).
Proof.
  intros Ho. unfold get_default_allocator, default_mem_alloc. change (sizeof (junk 32) =? 0) with false. cbv iota.
  rewrite bind_assoc. by erewrite bind_eq by (by apply malloc_ok).
Qed.

(** What the first step of the thread leaves of the flag and the pointer to
    it. *)
Lemma god_start_spec plat t w :
  heap_wf w -> oracle_ok w -> usable_table t -> table_available plat t w ->
  exists w', god_loop plat GodStart w = Ret GodLoop w' /\
    gen_stop (m_gen (w_mods w')) = gen_stop (m_gen (w_mods w)) /\ retains not_table (w_heap w) (w_heap w').
Proof.
  intros Hwf Ho Ht Hav. set (w1 := granted (junk 8) w). set (w2 := granted (junk 32) w1).
  assert (Ho1 : oracle_ok w1) by (by apply oracle_ok_granted).
  assert (Hwf2 : heap_wf w2) by (by do 2 apply heap_wf_granted).
  assert (Hr2 : retains (fun _ _ => True) (w_heap w) (w_heap w2)).
  { intros l o Hl _. apply (al_heap _ _ (allocates_granted w1 (junk 32) (heap_wf_granted _ _ Hwf))).
    by apply (al_heap _ _ (allocates_granted w (junk 8) Hwf)). }
  assert (Hav2 : table_available plat t w2) by (by eapply (table_available_retained plat t w)).
  destruct (wp_run _ _ _ (genesis_spec plat t Ht w2 Hwf2 Hav2)) as (r & w' & Hrun & [Hr Hok]).
  specialize (Hok (oracle_ok_granted _ _ Ho1)) as ->. destruct Hr as [[_ (_ & _ & Hstop & Hr & _)]|]; [|done].
  exists w'. split_and!; [|done|intros l o Hl Hn; by apply Hr; [apply Hr2|]].
  unfold god_loop. erewrite bind_eq by (by apply get_console_ok). erewrite bind_eq by (by apply get_allocator_ok).
  cbv beta iota. by erewrite bind_eq by exact Hrun.
Qed.

(** A test of the loop reads the flag, or a null pointer. *)
Lemma god_test plat sl v w : w_heap w !! sl = Some (OInt v) ->
  (gen_stop (m_gen (w_mods w)) = NULL -> god_loop plat GodLoop w = Crash) /\
  (gen_stop (m_gen (w_mods w)) = Some sl ->
     god_loop plat GodLoop w = Ret (if v =? TRUE then GodEnd else GodLoop) w).
Proof.
  intros Hv. unfold god_loop. split; intros Hs; erewrite bind_eq by reflexivity; cbv beta; rewrite Hs; [done|].
  by erewrite bind_eq by (by apply load_int_eq).
Qed.

Section race.
Context (plat : platform) (t : syscall_table) (mode : genetic_mode) (sl : loc) (Ht : usable_table t).

(** What is left of the caller after its first and its second step. *)
Definition before_stop : prog := step! _ := mod_gen (set_gen_stop (Some sl)) in Done 0.
Definition before_mode : prog := step! _ := mod_gen (set_run_mode mode) in before_stop.

Definition stop_of (w : world) : ptr := gen_stop (m_gen (w_mods w)).

(** What a thread that has not begun needs. *)
Definition can_begin (w : world) : Prop := heap_wf w /\ oracle_ok w /\ table_available plat t w.

(** The stages of the caller: [stop] is null until its last step. *)
Inductive stage : prog -> option god_pc -> world -> Prop :=
| stage_first w : god_created w = false -> stop_of w = NULL -> can_begin w ->
    stage (setup_genetic_module mode (Some sl)) None w
| stage_early p pc w : p = before_mode \/ p = before_stop -> stop_of w = NULL -> pc <> GodEnd ->
    (pc = GodStart -> can_begin w) -> stage p (Some pc) w
| stage_late pc w : stop_of w = Some sl -> (pc = GodStart -> can_begin w) -> stage (Done 0) (Some pc) w.

Definition race_inv (s : race) : Prop :=
  match s with
  | Racing p th w => stage p th w /\ exists v, w_heap w !! sl = Some (OInt v)
  | Wrong => True
  end.

(** The flag is no object the thread's first step depends on. *)
Lemma can_begin_stop w v : w_heap w !! sl = Some (OInt v) -> can_begin w ->
  can_begin (set_heap (<[sl := OInt TRUE]> (w_heap w)) w).
Proof.
  intros Hv (Hwf & Ho & Hav). split_and!; [|done|].
  - intros l Hl. cbn. rewrite lookup_insert_ne; [by apply Hwf|]. intros <-. cbn in Hl. rewrite Hwf in Hv by done. done.
  - eapply (table_available_retained plat t w _ (fun l o => match o with OTable _ => True | _ => False end)); try done.
    intros l o Hl Hp. cbn. rewrite lookup_insert_ne; [done|]. intros <-. rewrite Hv in Hl. by injection Hl as <-.
Qed.

Lemma create_thread w : oracle_ok w -> exists w', pthread_create fn_god_loop w = Ret 0 w' /\
  god_created w' = true /\ stop_of w' = stop_of w /\ w_heap w' = w_heap w /\ (can_begin w -> can_begin w').
Proof.
  intros Ho. eexists. split; [unfold pthread_create, bind, ask; by rewrite oracle_ok_hd|]. split_and!; [done..|].
  intros (Hwf & _ & Hav). split_and!; [done|exact (oracle_ok_tl w Ho)|done].
Qed.

Lemma race_inv_step s s' : race_inv s -> race_step plat sl s s' -> race_inv s'.
Proof.
  intros Hi Hstep. destruct Hstep as [m th w p w' Hrun|m th w Hrun|p pc w pc' w' Hne Hrun|p pc w Hne Hrun|p th w v Hv];
    [..|]; try exact I; destruct Hi as [Hs [v' Hv']].
  - inversion Hs as [w0 Hev Hnull Hcb|p0 pc w0 Hp Hnull Hpc Hcb|]; subst.
    + destruct (create_thread w) as (w1 & Hc & Hin & Hstop & Hheap & Hcb1); [apply Hcb|].
      erewrite bind_eq in Hrun by exact Hc. injection Hrun as <- <-.
      unfold spawned. rewrite Hin. split; [|rewrite Hheap; eauto].
      constructor; [by left|congruence|done|auto].
    + destruct Hp as [E|E]; injection E as ->; injection Hrun as <- <-; (split; [|eauto]).
      * constructor; [by right|done..].
      * by constructor.
  - inversion Hs as [|p0 pc0 w0 Hp Hnull Hpc Hcb|pc0 w0 Hstop Hcb]; subst.
    + destruct pc; [|by rewrite (proj1 (god_test plat sl v' w Hv') Hnull) in Hrun|done].
      destruct (Hcb eq_refl) as (Hwf & Ho & Hav).
      destruct (god_start_spec plat t w Hwf Ho Ht Hav) as (w1 & Hg & Hst & Hr). rewrite Hg in Hrun. injection Hrun as <- <-.
      split; [|exists v'; by apply Hr]. constructor; [done|unfold stop_of; by rewrite Hst|done|done].
    + destruct pc; [| |done].
      * destruct (Hcb eq_refl) as (Hwf & Ho & Hav).
        destruct (god_start_spec plat t w Hwf Ho Ht Hav) as (w1 & Hg & Hst & Hr). rewrite Hg in Hrun. injection Hrun as <- <-.
        split; [|exists v'; by apply Hr]. constructor; [unfold stop_of; by rewrite Hst|done].
      * rewrite (proj2 (god_test plat sl v' w Hv') Hstop) in Hrun. injection Hrun as <- <-.
        split; [|eauto]. constructor; [done|]. by destruct (v' =? TRUE).
  - split; [|exists TRUE; apply lookup_insert_eq].
    inversion Hs; subst; [apply stage_first|apply stage_early|apply stage_late]; eauto using can_begin_stop.
Qed.

Lemma race_inv_reach s s' : race_inv s -> rtc (race_step plat sl) s s' -> race_inv s'.
Proof. intros Hi Hr. induction Hr; eauto using race_inv_step. Qed.

(** Where a step can go wrong. *)
Lemma stage_wrong p th w v : stage p th w -> w_heap w !! sl = Some (OInt v) ->
  race_step plat sl (Racing p th w) Wrong <-> th = Some GodLoop /\ stop_of w = NULL.
Proof.
  intros Hs Hv. split; [|intros [-> Hn]; apply race_thread_wrong; [done|by apply (god_test plat sl v w Hv)]].
  intros Hstep. inversion Hstep as [|m th' w' Hrun| |p' pc w' Hne Hrun|]; subst.
  - inversion Hs as [w0 Hev Hnull Hcb|p0 pc w0 Hp|]; subst.
    + destruct (create_thread w) as (w1 & Hc & _); [apply Hcb|].
      erewrite bind_eq in Hrun by exact Hc. discriminate Hrun.
    + destruct Hp as [E|E]; injection E as ->; discriminate Hrun.
  - assert (Hstart : (pc = GodStart -> can_begin w) -> pc <> GodStart).
    { intros Hcb ->. destruct (Hcb eq_refl) as (Hwf & Ho & Hav).
      destruct (god_start_spec plat t w Hwf Ho Ht Hav) as (w1 & Hg & _). by rewrite Hg in Hrun. }
    inversion Hs as [|p0 pc0 w0 Hp Hnull Hpc Hcb|pc0 w0 Hstop Hcb]; subst; specialize (Hstart Hcb).
    + by destruct pc.
    + destruct pc; [done| |done]. by rewrite (proj2 (god_test plat sl v w Hv) Hstop) in Hrun.
Qed.

(** Once the caller has returned, the thread can be stopped. *)
Lemma late_end pc w v : stage (Done 0) (Some pc) w -> w_heap w !! sl = Some (OInt v) ->
  exists w', rtc (race_step plat sl) (Racing (Done 0) (Some pc) w) (Racing (Done 0) (Some GodEnd) w').
Proof.
  intros Hs Hv.
  assert (Hloop : forall w v, stop_of w = Some sl -> w_heap w !! sl = Some (OInt v) ->
    exists w', rtc (race_step plat sl) (Racing (Done 0) (Some GodLoop) w) (Racing (Done 0) (Some GodEnd) w')).
  { intros w1 v1 H1 H2. eexists. eapply rtc_l; [by eapply race_stop|]. eapply rtc_once, race_thread; [done|].
    eapply (god_test plat sl TRUE); [apply lookup_insert_eq|done]. }
  inversion Hs as [|p0 pc0 w0 Hp|pc0 w0 Hstop Hcb]; subst; [by destruct Hp|].
  destruct pc; [|by eapply Hloop|by eexists]. destruct (Hcb eq_refl) as (Hwf & Ho & Hav).
  destruct (god_start_spec plat t w Hwf Ho Ht Hav) as (w1 & Hg & Hst & Hr).
  destruct (Hloop w1 v) as [w2 H2]; [unfold stop_of; by rewrite Hst|by apply Hr|].
  exists w2. eapply rtc_l; [by apply race_thread|done].
Qed.
End race.

(** (C26) [setup_genetic_module] starts the thread before it stores the pointer
    the thread waits on.  Over all interleavings of its steps, the thread's
    and a store of the stop flag, in an environment that grants every request:
    some execution crashes; a step crashes exactly when the thread tests the
    flag and the pointer is not stored yet, which it is once the function has
    returned and not before.  After that a test of the flag ends the thread if
    the flag is set and goes round again if it is not, and the thread can
    always be brought to its end by setting the flag. *)
Theorem setup_genetic_race plat t w mode sl s :
  heap_wf w -> oracle_ok w -> usable_table t -> table_available plat t w ->
  gen_stop (m_gen (w_mods w)) = NULL -> w_heap w !! sl = Some (OInt s) -> god_created w = false ->
  let start := Racing (setup_genetic_module mode (Some sl)) None w in
  (exists w', run (setup_genetic_module mode (Some sl)) w = Ret 0 w' /\ m_gen (w_mods w') =
     MkGen (Some sl) mode (gen_world_ptr (m_gen (w_mods w)))) /\
  rtc (race_step plat sl) start Wrong /\
  forall p th w', rtc (race_step plat sl) start (Racing p th w') ->
    (race_step plat sl (Racing p th w') Wrong <-> th = Some GodLoop /\ gen_stop (m_gen (w_mods w')) = NULL) /\
    (gen_stop (m_gen (w_mods w')) = NULL <-> p <> Done 0) /\
    (p = Done 0 -> exists v, w_heap w' !! sl = Some (OInt v) /\
       god_loop plat GodLoop w' = Ret (if v =? TRUE then GodEnd else GodLoop) w' /\
       exists w'', rtc (race_step plat sl) (Racing p th w') (Racing p (Some GodEnd) w'')).
Proof.
  intros Hwf Ho Ht Hav Hnull Hv Hev start.
  assert (Hcb : can_begin plat t w) by done.
  assert (Hi : race_inv plat t mode sl start) by (split; [by constructor|eauto]). split_and!.
  - eexists. split; [cbn; unfold pthread_create, bind, ask; by rewrite oracle_ok_hd|done].
  - destruct (create_thread plat t w Ho) as (w1 & Hc & Hin & Hstop & Hheap & Hcb1).
    destruct (Hcb1 Hcb) as (Hwf1 & Ho1 & Hav1).
    destruct (god_start_spec plat t w1 Hwf1 Ho1 Ht Hav1) as (w2 & Hg & Hst & Hr).
    eapply rtc_l; [apply race_caller; by erewrite bind_eq by exact Hc|].
    unfold spawned. rewrite Hin.
    eapply rtc_l; [by apply race_thread|]. eapply rtc_once, race_thread_wrong; [done|].
    eapply (god_test plat sl s); [apply Hr; [by rewrite Hheap|done]|]. rewrite Hst. unfold stop_of in Hstop. congruence.
  - intros p th w' Hreach. destruct (race_inv_reach _ _ _ _ Ht _ _ Hi Hreach) as [Hs [v Hv']].
    split_and!; [by eapply stage_wrong| |].
    + inversion Hs as [|? ? ? Hp|? ? Hstop]; subst; [by split..| |].
      * split; [|done]. by intros _; destruct Hp as [->| ->].
      * unfold stop_of in Hstop. rewrite Hstop. by split.
    + intros ->. exists v. inversion Hs as [|? ? ? Hp|pc ? Hstop]; subst; [by destruct Hp|].
      split_and!; [done|by apply (god_test plat sl v w' Hv')|by eapply late_end].
Qed.

(** ** The theorems at concrete worlds *)

Lemma fresh_table plat : table_available plat (platform_table plat) (fresh_world [] (static_entries plat)).
Proof. split; [apply static_entries_ok|done]. Qed.

Lemma platform_table_usable plat : usable_table (platform_table plat).
Proof. destruct plat; (split; [done|by eexists]). Qed.

Lemma genesis_correct_witness :
  exists w', genesis MAC_OS default_allocator (fresh_world [] (static_entries MAC_OS)) = Ret 0 w' /\
    world_made (platform_table MAC_OS) w' /\ total_syscalls (platform_table MAC_OS) = 21.
Proof.
  pose proof (genesis_correct MAC_OS (platform_table MAC_OS) (fresh_world [] (static_entries MAC_OS))
    (fun l _ => lookup_empty l) (platform_table_usable MAC_OS) (fresh_table MAC_OS)) as H.
  apply wp_run in H.
  destruct H as (r & w' & Hrun & Hr & Hok).
  assert (r = 0) as -> by (apply Hok; constructor). exists w'. split; [exact Hrun|].
  destruct Hr as [[_ Hm]|Hr]; [by split|discriminate Hr].
Defined.

(** The system call module has its table. *)
Definition set_up_world : world := set_next 3%positive (pick_world []).

Lemma set_up_world_wf : heap_wf set_up_world.
Proof. intros l Hl. cbn in *. rewrite !lookup_insert_ne by lia. apply lookup_empty. Qed.

Lemma genesis_releases_module_table_witness :
  exists w', genesis LINUX default_allocator set_up_world = Ret 0 w' /\
    pick_syscall (Some 2%positive) default_generator w' = Crash.
Proof.
  destruct (genesis_releases_module_table LINUX (platform_table LINUX) set_up_world 1%positive set_up_world_wf
    (Forall_nil_2 _) (platform_table_usable LINUX) eq_refl eq_refl eq_refl) as (w' & Hrun & _ & _ & Hpick).
  exists w'. split; [exact Hrun|by apply Hpick].
Defined.

(** A stop flag that is set. *)
Definition flag_world : world :=
  set_next 2%positive (set_heap {[ 1%positive := OInt TRUE ]} (fresh_world [] (static_entries LINUX))).

Lemma flag_world_wf : heap_wf flag_world.
Proof. intros l Hl. cbn in *. rewrite lookup_singleton_ne by lia. done. Qed.

Lemma setup_genetic_race_witness :
  rtc (race_step LINUX 1%positive) (Racing (setup_genetic_module SYSCALL_FUZZING (Some 1%positive)) None flag_world) Wrong /\
  exists w', run (setup_genetic_module SYSCALL_FUZZING (Some 1%positive)) flag_world = Ret 0 w'.
Proof.
  destruct (setup_genetic_race LINUX (platform_table LINUX) flag_world SYSCALL_FUZZING 1%positive TRUE flag_world_wf
    (Forall_nil_2 _) (platform_table_usable LINUX) (fresh_table LINUX) eq_refl eq_refl eq_refl)
    as ((w' & Hrun & _) & Hwrong & _).
  split; [exact Hwrong|exists w'; exact Hrun].
Defined.
