(* ===== verification/Disas.v ===== *)
(** * Disas: disassembling the target (disas/disas.c and its three platform files)

    The decoder of the vendored capstone library is the parameter [decode]:
    the mnemonic and the length of the instruction at the front of some code,
    given its address.  [cs_disasm_iter] (deps/capstone-3.0.4/cs.c) stores the
    address it was given in the instruction before it decodes, and moves code,
    size and address on when it succeeds.

    What [cs_open] allocates is one object of [cs_size] bytes, a parameter:
    nothing here reads it, and the function never calls [cs_close], which
    would give it back.

    [exec_path] is released when the function returns, although the string is
    the file module's, which keeps its pointer to it: the string is an object
    of the heap that really goes.  (Where the caller of the file module passed
    one that was never allocated, as a word of the command line, the release
    is undefined at once.)

    disas-freebsd.c asks libelf for the kind of the target and for its entry
    point: both are parameters, functions of the bytes of the file. *)

From S2P Require Import Prelude Types CWorld Io Memory Crypto Utils Dirs Plugins File.

(** ** The branches that are looked for *)

(** The second arguments of [strncmp] in their order; the third is the length. *)
Definition branches : list string :=
  ["jne"; "je"; "jg"; "jle"; "jl"; "jge"; "jo"; "jno"; "js"; "jns"; "jz"; "jb"; "jnae"; "jc"; "jnb"; "jae"; "jnc";
   "jbe"; "jna"; "ja"; "jnbe"; "jl"; "jnge"; "jge"; "jng"; "jnle"; "jp"; "jpe"; "jnp"; "jpo"; "jcxz"; "jecxz"]%string.

Definition is_branch (mnemonic : string) : bool := existsb (fun b => starts_with b mnemonic) branches.

(** [open(path, O_RDONLY)]: a null pointer is refused with EFAULT. *)
Definition open_exec (path : ptr) : M Z :=
  match path with
  | None => ret (-1)
  | Some _ => let! path := load_string path in open_rdonly path
  end.

Section disas.
Context (decode : list Z -> Z -> option (string * Z)) (cs_size : Z).

(** The loop: the code that is left, its address, the branches counted. *)
Fixpoint disas_loop (fuel : nat) (code : list Z) (address count : Z) : M (list Z * Z * Z) :=
  match fuel with
  | O => spin
  | S fuel' =>
      match decode code address with
      | None => ret (code, address, count)
      | Some (mnemonic, n) =>
          disas_loop fuel' (drop (Z.to_nat n) code) (u64 (address + n))
            (if is_branch mnemonic then u32 (count + 1) else count)
      end
  end.

(** The function behind its declarations: the return value and the
    descriptor.  Without a handle or an instruction capstone dereferences a
    pointer it was not given.  The mapping is released with the size that is
    left. *)
Definition disas_body (exec_path : ptr) : M (Z * Z) :=
  let! file := open_exec exec_path in
  if file <? 0 then write ERROR "open: %s\n" ;;; ret (-1, file)
  else
    let! mapped := map_file_in file READ in
    match mapped with
    | None => write ERROR "Can't memory map file\n" ;;; ret (-1, file)
    | Some (file_buffer, file_size) =>
        let! handle := malloc (junk cs_size) in
        match handle with
        | None => crash
        | Some _ =>
          let! insn := malloc (junk 240) in
          match insn with
          | None => crash
          | Some _ =>
              let! code := buffer_bytes file_buffer file_size in
              let! '(rest, address, count) := disas_loop (S (length code)) code 0 0 in
              let! rtrn := set_end_offset address in
              if rtrn <? 0 then write ERROR "Can't set end offset\n" ;;; ret (-1, file)
              else
                free_loc insn ;;;
                munmap file_buffer (Z.of_nat (length rest)) ;;;
                ret (0, file)
          end
        end
    end.

Definition disas_executable_and_examine : M Z :=
  let! '(rtrn, exec_path) := get_exec_path None in
  if rtrn <? 0 then write ERROR "Can't get exec path\n" ;;; cleanup_buf exec_path ;;; ret (-1)
  else
    let! '(rtrn, file) := disas_body exec_path in
    cleanup_buf exec_path ;;;
    close_fd file ;;;
    ret rtrn.
End disas.

(** disas-linux.c, disas-mac.c *)
Definition get_load_address : M Z := ret 0.

(** ** disas-freebsd.c *)

(** Elf_Kind of libelf(3). *)
Inductive elf_kind := ELF_K_NONE | ELF_K_AR | ELF_K_COFF | ELF_K_ELF | ELF_K_NUM.

Section freebsd.
Context (kind_of : list Z -> elf_kind) (entry_of : list Z -> option Z).

(** [get_exec_path] is read as called with the writer, which the source leaves
    out.  [elf_version] and [elf_begin] answer through the environment;
    [entry_of] is what [gelf_getehdr] finds in [e_entry]. *)
Definition get_load_address_freebsd : M Z :=
  let! '(rtrn, path_to_exec) := get_exec_path None in
  if rtrn <? 0 then output ERROR "Can't get target exec path\n" ;;; ret (-1)
  else
    let! fd := open_exec path_to_exec in
    if fd <? 0 then output ERROR "open: %s\n" ;;; ret (-1)
    else
      let! version := ask_status in
      if version <? 0 then output ERROR "Can't init elf library: %s\n" ;;; ret (-1)
      else
        let! elf := ask_status in
        if elf <? 0 then output ERROR "Can't read an elf file: %s\n" ;;; ret (-1)
        else
          let! bytes := gets (fun w => w_fds w !! fd ≫= fun path => w_fs w !! path) in
          let! content := need bytes in
          match kind_of content with
          | ELF_K_NONE => output ERROR "Not a ELF file.\n" ;;; ret (-1)
          | ELF_K_ELF =>
              match entry_of content with
              | None => output ERROR "Can't rget elf header: %s\n" ;;; ret (-1)
              | Some e_entry => set_start_addr e_entry ;;; ret 0
              end
          | ELF_K_AR => output ERROR "This is an archive not an executable.\n" ;;; ret (-1)
          | ELF_K_COFF | ELF_K_NUM => output ERROR "Can't handle this file type.\n" ;;; ret (-1)
          end.

(** The entry point of some bytes that are an ELF file. *)
Definition elf_entry (content : list Z) : option Z :=
  match kind_of content with ELF_K_ELF => entry_of content | _ => None end.
End freebsd.

(** ** What the loop computes *)

Section spec.
Context (decode : list Z -> Z -> option (string * Z)).

(** The instructions of some code up to the first place that is none. *)
Inductive decodes : list Z -> Z -> list string -> list Z -> Z -> Prop :=
| decodes_stop code a : decode code a = None -> decodes code a [] code a
| decodes_next code a m n ms rest b :
    decode code a = Some (m, n) -> decodes (drop (Z.to_nat n) code) (u64 (a + n)) ms rest b ->
    decodes code a (m :: ms) rest b.

(** An instruction lies within its code. *)
Definition decode_fits : Prop := forall code a m n, decode code a = Some (m, n) -> 0 < n <= Z.of_nat (length code).

Definition branch_count (ms : list string) : Z := Z.of_nat (length (List.filter is_branch ms)).

Lemma disas_loop_spec fuel : decode_fits -> forall code a count,
  (length code < fuel)%nat -> 0 <= count < 2 ^ 32 ->
  exists ms rest b, decodes code a ms rest b /\
    forall w, disas_loop decode fuel code a count w = Ret (rest, b, u32 (count + branch_count ms)) w.
Proof.
  intros Hfits. induction fuel as [|fuel IH]; intros code a count Hf Hc; [lia|]. cbn [disas_loop].
  destruct (decode code a) as [[m n]|] eqn:E.
  2:{ exists [], code, a. split; [by constructor|]. intros w. unfold branch_count. cbn. by rewrite Z.add_0_r, u32_small. }
  specialize (Hfits code a m n E) as Hn.
  set (count' := if is_branch m then u32 (count + 1) else count).
  assert (Hc' : 0 <= count' < 2 ^ 32) by (subst count'; destruct (is_branch m); [apply u32_range|done]).
  destruct (IH (drop (Z.to_nat n) code) (u64 (a + n)) count') as (ms & rest & b & Hd & Hrun);
    [rewrite length_drop; lia|done|].
  exists (m :: ms), rest, b. split; [by econstructor|]. intros w. rewrite Hrun. do 2 f_equal. subst count'.
  unfold branch_count. cbn [List.filter]. destruct (is_branch m); [|done]. cbn [length].
  rewrite u32_add_l. f_equal. lia.
Qed.

Lemma decodes_suffix code a ms rest b : decode_fits -> decodes code a ms rest b ->
  exists pre, code = pre ++ rest /\ (0 <= a < 2 ^ 64 -> b = u64 (a + Z.of_nat (length pre))).
Proof.
  intros Hfits. induction 1 as [code a E|code a m n ms rest b E Hd (pre & Hpre & Hb)].
  - exists []. split; [done|]. cbn. intros Ha. by rewrite Z.add_0_r, u64_small.
  - specialize (Hfits code a m n E). exists (take (Z.to_nat n) code ++ pre). split.
    + by rewrite <- app_assoc, <- Hpre, take_drop.
    + intros Ha. rewrite Hb by apply u64_range. rewrite u64_add_l, length_app, length_take. f_equal. lia.
Qed.
End spec.

(** A mapping of a whole file gives its bytes. *)
Lemma buffer_bytes_map w l path content prot :
  w_heap w !! l = Some (OMap path (Z.of_nat (length content)) prot) -> w_fs w !! path = Some content ->
  buffer_bytes (Some l) (Z.of_nat (length content)) w = Ret content w.
Proof.
  intros Hl Hfs. unfold buffer_bytes. erewrite bind_eq by (by apply load_eq). cbv beta iota. rewrite Z.ltb_irrefl.
  erewrite bind_eq by reflexivity. rewrite Hfs. erewrite bind_eq by reflexivity.
  rewrite decide_True by lia. by rewrite take_ge by lia.
Qed.

(** The file module has been set up with the path of a target, a string at
    [pl]. *)
Definition target (w : world) (pl : loc) (path : string) (content : list Z) : Prop :=
  file_setup (m_file (w_mods w)) = 1 /\ path_to_exec (m_file (w_mods w)) = Some pl /\
  string_at (w_heap w) (Some pl) = Some path /\ w_fs w !! path = Some content /\ content <> [] /\ Z.of_nat (length content) < 2 ^ 64.

(** What is left of the mapping at [l] of a file of [size] bytes when [rest]
    bytes of it are unmapped: all of it when that is none, else the pages
    behind the ones these bytes begin. *)
Definition mapping_left (l : loc) (path : string) (size rest : Z) (h : gmap loc hobj) : gmap loc hobj :=
  if rest =? 0 then <[l := OMap path size READ]> h
  else if page_count size <=? page_count rest then h
  else <[l := OTail size (page_count rest)]> h.

Lemma munmap_left w l path size rest h :
  h !! l = None -> w_heap w = <[l := OMap path size READ]> h ->
  munmap (Some l) rest w = Ret tt (set_heap (mapping_left l path size rest h) w).
Proof.
  intros Hno Hh. unfold munmap, mapping_left. destruct (rest =? 0).
  { unfold ret. do 2 f_equal. rewrite <- Hh. by destruct w. }
  unfold modify. do 2 f_equal. rewrite Hh, lookup_insert_eq. cbn [sizeof]. f_equal.
  destruct (page_count size <=? page_count rest); [by apply delete_insert_id|by rewrite insert_insert_eq].
Qed.

Lemma mapping_left_lookup l path size rest h x : x <> l -> mapping_left l path size rest h !! x = h !! x.
Proof. intros Hx. unfold mapping_left. repeat case_match; by rewrite ?lookup_insert_ne. Qed.

Lemma open_exec_ok w pl path content :
  oracle_ok w -> string_at (w_heap w) (Some pl) = Some path -> w_fs w !! path = Some content ->
  open_exec (Some pl) w =
    Ret (fresh_fd (w_fds w)) (set_fds (<[fresh_fd (w_fds w) := path]> (w_fds w)) (asked w)).
Proof.
  intros Ho Hs Hfs. unfold open_exec. erewrite bind_eq by (by rewrite load_string_run, Hs).
  unfold open_rdonly. erewrite bind_eq by reflexivity. rewrite Hfs. by apply sys_open_ok.
Qed.

(** A second call reads the string that the first one released. *)
Lemma disas_dangling decode cs_size w pl :
  file_setup (m_file (w_mods w)) = 1 -> path_to_exec (m_file (w_mods w)) = Some pl -> w_heap w !! pl = None ->
  disas_executable_and_examine decode cs_size w = Crash.
Proof.
  intros Hset Hpath Hgone. unfold disas_executable_and_examine, get_exec_path, get_file_static, get_mods. rewrite bind_assoc.
  erewrite bind_eq by reflexivity. rewrite Hset. change (negb (1 =? 1)) with false. cbv iota.
  rewrite bind_assoc. erewrite bind_eq by reflexivity. rewrite Hpath. erewrite bind_eq by reflexivity. cbv beta iota.
  cbn [Z.ltb Z.compare]. unfold disas_body, open_exec. rewrite !bind_assoc. unfold bind at 1.
  rewrite load_string_run. unfold string_at. cbn. by rewrite Hgone.
Qed.

(** What the body leaves: the handle and what is left of the mapping. *)
Lemma disas_body_spec decode cs_size w pl path content ms rest :
  oracle_ok w -> heap_wf w -> target w pl path content ->
  (forall w, disas_loop decode (S (length content)) content 0 0 w =
     Ret (rest, Z.of_nat (length content) - Z.of_nat (length rest), u32 (branch_count ms)) w) ->
  exists w', disas_body decode cs_size (Some pl) w = Ret (0, fresh_fd (w_fds w)) w' /\ w_fs w' = w_fs w /\
    w_mods w' = w_mods w /\ w_fds w' = <[fresh_fd (w_fds w) := path]> (w_fds w) /\
    w_heap w' = mapping_left (w_next w) path (Z.of_nat (length content)) (Z.of_nat (length rest))
      (<[Pos.succ (w_next w) := junk cs_size]> (w_heap w)).
Proof.
  intros Ho Hwf (Hset & Hpath & Hstr & Hfs & Hne & Hlen) Hloop.
  set (fd := fresh_fd (w_fds w)). pose proof (fresh_fd_ge (w_fds w)) as Hge. fold fd in Hge.
  set (w1 := set_fds (<[fd := path]> (w_fds w)) (asked w)).
  set (size := Z.of_nat (length content)). set (w2 := granted (OMap path size READ) (asked w1)).
  set (w3 := granted (junk cs_size) w2). set (w4 := granted (junk 240) w3).
  assert (Ho1 : oracle_ok w1) by (exact (oracle_ok_tl w Ho)).
  assert (Ho2 : oracle_ok w2) by (exact (oracle_ok_tl _ (oracle_ok_tl _ Ho1))).
  assert (Ho3 : oracle_ok w3) by (exact (oracle_ok_tl _ Ho2)).
  unfold disas_body. erewrite bind_eq by (by eapply open_exec_ok). fold fd w1. rewrite (proj2 (Z.ltb_ge fd 0)) by lia.
  erewrite bind_eq by (apply (map_file_in_ok w1 fd path content); [done|done|apply lookup_insert_eq|done]).
  cbv beta iota. fold size w2. erewrite bind_eq by (by apply malloc_ok). cbv beta iota. fold w3.
  erewrite bind_eq by (by apply malloc_ok). cbv beta iota. fold w4.
  erewrite bind_eq by (apply (buffer_bytes_map w4 (w_next w) path content READ); [|done];
    cbn; rewrite !lookup_insert_ne by (unfold loc in *; cbn; lia); apply lookup_insert_eq).
  erewrite bind_eq by (apply Hloop). cbv beta iota. erewrite bind_eq by reflexivity. cbn [Z.ltb Z.compare].
  erewrite bind_eq by (eapply free_loc_eq; apply lookup_insert_eq).
  assert (Hfree : forall x, (w_next w <= x)%positive -> w_heap w !! x = None) by (intros x Hx; by apply Hwf).
  assert (Hmap : delete (w_next w3) (w_heap w4) =
    <[w_next w := OMap path size READ]> (<[Pos.succ (w_next w) := junk cs_size]> (w_heap w))).
  { etransitivity; [apply delete_insert_id; cbn; rewrite !lookup_insert_ne by (unfold loc in *; cbn; lia); apply Hfree; lia|].
    apply (insert_insert_ne (w_heap w)). unfold loc in *. cbn. lia. }
  assert (Hno : <[Pos.succ (w_next w) := junk cs_size]> (w_heap w) !! w_next w = None).
  { rewrite lookup_insert_ne by lia. apply Hfree. lia. }
  erewrite bind_eq by (exact (munmap_left (set_heap (delete (w_next w3) (w_heap w4)) w4) _ _ _ _ _ Hno Hmap)).
  by eexists.
Qed.

(** (C22) In an environment that grants every request disassembling terminates
    and returns 0: it decodes the target instruction by instruction up to the
    first bytes that are no instruction, changes no file and closes its
    descriptor.  The heap it leaves has the handle of capstone, which is never
    closed; of the mapping of the file, which is unmapped with the number of
    bytes that were left over, it has everything when everything was decoded
    and else the pages behind those these bytes begin (none when they begin
    as many as the file has); and it has lost the path of the target, which
    the file module still points to, so that a second call crashes. *)
Theorem disas_executable_correct decode cs_size w pl path content :
  decode_fits decode -> oracle_ok w -> heap_wf w -> target w pl path content ->
  exists ms rest w', decodes decode content 0 ms rest (Z.of_nat (length content) - Z.of_nat (length rest)) /\
    disas_executable_and_examine decode cs_size w = Ret 0 w' /\
    w_fs w' = w_fs w /\ w_fds w' = w_fds w /\
    w_heap w' = delete pl (mapping_left (w_next w) path (Z.of_nat (length content)) (Z.of_nat (length rest))
      (<[Pos.succ (w_next w) := junk cs_size]> (w_heap w))) /\
    disas_executable_and_examine decode cs_size w' = Crash.
Proof.
  intros Hfits Ho Hwf Htarget. pose proof Htarget as (Hset & Hpath & Hstr & Hfs & Hne & Hlen).
  destruct (disas_loop_spec decode (S (length content)) Hfits content 0 0) as (ms & rest & b & Hd & Hloop); [lia..|].
  destruct (decodes_suffix decode _ _ _ _ _ Hfits Hd) as (pre & Hpre & Hb).
  assert (b = Z.of_nat (length content) - Z.of_nat (length rest)) as ->.
  { rewrite Hb by lia. rewrite u64_small; subst content; rewrite length_app in *; lia. }
  destruct (disas_body_spec decode cs_size w pl path content ms rest Ho Hwf Htarget Hloop)
    as (w1 & Hbody & Hfs1 & Hm1 & Hfd1 & Hh1).
  assert (exists o, w_heap w !! pl = Some o) as [o Hpl].
  { unfold string_at in Hstr. cbn in Hstr. destruct (w_heap w !! pl) as [o|]; [eauto|done]. }
  pose proof (heap_wf_lt _ _ _ Hwf Hpl) as Hlt. pose proof (fresh_fd_ge (w_fds w)) as Hge.
  assert (Hpl1 : w_heap w1 !! pl = Some o).
  { rewrite Hh1, mapping_left_lookup, lookup_insert_ne by lia. done. }
  eassert (Hrun : disas_executable_and_examine decode cs_size w = Ret 0 _).
  { unfold disas_executable_and_examine, get_exec_path, get_file_static, get_mods. rewrite bind_assoc.
    erewrite bind_eq by reflexivity. rewrite Hset. change (negb (1 =? 1)) with false. cbv iota.
    rewrite bind_assoc. erewrite bind_eq by reflexivity. rewrite Hpath. erewrite bind_eq by reflexivity. cbv beta iota.
    cbn [Z.ltb Z.compare]. erewrite bind_eq by exact Hbody. cbv beta iota.
    erewrite bind_eq by (eapply free_loc_eq; exact Hpl1).
    unfold close_fd. rewrite (proj2 (Z.eqb_neq (fresh_fd (w_fds w)) 0)) by lia. reflexivity. }
  eexists ms, rest, _. split; [done|]. split; [exact Hrun|]. split_and!; [exact Hfs1| |by cbn; rewrite Hh1|].
  - cbn. rewrite Hfd1. apply delete_insert_id, fresh_fd_fresh.
  - apply (disas_dangling _ _ _ pl); cbn; rewrite ?Hm1; [done..|apply lookup_delete_eq].
Qed.

(** ** The load address on FreeBSD *)

(** The way out with a message and -1. *)
#[local] Ltac refused := apply wp_bind, wp_write, wp_ret; cbn; eauto 10.

(** (C39) Whatever the environment answers, the function returns, and it returns 0
    exactly when it has stored the entry point of a target that is an ELF file;
    otherwise the file module is as before.  Every call that opens the target
    leaves the descriptor open, and every successful one does.  (The file
    module's path must still be a string: disassembling releases it.) *)
Theorem load_address_freebsd_spec kind_of entry_of w :
  (forall pl, path_to_exec (m_file (w_mods w)) = Some pl -> is_Some (string_at (w_heap w) (Some pl))) ->
  exists r w', get_load_address_freebsd kind_of entry_of w = Ret r w' /\ w_heap w' = w_heap w /\ w_fs w' = w_fs w /\
    (r = -1 /\ w_mods w' = w_mods w /\
       (w_fds w' = w_fds w \/ exists path, w_fds w' = <[fresh_fd (w_fds w) := path]> (w_fds w)) \/
     exists path content e, r = 0 /\ string_at (w_heap w) (path_to_exec (m_file (w_mods w))) = Some path /\ w_fs w !! path = Some content /\
       elf_entry kind_of entry_of content = Some e /\
       w_mods w' = set_m_file (set_start_offset e (m_file (w_mods w))) (w_mods w) /\
       w_fds w' = <[fresh_fd (w_fds w) := path]> (w_fds w)).
Proof.
  intros Hstr. pose proof (fresh_fd_ge (w_fds w)) as Hge.
  apply wp_run. unfold get_load_address_freebsd, get_exec_path, get_file_static, get_mods, output.
  do 2 apply wp_bind. apply wp_gets. destruct (file_setup (m_file (w_mods w)) =? 1); cbn [negb].
  2:{ apply wp_bind, wp_write, wp_ret. refused. }
  apply wp_bind, wp_gets, wp_ret. cbn [Z.ltb Z.compare]. apply wp_bind.
  destruct (path_to_exec (m_file (w_mods w))) as [pl|] eqn:Hpath.
  2:{ apply wp_ret. refused. }
  destruct (Hstr pl eq_refl) as [path Hs]. apply wp_bind. eapply wp_eq; [by rewrite load_string_run, Hs|]. unfold open_rdonly, sys_open. apply wp_bind, wp_gets. destruct (w_fs w !! path) as [content|] eqn:Hfs.
  2:{ apply wp_ret. refused. }
  apply wp_bind, wp_ask. intros a. destruct (a <? 0); [apply wp_ret; refused|].
  apply wp_bind, wp_gets, wp_bind, wp_modify, wp_ret. cbn [asked set_oracle w_fds].
  rewrite (proj2 (Z.ltb_ge _ 0)) by lia. unfold ask_status.
  do 2 apply wp_bind. apply wp_ask. intros b. apply wp_ret. destruct (b <? 0); [refused|].
  do 2 apply wp_bind. apply wp_ask. intros c. apply wp_ret. destruct (c <? 0); [refused|].
  apply wp_bind, wp_gets, wp_bind. cbn. rewrite lookup_insert_eq. cbn. rewrite Hfs. apply wp_ret.
  destruct (kind_of content) eqn:Hk; try refused.
  destruct (entry_of content) eqn:He; [|refused].
  apply wp_bind, wp_modify, wp_ret. cbn. do 2 (split; [done|]). right. exists path, content, z.
  unfold elf_entry. by rewrite Hk.
Qed.
(** In an environment that grants every request it returns 0 for an ELF file
    whose header can be read, and -1 for everything else. *)
Theorem load_address_freebsd_granted kind_of entry_of w pl path content :
  oracle_ok w -> target w pl path content ->
  exists w', get_load_address_freebsd kind_of entry_of w =
    Ret (match elf_entry kind_of entry_of content with Some _ => 0 | None => -1 end) w'.
Proof.
  intros Ho (Hset & Hpath & Hstr & Hfs & _ & _). pose proof (fresh_fd_ge (w_fds w)) as Hge.
  unfold get_load_address_freebsd, get_exec_path, get_file_static, get_mods. rewrite bind_assoc.
  erewrite bind_eq by reflexivity. rewrite Hset. cbn [negb Z.eqb Pos.eqb]. rewrite bind_assoc. erewrite bind_eq by reflexivity.
  rewrite Hpath. erewrite bind_eq by reflexivity. cbn [Z.ltb Z.compare]. erewrite bind_eq by (by eapply open_exec_ok).
  rewrite (proj2 (Z.ltb_ge _ 0)) by lia. erewrite bind_eq by (apply ask_status_ok; exact (oracle_ok_tl w Ho)).
  cbn [Z.ltb Z.compare]. erewrite bind_eq by (apply ask_status_ok; exact (oracle_ok_tl _ (oracle_ok_tl w Ho))).
  cbn [Z.ltb Z.compare]. erewrite bind_eq by reflexivity. cbn. rewrite lookup_insert_eq. cbn. rewrite Hfs.
  erewrite bind_eq by reflexivity. unfold elf_entry. destruct (kind_of content); [by eexists..| |by eexists].
  destruct (entry_of content); by eexists.
Qed.

(** The jump mnemonics capstone prints (arch/X86/X86Mapping.c) that count as a
    branch: the conditional ones of 16 and 32 bit code. *)
Lemma branch_mnemonics :
  List.filter is_branch ["jae"; "ja"; "jbe"; "jb"; "jcxz"; "jecxz"; "je"; "jge"; "jg"; "jle"; "jl"; "jmp"; "jne"; "jno";
    "jnp"; "jns"; "jo"; "jp"; "jrcxz"; "js"; "ljmp"; "loop"; "call"; "nop"]%string =
  ["jae"; "ja"; "jbe"; "jb"; "jcxz"; "jecxz"; "je"; "jge"; "jg"; "jle"; "jl"; "jne"; "jno"; "jnp"; "jns"; "jo"; "jp"; "js"]%string.
Proof. vm_compute. reflexivity. Qed.

(** ** A target of two instructions *)

Definition demo_decode (code : list Z) (address : Z) : option (string * Z) :=
  match code with
  | 144 :: _ => Some ("nop"%string, 1)
  | 116 :: _ :: _ => Some ("je"%string, 2)
  | _ => None
  end.

Definition demo_target : world :=
  set_fs {[ "/bin/t"%string := [144; 116; 5] ]} (set_next 2%positive (set_heap {[ 1%positive := text_of "/bin/t" ]}
    (set_mods (set_m_file (MkFileStatics NULL (Some 1%positive) 0 NULL 0 None 1) initial_mods) (fresh_world [] [])))).

Lemma demo_decode_fits : decode_fits demo_decode.
Proof.
  intros code a m n. unfold demo_decode. destruct code as [|x [|y code]]; [done|..];
    repeat case_match; intros [= <- <-]; cbn; lia.
Qed.

Lemma demo_target_set : target demo_target 1%positive "/bin/t" [144; 116; 5].
Proof. by split_and!. Qed.

Lemma demo_target_wf : heap_wf demo_target.
Proof. intros l Hl. cbn in *. rewrite lookup_singleton_ne by lia. done. Qed.

(** Everything is decoded, so the whole mapping stays, with the handle; the
    string at 1 is gone. *)
Lemma disas_executable_correct_witness :
  exists w', disas_executable_and_examine demo_decode 8 demo_target = Ret 0 w' /\
    w_heap w' = {[ 2%positive := OMap "/bin/t" 3 READ; 3%positive := junk 8 ]} /\
    disas_executable_and_examine demo_decode 8 w' = Crash.
Proof.
  pose proof (disas_executable_correct demo_decode 8 demo_target 1%positive "/bin/t" [144; 116; 5] demo_decode_fits
    (Forall_nil_2 _) demo_target_wf demo_target_set) as H.
  destruct H as (ms & rest & w' & Hd & Hrun & _ & _ & Hh & Hcrash).
  exists w'. split; [exact Hrun|]. split; [|exact Hcrash].
  assert (rest = []) as ->.
  { inversion Hd as [|? ? ? ? ? ? ? E1 Hd1]; subst; [discriminate|]. injection E1 as <- <-.
    inversion Hd1 as [|? ? ? ? ? ? ? E2 Hd2]; subst; [discriminate|]. injection E2 as <- <-.
    inversion Hd2 as [|? ? ? ? ? ? ? E3 Hd3]; subst; [done|discriminate]. }
  rewrite Hh. reflexivity.
Defined.

(** The file begins two pages and a single byte is left over, or more. *)
Lemma mapping_left_pages path h :
  mapping_left 1%positive path 8192 1 h = <[1%positive := OTail 8192 1]> h /\ mapping_left 1%positive path 8192 4097 h = h.
Proof. by split. Qed.

(** Every file is an ELF file whose entry point is its first byte. *)
Definition demo_kind (content : list Z) : elf_kind := ELF_K_ELF.

Lemma demo_string pl :
  path_to_exec (m_file (w_mods demo_target)) = Some pl -> is_Some (string_at (w_heap demo_target) (Some pl)).
Proof. intros [= <-]. by eexists. Qed.

Lemma load_address_freebsd_spec_witness :
  exists w', get_load_address_freebsd demo_kind head demo_target = Ret 0 w' /\
    w_mods w' = set_m_file (set_start_offset 144 (m_file (w_mods demo_target))) (w_mods demo_target) /\
    w_fds w' = {[ fresh_fd ∅ := "/bin/t"%string ]}.
Proof.
  destruct (load_address_freebsd_spec demo_kind head demo_target demo_string) as (r & w' & Hrun & _ & _ & Hr).
  assert (r = 0) as -> by (injection Hrun as <- _; reflexivity).
  exists w'. split; [exact Hrun|]. destruct Hr as [[Hr _]|(path & content & e & _ & Hs & Hc & He & Hm & Hf)]; [discriminate Hr|].
  injection Hs as <-. injection Hc as <-. injection He as <-. split; [exact Hm|exact Hf].
Defined.
