(* ===== verification/ProcessName.v ===== *)
(** * ProcessName: the name macOS shows for the process (utils/set_process_name.c)

    The symbols of LaunchServices are looked up on the first call and kept in
    static variables.  CoreFoundation and LaunchServices answer through the
    environment; a pointer they give is an opaque number.  The call that sets
    the name is the result of the model. *)

From S2P Require Import Prelude Types CWorld Io.

(** The static variables of [set_process_name]. *)
Record ls_statics := MkLs {
  did_symbol_lookup : bool;
  ls_get_current_application_asn_func : option Z;
  ls_set_application_information_item_func : option Z;
  ls_display_name_key : option Z
}.

Definition ls_initial : ls_statics := MkLs false None None None.

(** A call of [_LSSetApplicationInformationItem]; a string that could not be
    made is [None]. *)
Record ls_item := MkItem { ls_session : Z; ls_asn : Z; ls_key : Z; ls_value : option string }.

(** A pointer from a framework. *)
Definition ask_ref : M (option Z) := let! a := ask in ret (if a <? 0 then None else Some a).

(** A symbol, with a message when there is none. *)
Definition ls_symbol (lookup : M (option Z)) (message : string) : M (option Z) :=
  let! p := lookup in
  match p with None => output ERROR message ;;; ret p | Some _ => ret p end.

(** The first call: whether the function returns, and the static variables. *)
Definition lookup_symbols : M (bool * ls_statics) :=
  let! launch_services_bundle := ask_ref in
  match launch_services_bundle with
  | None => output ERROR "Failed to look up LaunchServices bundle\n" ;;; ret (true, MkLs true None None None)
  | Some _ =>
      let! get_asn := ls_symbol ask_ref "Could not find _LSGetCurrentApplicationASN\n" in
      let! set_item := ls_symbol ask_ref "Could not find _LSSetApplicationInformationItem\n" in
      let! key := ls_symbol (let! key_pointer := ask_ref in
                             match key_pointer with None => ret None | Some _ => ask_ref end)
                    "Could not find _kLSDisplayNameKey\n" in
      let! psn := ask in
      ret (false, MkLs true get_asn set_item key)
  end.

Definition set_process_name (name : option string) (st : ls_statics) : M (option ls_item * ls_statics) :=
  let! name := need name in
  let! cf := ask_ref in
  let process_name := (match cf with None => None | Some _ => Some name end) in
  let! '(returns, st) := (if did_symbol_lookup st then ret (false, st) else lookup_symbols) in
  if returns : bool then ret (None, st)
  else
    match ls_get_current_application_asn_func st, ls_set_application_information_item_func st,
      ls_display_name_key st with
    | Some _, Some _, Some key =>
        let! asn := ask in
        ret (Some (MkItem (-2) asn key process_name), st)
    | _, _, _ => ret (None, st)
    end.

(** Setting one name after the other. *)
Fixpoint set_names (names : list string) (st : ls_statics) : M (list (option ls_item) * ls_statics) :=
  match names with
  | [] => ret ([], st)
  | name :: names' =>
      let! '(item, st) := set_process_name (Some name) st in
      let! '(items, st) := set_names names' st in
      ret (item :: items, st)
  end.

(** ** What a sequence of calls does *)

(** The key, once everything was found. *)
Definition ls_ready (st : ls_statics) : option Z :=
  match ls_get_current_application_asn_func st, ls_set_application_information_item_func st with
  | Some _, Some _ => ls_display_name_key st
  | _, _ => None
  end.

(** What one call does when the key is [key]: it sets the name, or to nothing
    when the string cannot be made; without a key it does nothing. *)
Definition named (key : option Z) (name : string) (item : option ls_item) : Prop :=
  match key, item with
  | Some k, Some i => ls_session i = -2 /\ ls_key i = k /\ (ls_value i = Some name \/ ls_value i = None)
  | None, None => True
  | _, _ => False
  end.

Lemma wp_ask_ref w (Q : option Z -> world -> Prop) : (forall p, Q p (asked w)) -> wp ask_ref Q w.
Proof. intros H. apply wp_bind, wp_ask. intros a. apply wp_ret, H. Qed.

Lemma wp_ls_symbol m s w (Q : option Z -> world -> Prop) :
  wp m (fun _ w1 => env_step w w1) w -> (forall p w1, env_step w w1 -> Q p w1) -> wp (ls_symbol m s) Q w.
Proof.
  intros Hm H. apply wp_bind. eapply wp_mono; [exact Hm|]. intros [p|] w1 H1; [by apply wp_ret, H|].
  apply wp_bind, wp_write, wp_ret, H. eapply env_step_trans; [exact H1|apply env_write].
Qed.

Lemma wp_lookup_symbols w :
  wp lookup_symbols (fun '(returns, st) w' =>
    env_step w w' /\ did_symbol_lookup st = true /\ (returns = true -> ls_ready st = None)) w.
Proof.
  apply wp_bind, wp_ask_ref. intros [b|].
  2:{ apply wp_bind, wp_write, wp_ret. split; [|done]. eapply env_step_trans; [apply env_asked|apply env_write]. }
  apply wp_bind, wp_ls_symbol; [by apply wp_ask_ref; intros; apply env_asked|]. intros f w1 H1.
  apply wp_bind, wp_ls_symbol; [by apply wp_ask_ref; intros; apply env_asked|]. intros g w2 H2.
  apply wp_bind, wp_ls_symbol.
  { apply wp_bind, wp_ask_ref. intros [k|]; [|apply wp_ret, env_asked].
    apply wp_ask_ref. intros _. eapply env_step_trans; apply env_asked. }
  intros k w3 H3. apply wp_bind, wp_ask. intros psn. apply wp_ret. split; [|done].
  eapply env_step_trans; [apply env_asked|]. eapply env_step_trans; [exact H1|]. eapply env_step_trans; [exact H2|].
  eapply env_step_trans; [exact H3|apply env_asked].
Qed.

(** One call: the symbols are known afterwards, and what was known stays. *)
Lemma wp_set_process_name name st w :
  wp (set_process_name (Some name) st) (fun '(item, st') w' =>
    env_step w w' /\ did_symbol_lookup st' = true /\ (did_symbol_lookup st = true -> st' = st) /\
    named (ls_ready st') name item) w.
Proof.
  unfold set_process_name. cbn [need]. apply wp_bind, wp_ret, wp_bind, wp_ask_ref. intros cf. apply wp_bind.
  apply (wp_mono _ (fun '(returns, st') w' => env_step w w' /\ did_symbol_lookup st' = true /\
    (did_symbol_lookup st = true -> st' = st) /\ (returns = true -> ls_ready st' = None))).
  { destruct (did_symbol_lookup st) eqn:E; [by apply wp_ret; split; [apply env_asked|]|].
      eapply wp_mono; [apply wp_lookup_symbols|]. intros [returns st'] w' (H1 & H2 & H3). split; [|done].
      eapply env_step_trans; [apply env_asked|exact H1]. }
  intros [returns st'] w1 (H1 & H2 & H3 & H4). destruct returns.
  { apply wp_ret. rewrite H4 by done. done. }
  destruct (ls_get_current_application_asn_func st') eqn:E1, (ls_set_application_information_item_func st') eqn:E2,
    (ls_display_name_key st') as [key|] eqn:E3; try (by apply wp_ret; unfold ls_ready; rewrite ?E1, ?E2, ?E3).
  apply wp_bind, wp_ask. intros asn. apply wp_ret. unfold ls_ready. rewrite E1, E2, E3.
  cbn. split_and!; [|done..|by destruct cf; [left|right]].
  eapply env_step_trans; [exact H1|apply env_asked].
Qed.

(** Whatever the frameworks answer, a sequence of calls returns, changes
    nothing else, and treats all names alike: either every one of them is set
    under the same key, or none is.  A look-up that fails is not tried again. *)
Theorem names_all_or_none names st w :
  exists items st' w', set_names names st w = Ret (items, st') w' /\ env_step w w' /\
    (did_symbol_lookup st = true -> st' = st) /\ Forall2 (named (ls_ready st')) names items.
Proof.
  revert st w. induction names as [|name names IH]; intros st w; cbn [set_names].
  { do 3 eexists. split; [reflexivity|]. split; [apply env_step_refl|]. by split; [|constructor]. }
  destruct (wp_run _ _ _ (wp_set_process_name name st w)) as ([item st1] & w1 & E1 & H1 & H2 & H3 & H4).
  destruct (IH st1 w1) as (items & st2 & w2 & E2 & H5 & H6 & H7). rewrite (H6 H2) in *.
  exists (item :: items), st1, w2. split_and!; [|by eapply env_step_trans|done|by constructor].
  erewrite bind_eq by exact E1. cbv beta iota. by erewrite bind_eq by exact E2.
Qed.
